(** * The x07 foreign value ABI and native shims: embedding and properties

    Part I embeds the C sources: the pinned value-layout headers
    ([x07_abi_v1.h], [x07_abi_v2.h]), the trap-code enumerations of the math
    and time backends, the little-endian helpers and the base64url encoder of
    the OpenSSL shim, and the buffer-slot tables of the zlib and OpenSSL
    shims.  Part II states and proves the properties. *)

From Stdlib Require Import ZArith Lia List String Ascii Bool.
From stdpp Require Import base option list gmap.

Import ListNotations.

(** ** C object layout

    Structs are laid out the way every System V / Windows C ABI does it:
    members in declaration order, each at the next offset that is a multiple
    of its alignment; the struct's alignment is the largest alignment of a
    member and its size is rounded up to it.  A union puts every member at
    offset 0.  What the environment decides is the size and alignment of a
    data pointer and the alignment of the fixed-width integers. *)
Module Abi.

Local Open Scope string_scope.
Local Open Scope list_scope.
Local Open Scope Z_scope.

Record env := {
  ptr_size : Z;      (* sizeof(void* ) *)
  ptr_align : Z;     (* alignof(void* ) *)
  u32_align : Z;     (* alignof(uint32_t) *)
  u64_align : Z      (* alignof(uint64_t) *)
}.

#[warnings="-register-all"] Inductive ctype :=
| TU8
| TU32
| TU64
| TPtr
| TStruct (tag : string) (members : list (string * ctype))
| TUnion (members : list (string * ctype)).

Definition align_up (n a : Z) : Z := ((n + a - 1) / a) * a.

Fixpoint alignof (e : env) (t : ctype) : Z :=
  match t with
  | TU8 => 1
  | TU32 => u32_align e
  | TU64 => u64_align e
  | TPtr => ptr_align e
  | TStruct _ ms | TUnion ms =>
      (fix go (ms : list (string * ctype)) : Z :=
         match ms with
         | [] => 1
         | (_, t') :: ms' => Z.max (alignof e t') (go ms')
         end) ms
  end.

Fixpoint sizeof (e : env) (t : ctype) : Z :=
  match t with
  | TU8 => 1
  | TU32 => 4
  | TU64 => 8
  | TPtr => ptr_size e
  | TStruct _ ms =>
      align_up
        ((fix go (off : Z) (ms : list (string * ctype)) : Z :=
            match ms with
            | [] => off
            | (_, t') :: ms' =>
                go (align_up off (alignof e t') + sizeof e t') ms'
            end) 0 ms)
        (alignof e t)
  | TUnion ms =>
      align_up
        ((fix go (ms : list (string * ctype)) : Z :=
            match ms with
            | [] => 0
            | (_, t') :: ms' => Z.max (sizeof e t') (go ms')
            end) ms)
        (alignof e t)
  end.

(** One line of a layout: the member's path, its offset from the start of the
    outermost object, its size and its alignment. *)
Record slot := { path : string; offset : Z; size : Z; align : Z }.

(** Every member of [t], nested ones included, with absolute offsets. *)
Fixpoint slots (e : env) (base : Z) (pre : string) (t : ctype) : list slot :=
  match t with
  | TU8 | TU32 | TU64 | TPtr => []
  | TStruct _ ms =>
      (fix go (off : Z) (ms : list (string * ctype)) : list slot :=
         match ms with
         | [] => []
         | (f, t') :: ms' =>
             let o := align_up off (alignof e t') in
             {| path := (pre ++ f)%string; offset := base + o;
                size := sizeof e t'; align := alignof e t' |}
             :: slots e (base + o) (pre ++ f ++ ".")%string t'
             ++ go (o + sizeof e t') ms'
         end) 0 ms
  | TUnion ms =>
      (fix go (ms : list (string * ctype)) : list slot :=
         match ms with
         | [] => []
         | (f, t') :: ms' =>
             {| path := (pre ++ f)%string; offset := base;
                size := sizeof e t'; align := alignof e t' |}
             :: slots e base (pre ++ f ++ ".")%string t'
             ++ go ms'
         end) ms
  end.

Record layout := {
  lay_size : Z;
  lay_align : Z;
  lay_slots : list slot
}.

Definition layout_of (e : env) (t : ctype) : layout :=
  {| lay_size := sizeof e t; lay_align := alignof e t;
     lay_slots := slots e 0 "" t |}.

(** The [#ifdef X07_DEBUG_BORROW] members. *)
Definition ifdef (flag : bool) (ms : list (string * ctype))
  : list (string * ctype) := if flag then ms else [].

(** *** x07_abi_v1.h *)
Module V1.

Definition ev_bytes_v1_t : ctype :=
  TStruct "ev_bytes_v1_t" [("ptr", TPtr); ("len", TU32)].

Definition ev_bytes_view_v1_t (X07_DEBUG_BORROW : bool) : ctype :=
  TStruct "ev_bytes_view_v1_t"
    ([("ptr", TPtr); ("len", TU32)]
     ++ ifdef X07_DEBUG_BORROW
          [("aid", TU64); ("bid", TU64); ("off_bytes", TU32)]).

Definition ev_vec_u8_v1_t (X07_DEBUG_BORROW : bool) : ctype :=
  TStruct "ev_vec_u8_v1_t"
    ([("data", TPtr); ("len", TU32); ("cap", TU32)]
     ++ ifdef X07_DEBUG_BORROW [("dbg_aid", TU64)]).

Definition ev_box_bytes_v1_t : ctype := ev_bytes_v1_t.

Definition ev_option_i32_v1_t : ctype :=
  TStruct "ev_option_i32_v1_t" [("tag", TU32); ("payload", TU32)].

Definition ev_option_bytes_v1_t : ctype :=
  TStruct "ev_option_bytes_v1_t" [("tag", TU32); ("payload", ev_bytes_v1_t)].

Definition ev_result_i32_v1_t : ctype :=
  TStruct "ev_result_i32_v1_t"
    [("tag", TU32); ("payload", TUnion [("ok", TU32); ("err", TU32)])].

Definition ev_result_bytes_v1_t : ctype :=
  TStruct "ev_result_bytes_v1_t"
    [("tag", TU32); ("payload", TUnion [("ok", ev_bytes_v1_t); ("err", TU32)])].

Definition ev_iface_v1_t : ctype :=
  TStruct "ev_iface_v1_t" [("data", TU32); ("vtable", TU32)].

Definition ev_allocator_v1_t : ctype :=
  TStruct "ev_allocator_v1_t"
    [("ctx", TPtr); ("alloc", TPtr); ("realloc", TPtr); ("free", TPtr)].

End V1.

(** *** x07_abi_v2.h *)
Module V2.

Definition ev_bytes_v2_t : ctype :=
  TStruct "ev_bytes_v2_t" [("ptr", TPtr); ("len", TU32)].

Definition ev_bytes_view_v2_t (X07_DEBUG_BORROW : bool) : ctype :=
  TStruct "ev_bytes_view_v2_t"
    ([("ptr", TPtr); ("len", TU32)]
     ++ ifdef X07_DEBUG_BORROW
          [("aid", TU64); ("bid", TU64); ("off_bytes", TU32)]).

Definition ev_vec_u8_v2_t (X07_DEBUG_BORROW : bool) : ctype :=
  TStruct "ev_vec_u8_v2_t"
    ([("data", TPtr); ("len", TU32); ("cap", TU32)]
     ++ ifdef X07_DEBUG_BORROW [("dbg_aid", TU64)]).

Definition ev_option_i32_v2_t : ctype :=
  TStruct "ev_option_i32_v2_t" [("tag", TU32); ("payload", TU32)].

Definition ev_option_bytes_v2_t : ctype :=
  TStruct "ev_option_bytes_v2_t" [("tag", TU32); ("payload", ev_bytes_v2_t)].

Definition ev_result_i32_v2_t : ctype :=
  TStruct "ev_result_i32_v2_t"
    [("tag", TU32); ("payload", TUnion [("ok", TU32); ("err", TU32)])].

Definition ev_result_bytes_v2_t : ctype :=
  TStruct "ev_result_bytes_v2_t"
    [("tag", TU32); ("payload", TUnion [("ok", ev_bytes_v2_t); ("err", TU32)])].

Definition ev_iface_v2_t : ctype :=
  TStruct "ev_iface_v2_t" [("data", TU32); ("vtable", TU32)].

(* The v2 header keeps the v1 name for the allocator table. *)
Definition ev_allocator_v1_t : ctype :=
  TStruct "ev_allocator_v1_t"
    [("ctx", TPtr); ("alloc", TPtr); ("realloc", TPtr); ("free", TPtr)].

End V2.

(** The containers of the [ev_bytes] family. *)
Inductive container :=
| Bytes | BytesView | VecU8 | OptionI32 | OptionBytes
| ResultI32 | ResultBytes | Iface.

Definition v1 (dbg : bool) (c : container) : ctype :=
  match c with
  | Bytes => V1.ev_bytes_v1_t
  | BytesView => V1.ev_bytes_view_v1_t dbg
  | VecU8 => V1.ev_vec_u8_v1_t dbg
  | OptionI32 => V1.ev_option_i32_v1_t
  | OptionBytes => V1.ev_option_bytes_v1_t
  | ResultI32 => V1.ev_result_i32_v1_t
  | ResultBytes => V1.ev_result_bytes_v1_t
  | Iface => V1.ev_iface_v1_t
  end.

Definition v2 (dbg : bool) (c : container) : ctype :=
  match c with
  | Bytes => V2.ev_bytes_v2_t
  | BytesView => V2.ev_bytes_view_v2_t dbg
  | VecU8 => V2.ev_vec_u8_v2_t dbg
  | OptionI32 => V2.ev_option_i32_v2_t
  | OptionBytes => V2.ev_option_bytes_v2_t
  | ResultI32 => V2.ev_result_i32_v2_t
  | ResultBytes => V2.ev_result_bytes_v2_t
  | Iface => V2.ev_iface_v2_t
  end.

(** Whether the container has a pointer member (directly or nested). *)
Definition carries_pointer (c : container) : bool :=
  match c with
  | Bytes | BytesView | VecU8 | OptionBytes | ResultBytes => true
  | OptionI32 | ResultI32 | Iface => false
  end.

(** The two data models the backends are built for (Linux and macOS, 64-bit),
    and the 32-bit one. *)
Definition lp64 : env :=
  {| ptr_size := 8; ptr_align := 8; u32_align := 4; u64_align := 8 |}.
Definition ilp32 : env :=
  {| ptr_size := 4; ptr_align := 4; u32_align := 4; u64_align := 4 |}.

(** The assertions of [tests/abi_layout.c], one conjunct per
    [EV_STATIC_ASSERT], over the v2 header. *)
Definition abi_layout_asserts (e : env) (dbg : bool) : bool :=
  let sz := sizeof e in
  let al := alignof e in
  (sz TPtr + sz TU32 <=? sz V2.ev_bytes_v2_t)
  && (al V2.ev_bytes_v2_t =? al TPtr)
  && (sz TPtr + sz TU32 <=? sz (V2.ev_bytes_view_v2_t dbg))
  && (al (V2.ev_bytes_view_v2_t dbg) =? al TPtr)
  && (sz TPtr + 2 * sz TU32 <=? sz (V2.ev_vec_u8_v2_t dbg))
  && (al (V2.ev_vec_u8_v2_t dbg) =? al TPtr)
  && (2 * sz TU32 <=? sz V2.ev_option_i32_v2_t)
  && (al V2.ev_option_i32_v2_t =? al TU32)
  && (sz TU32 + sz V2.ev_bytes_v2_t <=? sz V2.ev_option_bytes_v2_t)
  && (al V2.ev_option_bytes_v2_t =? al V2.ev_bytes_v2_t)
  && (2 * sz TU32 <=? sz V2.ev_result_i32_v2_t)
  && (al V2.ev_result_i32_v2_t =? al TU32)
  && (sz TU32 + sz V2.ev_bytes_v2_t <=? sz V2.ev_result_bytes_v2_t)
  && (al V2.ev_result_bytes_v2_t =? al V2.ev_bytes_v2_t)
  && (sz V2.ev_iface_v2_t =? 2 * sz TU32)
  && (al V2.ev_iface_v2_t =? al TU32)
  && (4 * sz TPtr <=? sz V2.ev_allocator_v1_t)
  && (al V2.ev_allocator_v1_t =? al TPtr).

End Abi.

(** ** Trap codes

    The enumerations of [x07_math_abi_v1.h] and [x07_time_abi_v1.h]. *)
Module Trap.

Local Open Scope Z_scope.

Definition EV_TRAP_MATH_BADLEN_F64 : Z := 9100.  (* input bytes len != 8 *)
Definition EV_TRAP_MATH_BADLEN_U32 : Z := 9101.  (* input bytes len != 4 *)
Definition EV_TRAP_MATH_INTERNAL : Z := 9102.

Definition EV_TRAP_TIME_INTERNAL : Z := 9200.

(** The backend families whose headers define trap codes. *)
Inductive family := MathFamily | TimeFamily.

Definition trap_codes (f : family) : list Z :=
  match f with
  | MathFamily => [EV_TRAP_MATH_BADLEN_F64; EV_TRAP_MATH_BADLEN_U32; EV_TRAP_MATH_INTERNAL]
  | TimeFamily => [EV_TRAP_TIME_INTERNAL]
  end.

(** The position of a family in the band pattern: the math range starts at
    9100 and the time range at 9200. *)
Definition family_index (f : family) : Z :=
  match f with
  | MathFamily => 0
  | TimeFamily => 1
  end.

(** Band [n] is [9100 + n*100 .. 9100 + n*100 + 99]. *)
Definition band_lo (n : Z) : Z := 9100 + n * 100.
Definition band_hi (n : Z) : Z := 9100 + n * 100 + 99.
Definition in_band (n c : Z) : Prop := band_lo n <= c <= band_hi n.

End Trap.

(** ** The math backend

    [x07_math_abi_v1.h] declares the backend; its implementation
    ([libx07_math.a]) is not part of these sources. *)
Module Math.

Local Open Scope Z_scope.

(** [ev_bytes] is a pointer and a length; the model keeps the [len] bytes the
    pointer designates, each in [0, 256). *)
Definition ev_bytes := list Z.

(** A call either returns or stops the program through [ev_trap(code)]. *)
Inductive outcome (A : Type) :=
| Ret (a : A)
| Trap (code : Z).
Arguments Ret {A} a.
Arguments Trap {A} code.

#[export] Instance outcome_ret : MRet outcome := fun A a => Ret a.
#[export] Instance outcome_bind : MBind outcome :=
  fun A B f m => match m with Ret a => f a | Trap c => Trap c end.

(** [ev_result_i32] / [ev_result_bytes]: tag 1 = Ok, tag 0 = Err. *)
Inductive ev_result (A : Type) :=
| ResOk (ok : A)
| ResErr (err : Z).
Arguments ResOk {A} ok.
Arguments ResErr {A} err.

(** Modelled from the spec: the fixed little-endian encodings of the header's
    "Encoding conventions" (the backend's own codec is missing from the
    sources): byte [k] of the encoding of [x] is bits [8k .. 8k+7] of [x]. *)
Fixpoint le_encode (n : nat) (x : Z) : list Z :=
  match n with
  | O => []
  | S n' => Z.land x 255 :: le_encode n' (Z.shiftr x 8)
  end.

(** Each cell is read as a [uint8_t]: only its low 8 bits count. *)
Fixpoint le_decode (b : list Z) : Z :=
  match b with
  | [] => 0
  | x :: b' => Z.lor (Z.land x 255) (Z.shiftl (le_decode b') 8)
  end.

Definition is_byte (x : Z) : Prop := 0 <= x < 256.

(** An f64 is represented by its IEEE-754 binary64 bit pattern, a number in
    [0, 2^64); a u32 by its value in [0, 2^32). *)
Definition encode_f64 (bits : Z) : ev_bytes := le_encode 8 bits.
Definition encode_u32 (v : Z) : ev_bytes := le_encode 4 v.

(** Modelled from the spec: the fixed-width decoders (missing from the
    sources).  A buffer of the wrong length is a contract violation signalled
    with the family's bad-length trap code, as the header says of "all
    functions below". *)
Definition decode_f64 (b : ev_bytes) : outcome Z :=
  if Z.of_nat (length b) =? 8 then Ret (le_decode b)
  else Trap Trap.EV_TRAP_MATH_BADLEN_F64.

Definition decode_u32 (b : ev_bytes) : outcome Z :=
  if Z.of_nat (length b) =? 4 then Ret (le_decode b)
  else Trap Trap.EV_TRAP_MATH_BADLEN_U32.

(** The entry points of the header that take f64 byte payloads, by shape. *)
Inductive binop := Add | Sub | Mul | Div | Pow | Atan2 | Min | Max | Cmp.
Inductive unop :=
  Neg | Abs | Tan | Sqrt | Floor | Ceil | Sin | Cos | Exp | Ln | FmtShortest.

Section Backend.

(** What the operations compute on bit patterns is IEEE-754 arithmetic, kept
    abstract here. *)
Variable sem2 : binop -> Z -> Z -> ev_bytes.
Variable sem1 : unop -> Z -> ev_bytes.
Variable sem_to_i32_trunc : Z -> ev_result Z.

(** Modelled from the spec: [ev_math_f64_{add,sub,mul,div,pow,atan2,min,max,cmp}_v1]
    (missing from the sources): decode both inputs, then compute. *)
Definition ev_math_f64_binop_v1 (o : binop) (a b : ev_bytes) : outcome ev_bytes :=
  x ← decode_f64 a; y ← decode_f64 b; mret (sem2 o x y).

(** Modelled from the spec: [ev_math_f64_{neg,abs,tan,sqrt,floor,ceil,sin,cos,exp,ln,fmt_shortest}_v1]
    (missing from the sources). *)
Definition ev_math_f64_unop_v1 (o : unop) (x : ev_bytes) : outcome ev_bytes :=
  v ← decode_f64 x; mret (sem1 o v).

(** Modelled from the spec: [ev_math_f64_to_i32_trunc_v1] (missing from the
    sources); NaN, infinities and out-of-range values are [Err] results. *)
Definition ev_math_f64_to_i32_trunc_v1 (x : ev_bytes) : outcome (ev_result Z) :=
  v ← decode_f64 x; mret (sem_to_i32_trunc v).

(** Modelled from the spec: [ev_math_f64_to_bits_u64le_v1] (missing from the
    sources), "the raw IEEE-754 binary64 bits as u64le bytes". *)
Definition ev_math_f64_to_bits_u64le_v1 (x : ev_bytes) : outcome ev_bytes :=
  v ← decode_f64 x; mret (encode_f64 v).

End Backend.

End Math.

(** ** The transducer plugin emit channel

    [x07_stream_xf_plugin_abi_v1.h] fixes the records and the types of the two
    callbacks; the host that implements them is not part of these sources. *)
Module Xf.

Local Open Scope N_scope.

Record x07_out_buf_v1 := {
  ptr : N;
  cap : N;
  len : N   (* plugin sets len <= cap before commit *)
}.

Record x07_xf_budget_v1 := {
  max_out_bytes_per_step : N;
  max_out_items_per_step : N;
  max_out_buf_bytes : N;
  max_state_bytes : N;
  max_cfg_bytes : N;
  max_scratch_bytes : N
}.

(** Modelled from the spec: the host side of [x07_xf_emit_v1] (missing from
    the sources).  The host knows the instance's budget, counts the bytes it
    has granted during the current step, and appends accepted commits to the
    output stream. *)
Record host := {
  budget : x07_xf_budget_v1;
  step_granted : N;
  stream : list x07_out_buf_v1
}.

Definition init_host (b : x07_xf_budget_v1) : host :=
  {| budget := b; step_granted := 0; stream := [] |}.

(** The remaining per-step byte budget. *)
Definition remaining (h : host) : N :=
  max_out_bytes_per_step (budget h) - step_granted h.

Section Host.

(** The host may refuse for reasons of its own, and places granted buffers
    where it likes. *)
Variable host_declines : host -> N -> bool.
Variable host_buffer : host -> N -> N.

(** Modelled from the spec: [emit_alloc] (missing from the sources).  Returns
    the status (non-zero = refusal) and, when granted, the descriptor written
    to [*out]. *)
Definition emit_alloc (h : host) (want : N)
  : Z * option x07_out_buf_v1 * host :=
  if (remaining h <? want) || host_declines h want then
    (1%Z, None, h)
  else
    (0%Z,
     Some {| ptr := host_buffer h want; cap := want; len := 0 |},
     {| budget := budget h; step_granted := step_granted h + want;
        stream := stream h |}).

(** Modelled from the spec: [emit_commit] (missing from the sources): the host
    validates [used <= cap] before accepting the buffer into the stream. *)
Definition emit_commit (h : host) (out : x07_out_buf_v1) : Z * host :=
  if len out <=? cap out then
    (0%Z,
     {| budget := budget h; step_granted := step_granted h;
        stream := stream h ++ [out] |})
  else
    (1%Z, h).

(** Modelled from the spec: the host starts every lifecycle call ([init],
    [step], [flush]) with the full per-step budget. *)
Definition begin_step (h : host) : host :=
  {| budget := budget h; step_granted := 0; stream := stream h |}.

(** What a plugin can make the host do. *)
Inductive call :=
| BeginStep
| Alloc (want : N)
| Commit (out : x07_out_buf_v1).

Definition do_call (h : host) (c : call) : host :=
  match c with
  | BeginStep => begin_step h
  | Alloc want => snd (emit_alloc h want)
  | Commit out => snd (emit_commit h out)
  end.

Definition run (h : host) (cs : list call) : host := fold_left do_call cs h.

End Host.

Definition used_le_cap (out : x07_out_buf_v1) : Prop := len out <= cap out.

(** The budget of the spec's end-to-end scenario. *)
Definition budget16 : x07_xf_budget_v1 :=
  {| max_out_bytes_per_step := 16; max_out_items_per_step := 4;
     max_out_buf_bytes := 64; max_state_bytes := 64; max_cfg_bytes := 64;
     max_scratch_bytes := 64 |}.

End Xf.

(** ** The filesystem backend's stream handles

    [x07_ext_fs_abi_v1.h] declares the streaming write API; the backend
    ([libx07_ext_fs.a]) is not part of these sources. *)
Module Fs.

Local Open Scope Z_scope.

Inductive outcome (A : Type) :=
| Ret (a : A) (t : gmap Z (list Z))
| Trap (code : Z).
Arguments Ret {A} a t.
Arguments Trap {A} code.

Section Backend.

(** The header fixes the return types but not the values. *)
Variable rc_dropped rc_nothing rc_closed err_bad_handle : Z.

(** The table of open write streams, [gmap Z (list Z)], is modelled from the
    spec as well: a handle names the bytes written so far to an open stream. *)

(** Modelled from the spec: [x07_ext_fs_stream_close_v1] (missing from the
    sources): closing retires the handle. *)
Definition x07_ext_fs_stream_close_v1 (writer_handle : Z) (t : gmap Z (list Z))
  : outcome (Math.ev_result Z) :=
  match t !! writer_handle with
  | Some _ => Ret (Math.ResOk rc_closed) (delete writer_handle t)
  | None => Ret (Math.ResErr err_bad_handle) t
  end.

(** Modelled from the spec: [x07_ext_fs_stream_drop_v1] (missing from the
    sources): "a drop on an already-closed or invalid handle must be a safe
    no-op, never a trap". *)
Definition x07_ext_fs_stream_drop_v1 (writer_handle : Z) (t : gmap Z (list Z))
  : outcome Z :=
  match t !! writer_handle with
  | Some _ => Ret rc_dropped (delete writer_handle t)
  | None => Ret rc_nothing t
  end.

End Backend.

End Fs.

(** ** The C runtime the shims run on

    The process heap (live [malloc] blocks by address), the two static arrays
    of a shim's translation unit, and a clock that numbers the calls to the
    outside (the allocator, the random generator).  Undefined behaviour is a
    [Fault]. *)
Module C.

Local Open Scope Z_scope.

Definition NULL : N := 0%N.

Record world := {
  heap : gmap N (list Z);
  g_bufs : list N;      (* static uint8_t* g_bufs[MAX_BUFS] *)
  g_lens : list Z;      (* static uint32_t g_lens[MAX_BUFS] *)
  clock : nat
}.

(** What the outside answers to the [k]-th call: the address [malloc] picks
    (0 when it fails) and the bytes that happen to be in the block, and the
    status and bytes of [RAND_bytes]. *)
Record oracle := {
  o_malloc : nat -> N;
  o_junk : nat -> list Z;
  o_rand : nat -> Z * list Z
}.

Inductive fault := OutOfBounds | InvalidFree | OutOfFuel.

Inductive outcome (A : Type) :=
| Ok (a : A) (w : world)
| Fault (f : fault).
Arguments Ok {A} a w.
Arguments Fault {A} f.

Definition M (A : Type) : Type := world -> outcome A.

#[export] Instance M_ret : MRet M := fun A a w => Ok a w.
#[export] Instance M_bind : MBind M :=
  fun A B f m w => match m w with Ok a w' => f a w' | Fault e => Fault e end.

Definition fail {A : Type} (f : fault) : M A := fun _ => Fault f.

Definition with_heap (h : gmap N (list Z)) (w : world) : world :=
  {| heap := h; g_bufs := g_bufs w; g_lens := g_lens w; clock := clock w |}.
Definition with_bufs (b : list N) (w : world) : world :=
  {| heap := heap w; g_bufs := b; g_lens := g_lens w; clock := clock w |}.
Definition with_lens (l : list Z) (w : world) : world :=
  {| heap := heap w; g_bufs := g_bufs w; g_lens := l; clock := clock w |}.
Definition tick (w : world) : world :=
  {| heap := heap w; g_bufs := g_bufs w; g_lens := g_lens w; clock := S (clock w) |}.

(** The statics are zero-initialised; the heap holds whatever the rest of the
    process has allocated. *)
Definition init_world (n : nat) (h : gmap N (list Z)) : world :=
  {| heap := h; g_bufs := replicate n NULL; g_lens := replicate n 0; clock := 0 |}.

(** Integer conversions. *)
Definition u8 (x : Z) : Z := x mod 256.
Definition u32 (x : Z) : Z := x mod 4294967296.
Definition ulong (x : Z) : Z := x mod 18446744073709551616.
Definition int_of_u32 (x : Z) : Z := if x <? 2147483648 then x else x - 4294967296.
Definition UINT32_MAX : Z := 4294967295.

(** The contents of a block that [malloc] has just returned are
    indeterminate: [size] bytes, whatever the [k]-th answer says was there. *)
Definition garbage (E : oracle) (k : nat) (size : Z) : list Z :=
  map (fun i => u8 (nth i (o_junk E k) 0)) (seq 0 (Z.to_nat size)).

(** [malloc(size)]: a fresh block at the address the allocator picks, or NULL.
    An allocator never hands out NULL or a live block as a new one. *)
Definition malloc (E : oracle) (size : Z) : M N := fun w =>
  let p := o_malloc E (clock w) in
  if negb (p =? NULL)%N && bool_decide (heap w !! p = None) then
    Ok p (with_heap (<[p := garbage E (clock w) size]> (heap w)) (tick w))
  else
    Ok NULL (tick w).

(** [free(p)]: legal on NULL and on live blocks only. *)
Definition free (p : N) : M unit := fun w =>
  if (p =? NULL)%N then Ok tt w
  else match heap w !! p with
       | Some _ => Ok tt (with_heap (delete p (heap w)) w)
       | None => Fault InvalidFree
       end.

(** [p[i] = v]. *)
Definition store (p : N) (i : Z) (v : Z) : M unit := fun w =>
  match heap w !! p with
  | Some b =>
      if (0 <=? i) && (i <? Z.of_nat (length b)) then
        Ok tt (with_heap (<[p := <[Z.to_nat i := v]> b]> (heap w)) w)
      else Fault OutOfBounds
  | None => Fault OutOfBounds
  end.

(** A library call that writes the bytes [bs] at [p + off]; writing nothing
    touches no memory. *)
Definition memwrite (p : N) (off : Z) (bs : list Z) : M unit := fun w =>
  match bs with
  | [] => Ok tt w
  | _ =>
      match heap w !! p with
      | Some b =>
          if (0 <=? off) && (off + Z.of_nat (length bs) <=? Z.of_nat (length b)) then
            Ok tt (with_heap
                     (<[p := take (Z.to_nat off) b ++ bs
                             ++ drop (Z.to_nat off + length bs) b]> (heap w)) w)
          else Fault OutOfBounds
      | None => Fault OutOfBounds
      end
  end.

(** [data[i]] for an array passed by pointer ([None] is the NULL pointer). *)
Definition rd (data : option (list Z)) (i : Z) : M Z := fun w =>
  match data with
  | Some l =>
      if 0 <=? i then
        match l !! Z.to_nat i with
        | Some v => Ok v w
        | None => Fault OutOfBounds
        end
      else Fault OutOfBounds
  | None => Fault OutOfBounds
  end.

(** The [len] bytes a callee reads at [data]. *)
Definition bytes_at (data : option (list Z)) (len : Z) : M (list Z) := fun w =>
  match data with
  | Some l =>
      if len <=? Z.of_nat (length l) then Ok (take (Z.to_nat len) l) w
      else Fault OutOfBounds
  | None => Fault OutOfBounds
  end.

(** The caller's side of a (pointer, length) argument: a non-NULL pointer
    designates at least [len] bytes. *)
Definition readable (data : option (list Z)) (len : Z) : Prop :=
  0 <= len /\ forall l, data = Some l -> len <= Z.of_nat (length l).

(** The statics. *)
Definition get_buf (i : Z) : M N := fun w =>
  if 0 <=? i then
    match g_bufs w !! Z.to_nat i with
    | Some p => Ok p w
    | None => Fault OutOfBounds
    end
  else Fault OutOfBounds.

Definition get_len (i : Z) : M Z := fun w =>
  if 0 <=? i then
    match g_lens w !! Z.to_nat i with
    | Some n => Ok n w
    | None => Fault OutOfBounds
    end
  else Fault OutOfBounds.

Definition set_buf (i : Z) (p : N) : M unit := fun w =>
  if (0 <=? i) && (i <? Z.of_nat (length (g_bufs w))) then
    Ok tt (with_bufs (<[Z.to_nat i := p]> (g_bufs w)) w)
  else Fault OutOfBounds.

Definition set_len (i : Z) (n : Z) : M unit := fun w =>
  if (0 <=? i) && (i <? Z.of_nat (length (g_lens w))) then
    Ok tt (with_lens (<[Z.to_nat i := n]> (g_lens w)) w)
  else Fault OutOfBounds.

(** [if (out) *out = v] for an out-parameter: [None] is a NULL pointer,
    [Some x] a pointer to a cell that holds [x]. *)
Definition assign (out : option Z) (v : Z) : option Z :=
  match out with
  | Some _ => Some v
  | None => None
  end.

(** [RAND_bytes(p + off, num)]: the generator's status, 1 for success, and
    [num] bytes at [p + off]: fresh random bytes on success; on failure the
    buffer holds whatever the generator had put there by then. *)
Definition rand_fill (bs : list Z) (num : Z) : list Z :=
  map (fun k => u8 (nth k bs 0)) (seq 0 (Z.to_nat num)).

Definition RAND_bytes (E : oracle) (p : N) (off : Z) (num : Z) : M Z := fun w =>
  let '(rc, bs) := o_rand E (clock w) in
  (memwrite p off (rand_fill bs num);; mret rc) (tick w).

(** *** Vocabulary for the properties *)

(** What a call returned, if it returned. *)
Definition result {A : Type} (o : outcome A) : option A :=
  match o with
  | Ok a _ => Some a
  | Fault _ => None
  end.

(** Three environments: one where [malloc] hands out addresses 1, 2, 3, ...,
    fresh blocks happen to be zero and the generator succeeds; one where
    [malloc] is out of memory; and one where fresh blocks are full of [0xAA]
    and the generator fails after it has written to the buffer. *)
Definition oracle_ok : oracle :=
  {| o_malloc := fun k => N.of_nat (S k);
     o_junk := fun _ => [];
     o_rand := fun _ => (1, [7; 8; 9]) |}.
Definition oracle_nomem : oracle :=
  {| o_malloc := fun _ => NULL;
     o_junk := fun _ => [];
     o_rand := fun _ => (1, [7; 8; 9]) |}.
Definition oracle_dirty : oracle :=
  {| o_malloc := fun k => N.of_nat (S k);
     o_junk := fun _ => replicate 64 170;
     o_rand := fun _ => (0, [7; 8; 9]) |}.

(** The world with block [p] holding [b]. *)
Definition set_block (p : N) (b : list Z) (w : world) : world :=
  with_heap (<[p := b]> (heap w)) w.

(** A table of [n] slots is in order when both arrays have their declared
    size, an empty slot has length 0, and the buffers in the slots are live
    blocks, each in one slot only. *)
Record table_ok (n : nat) (w : world) : Prop := {
  ok_bufs : length (g_bufs w) = n;
  ok_lens : length (g_lens w) = n;
  ok_empty : forall i, g_bufs w !! i = Some NULL -> g_lens w !! i = Some 0;
  ok_live : forall i p, g_bufs w !! i = Some p -> p <> NULL -> is_Some (heap w !! p);
  ok_inj : forall i j p,
      g_bufs w !! i = Some p -> g_bufs w !! j = Some p -> p <> NULL -> i = j
}.

(** The running function holds block [o] of [n] bytes (or nothing, when [o]
    is NULL), and no slot does. *)
Definition owns (o : N) (n : nat) (w : world) : Prop :=
  o <> NULL ->
  (exists b, heap w !! o = Some b /\ length b = n)
  /\ forall i, g_bufs w !! i <> Some o.

(** The state assertion of the shims: the table is in order and the running
    function holds block [o] of [sz] bytes. *)
Definition st (n : nat) (o : N) (sz : nat) (w : world) : Prop :=
  table_ok n w /\ owns o sz w.

(** What a slot scan may answer: 0 when slots [1 .. n-1] are all taken,
    otherwise the first empty slot among them. *)
Definition slot_answer (n : nat) (h : Z) (w : world) : Prop :=
  (h = 0%Z /\ forall i, (1 <= i < n)%nat -> g_bufs w !! i <> Some NULL)
  \/ ((1 <= h < Z.of_nat n)%Z
      /\ g_bufs w !! Z.to_nat h = Some NULL
      /\ forall i, (1 <= i < Z.to_nat h)%nat -> g_bufs w !! i <> Some NULL).

(** A library holds block [s] while the running function holds [o]: [s] is
    a live block of its own, in no slot. *)
Definition aside (s o : N) (w : world) : Prop :=
  s <> NULL /\ s <> o /\ is_Some (heap w !! s)
  /\ forall i, g_bufs w !! i <> Some s.

(** Total correctness of a call: from a state in [P] it returns, without a
    fault, a value and a state in [Q]. *)
Definition hoare {A : Type} (P : world -> Prop) (m : M A)
    (Q : A -> world -> Prop) : Prop :=
  forall w, P w -> exists a w', m w = Ok a w' /\ Q a w'.

(** The same for a call that is given memory to read: it returns in [Q], or
    it faults, and that only when [F] holds (the caller passed a length that
    the array does not have). *)
Definition hoare_unless (F : Prop) {A : Type} (P : world -> Prop) (m : M A)
    (Q : A -> world -> Prop) : Prop :=
  forall w, P w ->
    (exists a w', m w = Ok a w' /\ Q a w') \/ (F /\ exists f, m w = Fault f).

End C.

(** ** The OpenSSL shim, [x07-ext-openssl-c/0.1.9/ffi/openssl_shim.c] *)
Module Openssl.

Import C.
Local Open Scope Z_scope.

Definition X07_EXT_OPENSSL_MAX_BUFS : Z := 4096.

(** [for (uint32_t i = 1; i < MAX_BUFS; i++) if (!g_bufs[i]) return i;
    return 0;] *)
Fixpoint alloc_buf_slot_loop (fuel : nat) (i : Z) : M Z :=
  match fuel with
  | O => fail OutOfFuel
  | S fuel' =>
      if i <? X07_EXT_OPENSSL_MAX_BUFS then
        p ← get_buf i;
        if (p =? NULL)%N then mret i
        else alloc_buf_slot_loop fuel' (u32 (i + 1))
      else mret 0
  end.

Definition x07_ext_openssl_alloc_buf_slot : M Z :=
  alloc_buf_slot_loop (Z.to_nat X07_EXT_OPENSSL_MAX_BUFS) 1.

Definition x07_ext_openssl_buf_len (handle : Z) : M Z :=
  if (handle =? 0) || (X07_EXT_OPENSSL_MAX_BUFS <=? handle) then mret 0
  else get_len handle.

Definition x07_ext_openssl_buf_ptr (handle : Z) : M N :=
  if (handle =? 0) || (X07_EXT_OPENSSL_MAX_BUFS <=? handle) then mret NULL
  else get_buf handle.

Definition x07_ext_openssl_buf_free (handle : Z) : M unit :=
  if (handle =? 0) || (X07_EXT_OPENSSL_MAX_BUFS <=? handle) then mret tt
  else
    p ← get_buf handle;
    (if (p =? NULL)%N then mret tt else free p);;
    set_buf handle NULL;;
    set_len handle 0.

(** [dst] is [base + off]. *)
Definition x07_ext_write_u32_le (base : N) (off : Z) (v : Z) : M unit :=
  store base (off + 0) (u8 (Z.land v 255));;
  store base (off + 1) (u8 (Z.land (Z.shiftr v 8) 255));;
  store base (off + 2) (u8 (Z.land (Z.shiftr v 16) 255));;
  store base (off + 3) (u8 (Z.land (Z.shiftr v 24) 255)).

Definition x07_ext_make_err_doc (E : oracle) (code : Z) (out_len : option Z)
  : M (N * option Z) :=
  buf ← malloc E 9;
  if (buf =? NULL)%N then mret (NULL, out_len)
  else
    store buf 0 0;;
    x07_ext_write_u32_le buf 1 code;;
    x07_ext_write_u32_le buf 5 0;;
    mret (buf, assign out_len 9).

Definition tbl : string :=
  "ABCDEFGHIJKLMNOPQRSTUVWXYZabcdefghijklmnopqrstuvwxyz0123456789-_".

(** The [char] at [tbl[v & 0x3f]], as its code. *)
Definition x07_ext_b64url_char (v : Z) : Z :=
  match String.get (Z.to_nat (Z.land v 63)) tbl with
  | Some c => Z.of_nat (nat_of_ascii c)
  | None => 0   (* the terminating NUL; never reached, the index is below 64 *)
  end.

(** [while (i + 3u <= len) { ... i += 3u; }]; returns the final [i] and [j].
    [size_t] arithmetic is written without wrap-around: [len] bytes exist at
    [data], so the sums below stay far under [SIZE_MAX]. *)
Fixpoint b64url_nopad_loop (fuel : nat) (data : option (list Z)) (len : Z)
    (out : N) (i j : Z) : M (Z * Z) :=
  match fuel with
  | O => fail OutOfFuel
  | S fuel' =>
      if i + 3 <=? len then
        d0 ← rd data i;
        d1 ← rd data (i + 1);
        d2 ← rd data (i + 2);
        let v := Z.lor (Z.lor (u32 (Z.shiftl d0 16)) (u32 (Z.shiftl d1 8))) d2 in
        store out j (x07_ext_b64url_char (u8 (Z.land (Z.shiftr v 18) 63)));;
        store out (j + 1) (x07_ext_b64url_char (u8 (Z.land (Z.shiftr v 12) 63)));;
        store out (j + 2) (x07_ext_b64url_char (u8 (Z.land (Z.shiftr v 6) 63)));;
        store out (j + 3) (x07_ext_b64url_char (u8 (Z.land v 63)));;
        b64url_nopad_loop fuel' data len out (i + 3) (j + 4)
      else mret (i, j)
  end.

Definition x07_ext_b64url_nopad (E : oracle) (data : option (list Z)) (len : Z)
    (out_len : option Z) : M (N * option Z) :=
  if bool_decide (data = None) && negb (len =? 0) then mret (NULL, out_len)
  else
    let cap := ((len + 2) / 3) * 4 in
    out ← malloc E (cap + 1);
    if (out =? NULL)%N then mret (NULL, out_len)
    else
      '(i, j) ← b64url_nopad_loop (S (Z.to_nat len)) data len out 0 0;
      let rem := len - i in
      j ← (if rem =? 1 then
             d0 ← rd data i;
             let v := u32 (Z.shiftl d0 16) in
             store out j (x07_ext_b64url_char (u8 (Z.land (Z.shiftr v 18) 63)));;
             store out (j + 1) (x07_ext_b64url_char (u8 (Z.land (Z.shiftr v 12) 63)));;
             mret (j + 2)
           else if rem =? 2 then
             d0 ← rd data i;
             d1 ← rd data (i + 1);
             let v := Z.lor (u32 (Z.shiftl d0 16)) (u32 (Z.shiftl d1 8)) in
             store out j (x07_ext_b64url_char (u8 (Z.land (Z.shiftr v 18) 63)));;
             store out (j + 1) (x07_ext_b64url_char (u8 (Z.land (Z.shiftr v 12) 63)));;
             store out (j + 2) (x07_ext_b64url_char (u8 (Z.land (Z.shiftr v 6) 63)));;
             mret (j + 3)
           else mret j);
      store out j 0;;
      mret (out, assign out_len j).

Definition x07_ext_openssl_rand_bytes_alloc (E : oracle) (len : Z)
    (out_handle : option Z) : M (Z * option Z) :=
  let out_handle := assign out_handle 0 in
  let doc_len := 0 in
  if 1024 * 1024 <? len then
    '(doc, doc_len') ← x07_ext_make_err_doc E 3 (Some doc_len);
    let doc_len := default doc_len doc_len' in
    if (doc =? NULL)%N then mret (-1, out_handle)
    else
      slot ← x07_ext_openssl_alloc_buf_slot;
      if slot =? 0 then free doc;; mret (-1, out_handle)
      else
        set_buf slot doc;;
        set_len slot doc_len;;
        mret (0, assign out_handle slot)
  else
    let need := u32 (1 + len) in
    doc ← malloc E need;
    if (doc =? NULL)%N then mret (-1, out_handle)
    else
      store doc 0 1;;
      (* the rest of the function, once [doc] and [need] are settled *)
      let finish (doc : N) (need : Z) : M (Z * option Z) :=
        slot ← x07_ext_openssl_alloc_buf_slot;
        if slot =? 0 then free doc;; mret (-1, out_handle)
        else
          set_buf slot doc;;
          set_len slot need;;
          mret (0, assign out_handle slot) in
      if negb (len =? 0) then
        rc ← RAND_bytes E doc 1 (int_of_u32 len);
        if negb (rc =? 1) then
          free doc;;
          '(doc, doc_len') ← x07_ext_make_err_doc E 1 (Some doc_len);
          let doc_len := default doc_len doc_len' in
          if (doc =? NULL)%N then mret (-1, out_handle)
          else finish doc doc_len
        else finish doc need
      else finish doc need.

(** [RAND_bytes] writes at [out], the start of the caller's block. *)
Definition x07_ext_openssl_rand_bytes (E : oracle) (out : N) (len : Z) : M Z :=
  if len =? 0 then mret 1
  else if (out =? NULL)%N then mret 0
  else if 2147483647 <? len then mret 0
  else
    rc ← RAND_bytes E out 0 (int_of_u32 len);
    mret (if rc =? 1 then 1 else 0).

(** The *_alloc entry points that return the handle itself
    ([x07_ext_openssl_ed25519_sign_alloc] with [n = 64],
    [x07_ext_openssl_rsa_pkcs1_sha256_sign_alloc] with [n = n_len]) share one
    shape: [malloc(n)], an OpenSSL computation that fills the block or fails
    ([filled = None]), then the slot.  [x07_ext_openssl_ed25519_pk_from_seed_alloc]
    ([n = 32]) and [x07_ext_openssl_rsa_rs256_private_jwk_generate_alloc]
    ([n = total]) compute first and always fill. *)
Definition alloc_filled (E : oracle) (n : Z) (filled : option (list Z)) : M Z :=
  buf ← malloc E n;
  if (buf =? NULL)%N then mret 0
  else
    match filled with
    | None => free buf;; mret 0
    | Some bs =>
        memwrite buf 0 (take (Z.to_nat n) bs);;
        slot ← x07_ext_openssl_alloc_buf_slot;
        if slot =? 0 then free buf;; mret 0
        else
          set_buf slot buf;;
          set_len slot n;;
          mret slot
    end.

(** *** Keys: big numbers and Ed25519 *)

(** What OpenSSL knows of a [BIGNUM]: its bit length and its magnitude in
    big-endian bytes. *)
Record BIGNUM := {
  BN_num_bits : Z;
  BN_bytes : list Z
}.

(** [BN_bn2bin(a, to)] writes the magnitude at [to] and returns its length. *)
Definition BN_bn2bin (a : BIGNUM) (to : N) : M Z :=
  memwrite to 0 (BN_bytes a);;
  mret (Z.of_nat (length (BN_bytes a))).

(** The bytes of block [p], for a callee that reads them. *)
Definition load (p : N) : M (list Z) := fun w =>
  match heap w !! p with
  | Some b => Ok b w
  | None => Fault OutOfBounds
  end.

(** [int] arithmetic is written without wrap-around: a bit length is far
    below [INT_MAX - 7]. *)
Definition x07_ext_bn_b64url (E : oracle) (bn : option BIGNUM) (out_len : option Z)
  : M (N * option Z) :=
  match bn with
  | None => mret (NULL, out_len)
  | Some bn =>
      let bits := BN_num_bits bn in
      let n := if bits <=? 0 then 1 else Z.quot (bits + 7) 8 in
      if n <=? 0 then mret (NULL, out_len)
      else
        raw ← malloc E n;
        if (raw =? NULL)%N then mret (NULL, out_len)
        else
          let encode : M (N * option Z) :=
            data ← load raw;
            r ← x07_ext_b64url_nopad E (Some data) n out_len;
            free raw;;
            mret r in
          if bits <=? 0 then store raw 0 0;; encode
          else
            written ← BN_bn2bin bn raw;
            if negb (written =? n) then free raw;; mret (NULL, out_len)
            else encode
  end.

(** OpenSSL's EVP interface, as far as the Ed25519 entry points use it: what
    its functions answer, as functions of the bytes they are given. *)
Record evp := {
  OBJ_txt2nid : string -> Z;
  EVP_DigestVerifyInit : list Z -> Z;                      (* public key |-> status *)
  EVP_DigestVerify : list Z -> list Z -> list Z -> Z;      (* public key, signature, message |-> status *)
  EVP_DigestSignInit : list Z -> Z;                        (* private key |-> status *)
  EVP_DigestSign : list Z -> list Z -> Z -> Z * list Z;    (* private key, message, capacity |-> status, bytes written *)
  EVP_PKEY_get_raw_public_key : list Z -> Z -> Z * list Z  (* private key, capacity |-> status, bytes written *)
}.

(** An [EVP_PKEY] or [EVP_MD_CTX] is a heap object the shim never looks
    into: the constructors return a fresh one or NULL, [*_free] releases
    it. *)
Definition EVP_PKEY_new_raw_public_key (E : oracle) : M N := malloc E 0.
Definition EVP_PKEY_new_raw_private_key (E : oracle) : M N := malloc E 0.
Definition EVP_MD_CTX_new (E : oracle) : M N := malloc E 0.
Definition EVP_PKEY_free (pkey : N) : M unit := free pkey.
Definition EVP_MD_CTX_free (ctx : N) : M unit := free ctx.

(** The key bytes are read by the constructor of the key object, signature
    and message by [EVP_DigestVerify]; a NULL message of length 0 is replaced
    by the address of a static zero byte. *)
Definition x07_ext_openssl_ed25519_verify (E : oracle) (L : evp)
    (pk : option (list Z)) (pk_len : Z) (msg : option (list Z)) (msg_len : Z)
    (sig : option (list Z)) (sig_len : Z) : M Z :=
  if bool_decide (pk = None) || bool_decide (sig = None) then mret 0
  else if negb (pk_len =? 32) || negb (sig_len =? 64) then mret 0
  else
    let msg := if bool_decide (msg = None) && (msg_len =? 0) then Some [0] else msg in
    let nid := OBJ_txt2nid L "ED25519" in
    if nid <=? 0 then mret 0
    else
      key ← bytes_at pk pk_len;
      pkey ← EVP_PKEY_new_raw_public_key E;
      if (pkey =? NULL)%N then mret 0
      else
        ctx ← EVP_MD_CTX_new E;
        if (ctx =? NULL)%N then EVP_PKEY_free pkey;; mret 0
        else if negb (EVP_DigestVerifyInit L key =? 1) then
          EVP_MD_CTX_free ctx;; EVP_PKEY_free pkey;; mret 0
        else
          sigb ← bytes_at sig sig_len;
          tbs ← bytes_at msg msg_len;
          let ok := if EVP_DigestVerify L key sigb tbs =? 1 then 1 else 0 in
          EVP_MD_CTX_free ctx;; EVP_PKEY_free pkey;; mret ok.

(** [EVP_DigestSign] is given the capacity [siglen = out_sig_len], writes
    within it at [out_sig] and sets [siglen] to what it wrote. *)
Definition x07_ext_openssl_ed25519_sign (E : oracle) (L : evp)
    (sk : option (list Z)) (sk_len : Z) (msg : option (list Z)) (msg_len : Z)
    (out_sig : N) (out_sig_len : Z) : M Z :=
  if bool_decide (sk = None) || (out_sig =? NULL)%N then mret 0
  else if negb (sk_len =? 32) || negb (out_sig_len =? 64) then mret 0
  else
    let msg := if bool_decide (msg = None) && (msg_len =? 0) then Some [0] else msg in
    let nid := OBJ_txt2nid L "ED25519" in
    if nid <=? 0 then mret 0
    else
      key ← bytes_at sk sk_len;
      pkey ← EVP_PKEY_new_raw_private_key E;
      if (pkey =? NULL)%N then mret 0
      else
        ctx ← EVP_MD_CTX_new E;
        if (ctx =? NULL)%N then EVP_PKEY_free pkey;; mret 0
        else if negb (EVP_DigestSignInit L key =? 1) then
          EVP_MD_CTX_free ctx;; EVP_PKEY_free pkey;; mret 0
        else
          tbs ← bytes_at msg msg_len;
          let '(rc, produced) := EVP_DigestSign L key tbs out_sig_len in
          let written := take (Z.to_nat out_sig_len) produced in
          memwrite out_sig 0 written;;
          let siglen := Z.of_nat (length written) in
          let ok := if rc =? 1 then 1 else 0 in
          EVP_MD_CTX_free ctx;;
          EVP_PKEY_free pkey;;
          if ok =? 0 then mret 0
          else mret (if siglen =? 64 then 1 else 0).

(** The returned handle is the slot converted to [int32_t]. *)
Definition x07_ext_openssl_ed25519_sign_alloc (E : oracle) (L : evp)
    (sk : option (list Z)) (sk_len : Z) (msg : option (list Z)) (msg_len : Z) : M Z :=
  if bool_decide (sk = None) then mret 0
  else if negb (sk_len =? 32) then mret 0
  else
    sig ← malloc E 64;
    if (sig =? NULL)%N then mret 0
    else
      r ← x07_ext_openssl_ed25519_sign E L sk sk_len msg msg_len sig 64;
      if negb (r =? 1) then free sig;; mret 0
      else
        slot ← x07_ext_openssl_alloc_buf_slot;
        if slot =? 0 then free sig;; mret 0
        else
          set_buf slot sig;;
          set_len slot 64;;
          mret (int_of_u32 slot).

(** [EVP_PKEY_get_raw_public_key] is given the capacity [sizeof(pk) = 32]
    and sets [pk_len] to what it wrote into the local array. *)
Definition x07_ext_openssl_ed25519_pk_from_seed_alloc (E : oracle) (L : evp)
    (sk : option (list Z)) (sk_len : Z) : M Z :=
  if bool_decide (sk = None) then mret 0
  else if negb (sk_len =? 32) then mret 0
  else
    let nid := OBJ_txt2nid L "ED25519" in
    if nid <=? 0 then mret 0
    else
      key ← bytes_at sk sk_len;
      sk_pkey ← EVP_PKEY_new_raw_private_key E;
      if (sk_pkey =? NULL)%N then mret 0
      else
        let '(rc, produced) := EVP_PKEY_get_raw_public_key L key 32 in
        let pk := take 32 produced in          (* uint8_t pk[32] *)
        let pk_len := Z.of_nat (length pk) in
        if negb (rc =? 1) || negb (pk_len =? 32) then EVP_PKEY_free sk_pkey;; mret 0
        else
          EVP_PKEY_free sk_pkey;;
          out ← malloc E 32;
          if (out =? NULL)%N then mret 0
          else
            memwrite out 0 pk;;
            slot ← x07_ext_openssl_alloc_buf_slot;
            if slot =? 0 then free out;; mret 0
            else
              set_buf slot out;;
              set_len slot 32;;
              mret (int_of_u32 slot).

(** As [x07_ext_openssl_ed25519_verify], with the public key derived from
    the seed first. *)
Definition x07_ext_openssl_ed25519_verify_sk (E : oracle) (L : evp)
    (sk : option (list Z)) (sk_len : Z) (msg : option (list Z)) (msg_len : Z)
    (sig : option (list Z)) (sig_len : Z) : M Z :=
  if bool_decide (sk = None) || bool_decide (sig = None) then mret 0
  else if negb (sk_len =? 32) || negb (sig_len =? 64) then mret 0
  else
    let msg := if bool_decide (msg = None) && (msg_len =? 0) then Some [0] else msg in
    let nid := OBJ_txt2nid L "ED25519" in
    if nid <=? 0 then mret 0
    else
      key ← bytes_at sk sk_len;
      sk_pkey ← EVP_PKEY_new_raw_private_key E;
      if (sk_pkey =? NULL)%N then mret 0
      else
        let '(rc, produced) := EVP_PKEY_get_raw_public_key L key 32 in
        let pk := take 32 produced in          (* uint8_t pk[32] *)
        let pk_len := Z.of_nat (length pk) in
        if negb (rc =? 1) || negb (pk_len =? 32) then EVP_PKEY_free sk_pkey;; mret 0
        else
          pk_pkey ← EVP_PKEY_new_raw_public_key E;
          EVP_PKEY_free sk_pkey;;
          if (pk_pkey =? NULL)%N then mret 0
          else
            ctx ← EVP_MD_CTX_new E;
            if (ctx =? NULL)%N then EVP_PKEY_free pk_pkey;; mret 0
            else if negb (EVP_DigestVerifyInit L pk =? 1) then
              EVP_MD_CTX_free ctx;; EVP_PKEY_free pk_pkey;; mret 0
            else
              sigb ← bytes_at sig sig_len;
              tbs ← bytes_at msg msg_len;
              let ok := if EVP_DigestVerify L pk sigb tbs =? 1 then 1 else 0 in
              EVP_MD_CTX_free ctx;; EVP_PKEY_free pk_pkey;; mret ok.

(** An EVP that accepts every signature, signs with the key twice over and
    takes the private key for the public one: what the properties are tried
    on. *)
Definition evp_toy : evp :=
  {| OBJ_txt2nid := fun _ => 1087;
     EVP_DigestVerifyInit := fun _ => 1;
     EVP_DigestVerify := fun _ _ _ => 1;
     EVP_DigestSignInit := fun _ => 1;
     EVP_DigestSign := fun key _ _ => (1, key ++ key);
     EVP_PKEY_get_raw_public_key := fun key _ => (1, key) |}.

(** Thirty-two bytes. *)
Definition seed32 : list Z := replicate 32 7.

(** *** Vocabulary for the properties *)

(** The document [x07_ext_make_err_doc] builds for [code]: tag 0, the code,
    then a zero word. *)
Definition err_doc (code : Z) : list Z :=
  [0; u8 (Z.land code 255); u8 (Z.land (Z.shiftr code 8) 255);
   u8 (Z.land (Z.shiftr code 16) 255); u8 (Z.land (Z.shiftr code 24) 255);
   0; 0; 0; 0].

(** The URL-safe alphabet of RFC 4648, section 5: [A-Z a-z 0-9 - _]. *)
Definition is_b64url_char (c : Z) : Prop :=
  65 <= c <= 90 \/ 97 <= c <= 122 \/ 48 <= c <= 57 \/ c = 45 \/ c = 95.

(** The value of a character of that alphabet (RFC 4648, table 2). *)
Definition b64url_value (c : Z) : option Z :=
  if (65 <=? c) && (c <=? 90) then Some (c - 65)
  else if (97 <=? c) && (c <=? 122) then Some (c - 71)
  else if (48 <=? c) && (c <=? 57) then Some (c + 4)
  else if c =? 45 then Some 62
  else if c =? 95 then Some 63
  else None.

(** Table entry [s] is a character of the alphabet and has value [s]. *)
Definition char_okb (s : nat) : bool :=
  let c := x07_ext_b64url_char (Z.of_nat s) in
  match b64url_value c with
  | Some v => (v =? Z.of_nat s)
              && (((65 <=? c) && (c <=? 90)) || ((97 <=? c) && (c <=? 122))
                  || ((48 <=? c) && (c <=? 57)) || (c =? 45) || (c =? 95))
  | None => false
  end.

(** Reference decoder for unpadded base64url (RFC 4648, sections 3.2, 3.5
    and 5): four characters give three bytes; a final group of two or three
    characters gives one or two bytes and must have its unused bits zero; a
    final group of one character is malformed. *)
Fixpoint b64url_decode (s : list Z) : option (list Z) :=
  match s with
  | [] => Some []
  | c0 :: c1 :: c2 :: c3 :: s' =>
      match b64url_value c0, b64url_value c1, b64url_value c2,
            b64url_value c3, b64url_decode s' with
      | Some v0, Some v1, Some v2, Some v3, Some r =>
          let v := v0 * 262144 + v1 * 4096 + v2 * 64 + v3 in
          Some (v / 65536 :: (v / 256) mod 256 :: v mod 256 :: r)
      | _, _, _, _, _ => None
      end
  | [c0; c1; c2] =>
      match b64url_value c0, b64url_value c1, b64url_value c2 with
      | Some v0, Some v1, Some v2 =>
          let v := v0 * 262144 + v1 * 4096 + v2 * 64 in
          if v mod 256 =? 0 then Some [v / 65536; (v / 256) mod 256] else None
      | _, _, _ => None
      end
  | [c0; c1] =>
      match b64url_value c0, b64url_value c1 with
      | Some v0, Some v1 =>
          let v := v0 * 262144 + v1 * 4096 in
          if v mod 65536 =? 0 then Some [v / 65536] else None
      | _, _ => None
      end
  | [_] => None
  end.

(** What the encoder writes before the NUL, as a function of the input. *)
Definition sextet_char (v : Z) (shift : Z) : Z :=
  x07_ext_b64url_char (u8 (Z.land (Z.shiftr v shift) 63)).

Fixpoint b64url_encode (l : list Z) : list Z :=
  match l with
  | d0 :: d1 :: d2 :: l' =>
      let v := Z.lor (Z.lor (u32 (Z.shiftl d0 16)) (u32 (Z.shiftl d1 8))) d2 in
      sextet_char v 18 :: sextet_char v 12 :: sextet_char v 6
        :: x07_ext_b64url_char (u8 (Z.land v 63)) :: b64url_encode l'
  | [d0; d1] =>
      let v := Z.lor (u32 (Z.shiftl d0 16)) (u32 (Z.shiftl d1 8)) in
      [sextet_char v 18; sextet_char v 12; sextet_char v 6]
  | [d0] =>
      let v := u32 (Z.shiftl d0 16) in
      [sextet_char v 18; sextet_char v 12]
  | [] => []
  end.

(** A full table: slots 1 to 4095 each hold a one-byte document, as after
    4095 calls of [x07_ext_openssl_rand_bytes_alloc(0, _)]. *)
Definition full_world : world :=
  {| heap := list_to_map (map (fun i => (N.of_nat i, [1])) (seq 1 4095));
     g_bufs := map N.of_nat (seq 0 4096);
     g_lens := 0 :: replicate 4095 1;
     clock := 4095 |}.

(** The length of the unpadded encoding of [n] bytes. *)
Definition b64url_length (n : Z) : Z :=
  4 * (n / 3) + (if n mod 3 =? 0 then 0 else if n mod 3 =? 1 then 2 else 3).

(** The entry points that touch the table. *)
Inductive api :=
| RandBytesAlloc (len : Z) (out_handle : option Z)
| AllocFilled (n : Z) (filled : option (list Z))
| BufFree (handle : Z).

Definition do_api (E : oracle) (c : api) : M unit :=
  match c with
  | RandBytesAlloc len out_handle =>
      x07_ext_openssl_rand_bytes_alloc E (u32 len) out_handle;; mret tt
  | AllocFilled n filled => alloc_filled E (u32 n) filled;; mret tt
  | BufFree handle => x07_ext_openssl_buf_free (u32 handle)
  end.

(** The states of the shim: from the zeroed statics, any sequence of entry
    point calls (the arguments are converted to [uint32_t]). *)
Inductive reachable (E : oracle) : world -> Prop :=
| reach_init h : reachable E (init_world (Z.to_nat X07_EXT_OPENSSL_MAX_BUFS) h)
| reach_call w c w' :
    reachable E w -> do_api E c w = Ok tt w' -> reachable E w'.

(** The state after one [x07_ext_openssl_rand_bytes_alloc(2, _)] from the
    zeroed statics, in the environment [oracle_ok]. *)
Definition one_buffer : world :=
  {| heap := {[1%N := [1; 7; 8]]};
     g_bufs := <[1%nat := 1%N]> (replicate 4096 NULL);
     g_lens := <[1%nat := 3]> (replicate 4096 0);
     clock := 2 |}.

(** Any sequence of entry-point calls, one after the other. *)
Fixpoint run_calls (E : oracle) (cs : list api) : M unit :=
  match cs with
  | [] => mret tt
  | c :: cs' => do_api E c;; run_calls E cs'
  end.

(** The entry points modelled above that touch no memory of the caller's:
    [rand_bytes_alloc], the two Ed25519 checks, the two Ed25519 [*_alloc]
    functions and [buf_free], with their arguments.  A [uint32_t] parameter
    receives its argument converted ([u32]). *)
Inductive entry :=
| CallRandBytesAlloc (len : Z) (out_handle : option Z)
| CallEd25519Verify (pk : option (list Z)) (pk_len : Z)
    (msg : option (list Z)) (msg_len : Z) (sig : option (list Z)) (sig_len : Z)
| CallEd25519VerifySk (sk : option (list Z)) (sk_len : Z)
    (msg : option (list Z)) (msg_len : Z) (sig : option (list Z)) (sig_len : Z)
| CallEd25519SignAlloc (sk : option (list Z)) (sk_len : Z)
    (msg : option (list Z)) (msg_len : Z)
| CallEd25519PkFromSeedAlloc (sk : option (list Z)) (sk_len : Z)
| CallBufFree (handle : Z).

Definition call (E : oracle) (L : evp) (c : entry) : M unit :=
  match c with
  | CallRandBytesAlloc len out_handle =>
      x07_ext_openssl_rand_bytes_alloc E (u32 len) out_handle;; mret tt
  | CallEd25519Verify pk pk_len msg msg_len sig sig_len =>
      x07_ext_openssl_ed25519_verify E L pk (u32 pk_len) msg (u32 msg_len)
        sig (u32 sig_len);; mret tt
  | CallEd25519VerifySk sk sk_len msg msg_len sig sig_len =>
      x07_ext_openssl_ed25519_verify_sk E L sk (u32 sk_len) msg (u32 msg_len)
        sig (u32 sig_len);; mret tt
  | CallEd25519SignAlloc sk sk_len msg msg_len =>
      x07_ext_openssl_ed25519_sign_alloc E L sk (u32 sk_len) msg (u32 msg_len);; mret tt
  | CallEd25519PkFromSeedAlloc sk sk_len =>
      x07_ext_openssl_ed25519_pk_from_seed_alloc E L sk (u32 sk_len);; mret tt
  | CallBufFree handle => x07_ext_openssl_buf_free (u32 handle)
  end.

Fixpoint run_entries (E : oracle) (L : evp) (cs : list entry) : M unit :=
  match cs with
  | [] => mret tt
  | c :: cs' => call E L c;; run_entries E L cs'
  end.

(** The caller's side of a call: every (pointer, length) pair is readable,
    and a NULL message has length 0. *)
Definition well_formed (c : entry) : Prop :=
  match c with
  | CallRandBytesAlloc _ _ | CallBufFree _ => True
  | CallEd25519Verify k k_len msg msg_len sig sig_len
  | CallEd25519VerifySk k k_len msg msg_len sig sig_len =>
      readable k (u32 k_len) /\ readable sig (u32 sig_len)
      /\ readable msg (u32 msg_len) /\ (msg = None -> u32 msg_len = 0)
  | CallEd25519SignAlloc sk sk_len msg msg_len =>
      readable sk (u32 sk_len)
      /\ readable msg (u32 msg_len) /\ (msg = None -> u32 msg_len = 0)
  | CallEd25519PkFromSeedAlloc sk sk_len => readable sk (u32 sk_len)
  end.

End Openssl.

(** ** The zlib shim, [x07-ext-zlib-c/0.1.2/ffi/zlib_shim.c] *)
Module Zlib.

Import C.
Local Open Scope Z_scope.

Definition X07_EXT_ZLIB_MAX_BUFS : Z := 4096.

(** zlib itself: what its functions return and produce.  [compress],
    [uncompress] and [inflate] are given the bytes they read and the capacity
    of the destination, and answer with a status and the bytes they produce;
    [inflateInit2] answers with the status for its [windowBits]. *)
Record zlib := {
  compressBound : Z -> Z;
  compress : list Z -> Z -> Z * list Z;       (* source, capacity |-> status, output *)
  uncompress : list Z -> Z -> Z * list Z;
  inflateInit2 : Z -> Z;                      (* windowBits |-> status *)
  inflate : Z -> list Z -> Z -> Z * list Z    (* windowBits, input, capacity |-> status, output *)
}.

Definition Z_OK : Z := 0.
Definition Z_STREAM_END : Z := 1.
Definition Z_STREAM_ERROR : Z := -2.
Definition Z_MEM_ERROR : Z := -4.
Definition MAX_WBITS : Z := 15.

(** [compress(dest, &destLen, source, sourceLen)]: zlib reads the
    [sourceLen] bytes at [source], writes what it produces at [dest], never
    more than the capacity [*destLen], and leaves the number of bytes
    written in [*destLen].  [source] is the array the pointer designates. *)
Definition call_compress (L : zlib) (dest : N) (dest_len : Z)
    (source : list Z) (source_len : Z) : M (Z * Z) :=
  input ← bytes_at (Some source) source_len;
  let '(rc, produced) := compress L input dest_len in
  let written := take (Z.to_nat dest_len) produced in
  memwrite dest 0 written;;
  mret (rc, Z.of_nat (length written)).

Definition call_uncompress (L : zlib) (dest : N) (dest_len : Z)
    (source : list Z) (source_len : Z) : M (Z * Z) :=
  input ← bytes_at (Some source) source_len;
  let '(rc, produced) := uncompress L input dest_len in
  let written := take (Z.to_nat dest_len) produced in
  memwrite dest 0 written;;
  mret (rc, Z.of_nat (length written)).

(** [inflateInit2(&strm, windowBits)]: on [Z_OK] the stream has a state of
    its own, a block that zlib allocates (an opaque object here, as its
    contents are zlib's); [Z_MEM_ERROR] when that allocation fails.  The
    answer is the status and [strm.state]. *)
Definition call_inflateInit2 (E : oracle) (L : zlib) (window_bits : Z) : M (Z * N) :=
  let rc := inflateInit2 L window_bits in
  if negb (rc =? Z_OK) then mret (rc, NULL)
  else
    state ← malloc E 0;
    if (state =? NULL)%N then mret (Z_MEM_ERROR, NULL) else mret (Z_OK, state).

(** [inflate(&strm, Z_FINISH)] with [next_out], [avail_out], [next_in] and
    [avail_in] set: [Z_STREAM_ERROR] at once when [next_out] is NULL;
    otherwise zlib reads the input, writes what it produces at [next_out],
    never more than [avail_out] bytes, and counts them in [total_out].  The
    answer is the status and [strm.total_out]. *)
Definition call_inflate (L : zlib) (window_bits : Z) (next_out : N) (avail_out : Z)
    (source : list Z) (avail_in : Z) : M (Z * Z) :=
  if (next_out =? NULL)%N then mret (Z_STREAM_ERROR, 0)
  else
    input ← bytes_at (Some source) avail_in;
    let '(rc, produced) := inflate L window_bits input avail_out in
    let written := take (Z.to_nat avail_out) produced in
    memwrite next_out 0 written;;
    mret (rc, Z.of_nat (length written)).

(** [inflateEnd(&strm)]: frees the state of the stream and answers [Z_OK];
    [Z_STREAM_ERROR] for a stream without a state. *)
Definition call_inflateEnd (state : N) : M Z :=
  if (state =? NULL)%N then mret Z_STREAM_ERROR
  else free state;; mret Z_OK.

(** [for (uint32_t i = 1; i < MAX_BUFS; i++) if (!g_bufs[i]) return i;
    return 0;] *)
Fixpoint alloc_slot_loop (fuel : nat) (i : Z) : M Z :=
  match fuel with
  | O => fail OutOfFuel
  | S fuel' =>
      if i <? X07_EXT_ZLIB_MAX_BUFS then
        p ← get_buf i;
        if (p =? NULL)%N then mret i
        else alloc_slot_loop fuel' (u32 (i + 1))
      else mret 0
  end.

Definition x07_ext_zlib_alloc_slot : M Z :=
  alloc_slot_loop (Z.to_nat X07_EXT_ZLIB_MAX_BUFS) 1.

Definition x07_ext_zlib_compress_alloc (E : oracle) (L : zlib)
    (source : list Z) (source_len : Z) (out_handle : option Z)
  : M (Z * option Z) :=
  let out_handle := assign out_handle 0 in
  let bound := ulong (compressBound L (ulong source_len)) in
  if UINT32_MAX <? bound then mret (-2, out_handle)
  else
    buf ← malloc E bound;
    if (buf =? NULL)%N then mret (-1, out_handle)
    else
      r ← call_compress L buf bound source source_len;
      let '(rc, out_len) := r in
      if negb (rc =? 0) then free buf;; mret (rc, out_handle)
      else if UINT32_MAX <? out_len then free buf;; mret (-2, out_handle)
      else
        h ← x07_ext_zlib_alloc_slot;
        if h =? 0 then free buf;; mret (-1, out_handle)
        else
          set_buf h buf;;
          set_len h (u32 out_len);;
          mret (0, assign out_handle h).

Definition x07_ext_zlib_uncompress_alloc (E : oracle) (L : zlib)
    (source : list Z) (source_len : Z) (max_size : Z) (out_handle : option Z)
  : M (Z * option Z) :=
  let out_handle := assign out_handle 0 in
  if UINT32_MAX <? max_size then mret (-2, out_handle)
  else
    buf ← malloc E max_size;
    if (buf =? NULL)%N then mret (-1, out_handle)
    else
      r ← call_uncompress L buf max_size source source_len;
      let '(rc, out_len) := r in
      if negb (rc =? 0) then free buf;; mret (rc, out_handle)
      else if UINT32_MAX <? out_len then free buf;; mret (-2, out_handle)
      else
        h ← x07_ext_zlib_alloc_slot;
        if h =? 0 then free buf;; mret (-1, out_handle)
        else
          set_buf h buf;;
          set_len h (u32 out_len);;
          mret (0, assign out_handle h).

Definition x07_ext_zlib_inflate_alloc_window_bits (E : oracle) (L : zlib)
    (source : list Z) (source_len : Z) (max_size : Z) (window_bits : Z)
    (out_handle : option Z) : M (Z * option Z) :=
  let out_handle := assign out_handle 0 in
  buf ← malloc E max_size;
  if (buf =? NULL)%N && negb (max_size =? 0) then mret (-1, out_handle)
  else
    let release : M unit := if (buf =? NULL)%N then mret tt else free buf in
    i ← call_inflateInit2 E L window_bits;
    let '(rc, strm) := i in
    if negb (rc =? Z_OK) then release;; mret (rc, out_handle)
    else
      r ← call_inflate L window_bits buf max_size source source_len;
      let '(rc, total_out) := r in
      if negb (rc =? Z_STREAM_END) then
        call_inflateEnd strm;; release;; mret (rc, out_handle)
      else
        rc ← call_inflateEnd strm;
        if negb (rc =? Z_OK) then release;; mret (rc, out_handle)
        else if UINT32_MAX <? total_out then release;; mret (-2, out_handle)
        else
          h ← x07_ext_zlib_alloc_slot;
          if h =? 0 then release;; mret (-1, out_handle)
          else
            set_buf h buf;;
            set_len h (u32 total_out);;
            mret (0, assign out_handle h).

Definition x07_ext_zlib_gzip_decompress_alloc (E : oracle) (L : zlib)
    (source : list Z) (source_len : Z) (max_size : Z) (out_handle : option Z)
  : M (Z * option Z) :=
  x07_ext_zlib_inflate_alloc_window_bits E L source source_len max_size
    (16 + MAX_WBITS) out_handle.

Definition x07_ext_zlib_inflate_raw_alloc (E : oracle) (L : zlib)
    (source : list Z) (source_len : Z) (max_size : Z) (out_handle : option Z)
  : M (Z * option Z) :=
  x07_ext_zlib_inflate_alloc_window_bits E L source source_len max_size
    (- MAX_WBITS) out_handle.

Definition x07_ext_zlib_buf_len (handle : Z) : M Z :=
  if (handle =? 0) || (X07_EXT_ZLIB_MAX_BUFS <=? handle) then mret 0
  else get_len handle.

Definition x07_ext_zlib_buf_ptr (handle : Z) : M N :=
  if (handle =? 0) || (X07_EXT_ZLIB_MAX_BUFS <=? handle) then mret NULL
  else get_buf handle.

Definition x07_ext_zlib_buf_free (handle : Z) : M unit :=
  if (handle =? 0) || (X07_EXT_ZLIB_MAX_BUFS <=? handle) then mret tt
  else
    p ← get_buf handle;
    (if (p =? NULL)%N then mret tt else free p);;
    set_buf handle NULL;;
    set_len handle 0.

(** The entry points that touch the table. *)
Inductive api :=
| CompressAlloc (source : list Z) (source_len : Z) (out_handle : option Z)
| UncompressAlloc (source : list Z) (source_len max_size : Z) (out_handle : option Z)
| GzipDecompressAlloc (source : list Z) (source_len max_size : Z) (out_handle : option Z)
| InflateRawAlloc (source : list Z) (source_len max_size : Z) (out_handle : option Z)
| BufFree (handle : Z).

Definition do_api (E : oracle) (L : zlib) (c : api) : M unit :=
  match c with
  | CompressAlloc s n o =>
      x07_ext_zlib_compress_alloc E L s (u32 n) o;; mret tt
  | UncompressAlloc s n m o =>
      x07_ext_zlib_uncompress_alloc E L s (u32 n) (u32 m) o;; mret tt
  | GzipDecompressAlloc s n m o =>
      x07_ext_zlib_gzip_decompress_alloc E L s (u32 n) (u32 m) o;; mret tt
  | InflateRawAlloc s n m o =>
      x07_ext_zlib_inflate_raw_alloc E L s (u32 n) (u32 m) o;; mret tt
  | BufFree handle => x07_ext_zlib_buf_free (u32 handle)
  end.

(** The caller's side of a call: [source] designates at least [source_len]
    bytes. *)
Definition well_formed (c : api) : Prop :=
  match c with
  | CompressAlloc s n _ | UncompressAlloc s n _ _
  | GzipDecompressAlloc s n _ _ | InflateRawAlloc s n _ _ =>
      u32 n <= Z.of_nat (length s)
  | BufFree _ => True
  end.

(** The states of the shim: from the zeroed statics, any sequence of entry
    point calls (the arguments are converted to [uint32_t]). *)
Inductive reachable (E : oracle) (L : zlib) : world -> Prop :=
| reach_init h : reachable E L (init_world (Z.to_nat X07_EXT_ZLIB_MAX_BUFS) h)
| reach_call w c w' :
    reachable E L w -> do_api E L c w = Ok tt w' -> reachable E L w'.

(** A zlib that stores its input as it is: what the properties are tried
    on. *)
Definition zlib_stored : zlib :=
  {| compressBound := fun n => n + 13;
     compress := fun src cap => (0, src);
     uncompress := fun src cap => (0, src);
     inflateInit2 := fun _ => 0;
     inflate := fun _ src cap => (1, src) |}.

(** The state after one [x07_ext_zlib_compress_alloc] of three bytes from
    the zeroed statics, with [zlib_stored] in the environment [oracle_ok]. *)
Definition one_buffer : world :=
  {| heap := {[1%N := [1; 2; 3] ++ replicate 13 0]};
     g_bufs := <[1%nat := 1%N]> (replicate 4096 NULL);
     g_lens := <[1%nat := 3]> (replicate 4096 0);
     clock := 1 |}.

(** Any sequence of entry-point calls, one after the other. *)
Fixpoint run_calls (E : oracle) (L : zlib) (cs : list api) : M unit :=
  match cs with
  | [] => mret tt
  | c :: cs' => do_api E L c;; run_calls E L cs'
  end.

End Zlib.

(** ** What a call did to the heap and to the table

    Vocabulary for the effect of an entry point of either shim, from the
    state [w0] it was called in to the state [w] it returned in. *)
Module Frame.

Import C.
Local Open Scope Z_scope.

(** Both arrays have their declared size. *)
Definition shaped (w : world) : Prop :=
  length (g_bufs w) = 4096%nat /\ length (g_lens w) = 4096%nat.

(** Heap and table are as they were. *)
Definition same_store (w0 w : world) : Prop :=
  heap w = heap w0 /\ g_bufs w = g_bufs w0 /\ g_lens w = g_lens w0.

(** Mid-call: the table is untouched and the heap has, beside what it had,
    the one block [o] with contents [b] (nothing more when [o] is NULL). *)
Definition holding (w0 : world) (o : N) (b : list Z) (w : world) : Prop :=
  g_bufs w = g_bufs w0 /\ g_lens w = g_lens w0
  /\ ((o = NULL /\ heap w = heap w0)
      \/ (o <> NULL /\ heap w0 !! o = None /\ heap w = <[o := b]> (heap w0))).

(** The call put the fresh block [p], holding [b], in slot [h] with length
    [n]; [h] was the lowest empty slot; nothing else changed. *)
Definition stored (w0 w : world) (h : Z) (p : N) (b : list Z) (n : Z) : Prop :=
  1 <= h < 4096
  /\ g_bufs w0 !! Z.to_nat h = Some NULL
  /\ (forall i, (1 <= i < Z.to_nat h)%nat -> g_bufs w0 !! i <> Some NULL)
  /\ p <> NULL /\ heap w0 !! p = None
  /\ heap w = <[p := b]> (heap w0)
  /\ g_bufs w = <[Z.to_nat h := p]> (g_bufs w0)
  /\ g_lens w = <[Z.to_nat h := n]> (g_lens w0).

(** A status other than 0, handle 0, and nothing changed. *)
Definition refused (w0 : world) (out_handle : option Z) (r : Z * option Z)
    (w : world) : Prop :=
  fst r <> 0 /\ snd r = assign out_handle 0 /\ same_store w0 w.

(** Status 0 and a handle to a fresh block of [cap] bytes that starts with
    [written]; what follows them in the block is whatever [malloc] left
    there; the recorded length is that of [written]. *)
Definition published (w0 : world) (out_handle : option Z) (written : list Z)
    (cap : Z) (r : Z * option Z) (w : world) : Prop :=
  exists h p rest,
    r = (0, assign out_handle h)
    /\ length (written ++ rest) = Z.to_nat cap
    /\ stored w0 w h p (written ++ rest) (Z.of_nat (length written)).

(** Every slot that holds a buffer records a length [n] that stands in
    relation [R] to the block. *)
Definition lens_fit (R : Z -> list Z -> Prop) (w : world) : Prop :=
  forall i p n, g_bufs w !! i = Some p -> p <> NULL -> g_lens w !! i = Some n ->
                exists b, heap w !! p = Some b /\ R n b.

Definition within (n : Z) (b : list Z) : Prop := 0 <= n <= Z.of_nat (length b).
Definition exactly (n : Z) (b : list Z) : Prop := n = Z.of_nat (length b).

(** Handle [h] names the buffer at [p], of recorded length [n], holding [b]. *)
Definition names (w : world) (h : Z) (p : N) (n : Z) (b : list Z) : Prop :=
  1 <= h < 4096 /\ p <> NULL
  /\ g_bufs w !! Z.to_nat h = Some p
  /\ g_lens w !! Z.to_nat h = Some n
  /\ heap w !! p = Some b.

(** The memory [h0] that the rest of the process had is as it was, and no
    slot points into it. *)
Definition untouched (h0 : gmap N (list Z)) (w : world) : Prop :=
  forall q b, h0 !! q = Some b ->
              heap w !! q = Some b /\ forall i, g_bufs w !! i <> Some q.

(** Every other live block is the buffer of some slot. *)
Definition accounted (h0 : gmap N (list Z)) (w : world) : Prop :=
  forall q, h0 !! q = None -> is_Some (heap w !! q) ->
            q <> NULL /\ exists i, g_bufs w !! i = Some q.

(** The table is in order, the process's memory untouched, and nothing else
    is on the heap but the buffers of the slots. *)
Definition kept (h0 : gmap N (list Z)) (w : world) : Prop :=
  table_ok 4096 w /\ untouched h0 w /\ accounted h0 w.

End Frame.

(** ** The import smoke test, [x07import_smoke@0.1.0/smoke.c] *)
Module Smoke.

Local Open Scope Z_scope.

Definition INT32_MIN : Z := -2147483648.
Definition INT32_MAX : Z := 2147483647.

(** The value of an [int32_t] expression: signed overflow is undefined. *)
Definition int32 (x : Z) : option Z :=
  if (INT32_MIN <=? x) && (x <=? INT32_MAX) then Some x else None.

Definition add1 (x : Z) : option Z := int32 (x + 1).

Definition abs_i32 (x : Z) : option Z :=
  if x <? 0 then int32 (- x) else Some x.

End Smoke.

(** * Part II: properties *)

(** ** Value layouts *)
Section Layouts.

Import Abi.
Local Open Scope Z_scope.

Ltac unfold_layouts :=
  cbv [layout_of v1 v2 sizeof alignof slots ifdef app
       V1.ev_bytes_v1_t V1.ev_bytes_view_v1_t V1.ev_vec_u8_v1_t
       V1.ev_option_i32_v1_t V1.ev_option_bytes_v1_t V1.ev_result_i32_v1_t
       V1.ev_result_bytes_v1_t V1.ev_iface_v1_t
       V2.ev_bytes_v2_t V2.ev_bytes_view_v2_t V2.ev_vec_u8_v2_t
       V2.ev_option_i32_v2_t V2.ev_option_bytes_v2_t V2.ev_result_i32_v2_t
       V2.ev_result_bytes_v2_t V2.ev_iface_v2_t].

(** The v2 structs that nest [ev_bytes] differ from the v1 ones in the nested
    type's name only, which no size, alignment or offset depends on. *)
Lemma layout_v1_v2 e dbg c : layout_of e (v1 dbg c) = layout_of e (v2 dbg c).
Proof. destruct c, dbg; unfold_layouts; reflexivity. Qed.

Lemma alignof_with_pointer e dbg c :
  carries_pointer c = true ->
  0 < u32_align e <= ptr_align e ->
  (dbg = true -> 0 < u64_align e <= ptr_align e) ->
  alignof e (v1 dbg c) = ptr_align e.
Proof.
  intros Hc H32 H64.
  destruct c; try discriminate Hc; destruct dbg;
    try (specialize (H64 eq_refl)); unfold_layouts; lia.
Qed.

Lemma alignof_without_pointer e dbg c :
  carries_pointer c = false ->
  0 < u32_align e ->
  alignof e (v1 dbg c) = u32_align e.
Proof.
  intros Hc H32. destruct c; try discriminate Hc; unfold_layouts; lia.
Qed.

(** The model agrees with the repository's own static assertions on the
    64-bit and 32-bit data models, with and without debug-borrow fields. *)
Example abi_layout_asserts_hold :
  forallb (fun e => abi_layout_asserts e false && abi_layout_asserts e true)
    [lp64; ilp32] = true.
Proof. vm_compute. reflexivity. Qed.

(** C1 (as amended): in any one environment (same pointer and integer
    alignments, same [X07_DEBUG_BORROW] setting) the v1 and the v2 struct of
    each container of the [ev_bytes] family have the same layout: the same
    members in the same order at the same offsets, the same size and the same
    alignment.  That alignment is [uint32_t]'s for option_i32, result_i32 and
    iface, which hold no pointer; for the containers that hold one (bytes,
    bytes_view, vec_u8, option_bytes, result_bytes) it is a native pointer's,
    in environments where no integer member ([uint32_t], and [uint64_t] under
    [X07_DEBUG_BORROW]) is more strictly aligned than a pointer. *)
Theorem abi_v1_v2_same_layout (e : env) (dbg : bool) (c : container) :
  layout_of e (v1 dbg c) = layout_of e (v2 dbg c)
  /\ map path (lay_slots (layout_of e (v1 dbg c)))
     = map path (lay_slots (layout_of e (v2 dbg c)))
  /\ sizeof e (v1 dbg c) = sizeof e (v2 dbg c)
  /\ alignof e (v1 dbg c) = alignof e (v2 dbg c)
  /\ (carries_pointer c = false -> 0 < u32_align e ->
      alignof e (v1 dbg c) = u32_align e)
  /\ (carries_pointer c = true -> 0 < u32_align e <= ptr_align e ->
      (dbg = true -> 0 < u64_align e <= ptr_align e) ->
      alignof e (v1 dbg c) = ptr_align e).
Proof.
  pose proof (layout_v1_v2 e dbg c) as Hl.
  split; [exact Hl|].
  split; [now rewrite Hl|].
  split; [exact (f_equal lay_size Hl)|].
  split; [exact (f_equal lay_align Hl)|].
  split.
  - apply alignof_without_pointer.
  - apply alignof_with_pointer.
Qed.

Lemma abi_v1_v2_same_layout_witness :
  0 < u32_align lp64 <= ptr_align lp64
  /\ 0 < u64_align lp64 <= ptr_align lp64
  /\ layout_of lp64 (v1 true ResultBytes) = layout_of lp64 (v2 true ResultBytes)
  /\ sizeof lp64 (v1 true ResultBytes) = 24
  /\ alignof lp64 (v1 true ResultBytes) = 8
  /\ alignof lp64 (v1 true Iface) = 4.
Proof.
  assert (H32 : 0 < u32_align lp64 <= ptr_align lp64) by (cbn; lia).
  assert (H64 : 0 < u64_align lp64 <= ptr_align lp64) by (cbn; lia).
  destruct (abi_v1_v2_same_layout lp64 true ResultBytes)
    as (Hl & _ & _ & _ & _ & Ha).
  destruct (abi_v1_v2_same_layout lp64 true Iface) as (_ & _ & _ & _ & Hi & _).
  split; [exact H32|]. split; [exact H64|].
  split; [exact Hl|]. split; [reflexivity|].
  split; [exact (Ha eq_refl H32 (fun _ => H64))|].
  apply Hi; [reflexivity | cbn; lia].
Defined.

(** C1 as stated fails for the containers without a pointer member: on LP64
    [ev_option_i32_v1_t] and [ev_option_i32_v2_t] are 4-aligned while a native
    pointer is 8-aligned (the layout test asserts [alignof(uint32_t)] for
    them). *)
Lemma abi_option_i32_not_pointer_aligned :
  alignof lp64 (v1 false OptionI32) = 4
  /\ alignof lp64 (v2 false OptionI32) = 4
  /\ ptr_align lp64 = 8
  /\ alignof lp64 (v1 false OptionI32) <> ptr_align lp64.
Proof. repeat split; vm_compute; congruence. Qed.

End Layouts.

(** ** Trap codes *)
Section TrapBands.

Import Trap.
Local Open Scope Z_scope.

Lemma band_unique n m c : in_band n c -> in_band m c -> n = m.
Proof. unfold in_band, band_lo, band_hi. lia. Qed.

Lemma trap_code_in_own_band f c :
  In c (trap_codes f) -> in_band (family_index f) c.
Proof.
  unfold in_band, band_lo, band_hi, trap_codes.
  unfold EV_TRAP_MATH_BADLEN_F64, EV_TRAP_MATH_BADLEN_U32,
    EV_TRAP_MATH_INTERNAL, EV_TRAP_TIME_INTERNAL.
  destruct f; cbn; intuition lia.
Qed.

(** C6: every trap code a family's header defines lies in that family's
    band, [9100 + N*100 .. 9100 + N*100 + 99] for family number [N] (math in
    [9100 .. 9199], time in [9200 .. 9299]), and in no other band: a code
    found in band [M] has [M = N], so it belongs to no second family. *)
Theorem trap_codes_in_disjoint_bands (f : family) (c : Z) :
  In c (trap_codes f) ->
  in_band (family_index f) c
  /\ (f = MathFamily -> 9100 <= c <= 9199)
  /\ (f = TimeFamily -> 9200 <= c <= 9299)
  /\ (forall M : Z, in_band M c -> M = family_index f)
  /\ (forall g : family, In c (trap_codes g) -> g = f).
Proof.
  intros Hc. pose proof (trap_code_in_own_band f c Hc) as Hb.
  split; [exact Hb|].
  split; [intros ->; revert Hb; unfold in_band, band_lo, band_hi; cbn; lia|].
  split; [intros ->; revert Hb; unfold in_band, band_lo, band_hi; cbn; lia|].
  split.
  - intros M HM. exact (band_unique _ _ _ HM Hb).
  - intros g Hg. apply trap_code_in_own_band in Hg.
    pose proof (band_unique _ _ _ Hg Hb) as Heq.
    destruct g, f; cbn in Heq; congruence.
Qed.

Lemma trap_codes_in_disjoint_bands_witness :
  In 9101 (trap_codes MathFamily)
  /\ in_band 0 9101
  /\ (forall M : Z, in_band M 9101 -> M = 0).
Proof.
  assert (H : In 9101 (trap_codes MathFamily)) by (cbn; auto).
  destruct (trap_codes_in_disjoint_bands MathFamily 9101 H) as (Hb & _ & _ & Hu & _).
  split; [exact H|]. split; [exact Hb | exact Hu].
Defined.

End TrapBands.

(** ** Fixed-width numeric payloads *)
Section FixedWidth.

Import Math.
Local Open Scope Z_scope.

Lemma land_255 x : Z.land x 255 = x mod 256.
Proof. change 255 with (Z.ones 8). rewrite Z.land_ones by lia. reflexivity. Qed.

Lemma shiftr_8 x : Z.shiftr x 8 = x / 256.
Proof. rewrite Z.shiftr_div_pow2 by lia. reflexivity. Qed.

Lemma lor_shiftl_8 a b :
  0 <= a < 256 -> Z.lor a (Z.shiftl b 8) = a + b * 256.
Proof.
  intros Ha.
  assert (Hd : Z.land a (Z.shiftl b 8) = 0).
  { apply Z.bits_inj'. intros n Hn.
    rewrite Z.land_spec, Z.bits_0.
    destruct (Z.ltb_spec n 8) as [Hlt | Hge].
    - rewrite Z.shiftl_spec_low by lia. apply andb_false_r.
    - replace (Z.testbit a n) with false; [reflexivity|].
      symmetry. destruct (Z.eq_dec a 0) as [-> | Hz]; [apply Z.bits_0|].
      apply Z.bits_above_log2; [lia|].
      apply Z.log2_lt_pow2; [lia|]. apply Z.lt_le_trans with (2 ^ 8); [lia|].
      apply Z.pow_le_mono_r; lia. }
  rewrite <- Z.lxor_lor by exact Hd.
  rewrite <- Z.add_nocarry_lxor by exact Hd.
  rewrite Z.shiftl_mul_pow2 by lia. reflexivity.
Qed.

Lemma le_encode_length n x : length (le_encode n x) = n.
Proof. revert x. induction n as [|n IH]; intros x; cbn; [reflexivity|]. now rewrite IH. Qed.

Lemma le_encode_bytes n x : Forall is_byte (le_encode n x).
Proof.
  revert x. induction n as [|n IH]; intros x; cbn; constructor.
  - unfold is_byte. rewrite land_255. apply Z.mod_pos_bound. lia.
  - apply IH.
Qed.

Lemma land_255_byte x : 0 <= x < 256 -> Z.land x 255 = x.
Proof. intros Hx. rewrite land_255. apply Z.mod_small. exact Hx. Qed.

Lemma land_255_range x : 0 <= Z.land x 255 < 256.
Proof. rewrite land_255. apply Z.mod_pos_bound. lia. Qed.

Lemma pow_8_succ n : 2 ^ (8 * Z.of_nat (S n)) = 256 * 2 ^ (8 * Z.of_nat n).
Proof.
  replace (8 * Z.of_nat (S n)) with (8 + 8 * Z.of_nat n) by lia.
  rewrite Z.pow_add_r by lia. reflexivity.
Qed.

Lemma le_decode_encode n x :
  0 <= x < 2 ^ (8 * Z.of_nat n) -> le_decode (le_encode n x) = x.
Proof.
  revert x. induction n as [|n IH]; intros x Hx.
  - cbn in *. lia.
  - cbn [le_encode le_decode].
    pose proof (pow_8_succ n) as Hp.
    rewrite IH.
    + rewrite (land_255_byte (Z.land x 255)) by apply land_255_range.
      rewrite lor_shiftl_8.
      * rewrite land_255, shiftr_8. pose proof (Z.div_mod x 256). lia.
      * rewrite land_255. apply Z.mod_pos_bound. lia.
    + rewrite shiftr_8. split.
      * apply Z.div_pos; lia.
      * apply Z.div_lt_upper_bound; lia.
Qed.

Lemma le_decode_range b : 0 <= le_decode b < 2 ^ (8 * Z.of_nat (length b)).
Proof.
  induction b as [|x b IH]; cbn [le_decode length]; [cbn; lia|].
  rewrite pow_8_succ. pose proof (land_255_range x).
  rewrite lor_shiftl_8 by assumption. lia.
Qed.

Lemma le_decode_nonneg b : Forall is_byte b -> 0 <= le_decode b.
Proof. intros _. apply le_decode_range. Qed.

Lemma le_encode_nth n : forall x k,
  (k < n)%nat -> nth k (le_encode n x) 0 = Z.land (Z.shiftr x (8 * Z.of_nat k)) 255.
Proof.
  induction n as [|n IH]; intros x k Hk; [lia|].
  destruct k as [|k]; cbn [le_encode nth]; [reflexivity|].
  rewrite IH by lia. rewrite Z.shiftr_shiftr by lia.
  do 2 f_equal. lia.
Qed.

Lemma le_encode_decode b :
  Forall is_byte b -> le_encode (length b) (le_decode b) = b.
Proof.
  induction 1 as [|x b Hx Hb IH]; cbn [length le_encode le_decode]; [reflexivity|].
  pose proof (le_decode_nonneg b Hb) as Hd.
  unfold is_byte in Hx. rewrite (land_255_byte x Hx).
  rewrite lor_shiftl_8 by exact Hx.
  rewrite land_255, shiftr_8.
  replace ((x + le_decode b * 256) mod 256) with x
    by (rewrite Z.mod_add by lia; symmetry; apply Z.mod_small; lia).
  replace ((x + le_decode b * 256) / 256) with (le_decode b)
    by (rewrite Z.div_add by lia; rewrite Z.div_small by lia; lia).
  now rewrite IH.
Qed.

(** C5: decoding the fixed little-endian encoding gives the value back, for
    every f64 bit pattern (a 64-bit number: NaNs with their payload, the two
    zeros and the infinities are bit patterns like any other) and every u32.
    The encoding is the little-endian one: 8 (or 4) bytes, each in [0, 256),
    byte [k] being bits [8k .. 8k+7] of the value.  It is the only byte
    string that decodes to the value: every string of 8 (or 4) bytes is the
    encoding of what it decodes to, so [ev_math_f64_to_bits_u64le_v1]
    returns the 8 bytes it was given. *)
Theorem fixed_width_decode_encode :
  (forall bits : Z, 0 <= bits < 2 ^ 64 ->
     decode_f64 (encode_f64 bits) = Ret bits
     /\ length (encode_f64 bits) = 8%nat
     /\ Forall is_byte (encode_f64 bits)
     /\ forall k, (k < 8)%nat ->
          nth k (encode_f64 bits) 0 = (bits / 2 ^ (8 * Z.of_nat k)) mod 256)
  /\ (forall v : Z, 0 <= v < 2 ^ 32 ->
     decode_u32 (encode_u32 v) = Ret v
     /\ length (encode_u32 v) = 4%nat
     /\ Forall is_byte (encode_u32 v)
     /\ forall k, (k < 4)%nat ->
          nth k (encode_u32 v) 0 = (v / 2 ^ (8 * Z.of_nat k)) mod 256)
  /\ (forall x : ev_bytes, length x = 8%nat -> Forall is_byte x ->
     ev_math_f64_to_bits_u64le_v1 x = Ret x
     /\ exists bits, 0 <= bits < 2 ^ 64
                     /\ decode_f64 x = Ret bits /\ encode_f64 bits = x)
  /\ (forall x : ev_bytes, length x = 4%nat -> Forall is_byte x ->
     exists v, 0 <= v < 2 ^ 32 /\ decode_u32 x = Ret v /\ encode_u32 v = x).
Proof.
  assert (Hnth : forall n x k, (k < n)%nat ->
            nth k (le_encode n x) 0 = (x / 2 ^ (8 * Z.of_nat k)) mod 256).
  { intros n x k Hk. rewrite le_encode_nth by exact Hk.
    rewrite land_255, Z.shiftr_div_pow2 by lia. reflexivity. }
  split; [|split; [|split]].
  - intros bits Hb. unfold decode_f64, encode_f64.
    rewrite le_encode_length. cbn [Z.of_nat Z.eqb Pos.of_succ_nat Pos.succ Pos.eqb].
    split; [now rewrite le_decode_encode|].
    split; [reflexivity|]. split; [apply le_encode_bytes|]. apply Hnth.
  - intros v Hv. unfold decode_u32, encode_u32.
    rewrite le_encode_length. cbn [Z.of_nat Z.eqb Pos.of_succ_nat Pos.succ Pos.eqb].
    split; [now rewrite le_decode_encode|].
    split; [reflexivity|]. split; [apply le_encode_bytes|]. apply Hnth.
  - intros x Hlen Hx. pose proof (le_encode_decode x Hx) as Hr.
    pose proof (le_decode_range x) as Hrange.
    rewrite Hlen in Hr, Hrange.
    unfold ev_math_f64_to_bits_u64le_v1, decode_f64, encode_f64.
    rewrite Hlen. change (Z.of_nat 8 =? 8) with true.
    unfold mbind, mret, outcome_bind, outcome_ret. split; [now rewrite Hr|].
    exists (le_decode x). split; [exact Hrange|]. split; [reflexivity | exact Hr].
  - intros x Hlen Hx. pose proof (le_encode_decode x Hx) as Hr.
    pose proof (le_decode_range x) as Hrange.
    rewrite Hlen in Hr, Hrange.
    unfold decode_u32, encode_u32.
    rewrite Hlen. change (Z.of_nat 4 =? 4) with true.
    exists (le_decode x). split; [exact Hrange|]. split; [reflexivity | exact Hr].
Qed.

(** A quiet NaN with payload 1, minus zero, the largest u32 with its four
    bytes, and the bytes of plus infinity. *)
Lemma fixed_width_decode_encode_witness :
  decode_f64 (encode_f64 0x7FF8000000000001) = Ret 0x7FF8000000000001
  /\ nth 7 (encode_f64 0x7FF8000000000001) 0 = 0x7F
  /\ decode_f64 (encode_f64 0x8000000000000000) = Ret 0x8000000000000000
  /\ decode_u32 (encode_u32 0xFFFFFFFF) = Ret 0xFFFFFFFF
  /\ length (encode_u32 0xFFFFFFFF) = 4%nat
  /\ nth 3 (encode_u32 0x01020304) 0 = 1
  /\ ev_math_f64_to_bits_u64le_v1 [0; 0; 0; 0; 0; 0; 0xF0; 0x7F]
     = Ret [0; 0; 0; 0; 0; 0; 0xF0; 0x7F]
  /\ (exists v, decode_u32 [4; 3; 2; 1] = Ret v /\ encode_u32 v = [4; 3; 2; 1]).
Proof.
  destruct fixed_width_decode_encode as (Hf & Hu & Hb & Hd).
  destruct (Hf 0x7FF8000000000001 ltac:(lia)) as (H1 & _ & _ & H1k).
  destruct (Hf 0x8000000000000000 ltac:(lia)) as (H2 & _).
  destruct (Hu 0xFFFFFFFF ltac:(lia)) as (H3 & H3l & _).
  destruct (Hu 0x01020304 ltac:(lia)) as (_ & _ & _ & H4k).
  split; [exact H1|]. split; [rewrite (H1k 7%nat) by lia; reflexivity|].
  split; [exact H2|]. split; [exact H3|]. split; [exact H3l|].
  split; [rewrite (H4k 3%nat) by lia; reflexivity|].
  split.
  - apply Hb; [reflexivity|]. repeat constructor; unfold is_byte; lia.
  - destruct (Hd [4; 3; 2; 1]) as (v & _ & Hv & He); [reflexivity | |eauto].
    repeat constructor; unfold is_byte; lia.
Defined.

(** C4: a payload whose length is not the required one (8 for an f64, 4 for a
    u32) makes the operation trap with the math family's bad-length code,
    9100 for f64 payloads and 9101 for u32 payloads; no value, and so no
    [Err] result, is returned in that case, also by the one operation whose
    return type is a result. *)
Theorem math_bad_length_traps
    (sem2 : binop -> Z -> Z -> ev_bytes) (sem1 : unop -> Z -> ev_bytes)
    (sem_to_i32_trunc : Z -> ev_result Z) :
  (forall b : ev_bytes, length b <> 8%nat -> decode_f64 b = Trap 9100)
  /\ (forall b : ev_bytes, length b <> 4%nat -> decode_u32 b = Trap 9101)
  /\ (forall o a b, length a <> 8%nat \/ length b <> 8%nat ->
        ev_math_f64_binop_v1 sem2 o a b = Trap 9100)
  /\ (forall o x, length x <> 8%nat ->
        ev_math_f64_unop_v1 sem1 o x = Trap 9100)
  /\ (forall x, length x <> 8%nat ->
        ev_math_f64_to_bits_u64le_v1 x = Trap 9100)
  /\ (forall x, length x <> 8%nat ->
        ev_math_f64_to_i32_trunc_v1 sem_to_i32_trunc x = Trap 9100
        /\ forall r, ev_math_f64_to_i32_trunc_v1 sem_to_i32_trunc x <> Ret r).
Proof.
  assert (Hf : forall b : ev_bytes, length b <> 8%nat -> decode_f64 b = Trap 9100).
  { intros b Hb. unfold decode_f64.
    destruct (Z.eqb_spec (Z.of_nat (length b)) 8) as [He | _]; [lia | reflexivity]. }
  split; [exact Hf|].
  split.
  { intros b Hb. unfold decode_u32.
    destruct (Z.eqb_spec (Z.of_nat (length b)) 4) as [He | _]; [lia | reflexivity]. }
  split.
  { intros o a b Hab. unfold ev_math_f64_binop_v1.
    destruct (Nat.eq_dec (length a) 8%nat) as [Ha | Ha].
    - destruct Hab as [Hab | Hab]; [contradiction|].
      rewrite (Hf b Hab). unfold decode_f64. rewrite Ha. reflexivity.
    - rewrite (Hf a Ha). reflexivity. }
  split.
  { intros o x Hx. unfold ev_math_f64_unop_v1. rewrite (Hf x Hx). reflexivity. }
  split.
  { intros x Hx. unfold ev_math_f64_to_bits_u64le_v1. rewrite (Hf x Hx). reflexivity. }
  intros x Hx. unfold ev_math_f64_to_i32_trunc_v1. rewrite (Hf x Hx).
  split; [reflexivity | intros r; discriminate].
Qed.

(** Seven bytes where an f64 is expected; three where a u32 is. *)
Lemma math_bad_length_traps_witness :
  decode_f64 [1; 2; 3; 4; 5; 6; 7] = Trap 9100
  /\ decode_u32 [1; 2; 3] = Trap 9101
  /\ ev_math_f64_to_i32_trunc_v1 (fun _ => ResErr 1) [1; 2; 3; 4; 5; 6; 7]
     = Trap 9100.
Proof.
  destruct (math_bad_length_traps (fun _ _ _ => []) (fun _ _ => [])
              (fun _ => ResErr 1)) as (Hf & Hu & _ & _ & _ & Ht).
  split; [apply Hf; cbn; lia|].
  split; [apply Hu; cbn; lia|].
  apply Ht. cbn. lia.
Defined.

End FixedWidth.

(** ** The emit channel *)
Section Emit.

Import Xf.
Local Open Scope N_scope.

Variable host_declines : host -> N -> bool.
Variable host_buffer : host -> N -> N.

Local Abbreviation run := (Xf.run host_declines host_buffer).
Local Abbreviation emit_alloc := (Xf.emit_alloc host_declines host_buffer).

Lemma emit_alloc_budget h want : budget (snd (emit_alloc h want)) = budget h.
Proof. unfold Xf.emit_alloc. destruct (_ || _); reflexivity. Qed.

Lemma emit_alloc_stream h want : stream (snd (emit_alloc h want)) = stream h.
Proof. unfold Xf.emit_alloc. destruct (_ || _); reflexivity. Qed.

Lemma emit_commit_budget h out : budget (snd (emit_commit h out)) = budget h.
Proof. unfold emit_commit. destruct (_ <=? _); reflexivity. Qed.

Lemma emit_commit_stream h out :
  Forall used_le_cap (stream h) ->
  Forall used_le_cap (stream (snd (emit_commit h out))).
Proof.
  intros Hs. unfold emit_commit.
  destruct (N.leb_spec (len out) (cap out)) as [Hle | Hgt]; cbn; [|exact Hs].
  apply Forall_app. split; [exact Hs|]. constructor; [exact Hle | constructor].
Qed.

(** Whatever the plugin does, the budget stays the one the instance was
    created with and the stream holds validated buffers only. *)
Lemma run_invariant b calls :
  budget (run (init_host b) calls) = b
  /\ Forall used_le_cap (stream (run (init_host b) calls)).
Proof.
  unfold Xf.run. rewrite <- fold_left_rev_right.
  induction (rev calls) as [|c cs [IHb IHs]]; cbn [fold_right].
  - split; [reflexivity | constructor].
  - destruct c; cbn [do_call].
    + split; [exact IHb | exact IHs].
    + split; [now rewrite emit_alloc_budget | now rewrite emit_alloc_stream].
    + split; [now rewrite emit_commit_budget | now apply emit_commit_stream].
Qed.

(** C2: in every state the plugin can bring the host to, a commit whose
    descriptor has [len > cap] is rejected (non-zero status, nothing enters
    the stream), an accepted commit has [len <= cap] and is what is appended,
    and every buffer in the output stream satisfies [len <= cap]. *)
Theorem emit_commit_validates (b : x07_xf_budget_v1) (calls : list call)
    (out : x07_out_buf_v1) :
  let h := run (init_host b) calls in
  (cap out < len out ->
     fst (emit_commit h out) <> 0%Z /\ snd (emit_commit h out) = h)
  /\ (fst (emit_commit h out) = 0%Z ->
     len out <= cap out /\ stream (snd (emit_commit h out)) = stream h ++ [out])
  /\ Forall used_le_cap (stream h)
  /\ Forall used_le_cap (stream (snd (emit_commit h out))).
Proof.
  intros h. pose proof (run_invariant b calls) as [_ Hs]. fold h in Hs.
  split; [|split; [|split]].
  - intros Hgt. unfold emit_commit.
    destruct (N.leb_spec (len out) (cap out)) as [Hle | _]; [lia|].
    split; [discriminate | reflexivity].
  - unfold emit_commit.
    destruct (N.leb_spec (len out) (cap out)) as [Hle | _]; cbn.
    + intros _. split; [exact Hle | reflexivity].
    + discriminate.
  - exact Hs.
  - now apply emit_commit_stream.
Qed.

End Emit.

(** A plugin that was granted 8 bytes claims to have written 9. *)
Lemma emit_commit_validates_witness :
  let decl := fun (_ : Xf.host) (_ : N) => false in
  let place := fun (_ : Xf.host) (_ : N) => 1%N in
  let h := Xf.run decl place (Xf.init_host Xf.budget16) [Xf.BeginStep; Xf.Alloc 8] in
  let out := {| Xf.ptr := 1; Xf.cap := 8; Xf.len := 9 |} in
  (Xf.cap out < Xf.len out)%N
  /\ fst (Xf.emit_commit h out) <> 0%Z
  /\ snd (Xf.emit_commit h out) = h.
Proof.
  intros decl place h out.
  assert (Hgt : (Xf.cap out < Xf.len out)%N) by (cbn; lia).
  destruct (emit_commit_validates decl place Xf.budget16
              [Xf.BeginStep; Xf.Alloc 8%N] out) as (Hrej & _).
  split; [exact Hgt | exact (Hrej Hgt)].
Defined.

Section EmitBudget.

Import Xf.
Local Open Scope N_scope.

Variable host_declines : host -> N -> bool.
Variable host_buffer : host -> N -> N.

Local Abbreviation run := (Xf.run host_declines host_buffer).
Local Abbreviation emit_alloc := (Xf.emit_alloc host_declines host_buffer).

(** C3: in every state the plugin can bring the host to, [emit_alloc] with a
    capacity above the remaining per-step byte budget returns a non-zero
    status and hands out no buffer; and a buffer that is handed out has
    exactly the capacity asked for, which is within the remaining budget and
    therefore within [max_out_bytes_per_step]. *)
Theorem emit_alloc_respects_budget (b : x07_xf_budget_v1) (calls : list call)
    (want : N) :
  let h := run (init_host b) calls in
  (remaining h < want ->
     fst (fst (emit_alloc h want)) <> 0%Z
     /\ snd (fst (emit_alloc h want)) = None
     /\ snd (emit_alloc h want) = h)
  /\ (forall buf, snd (fst (emit_alloc h want)) = Some buf ->
        fst (fst (emit_alloc h want)) = 0%Z
        /\ cap buf = want
        /\ cap buf <= remaining h
        /\ cap buf <= max_out_bytes_per_step b).
Proof.
  intros h.
  pose proof (run_invariant host_declines host_buffer b calls) as [Hb _].
  fold h in Hb.
  split.
  - intros Hlt. unfold Xf.emit_alloc.
    destruct (N.ltb_spec (remaining h) want) as [_ | Hge]; [|lia].
    cbn. repeat split; discriminate.
  - intros buf. unfold Xf.emit_alloc.
    destruct (N.ltb_spec (remaining h) want) as [Hlt | Hge]; cbn.
    + discriminate.
    + destruct (host_declines h want); cbn; [discriminate|].
      intros [= <-]. cbn. repeat split; try lia.
      unfold remaining in Hge. rewrite Hb in Hge. lia.
Qed.

End EmitBudget.

(** The end-to-end scenario of the spec: the ceiling is 16 and the plugin
    asks for 32. *)
Lemma emit_alloc_respects_budget_witness :
  let decl := fun (_ : Xf.host) (_ : N) => false in
  let place := fun (_ : Xf.host) (_ : N) => 1%N in
  let h := Xf.run decl place (Xf.init_host Xf.budget16) [Xf.BeginStep] in
  (Xf.remaining h < 32)%N
  /\ fst (fst (Xf.emit_alloc decl place h 32)) <> 0%Z
  /\ snd (fst (Xf.emit_alloc decl place h 32)) = None.
Proof.
  intros decl place h.
  assert (Hlt : (Xf.remaining h < 32)%N) by (vm_compute; reflexivity).
  destruct (emit_alloc_respects_budget decl place Xf.budget16 [Xf.BeginStep] 32)
    as (Href & _).
  destruct (Href Hlt) as (H1 & H2 & _).
  split; [exact Hlt|]. split; [exact H1 | exact H2].
Defined.

(** ** The C runtime: rules for reasoning about calls *)
Section Runtime.

Import C.
Local Open Scope Z_scope.

Lemma bind_eq {A B : Type} (m : M A) (k : A -> M B) (w : world) :
  (m ≫= k) w = match m w with Ok a w' => k a w' | Fault e => Fault e end.
Proof. reflexivity. Qed.

Lemma bind_ok {A B : Type} (m : M A) (k : A -> M B) (w w' : world) (a : A) :
  m w = Ok a w' -> (m ≫= k) w = k a w'.
Proof. intros H. rewrite bind_eq, H. reflexivity. Qed.

Lemma bind_fault {A B : Type} (m : M A) (k : A -> M B) (w : world) (f : fault) :
  m w = Fault f -> (m ≫= k) w = Fault f.
Proof. intros H. rewrite bind_eq, H. reflexivity. Qed.

Lemma hoare_ret {A : Type} (P : world -> Prop) (a : A) (Q : A -> world -> Prop) :
  (forall w, P w -> Q a w) -> hoare P (mret a) Q.
Proof. intros H w Hw. exists a, w. split; [reflexivity | auto]. Qed.

Lemma hoare_bind {A B : Type} (P : world -> Prop) (m : M A) (k : A -> M B)
    (R : A -> world -> Prop) (Q : B -> world -> Prop) :
  hoare P m R -> (forall a, hoare (R a) (k a) Q) -> hoare P (m ≫= k) Q.
Proof.
  intros Hm Hk w Hw. destruct (Hm w Hw) as (a & w1 & E1 & HR).
  destruct (Hk a w1 HR) as (b & w2 & E2 & HQ).
  exists b, w2. split; [|exact HQ]. rewrite (bind_ok _ _ _ _ _ E1). exact E2.
Qed.

Lemma hoare_conseq {A : Type} (P P' : world -> Prop) (m : M A)
    (Q Q' : A -> world -> Prop) :
  hoare P' m Q' -> (forall w, P w -> P' w) ->
  (forall a w, Q' a w -> Q a w) -> hoare P m Q.
Proof.
  intros H HP HQ w Hw. destruct (H w (HP w Hw)) as (a & w' & E & Hq).
  exists a, w'. auto.
Qed.

(** A precondition that does not depend on the state can be assumed. *)
Lemma hoare_assume {A : Type} (F : Prop) (P : world -> Prop) (m : M A)
    (Q : A -> world -> Prop) :
  (F -> hoare P m Q) -> hoare (fun w => P w /\ F) m Q.
Proof. intros H w [Hw HF]. exact (H HF w Hw). Qed.

Lemma owns_null sz w : owns NULL sz w.
Proof. intros H. congruence. Qed.

Lemma st_tick n o sz w : st n o sz w -> st n o sz (tick w).
Proof. intros [[] Ho]. split; [constructor; assumption | exact Ho]. Qed.

Lemma st_drop n o sz w : st n o sz w -> st n NULL 0 w.
Proof. intros [Ht _]. split; [exact Ht | apply owns_null]. Qed.

(** Rewriting the contents of the held block. *)
Lemma st_set_block n o sz b w :
  o <> NULL -> length b = sz -> st n o sz w -> st n o sz (set_block o b w).
Proof.
  intros Ho Hb [[H1 H2 H3 H4 H5] Hown]. destruct (Hown Ho) as [(b0 & Hb0 & _) Hno].
  split.
  - constructor; cbn; try assumption.
    intros i p Hi Hp. destruct (decide (p = o)) as [-> | Hne].
    + rewrite lookup_insert_eq. eauto.
    + rewrite lookup_insert_ne by congruence. eauto.
  - intros _. split; [|exact Hno]. exists b. cbn.
    rewrite lookup_insert_eq. auto.
Qed.

Lemma length_garbage E k size : length (garbage E k size) = Z.to_nat size.
Proof. unfold garbage. now rewrite length_map, length_seq. Qed.

Lemma malloc_st E n size :
  hoare (st n NULL 0) (malloc E size) (fun p w => st n p (Z.to_nat size) w).
Proof.
  intros w [Ht _]. unfold malloc.
  destruct (negb (o_malloc E (clock w) =? NULL)%N
            && bool_decide (heap w !! o_malloc E (clock w) = None)) eqn:Hc.
  - apply andb_true_iff in Hc as [Hnz Hfresh].
    apply negb_true_iff, N.eqb_neq in Hnz. apply bool_decide_eq_true in Hfresh.
    eexists _, _. split; [reflexivity|].
    destruct Ht as [H1 H2 H3 H4 H5]. split.
    + constructor; cbn; try assumption.
      intros i p Hi Hp. destruct (H4 i p Hi Hp) as [b Hb].
      rewrite lookup_insert_ne by congruence. eauto.
    + intros _. split.
      * eexists. cbn. rewrite lookup_insert_eq. split; [reflexivity|].
        apply length_garbage.
      * intros i Hi. cbn in Hi. destruct (H4 i _ Hi Hnz) as [b Hb]. congruence.
  - eexists _, _. split; [reflexivity|]. apply st_tick. split; [exact Ht|apply owns_null].
Qed.

Lemma free_st n o sz : hoare (st n o sz) (free o) (fun _ w => st n NULL 0 w).
Proof.
  intros w [Ht Ho]. unfold free.
  destruct (N.eqb_spec o NULL) as [-> | Hnz].
  - eexists _, _. split; [reflexivity|]. split; [exact Ht | apply owns_null].
  - destruct (Ho Hnz) as [(b & Hb & _) Hno]. rewrite Hb.
    eexists _, _. split; [reflexivity|]. split; [|apply owns_null].
    destruct Ht as [H1 H2 H3 H4 H5]. constructor; cbn; try assumption.
    intros i p Hi Hp. rewrite lookup_delete_ne; [eauto|].
    intros <-. exact (Hno i Hi).
Qed.

Lemma store_st n o sz i v :
  o <> NULL -> 0 <= i < Z.of_nat sz ->
  hoare (st n o sz) (store o i v) (fun _ w => st n o sz w).
Proof.
  intros Hnz Hi w Hst. pose proof Hst as [_ Ho].
  destruct (Ho Hnz) as [(b & Hb & Hlen) _]. unfold store. rewrite Hb.
  destruct (Z.leb_spec 0 i); [|lia]. destruct (Z.ltb_spec i (Z.of_nat (length b))); [|lia].
  eexists _, _. split; [reflexivity|].
  apply (st_set_block n o sz); [exact Hnz | | exact Hst].
  now rewrite length_insert.
Qed.

Lemma memwrite_st n o sz off bs :
  bs = [] \/ (o <> NULL /\ 0 <= off /\ off + Z.of_nat (length bs) <= Z.of_nat sz) ->
  hoare (st n o sz) (memwrite o off bs) (fun _ w => st n o sz w).
Proof.
  intros Hc w Hst. unfold memwrite. destruct bs as [|x bs].
  { eexists _, _. split; [reflexivity | exact Hst]. }
  destruct Hc as [Hc | (Hnz & Hoff & Hfit)]; [discriminate|].
  pose proof Hst as [_ Ho]. destruct (Ho Hnz) as [(b & Hb & Hlen) _]. rewrite Hb.
  destruct (Z.leb_spec 0 off); [|lia].
  destruct (Z.leb_spec (off + Z.of_nat (length (x :: bs))) (Z.of_nat (length b))); [|lia].
  eexists _, _. split; [reflexivity|].
  apply (st_set_block n o sz); [exact Hnz | | exact Hst].
  rewrite !length_app, length_take, length_drop. lia.
Qed.

Lemma RAND_bytes_st E n o sz off num :
  o <> NULL -> 0 <= off -> 0 <= num -> off + num <= Z.of_nat sz ->
  hoare (st n o sz) (RAND_bytes E o off num) (fun _ w => st n o sz w).
Proof.
  intros Hnz Hoff Hnum Hfit w Hst. unfold RAND_bytes.
  destruct (o_rand E (clock w)) as [rc bs].
  destruct (memwrite_st n o sz off
              (rand_fill bs num)) with (w := tick w)
    as (u & w' & Ew & Hw').
  - right. unfold rand_fill. rewrite length_map, length_seq.
    repeat split; [exact Hnz | lia | lia].
  - now apply st_tick.
  - eexists _, _. split; [|exact Hw']. rewrite (bind_ok _ _ _ _ _ Ew). reflexivity.
Qed.

End Runtime.

(** ** The buffer-slot tables *)
Section Tables.

Import C.
Local Open Scope Z_scope.

(** The two shims carry the same table code. *)
Lemma zlib_alloc_slot_loop_eq fuel i w :
  Zlib.alloc_slot_loop fuel i w = Openssl.alloc_buf_slot_loop fuel i w.
Proof.
  revert i w. induction fuel as [|fuel IH]; intros i w; [reflexivity|].
  cbn [Zlib.alloc_slot_loop Openssl.alloc_buf_slot_loop].
  change Zlib.X07_EXT_ZLIB_MAX_BUFS with Openssl.X07_EXT_OPENSSL_MAX_BUFS.
  destruct (i <? Openssl.X07_EXT_OPENSSL_MAX_BUFS); [|reflexivity].
  rewrite !bind_eq. destruct (get_buf i w) as [p w'|]; [|reflexivity].
  destruct (p =? NULL)%N; [reflexivity | apply IH].
Qed.

Lemma zlib_alloc_slot_eq w :
  Zlib.x07_ext_zlib_alloc_slot w = Openssl.x07_ext_openssl_alloc_buf_slot w.
Proof. apply zlib_alloc_slot_loop_eq. Qed.

Lemma zlib_buf_free_eq :
  Zlib.x07_ext_zlib_buf_free = Openssl.x07_ext_openssl_buf_free.
Proof. reflexivity. Qed.

Lemma get_buf_eq w i p :
  0 <= i -> g_bufs w !! Z.to_nat i = Some p -> get_buf i w = Ok p w.
Proof.
  intros Hi Hp. unfold get_buf. destruct (Z.leb_spec 0 i); [|lia]. now rewrite Hp.
Qed.

Lemma u32_small x : 0 <= x < 4294967296 -> u32 x = x.
Proof. intros H. unfold u32. now apply Z.mod_small. Qed.

Lemma alloc_buf_slot_loop_spec w fuel i :
  length (g_bufs w) = 4096%nat ->
  1 <= i <= 4096 ->
  (4096 - i < Z.of_nat fuel) ->
  (forall k, (1 <= k < Z.to_nat i)%nat -> g_bufs w !! k <> Some NULL) ->
  exists h, Openssl.alloc_buf_slot_loop fuel i w = Ok h w
            /\ slot_answer 4096 h w.
Proof.
  intros Hlen. revert i. induction fuel as [|fuel IH]; intros i Hi Hfuel Hbefore.
  { lia. }
  cbn [Openssl.alloc_buf_slot_loop]. unfold Openssl.X07_EXT_OPENSSL_MAX_BUFS.
  destruct (Z.ltb_spec i 4096) as [Hlt | Hge].
  - destruct (lookup_lt_is_Some_2 (g_bufs w) (Z.to_nat i)) as [p Hp]; [lia|].
    rewrite (bind_ok _ _ _ _ _ (get_buf_eq w i p ltac:(lia) Hp)).
    destruct (N.eqb_spec p NULL) as [-> | Hnz].
    + exists i. split; [reflexivity|]. right. repeat split; try lia; assumption.
    + rewrite u32_small by lia.
      apply IH; [lia | lia|].
      intros k Hk. destruct (decide (k = Z.to_nat i)) as [-> | Hne].
      * rewrite Hp. congruence.
      * apply Hbefore. lia.
  - exists 0. split; [reflexivity|]. left. split; [reflexivity|].
    intros k Hk. apply Hbefore. lia.
Qed.

Lemma alloc_buf_slot_spec w :
  length (g_bufs w) = 4096%nat ->
  exists h, Openssl.x07_ext_openssl_alloc_buf_slot w = Ok h w
            /\ slot_answer 4096 h w.
Proof.
  intros Hlen.
  unfold Openssl.x07_ext_openssl_alloc_buf_slot, Openssl.X07_EXT_OPENSSL_MAX_BUFS.
  apply alloc_buf_slot_loop_spec; [exact Hlen | lia | lia |].
  intros k Hk. lia.
Qed.

Lemma alloc_buf_slot_st o sz :
  hoare (st 4096 o sz) Openssl.x07_ext_openssl_alloc_buf_slot
    (fun h w => st 4096 o sz w /\ slot_answer 4096 h w).
Proof.
  intros w Hst. destruct (alloc_buf_slot_spec w) as (h & Eh & Hh).
  - destruct Hst as [[] _]. assumption.
  - exists h, w. auto.
Qed.

Lemma zlib_alloc_slot_st o sz :
  hoare (st 4096 o sz) Zlib.x07_ext_zlib_alloc_slot
    (fun h w => st 4096 o sz w /\ slot_answer 4096 h w).
Proof.
  intros w Hst. rewrite zlib_alloc_slot_eq. now apply alloc_buf_slot_st.
Qed.

(** Storing the held block (or, for zlib's zero-size inflate, no block and
    length 0) in a granted slot. *)
Lemma publish_st o sz h len :
  (o = NULL -> len = 0) ->
  hoare (fun w => st 4096 o sz w /\ 1 <= h < 4096
                  /\ g_bufs w !! Z.to_nat h = Some NULL)
    (set_buf h o;; set_len h len)
    (fun _ w => st 4096 NULL 0 w /\ g_bufs w !! Z.to_nat h = Some o
                /\ g_lens w !! Z.to_nat h = Some len).
Proof.
  intros Hlen w ([[H1 H2 H3 H4 H5] Ho] & Hh & Hfree).
  unfold set_buf, set_len. rewrite bind_eq. rewrite H1.
  destruct (Z.leb_spec 0 h); [|lia]. destruct (Z.ltb_spec h (Z.of_nat 4096)); [|lia].
  cbn [andb with_bufs g_lens heap g_bufs]. rewrite H2.
  destruct (Z.ltb_spec h (Z.of_nat 4096)); [|lia]. cbn [andb].
  eexists _, _. split; [reflexivity|].
  assert (Hb : (Z.to_nat h < length (g_bufs w))%nat) by lia.
  assert (Hl : (Z.to_nat h < length (g_lens w))%nat) by lia.
  split; [split; [|apply owns_null] |].
  - constructor; cbn.
    + now rewrite length_insert.
    + now rewrite length_insert.
    + intros i Hi. destruct (decide (i = Z.to_nat h)) as [-> | Hne].
      * rewrite list_lookup_insert_eq in Hi by exact Hb.
        rewrite list_lookup_insert_eq by exact Hl.
        injection Hi as Hi. now rewrite (Hlen Hi).
      * rewrite list_lookup_insert_ne in Hi by congruence.
        rewrite list_lookup_insert_ne by congruence. auto.
    + intros i p Hi Hp. destruct (decide (i = Z.to_nat h)) as [-> | Hne].
      * rewrite list_lookup_insert_eq in Hi by exact Hb. injection Hi as <-.
        destruct (Ho Hp) as [(b & Hbk & _) _]. eauto.
      * rewrite list_lookup_insert_ne in Hi by congruence. eauto.
    + intros i j p Hi Hj Hp.
      destruct (decide (i = Z.to_nat h)) as [-> | Hni];
        destruct (decide (j = Z.to_nat h)) as [-> | Hnj]; try reflexivity.
      * rewrite list_lookup_insert_eq in Hi by exact Hb. injection Hi as <-.
        rewrite list_lookup_insert_ne in Hj by congruence.
        destruct (Ho Hp) as [_ Hno]. now destruct (Hno j).
      * rewrite list_lookup_insert_eq in Hj by exact Hb. injection Hj as <-.
        rewrite list_lookup_insert_ne in Hi by congruence.
        destruct (Ho Hp) as [_ Hno]. now destruct (Hno i).
      * rewrite list_lookup_insert_ne in Hi by congruence.
        rewrite list_lookup_insert_ne in Hj by congruence. eauto.
  - cbn. split; now rewrite list_lookup_insert_eq.
Qed.

(** [buf_free] on any [uint32_t] handle keeps the table in order and never
    faults. *)
Lemma buf_free_st h :
  0 <= h ->
  hoare (st 4096 NULL 0) (Openssl.x07_ext_openssl_buf_free h)
    (fun _ w => st 4096 NULL 0 w
                /\ (0 < h < 4096 -> g_bufs w !! Z.to_nat h = Some NULL)).
Proof.
  intros Hh w Hst. unfold Openssl.x07_ext_openssl_buf_free,
    Openssl.X07_EXT_OPENSSL_MAX_BUFS.
  destruct (Z.eqb_spec h 0) as [-> | Hnz]; cbn [orb].
  { eexists _, _. split; [reflexivity | split; [exact Hst | lia]]. }
  destruct (Z.leb_spec 4096 h) as [Hge | Hlt].
  { eexists _, _. split; [reflexivity | split; [exact Hst | lia]]. }
  pose proof Hst as [[H1 H2 H3 H4 H5] _].
  destruct (lookup_lt_is_Some_2 (g_bufs w) (Z.to_nat h)) as [p Hp]; [lia|].
  rewrite (bind_ok _ _ _ _ _ (get_buf_eq w h p Hh Hp)).
  (* after the conditional free the table still lists [p] in slot [h] only *)
  assert (Hmid : hoare (fun w' => w' = w)
                   (if (p =? NULL)%N then mret tt else free p)
                   (fun _ w' => g_bufs w' = g_bufs w /\ g_lens w' = g_lens w
                      /\ forall i q, g_bufs w !! i = Some q -> q <> NULL ->
                                     i <> Z.to_nat h -> is_Some (heap w' !! q))).
  { intros w' ->. destruct (N.eqb_spec p NULL) as [-> | Hpn].
    - eexists _, _. split; [reflexivity|]. repeat split. eauto.
    - unfold free. destruct (N.eqb_spec p NULL); [contradiction|].
      destruct (H4 _ _ Hp Hpn) as [b Hb]. rewrite Hb.
      eexists _, _. split; [reflexivity|]. cbn. repeat split.
      intros i q Hi Hq Hne. rewrite lookup_delete_ne; [eauto|].
      intros <-. apply Hne. exact (H5 _ _ _ Hi Hp Hq). }
  destruct (Hmid w eq_refl) as (u & w1 & E1 & Hb1 & Hl1 & Hlive).
  rewrite (bind_ok _ _ _ _ _ E1).
  unfold set_buf, set_len. rewrite bind_eq, Hb1, H1.
  destruct (Z.leb_spec 0 h); [|lia]. destruct (Z.ltb_spec h (Z.of_nat 4096)); [|lia].
  cbn [andb with_bufs g_lens heap g_bufs]. rewrite Hl1, H2.
  destruct (Z.ltb_spec h (Z.of_nat 4096)); [|lia]. cbn [andb].
  eexists _, _. split; [reflexivity|].
  assert (Hb : (Z.to_nat h < length (g_bufs w))%nat) by lia.
  assert (Hl : (Z.to_nat h < length (g_lens w))%nat) by lia.
  split; [|intros _; cbn; now apply list_lookup_insert_eq].
  split; [|apply owns_null]. constructor; cbn; rewrite ?Hb1, ?Hl1.
  - now rewrite length_insert.
  - now rewrite length_insert.
  - intros i Hi. destruct (decide (i = Z.to_nat h)) as [-> | Hne].
    + now rewrite list_lookup_insert_eq.
    + rewrite list_lookup_insert_ne in Hi by congruence.
      rewrite list_lookup_insert_ne by congruence. auto.
  - intros i q Hi Hq. destruct (decide (i = Z.to_nat h)) as [-> | Hne].
    + rewrite list_lookup_insert_eq in Hi by exact Hb. congruence.
    + rewrite list_lookup_insert_ne in Hi by congruence. eauto.
  - intros i j q Hi Hj Hq.
    destruct (decide (i = Z.to_nat h)) as [-> | Hni].
    { rewrite list_lookup_insert_eq in Hi by exact Hb. congruence. }
    destruct (decide (j = Z.to_nat h)) as [-> | Hnj].
    { rewrite list_lookup_insert_eq in Hj by exact Hb. congruence. }
    rewrite list_lookup_insert_ne in Hi by congruence.
    rewrite list_lookup_insert_ne in Hj by congruence. eauto.
Qed.

Lemma hoare_assoc {A B D : Type} (P : world -> Prop) (m : M A) (k1 : A -> M B)
    (k2 : B -> M D) (Q : D -> world -> Prop) :
  hoare P ((m ≫= k1) ≫= k2) Q -> hoare P (m ≫= (fun a => k1 a ≫= k2)) Q.
Proof.
  intros H w Hw. destruct (H w Hw) as (d & w' & E & Hq). exists d, w'.
  split; [|exact Hq]. rewrite <- E. rewrite !bind_eq. destruct (m w); reflexivity.
Qed.

Lemma hoare_if {A : Type} (c : bool) (P : world -> Prop) (m1 m2 : M A)
    (Q : A -> world -> Prop) :
  (c = true -> hoare P m1 Q) -> (c = false -> hoare P m2 Q) ->
  hoare P (if c then m1 else m2) Q.
Proof. destruct c; auto. Qed.

Lemma publish_then {A : Type} o sz h len (x : A) (Q : A -> world -> Prop) :
  (o = NULL -> len = 0) ->
  (forall w, st 4096 NULL 0 w -> Q x w) ->
  hoare (fun w => st 4096 o sz w /\ 1 <= h < 4096
                  /\ g_bufs w !! Z.to_nat h = Some NULL)
    (set_buf h o;; set_len h len;; mret x) Q.
Proof.
  intros Hlen HQ. apply hoare_assoc.
  eapply hoare_bind; [apply (publish_st o sz h len Hlen)|].
  intros []. apply hoare_ret. intros w (Hw & _). auto.
Qed.

Lemma tail_st {A : Type} (scan : M Z) o sz len (rel : M unit) (a : A) (b : Z -> A) :
  hoare (st 4096 o sz) scan (fun h w => st 4096 o sz w /\ slot_answer 4096 h w) ->
  (o = NULL -> len = 0) ->
  hoare (st 4096 o sz) rel (fun _ w => st 4096 NULL 0 w) ->
  hoare (st 4096 o sz)
    (slot ← scan;
     if slot =? 0 then rel;; mret a
     else set_buf slot o;; set_len slot len;; mret (b slot))
    (fun _ w => st 4096 NULL 0 w).
Proof.
  intros Hscan Hlen Hrel. eapply hoare_bind; [exact Hscan|].
  intros slot. cbn beta.
  destruct (Z.eqb_spec slot 0) as [-> | Hnz].
  - eapply hoare_bind.
    + eapply hoare_conseq; [exact Hrel | intros w [Hw _]; exact Hw | intros ? ? H; exact H].
    + intros []. apply hoare_ret. auto.
  - eapply hoare_conseq; [apply (publish_then o sz slot len (b slot) (fun _ w => st 4096 NULL 0 w) Hlen) | | ]; auto.
    intros w (Hw & [[? _] | (Hr & Hf & _)]); [contradiction|]. auto.
Qed.

Lemma write_u32_le_st n o sz off v :
  o <> NULL -> 0 <= off -> off + 3 < Z.of_nat sz ->
  hoare (st n o sz) (Openssl.x07_ext_write_u32_le o off v) (fun _ w => st n o sz w).
Proof.
  intros Ho H0 H3. unfold Openssl.x07_ext_write_u32_le.
  repeat (eapply hoare_bind; [apply store_st; [exact Ho | lia] | intros []]).
  apply store_st; [exact Ho | lia].
Qed.

Lemma make_err_doc_st E code out_len :
  hoare (st 4096 NULL 0) (Openssl.x07_ext_make_err_doc E code out_len)
    (fun r w => st 4096 (fst r) 9 w).
Proof.
  unfold Openssl.x07_ext_make_err_doc.
  eapply hoare_bind; [apply malloc_st|]. intros buf. cbn beta.
  change (Z.to_nat 9) with 9%nat.
  destruct (N.eqb_spec buf NULL) as [-> | Hnz].
  - apply hoare_ret. intros w Hw. exact Hw.
  - eapply hoare_bind; [apply store_st; [exact Hnz | lia] | intros []].
    eapply hoare_bind; [apply write_u32_le_st; [exact Hnz | lia | lia] | intros []].
    eapply hoare_bind; [apply write_u32_le_st; [exact Hnz | lia | lia] | intros []].
    apply hoare_ret. intros w Hw. exact Hw.
Qed.

Lemma rand_bytes_alloc_st E len out_handle :
  0 <= len < 4294967296 ->
  hoare (st 4096 NULL 0) (Openssl.x07_ext_openssl_rand_bytes_alloc E len out_handle)
    (fun _ w => st 4096 NULL 0 w).
Proof.
  intros Hlen. unfold Openssl.x07_ext_openssl_rand_bytes_alloc.
  destruct (Z.ltb_spec (1024 * 1024) len) as [Hbig | Hsmall].
  - eapply hoare_bind; [apply make_err_doc_st|]. intros [doc dl]. cbn [fst].
    destruct (N.eqb_spec doc NULL) as [-> | Hnz].
    + apply hoare_ret. intros w Hw. exact (st_drop _ _ _ _ Hw).
    + apply (tail_st Openssl.x07_ext_openssl_alloc_buf_slot doc 9 _ (free doc) _ (fun slot => (0, assign (assign out_handle 0) slot))).
      * apply alloc_buf_slot_st.
      * congruence.
      * apply free_st.
  - eapply hoare_bind; [apply malloc_st|]. intros doc. cbn beta.
    rewrite u32_small by lia.
    destruct (N.eqb_spec doc NULL) as [-> | Hnz].
    + apply hoare_ret. intros w Hw. exact (st_drop _ _ _ _ Hw).
    + eapply hoare_bind; [apply store_st; [exact Hnz | lia] | intros []].
      cbn zeta.
      destruct (Z.eqb_spec len 0) as [-> | Hl0]; cbn [negb].
      * apply (tail_st Openssl.x07_ext_openssl_alloc_buf_slot doc _ _ (free doc) _ (fun slot => (0, assign (assign out_handle 0) slot)));
          [apply alloc_buf_slot_st | congruence | apply free_st].
      * eapply hoare_bind.
        { apply RAND_bytes_st; [exact Hnz | lia | | ].
          - unfold int_of_u32. destruct (Z.ltb_spec len 2147483648); lia.
          - unfold int_of_u32. destruct (Z.ltb_spec len 2147483648); lia. }
        intros rc. cbn beta. destruct (negb (rc =? 1)).
        -- eapply hoare_bind; [apply free_st | intros []].
           eapply hoare_bind; [apply make_err_doc_st|]. intros [doc' dl]. cbn [fst].
           destruct (N.eqb_spec doc' NULL) as [-> | Hnz'].
           ++ apply hoare_ret. intros w Hw. exact (st_drop _ _ _ _ Hw).
           ++ apply (tail_st Openssl.x07_ext_openssl_alloc_buf_slot doc' 9 _ (free doc') _ (fun slot => (0, assign (assign out_handle 0) slot)));
          [apply alloc_buf_slot_st | congruence | apply free_st].
        -- apply (tail_st Openssl.x07_ext_openssl_alloc_buf_slot doc _ _ (free doc) _ (fun slot => (0, assign (assign out_handle 0) slot)));
          [apply alloc_buf_slot_st | congruence | apply free_st].
Qed.

Lemma alloc_filled_st E n filled :
  0 <= n ->
  hoare (st 4096 NULL 0) (Openssl.alloc_filled E n filled)
    (fun _ w => st 4096 NULL 0 w).
Proof.
  intros Hn. unfold Openssl.alloc_filled.
  eapply hoare_bind; [apply malloc_st|]. intros buf. cbn beta.
  destruct (N.eqb_spec buf NULL) as [-> | Hnz].
  - apply hoare_ret. intros w Hw. exact (st_drop _ _ _ _ Hw).
  - destruct filled as [bs|].
    + eapply hoare_bind.
      { apply memwrite_st. right. rewrite length_take. repeat split; [exact Hnz | lia | lia]. }
      intros []. apply (tail_st Openssl.x07_ext_openssl_alloc_buf_slot buf _ _ (free buf) _ (fun slot => slot));
        [apply alloc_buf_slot_st | congruence | apply free_st].
    + eapply hoare_bind; [apply free_st | intros []]. apply hoare_ret. auto.
Qed.

Lemma init_world_ok n h : st n NULL 0 (init_world n h).
Proof.
  split; [|apply owns_null]. constructor; cbn.
  - apply length_replicate.
  - apply length_replicate.
  - intros i Hi. apply lookup_replicate in Hi as [_ Hi].
    now apply lookup_replicate.
  - intros i p Hi Hp. apply lookup_replicate in Hi as [-> _]. congruence.
  - intros i j p Hi Hp. apply lookup_replicate in Hi as [-> _]. congruence.
Qed.

Lemma u32_range x : 0 <= u32 x < 4294967296.
Proof. unfold u32. apply Z.mod_pos_bound. lia. Qed.

Lemma hoare_then_tt {A : Type} (P : world -> Prop) (m : M A) (Q : world -> Prop) :
  hoare P m (fun _ w => Q w) -> hoare P (m;; mret tt) (fun _ w => Q w).
Proof.
  intros H. eapply hoare_bind; [exact H|]. intros a. apply hoare_ret. auto.
Qed.

Lemma openssl_do_api_st E c :
  hoare (st 4096 NULL 0) (Openssl.do_api E c) (fun _ w => st 4096 NULL 0 w).
Proof.
  destruct c as [len oh | n filled | h]; cbn [Openssl.do_api].
  - apply hoare_then_tt. apply rand_bytes_alloc_st. apply u32_range.
  - apply hoare_then_tt. apply alloc_filled_st. apply u32_range.
  - eapply hoare_conseq; [apply (buf_free_st (u32 h)), u32_range | auto |].
    intros a w [Hw _]. exact Hw.
Qed.

Lemma openssl_reachable_ok E w : Openssl.reachable E w -> table_ok 4096 w.
Proof.
  induction 1 as [h | w c w' _ IH Hc].
  - apply (init_world_ok 4096 h).
  - destruct (openssl_do_api_st E c w) as (u & w1 & E1 & Hw1).
    + split; [exact IH | apply owns_null].
    + rewrite Hc in E1. injection E1 as _ <-. apply Hw1.
Qed.

Lemma release_st o sz :
  hoare (st 4096 o sz) (if (o =? NULL)%N then mret tt else free o)
    (fun _ w => st 4096 NULL 0 w).
Proof.
  destruct (N.eqb_spec o NULL) as [-> | Hnz].
  - apply hoare_ret. intros w Hw. exact (st_drop _ _ _ _ Hw).
  - apply free_st.
Qed.

Lemma free_then {A : Type} o sz (a : A) :
  hoare (st 4096 o sz) (free o;; mret a) (fun _ w => st 4096 NULL 0 w).
Proof. eapply hoare_bind; [apply free_st | intros []]. apply hoare_ret. auto. Qed.

Lemma release_then {A : Type} o sz (a : A) :
  hoare (st 4096 o sz) ((if (o =? NULL)%N then mret tt else free o);; mret a)
    (fun _ w => st 4096 NULL 0 w).
Proof. eapply hoare_bind; [apply release_st | intros []]. apply hoare_ret. auto. Qed.

(** *** Calls that read the caller's memory *)

Lemma unless_total {A : Type} F (P : world -> Prop) (m : M A) Q :
  hoare P m Q -> hoare_unless F P m Q.
Proof. intros H w Hw. left. exact (H w Hw). Qed.

Lemma unless_bind {A B : Type} F (P : world -> Prop) (m : M A) (k : A -> M B)
    (R : A -> world -> Prop) (Q : B -> world -> Prop) :
  hoare_unless F P m R -> (forall a, hoare_unless F (R a) (k a) Q) ->
  hoare_unless F P (m ≫= k) Q.
Proof.
  intros Hm Hk w Hw. destruct (Hm w Hw) as [(a & w1 & E1 & HR) | (HF & f & E1)].
  - rewrite (bind_ok _ _ _ _ _ E1). exact (Hk a w1 HR).
  - right. split; [exact HF|]. exists f. rewrite bind_eq, E1. reflexivity.
Qed.

Lemma unless_conseq {A : Type} F (P P' : world -> Prop) (m : M A)
    (Q Q' : A -> world -> Prop) :
  hoare_unless F P' m Q' -> (forall w, P w -> P' w) ->
  (forall a w, Q' a w -> Q a w) -> hoare_unless F P m Q.
Proof.
  intros H HP HQ w Hw. destruct (H w (HP w Hw)) as [(a & w' & E & Hq) | Hf].
  - left. exists a, w'. auto.
  - right. exact Hf.
Qed.

(** With a readable argument the call returns. *)
Lemma unless_returns {A : Type} (F : Prop) (P : world -> Prop) (m : M A) Q :
  hoare_unless F P m Q -> ~ F -> hoare P m Q.
Proof. intros H HF w Hw. destruct (H w Hw) as [Hok | [HF' _]]; [exact Hok | contradiction]. Qed.

(** Whatever the argument, a call that returned did so in [Q]. *)
Lemma unless_returned {A : Type} (F : Prop) (P : world -> Prop) (m : M A) Q w a w' :
  hoare_unless F P m Q -> P w -> m w = Ok a w' -> Q a w'.
Proof.
  intros H Hw Hrun. destruct (H w Hw) as [(a1 & w1 & E1 & Hq) | (_ & f & E1)].
  - rewrite Hrun in E1. injection E1 as <- <-. exact Hq.
  - rewrite Hrun in E1. discriminate.
Qed.

Lemma bytes_at_unless (P : world -> Prop) l len :
  hoare_unless (~ len <= Z.of_nat (length l)) P (bytes_at (Some l) len)
    (fun bs w => P w /\ bs = take (Z.to_nat len) l).
Proof.
  intros w Hw. unfold bytes_at.
  destruct (Z.leb_spec len (Z.of_nat (length l))) as [Hle | Hgt].
  - left. eexists _, _. split; [reflexivity|]. auto.
  - right. split; [lia|]. eexists. reflexivity.
Qed.

Lemma call_compress_st L n o cap source source_len :
  o <> NULL ->
  hoare_unless (~ source_len <= Z.of_nat (length source)) (st n o (Z.to_nat cap))
    (Zlib.call_compress L o cap source source_len)
    (fun _ w => st n o (Z.to_nat cap) w).
Proof.
  intros Hnz. unfold Zlib.call_compress.
  eapply unless_bind; [apply bytes_at_unless|]. intros input. cbn beta.
  destruct (Zlib.compress L input cap) as [rc produced].
  apply unless_total. apply hoare_assume. intros _.
  eapply hoare_bind.
  { apply memwrite_st. right. rewrite length_take. repeat split; [exact Hnz | lia | lia]. }
  intros []. apply hoare_ret. auto.
Qed.

Lemma call_uncompress_st L n o cap source source_len :
  o <> NULL ->
  hoare_unless (~ source_len <= Z.of_nat (length source)) (st n o (Z.to_nat cap))
    (Zlib.call_uncompress L o cap source source_len)
    (fun _ w => st n o (Z.to_nat cap) w).
Proof.
  intros Hnz. unfold Zlib.call_uncompress.
  eapply unless_bind; [apply bytes_at_unless|]. intros input. cbn beta.
  destruct (Zlib.uncompress L input cap) as [rc produced].
  apply unless_total. apply hoare_assume. intros _.
  eapply hoare_bind.
  { apply memwrite_st. right. rewrite length_take. repeat split; [exact Hnz | lia | lia]. }
  intros []. apply hoare_ret. auto.
Qed.

Lemma compress_alloc_st E L source source_len out_handle :
  hoare_unless (~ source_len <= Z.of_nat (length source)) (st 4096 NULL 0)
    (Zlib.x07_ext_zlib_compress_alloc E L source source_len out_handle)
    (fun _ w => st 4096 NULL 0 w).
Proof.
  unfold Zlib.x07_ext_zlib_compress_alloc. cbn zeta.
  set (bound := ulong (Zlib.compressBound L (ulong source_len))).
  destruct (UINT32_MAX <? bound); [apply unless_total, hoare_ret; auto|].
  eapply unless_bind; [apply unless_total, malloc_st|]. intros buf. cbn beta.
  destruct (N.eqb_spec buf NULL) as [-> | Hnz].
  { apply unless_total, hoare_ret. intros w Hw. exact (st_drop _ _ _ _ Hw). }
  eapply unless_bind; [apply call_compress_st; exact Hnz|]. intros [rc out_len].
  apply unless_total.
  destruct (negb (rc =? 0)); [apply free_then|].
  destruct (UINT32_MAX <? _); [apply free_then|].
  apply (tail_st Zlib.x07_ext_zlib_alloc_slot buf _ _ (free buf) _ (fun h => (0, assign (assign out_handle 0) h)));
    [apply zlib_alloc_slot_st | congruence | apply free_st].
Qed.

Lemma uncompress_alloc_st E L source source_len max_size out_handle :
  hoare_unless (~ source_len <= Z.of_nat (length source)) (st 4096 NULL 0)
    (Zlib.x07_ext_zlib_uncompress_alloc E L source source_len max_size out_handle)
    (fun _ w => st 4096 NULL 0 w).
Proof.
  unfold Zlib.x07_ext_zlib_uncompress_alloc. cbn zeta.
  destruct (UINT32_MAX <? max_size); [apply unless_total, hoare_ret; auto|].
  eapply unless_bind; [apply unless_total, malloc_st|]. intros buf. cbn beta.
  destruct (N.eqb_spec buf NULL) as [-> | Hnz].
  { apply unless_total, hoare_ret. intros w Hw. exact (st_drop _ _ _ _ Hw). }
  eapply unless_bind; [apply call_uncompress_st; exact Hnz|]. intros [rc out_len].
  apply unless_total.
  destruct (negb (rc =? 0)); [apply free_then|].
  destruct (UINT32_MAX <? _); [apply free_then|].
  apply (tail_st Zlib.x07_ext_zlib_alloc_slot buf _ _ (free buf) _ (fun h => (0, assign (assign out_handle 0) h)));
    [apply zlib_alloc_slot_st | congruence | apply free_st].
Qed.

(** *** The inflate stream *)

(** A block that is added to or taken from the heap beside the table's. *)
Lemma st_aside_add n o sz s b w :
  s <> NULL -> heap w !! s = None -> st n o sz w ->
  st n o sz (set_block s b (tick w)) /\ aside s o (set_block s b (tick w)).
Proof.
  intros Hs Hfresh [[H1 H2 H3 H4 H5] Ho].
  assert (Hno : forall i, g_bufs w !! i <> Some s).
  { intros i Hi. destruct (H4 i s Hi Hs) as [blk Hblk]. congruence. }
  assert (Hso : o <> NULL -> s <> o).
  { intros Hnz ->. destruct (Ho Hnz) as [(blk & Hblk & _) _]. congruence. }
  split; [split|].
  - constructor; cbn; try assumption.
    intros i p Hi Hp. destruct (H4 i p Hi Hp) as [blk Hblk].
    rewrite lookup_insert_ne by congruence. eauto.
  - intros Hnz. destruct (Ho Hnz) as [(blk & Hblk & Hlen) Hnot]. split; [|exact Hnot].
    exists blk. cbn. rewrite lookup_insert_ne by (apply Hso; exact Hnz). auto.
  - split; [exact Hs|]. split.
    + intros ->. destruct (N.eq_dec o NULL) as [-> | Hnz]; [congruence|].
      exact (Hso Hnz eq_refl).
    + split; [|exact Hno]. cbn. rewrite lookup_insert_eq. eauto.
Qed.

Lemma st_aside_remove n o sz s w :
  st n o sz w -> aside s o w ->
  st n o sz (with_heap (delete s (heap w)) w).
Proof.
  intros [[H1 H2 H3 H4 H5] Ho] (Hs & Hso & _ & Hno). split.
  - constructor; cbn; try assumption.
    intros i p Hi Hp. rewrite lookup_delete_ne; [eauto|].
    intros <-. exact (Hno i Hi).
  - intros Hnz. destruct (Ho Hnz) as [(blk & Hblk & Hlen) Hnot]. split; [|exact Hnot].
    exists blk. cbn. rewrite lookup_delete_ne by exact Hso. auto.
Qed.

Lemma call_inflateInit2_st E L n o sz window_bits :
  hoare (st n o sz) (Zlib.call_inflateInit2 E L window_bits)
    (fun r w => st n o sz w /\ (fst r = Zlib.Z_OK -> aside (snd r) o w)).
Proof.
  intros w Hst. unfold Zlib.call_inflateInit2.
  destruct (Z.eqb_spec (Zlib.inflateInit2 L window_bits) Zlib.Z_OK) as [Hrc | Hrc];
    cbn [negb].
  2:{ eexists _, _. split; [reflexivity|]. split; [exact Hst|]. intros H. contradiction. }
  rewrite bind_eq. unfold malloc.
  destruct (negb (o_malloc E (clock w) =? NULL)%N
            && bool_decide (heap w !! o_malloc E (clock w) = None)) eqn:Hc.
  - apply andb_true_iff in Hc as [Hnz Hfresh].
    apply negb_true_iff in Hnz. rewrite Hnz. apply N.eqb_neq in Hnz.
    apply bool_decide_eq_true in Hfresh.
    eexists _, _. split; [reflexivity|]. cbn [fst snd].
    destruct (st_aside_add n o sz _ (garbage E (clock w) 0) w Hnz Hfresh Hst) as [H1 H2].
    split; [exact H1|]. intros _. exact H2.
  - cbn [N.eqb NULL]. eexists _, _. split; [reflexivity|]. cbn [fst].
    split; [now apply st_tick|]. unfold Zlib.Z_MEM_ERROR, Zlib.Z_OK. discriminate.
Qed.

Lemma memwrite_aside s o off bs w w' :
  memwrite o off bs w = Ok tt w' -> aside s o w -> aside s o w'.
Proof.
  unfold memwrite. intros Hrun (Hs & Hso & Hlive & Hno). destruct bs as [|x bs].
  { injection Hrun as <-. repeat split; assumption. }
  destruct (heap w !! o) as [b|]; [|discriminate].
  destruct (_ && _); [|discriminate]. injection Hrun as <-.
  split; [exact Hs|]. split; [exact Hso|]. split; [|exact Hno].
  cbn. rewrite lookup_insert_ne by congruence. exact Hlive.
Qed.

Lemma call_inflate_st L n o cap s window_bits source source_len :
  hoare_unless (~ source_len <= Z.of_nat (length source))
    (fun w => st n o (Z.to_nat cap) w /\ aside s o w)
    (Zlib.call_inflate L window_bits o cap source source_len)
    (fun r w => st n o (Z.to_nat cap) w /\ aside s o w
                /\ (o = NULL -> fst r = Zlib.Z_STREAM_ERROR)).
Proof.
  unfold Zlib.call_inflate. destruct (N.eqb_spec o NULL) as [-> | Hnz].
  { apply unless_total, hoare_ret. intros w [H1 H2]. auto. }
  eapply unless_bind; [apply bytes_at_unless|]. intros input. cbn beta.
  destruct (Zlib.inflate L window_bits input cap) as [rc produced].
  apply unless_total. intros w [[Hst Ha] _].
  destruct (memwrite_st n o (Z.to_nat cap) 0 (take (Z.to_nat cap) produced)) with (w := w)
    as ([] & w' & Ew & Hw').
  { right. rewrite length_take. repeat split; [exact Hnz | lia | lia]. }
  { exact Hst. }
  eexists _, w'. split; [rewrite (bind_ok _ _ _ _ _ Ew); reflexivity|].
  split; [exact Hw'|]. split; [exact (memwrite_aside _ _ _ _ _ _ Ew Ha)|].
  intros H. contradiction.
Qed.

Lemma call_inflateEnd_st n o sz s :
  hoare (fun w => st n o sz w /\ aside s o w) (Zlib.call_inflateEnd s)
    (fun rc w => rc = Zlib.Z_OK /\ st n o sz w).
Proof.
  intros w [Hst Ha]. pose proof Ha as (Hs & _ & [blk Hblk] & _).
  unfold Zlib.call_inflateEnd. destruct (N.eqb_spec s NULL) as [|_]; [contradiction|].
  rewrite bind_eq. unfold free. destruct (N.eqb_spec s NULL) as [|_]; [contradiction|].
  rewrite Hblk. eexists _, _. split; [reflexivity|]. split; [reflexivity|].
  exact (st_aside_remove n o sz s w Hst Ha).
Qed.

Lemma inflate_alloc_window_bits_st E L source source_len max_size window_bits out_handle :
  hoare_unless (~ source_len <= Z.of_nat (length source)) (st 4096 NULL 0)
    (Zlib.x07_ext_zlib_inflate_alloc_window_bits E L source source_len max_size
       window_bits out_handle)
    (fun _ w => st 4096 NULL 0 w).
Proof.
  unfold Zlib.x07_ext_zlib_inflate_alloc_window_bits. cbn zeta.
  eapply unless_bind; [apply unless_total, malloc_st|]. intros buf. cbn beta.
  destruct ((buf =? NULL)%N && negb (max_size =? 0)) eqn:Hguard.
  { apply unless_total, hoare_ret. intros w Hw. exact (st_drop _ _ _ _ Hw). }
  eapply unless_bind; [apply unless_total, call_inflateInit2_st|].
  intros [rc strm]. cbn [fst snd].
  destruct (Z.eqb_spec rc Zlib.Z_OK) as [-> | Hrc]; cbn [negb].
  2:{ apply unless_total.
      eapply hoare_conseq; [apply (release_then buf (Z.to_nat max_size)) | | auto].
      intros w [Hw _]. exact Hw. }
  eapply unless_bind.
  { eapply unless_conseq; [apply (call_inflate_st L 4096 buf max_size strm) | | ].
    - intros w [Hw Ha]. split; [exact Hw | exact (Ha eq_refl)].
    - intros r w H. exact H. }
  intros [rc total_out]. cbn [fst]. apply unless_total.
  destruct (Z.eqb_spec rc Zlib.Z_STREAM_END) as [-> | Hend]; cbn [negb].
  2:{ eapply hoare_bind.
      { eapply hoare_conseq; [apply (call_inflateEnd_st 4096 buf (Z.to_nat max_size) strm) | | ].
        - intros w (Hw & Ha & _). auto.
        - intros r w H. exact H. }
      intros r. eapply hoare_conseq; [apply (release_then buf (Z.to_nat max_size)) | | auto].
      intros w [_ Hw]. exact Hw. }
  eapply hoare_bind with
    (R := fun r w => r = Zlib.Z_OK /\ buf <> NULL /\ st 4096 buf (Z.to_nat max_size) w).
  { intros w (Hw & Ha & Hnull).
    destruct (call_inflateEnd_st 4096 buf (Z.to_nat max_size) strm w (conj Hw Ha))
      as (r & w' & Er & -> & Hw').
    exists Zlib.Z_OK, w'. split; [exact Er|]. split; [reflexivity|]. split; [|exact Hw'].
    intros ->. specialize (Hnull eq_refl). unfold Zlib.Z_STREAM_END, Zlib.Z_STREAM_ERROR in Hnull.
    discriminate. }
  intros r. apply hoare_conseq with
    (P' := fun w => (st 4096 buf (Z.to_nat max_size) w /\ buf <> NULL) /\ r = Zlib.Z_OK)
    (Q' := fun _ w => st 4096 NULL 0 w); [|intros w (H1 & H2 & H3); auto|auto].
  apply hoare_assume. intros ->. apply hoare_assume. intros Hnz.
  change (negb (Zlib.Z_OK =? Zlib.Z_OK)) with false. cbv iota.
  destruct (UINT32_MAX <? _); [apply release_then|].
  apply (tail_st Zlib.x07_ext_zlib_alloc_slot buf _ _ (if (buf =? NULL)%N then mret tt else free buf) _
           (fun h => (0, assign (assign out_handle 0) h))).
  - apply zlib_alloc_slot_st.
  - intros Hb. contradiction.
  - apply release_st.
Qed.

Lemma zlib_do_api_st E L c :
  hoare_unless (~ Zlib.well_formed c) (st 4096 NULL 0) (Zlib.do_api E L c)
    (fun _ w => st 4096 NULL 0 w).
Proof.
  destruct c; cbn [Zlib.do_api Zlib.well_formed].
  - eapply unless_bind; [apply compress_alloc_st|]. intros a. apply unless_total, hoare_ret. auto.
  - eapply unless_bind; [apply uncompress_alloc_st|]. intros a. apply unless_total, hoare_ret. auto.
  - eapply unless_bind; [apply inflate_alloc_window_bits_st|]. intros a.
    apply unless_total, hoare_ret. auto.
  - eapply unless_bind; [apply inflate_alloc_window_bits_st|]. intros a.
    apply unless_total, hoare_ret. auto.
  - apply unless_total.
    eapply hoare_conseq; [apply (buf_free_st (u32 handle)), u32_range | auto |].
    intros a w [Hw _]. exact Hw.
Qed.

Lemma zlib_reachable_ok E L w : Zlib.reachable E L w -> table_ok 4096 w.
Proof.
  induction 1 as [h | w c w' _ IH Hc].
  - apply (init_world_ok 4096 h).
  - apply (unless_returned _ _ _ _ w tt w' (zlib_do_api_st E L c)); [|exact Hc].
    split; [exact IH | apply owns_null].
Qed.

End Tables.

(** ** Handles *)
Section Handles.

Import C.
Local Open Scope Z_scope.

Lemma world_eta w :
  {| heap := heap w; g_bufs := g_bufs w; g_lens := g_lens w; clock := clock w |} = w.
Proof. destruct w; reflexivity. Qed.

(** Freeing handle 0, a handle past the table, or a handle whose slot is
    empty changes nothing. *)
Lemma buf_free_noop w h :
  table_ok 4096 w -> 0 <= h ->
  h = 0 \/ 4096 <= h \/ g_bufs w !! Z.to_nat h = Some NULL ->
  Openssl.x07_ext_openssl_buf_free h w = Ok tt w.
Proof.
  intros [H1 H2 H3 _ _] Hh Hdead.
  unfold Openssl.x07_ext_openssl_buf_free, Openssl.X07_EXT_OPENSSL_MAX_BUFS.
  destruct (Z.eqb_spec h 0) as [-> | Hnz]; cbn [orb]; [reflexivity|].
  destruct (Z.leb_spec 4096 h) as [Hge | Hlt]; [reflexivity|].
  destruct Hdead as [? | [? | Hnull]]; [lia | lia |].
  rewrite (bind_ok _ _ _ _ _ (get_buf_eq w h NULL Hh Hnull)).
  cbn [N.eqb NULL]. rewrite bind_eq. cbn [mret M_ret].
  unfold set_buf, set_len. rewrite bind_eq, H1.
  destruct (Z.leb_spec 0 h); [|lia]. destruct (Z.ltb_spec h (Z.of_nat 4096)); [|lia].
  cbn [andb with_bufs g_lens]. rewrite H2.
  destruct (Z.ltb_spec h (Z.of_nat 4096)); [|lia]. cbn [andb].
  unfold with_lens, with_bufs. cbn [heap g_bufs g_lens clock].
  rewrite (list_insert_id _ _ _ Hnull), (list_insert_id _ _ _ (H3 _ Hnull)).
  now rewrite world_eta.
Qed.

(** In a table that is in order, freeing any [uint32_t] handle returns, and
    freeing it a second time changes nothing. *)
Lemma buf_free_twice w h :
  table_ok 4096 w -> 0 <= h ->
  exists w', Openssl.x07_ext_openssl_buf_free h w = Ok tt w'
             /\ Openssl.x07_ext_openssl_buf_free h w' = Ok tt w'.
Proof.
  intros Hok Hh.
  destruct (buf_free_st h Hh w) as ([] & w' & E1 & [Hok' _] & Hnull).
  { split; [exact Hok | apply owns_null]. }
  exists w'. split; [exact E1|]. apply buf_free_noop; [exact Hok' | exact Hh |].
  destruct (Z.eq_dec h 0); [auto|]. destruct (Z_le_gt_dec 4096 h); [auto|].
  right. right. apply Hnull. lia.
Qed.

(** C7: a drop or free of a handle that names nothing at that moment is a
    no-op that returns normally.  For the filesystem stream table: a handle
    that is not open (never opened, already closed, already dropped) leaves
    the table as it is, and no drop traps.  For the zlib and OpenSSL buffer
    tables, in every state the entry points can produce: freeing any
    [uint32_t] handle returns without fault and a second free of it changes
    nothing; freeing handle 0, a handle of 4096 or more, or a handle whose
    slot is empty (never granted, or freed and not granted again since)
    leaves heap and table exactly as they were. *)
Theorem drop_of_dead_handle_is_noop :
  (forall (rc_dropped rc_nothing rc_closed err_bad_handle : Z)
          (t : gmap Z (list Z)) (h : Z),
     let drop := Fs.x07_ext_fs_stream_drop_v1 rc_dropped rc_nothing in
     let close := Fs.x07_ext_fs_stream_close_v1 rc_closed err_bad_handle in
     (forall code, drop h t <> Fs.Trap code)
     /\ (t !! h = None -> drop h t = Fs.Ret rc_nothing t)
     /\ (forall r t', close h t = Fs.Ret r t' -> drop h t' = Fs.Ret rc_nothing t')
     /\ (forall r t', drop h t = Fs.Ret r t' -> drop h t' = Fs.Ret rc_nothing t'))
  /\ (forall E L w h, Zlib.reachable E L w -> 0 <= h < 2 ^ 32 ->
        (exists w', Zlib.x07_ext_zlib_buf_free h w = Ok tt w'
                    /\ Zlib.x07_ext_zlib_buf_free h w' = Ok tt w')
        /\ (h = 0 \/ 4096 <= h \/ g_bufs w !! Z.to_nat h = Some NULL ->
            Zlib.x07_ext_zlib_buf_free h w = Ok tt w))
  /\ (forall E w h, Openssl.reachable E w -> 0 <= h < 2 ^ 32 ->
        (exists w', Openssl.x07_ext_openssl_buf_free h w = Ok tt w'
                    /\ Openssl.x07_ext_openssl_buf_free h w' = Ok tt w')
        /\ (h = 0 \/ 4096 <= h \/ g_bufs w !! Z.to_nat h = Some NULL ->
            Openssl.x07_ext_openssl_buf_free h w = Ok tt w)).
Proof.
  split; [|split].
  - intros rcd rcn rcc ebh t h drop close. subst drop close.
    unfold Fs.x07_ext_fs_stream_drop_v1, Fs.x07_ext_fs_stream_close_v1.
    split; [|split; [|split]].
    + intros code. destruct (t !! h); discriminate.
    + intros ->. reflexivity.
    + intros r t'. destruct (t !! h) eqn:Hh; intros [= _ <-].
      * now rewrite lookup_delete_eq.
      * now rewrite Hh.
    + intros r t'. destruct (t !! h) eqn:Hh; intros [= _ <-].
      * now rewrite lookup_delete_eq.
      * now rewrite Hh.
  - intros E L w h Hr Hh. pose proof (zlib_reachable_ok E L w Hr) as Hok.
    rewrite zlib_buf_free_eq. split.
    + apply buf_free_twice; [exact Hok | lia].
    + apply buf_free_noop; [exact Hok | lia].
  - intros E w h Hr Hh. pose proof (openssl_reachable_ok E w Hr) as Hok. split.
    + apply buf_free_twice; [exact Hok | lia].
    + apply buf_free_noop; [exact Hok | lia].
Qed.

(** A stream closed and then dropped, and a handle never opened; in each
    shim, after one allocation: the handle freed twice, the empty slot 2,
    handle 0 and a handle past the table. *)
Lemma drop_of_dead_handle_is_noop_witness :
  let t : gmap Z (list Z) := {[3 := [1; 2]]} in
  let drop := Fs.x07_ext_fs_stream_drop_v1 0 1 in
  let zw := Zlib.one_buffer in
  let ow := Openssl.one_buffer in
  (drop 3 (delete 3 t) = Fs.Ret 1 (delete 3 t) /\ drop 9 t = Fs.Ret 1 t)
  /\ (Zlib.reachable oracle_ok Zlib.zlib_stored zw
      /\ (exists w', Zlib.x07_ext_zlib_buf_free 1 zw = Ok tt w'
                     /\ Zlib.x07_ext_zlib_buf_free 1 w' = Ok tt w')
      /\ Zlib.x07_ext_zlib_buf_free 2 zw = Ok tt zw
      /\ Zlib.x07_ext_zlib_buf_free 0 zw = Ok tt zw
      /\ Zlib.x07_ext_zlib_buf_free 5000 zw = Ok tt zw)
  /\ (Openssl.reachable oracle_ok ow
      /\ (exists w', Openssl.x07_ext_openssl_buf_free 1 ow = Ok tt w'
                     /\ Openssl.x07_ext_openssl_buf_free 1 w' = Ok tt w')
      /\ Openssl.x07_ext_openssl_buf_free 2 ow = Ok tt ow
      /\ Openssl.x07_ext_openssl_buf_free 0 ow = Ok tt ow
      /\ Openssl.x07_ext_openssl_buf_free 5000 ow = Ok tt ow).
Proof.
  intros t drop zw ow.
  assert (Hz : Zlib.reachable oracle_ok Zlib.zlib_stored zw).
  { apply (Zlib.reach_call oracle_ok Zlib.zlib_stored (init_world 4096 ∅)
             (Zlib.CompressAlloc [1; 2; 3] 3 (Some 0))).
    - apply (Zlib.reach_init oracle_ok Zlib.zlib_stored ∅).
    - vm_compute. reflexivity. }
  assert (Ho : Openssl.reachable oracle_ok ow).
  { apply (Openssl.reach_call oracle_ok (init_world 4096 ∅)
             (Openssl.RandBytesAlloc 2 (Some 0))).
    - apply (Openssl.reach_init oracle_ok ∅).
    - vm_compute. reflexivity. }
  destruct drop_of_dead_handle_is_noop as (Tf & Tz & To).
  split; [|split].
  - destruct (Tf 0 1 7 8 t 3) as (_ & _ & Hclose & _).
    destruct (Tf 0 1 7 8 t 9) as (_ & Hnone & _ & _).
    split; [exact (Hclose _ _ eq_refl) | exact (Hnone eq_refl)].
  - split; [exact Hz|].
    split; [exact (proj1 (Tz _ _ zw 1 Hz ltac:(lia)))|].
    split; [|split].
    + apply (Tz _ _ zw 2 Hz); [lia | right; right; reflexivity].
    + apply (Tz _ _ zw 0 Hz); [lia | left; reflexivity].
    + apply (Tz _ _ zw 5000 Hz); [lia | right; left; lia].
  - split; [exact Ho|].
    split; [exact (proj1 (To _ ow 1 Ho ltac:(lia)))|].
    split; [|split].
    + apply (To _ ow 2 Ho); [lia | right; right; reflexivity].
    + apply (To _ ow 0 Ho); [lia | left; reflexivity].
    + apply (To _ ow 5000 Ho); [lia | right; left; lia].
Defined.

Lemma run_calls_reachable E cs : forall w w',
  Openssl.reachable E w -> Openssl.run_calls E cs w = Ok tt w' -> Openssl.reachable E w'.
Proof.
  induction cs as [|c cs IH]; intros w w' Hr Hrun; cbn [Openssl.run_calls] in Hrun.
  - injection Hrun as <-. exact Hr.
  - unfold mbind, M_bind in Hrun.
    destruct (Openssl.do_api E c w) as [[] w1|] eqn:Hc; [|discriminate].
    exact (IH w1 w' (Openssl.reach_call E w c w1 Hr Hc) Hrun).
Qed.

Lemma zlib_run_calls_reachable E L cs : forall w w',
  Zlib.reachable E L w -> Zlib.run_calls E L cs w = Ok tt w' -> Zlib.reachable E L w'.
Proof.
  induction cs as [|c cs IH]; intros w w' Hr Hrun; cbn [Zlib.run_calls] in Hrun.
  - injection Hrun as <-. exact Hr.
  - unfold mbind, M_bind in Hrun.
    destruct (Zlib.do_api E L c w) as [[] w1|] eqn:Hc; [|discriminate].
    exact (IH w1 w' (Zlib.reach_call E L w c w1 Hr Hc) Hrun).
Qed.

(** C7 as stated fails for an already-freed handle whose slot has been
    granted again.  In both shims a handle is a slot number and the scan
    hands out the lowest empty slot: allocate (handle 1), free handle 1,
    allocate again (handle 1 again, a new block).  Freeing handle 1 once
    more, a handle that was already freed, is then no no-op: it releases
    the new owner's block and empties its slot. *)
Lemma stale_handle_frees_new_buffer :
  (let cs := [Openssl.RandBytesAlloc 2 (Some 0); Openssl.BufFree 1;
              Openssl.RandBytesAlloc 2 (Some 0)] in
   exists w w' p b,
     Openssl.run_calls oracle_ok cs (init_world 4096 ∅) = Ok tt w
     /\ Openssl.reachable oracle_ok w
     /\ g_bufs w !! 1%nat = Some p /\ p <> NULL /\ heap w !! p = Some b
     /\ Openssl.x07_ext_openssl_buf_free 1 w = Ok tt w'
     /\ heap w' !! p = None /\ g_bufs w' !! 1%nat = Some NULL
     /\ g_bufs w' <> g_bufs w)
  /\ (let cs := [Zlib.CompressAlloc [1; 2; 3] 3 (Some 0); Zlib.BufFree 1;
                 Zlib.CompressAlloc [4; 5] 2 (Some 0)] in
      exists w w' p b,
        Zlib.run_calls oracle_ok Zlib.zlib_stored cs (init_world 4096 ∅) = Ok tt w
        /\ Zlib.reachable oracle_ok Zlib.zlib_stored w
        /\ g_bufs w !! 1%nat = Some p /\ p <> NULL /\ heap w !! p = Some b
        /\ Zlib.x07_ext_zlib_buf_free 1 w = Ok tt w'
        /\ heap w' !! p = None /\ g_bufs w' !! 1%nat = Some NULL
        /\ g_bufs w' <> g_bufs w).
Proof.
  split.
  - intros cs.
    destruct (Openssl.run_calls oracle_ok cs (init_world 4096 ∅)) as [[] w|] eqn:Hrun;
      [|vm_compute in Hrun; discriminate].
    destruct (Openssl.x07_ext_openssl_buf_free 1 w) as [[] w'|] eqn:Hfree;
      [|revert Hfree; vm_compute in Hrun; injection Hrun as <-; vm_compute; discriminate].
    pose proof (run_calls_reachable oracle_ok cs _ _ (Openssl.reach_init oracle_ok ∅) Hrun)
      as Hreach.
    vm_compute in Hrun. injection Hrun as <-.
    vm_compute in Hfree. injection Hfree as <-.
    eexists _, _, _, _. split; [reflexivity|]. split; [exact Hreach|].
    split; [vm_compute; reflexivity|]. split; [unfold NULL; discriminate|].
    split; [vm_compute; reflexivity|]. split; [reflexivity|].
    split; [vm_compute; reflexivity|]. split; [vm_compute; reflexivity|].
    intros Heq. apply (f_equal (fun l => l !! 1%nat)) in Heq. vm_compute in Heq. discriminate.
  - intros cs.
    destruct (Zlib.run_calls oracle_ok Zlib.zlib_stored cs (init_world 4096 ∅))
      as [[] w|] eqn:Hrun; [|vm_compute in Hrun; discriminate].
    destruct (Zlib.x07_ext_zlib_buf_free 1 w) as [[] w'|] eqn:Hfree;
      [|revert Hfree; vm_compute in Hrun; injection Hrun as <-; vm_compute; discriminate].
    pose proof (zlib_run_calls_reachable oracle_ok Zlib.zlib_stored cs _ _
                  (Zlib.reach_init oracle_ok Zlib.zlib_stored ∅) Hrun) as Hreach.
    vm_compute in Hrun. injection Hrun as <-.
    vm_compute in Hfree. injection Hfree as <-.
    eexists _, _, _, _. split; [reflexivity|]. split; [exact Hreach|].
    split; [vm_compute; reflexivity|]. split; [unfold NULL; discriminate|].
    split; [vm_compute; reflexivity|]. split; [reflexivity|].
    split; [vm_compute; reflexivity|]. split; [vm_compute; reflexivity|].
    intros Heq. apply (f_equal (fun l => l !! 1%nat)) in Heq. vm_compute in Heq. discriminate.
Qed.

(** C10: a slot scan returns without touching the state; its answer [h] is
    below 4096; a non-zero answer names a slot that holds no buffer at that
    moment, so it differs from every handle whose slot holds one; and the
    answer is 0 only when every slot from 1 to 4095 is taken.  Slot 0 is
    skipped by the scan and never granted. *)
Theorem slot_grant_is_free_slot (w : world) :
  length (g_bufs w) = 4096%nat ->
  exists h,
    Openssl.x07_ext_openssl_alloc_buf_slot w = Ok h w
    /\ Zlib.x07_ext_zlib_alloc_slot w = Ok h w
    /\ 0 <= h < 4096
    /\ (h <> 0 -> 1 <= h /\ g_bufs w !! Z.to_nat h = Some NULL)
    /\ (h = 0 -> forall i, (1 <= i < 4096)%nat -> g_bufs w !! i <> Some NULL)
    /\ (forall h1 p, 0 <= h1 -> g_bufs w !! Z.to_nat h1 = Some p -> p <> NULL ->
                     h <> 0 -> h <> h1).
Proof.
  intros Hlen. destruct (alloc_buf_slot_spec w Hlen) as (h & Eh & Hh).
  exists h. split; [exact Eh|]. split; [rewrite zlib_alloc_slot_eq; exact Eh|].
  destruct Hh as [[-> Hfull] | (Hr & Hfree & _)].
  - split; [lia|]. split; [congruence|]. split; [auto|]. congruence.
  - split; [lia|]. split; [intros _; split; [lia | exact Hfree]|].
    split; [lia|]. intros h1 p Hh1 Hp Hnz _ ->. congruence.
Qed.

Lemma slot_grant_is_free_slot_witness :
  let w := with_bufs (<[1%nat := 5%N]> (replicate 4096 NULL))
             (init_world 4096 {[5%N := [1]]}) in
  length (g_bufs w) = 4096%nat
  /\ exists h, Openssl.x07_ext_openssl_alloc_buf_slot w = Ok h w /\ h <> 1.
Proof.
  intros w.
  assert (Hlen : length (g_bufs w) = 4096%nat) by (vm_compute; reflexivity).
  destruct (slot_grant_is_free_slot w Hlen) as (h & Eh & _ & Hr & Hfree & Hfull & Hlive).
  split; [exact Hlen|]. exists h. split; [exact Eh|].
  destruct (Z.eq_dec h 0) as [-> | Hnz]; [lia|].
  apply (Hlive 1 5%N); [lia | reflexivity | discriminate | exact Hnz].
Defined.

End Handles.

(** ** Random bytes *)
Section RandomBytes.

Import C.
Local Open Scope Z_scope.

Lemma set_block_twice p b1 b2 w : set_block p b2 (set_block p b1 w) = set_block p b2 w.
Proof. unfold set_block, with_heap. cbn. now rewrite insert_insert_eq. Qed.

Lemma set_block_lookup p b w : heap (set_block p b w) !! p = Some b.
Proof. cbn. apply lookup_insert_eq. Qed.

Lemma malloc_ok E size w :
  o_malloc E (clock w) <> NULL -> heap w !! o_malloc E (clock w) = None ->
  malloc E size w
  = Ok (o_malloc E (clock w))
       (set_block (o_malloc E (clock w)) (garbage E (clock w) size) (tick w)).
Proof.
  intros Hnz Hfresh. unfold malloc.
  destruct (N.eqb_spec (o_malloc E (clock w)) NULL) as [|_]; [contradiction|].
  rewrite bool_decide_eq_true_2 by exact Hfresh. reflexivity.
Qed.

(** A block of nine bytes, whatever they are. *)
Lemma nine_bytes (b : list Z) :
  length b = 9%nat ->
  exists a0 a1 a2 a3 a4 a5 a6 a7 a8, b = [a0; a1; a2; a3; a4; a5; a6; a7; a8].
Proof.
  intros H.
  destruct b as [|a0 [|a1 [|a2 [|a3 [|a4 [|a5 [|a6 [|a7 [|a8 [|a9 b]]]]]]]]]];
    try discriminate.
  now exists a0, a1, a2, a3, a4, a5, a6, a7, a8.
Qed.

Lemma malloc_fail E size w :
  o_malloc E (clock w) = NULL -> malloc E size w = Ok NULL (tick w).
Proof. intros H. unfold malloc. rewrite H. reflexivity. Qed.

Lemma malloc_cases E size w :
  malloc E size w = Ok NULL (tick w)
  \/ (o_malloc E (clock w) <> NULL /\ heap w !! o_malloc E (clock w) = None
      /\ malloc E size w
         = Ok (o_malloc E (clock w))
              (set_block (o_malloc E (clock w)) (garbage E (clock w) size) (tick w))).
Proof.
  destruct (N.eq_dec (o_malloc E (clock w)) NULL) as [Hz | Hnz].
  { left. now apply malloc_fail. }
  destruct (heap w !! o_malloc E (clock w)) as [blk|] eqn:Hlive.
  - left. unfold malloc. rewrite Hlive.
    rewrite bool_decide_eq_false_2 by discriminate. now rewrite andb_false_r.
  - right. split; [exact Hnz|]. split; [reflexivity|]. now apply malloc_ok.
Qed.

Lemma store_set_block p b w i v :
  0 <= i < Z.of_nat (length b) ->
  store p i v (set_block p b w) = Ok tt (set_block p (<[Z.to_nat i := v]> b) w).
Proof.
  intros Hi. unfold store. rewrite set_block_lookup.
  destruct (Z.leb_spec 0 i); [|lia]. destruct (Z.ltb_spec i (Z.of_nat (length b))); [|lia].
  cbn [andb]. f_equal. apply set_block_twice.
Qed.

Lemma memwrite_set_block p b w off bs :
  0 <= off -> off + Z.of_nat (length bs) <= Z.of_nat (length b) ->
  memwrite p off bs (set_block p b w)
  = Ok tt (set_block p (take (Z.to_nat off) b ++ bs
                        ++ drop (Z.to_nat off + length bs) b) w).
Proof.
  intros Hoff Hfit. unfold memwrite. destruct bs as [|x bs].
  - cbn [app length]. rewrite Nat.add_0_r, take_drop. reflexivity.
  - rewrite set_block_lookup.
    destruct (Z.leb_spec 0 off); [|lia].
    destruct (Z.leb_spec (off + Z.of_nat (length (x :: bs))) (Z.of_nat (length b))); [|lia].
    cbn [andb]. f_equal. apply set_block_twice.
Qed.

Lemma set_buf_eq w h p :
  0 <= h < Z.of_nat (length (g_bufs w)) ->
  set_buf h p w = Ok tt (with_bufs (<[Z.to_nat h := p]> (g_bufs w)) w).
Proof.
  intros Hh. unfold set_buf. destruct (Z.leb_spec 0 h); [|lia].
  destruct (Z.ltb_spec h (Z.of_nat (length (g_bufs w)))); [|lia]. reflexivity.
Qed.

Lemma set_len_eq w h n :
  0 <= h < Z.of_nat (length (g_lens w)) ->
  set_len h n w = Ok tt (with_lens (<[Z.to_nat h := n]> (g_lens w)) w).
Proof.
  intros Hh. unfold set_len. destruct (Z.leb_spec 0 h); [|lia].
  destruct (Z.ltb_spec h (Z.of_nat (length (g_lens w)))); [|lia]. reflexivity.
Qed.

Lemma store_then {B : Type} p b w i v (k : unit -> M B) :
  0 <= i < Z.of_nat (length b) ->
  (store p i v ≫= k) (set_block p b w)
  = k tt (set_block p (<[Z.to_nat i := v]> b) w).
Proof. intros Hi. apply bind_ok. now apply store_set_block. Qed.

Lemma write_u32_le_set_block p b w off v :
  0 <= off -> off + 3 < Z.of_nat (length b) ->
  Openssl.x07_ext_write_u32_le p off v (set_block p b w)
  = Ok tt (set_block p
             (<[Z.to_nat (off + 3) := u8 (Z.land (Z.shiftr v 24) 255)]>
                (<[Z.to_nat (off + 2) := u8 (Z.land (Z.shiftr v 16) 255)]>
                   (<[Z.to_nat (off + 1) := u8 (Z.land (Z.shiftr v 8) 255)]>
                      (<[Z.to_nat (off + 0) := u8 (Z.land v 255)]> b)))) w).
Proof.
  intros H0 H3. unfold Openssl.x07_ext_write_u32_le.
  do 3 (rewrite store_then by (repeat rewrite length_insert; lia)).
  apply store_set_block. repeat rewrite length_insert. lia.
Qed.

Lemma write_u32_le_then {B : Type} p b w off v (k : unit -> M B) :
  0 <= off -> off + 3 < Z.of_nat (length b) ->
  (Openssl.x07_ext_write_u32_le p off v ≫= k) (set_block p b w)
  = k tt (set_block p
             (<[Z.to_nat (off + 3) := u8 (Z.land (Z.shiftr v 24) 255)]>
                (<[Z.to_nat (off + 2) := u8 (Z.land (Z.shiftr v 16) 255)]>
                   (<[Z.to_nat (off + 1) := u8 (Z.land (Z.shiftr v 8) 255)]>
                      (<[Z.to_nat (off + 0) := u8 (Z.land v 255)]> b)))) w).
Proof. intros H0 H3. apply bind_ok. now apply write_u32_le_set_block. Qed.

Lemma make_err_doc_ok E code out_len w :
  o_malloc E (clock w) <> NULL -> heap w !! o_malloc E (clock w) = None ->
  Openssl.x07_ext_make_err_doc E code out_len w
  = Ok (o_malloc E (clock w), assign out_len 9)
       (set_block (o_malloc E (clock w)) (Openssl.err_doc code) (tick w)).
Proof.
  intros Hnz Hfresh. unfold Openssl.x07_ext_make_err_doc.
  rewrite (bind_ok _ _ _ _ _ (malloc_ok E 9 w Hnz Hfresh)).
  destruct (N.eqb_spec (o_malloc E (clock w)) NULL) as [|_]; [contradiction|].
  destruct (nine_bytes _ (length_garbage E (clock w) 9))
    as (a0 & a1 & a2 & a3 & a4 & a5 & a6 & a7 & a8 & ->).
  rewrite store_then by (cbn [length]; lia).
  rewrite write_u32_le_then by (repeat rewrite length_insert; cbn [length]; lia).
  rewrite write_u32_le_then by (repeat rewrite length_insert; cbn [length]; lia).
  reflexivity.
Qed.

Lemma make_err_doc_fail E code out_len w :
  o_malloc E (clock w) = NULL ->
  Openssl.x07_ext_make_err_doc E code out_len w = Ok (NULL, out_len) (tick w).
Proof.
  intros H. unfold Openssl.x07_ext_make_err_doc.
  rewrite (bind_ok _ _ _ _ _ (malloc_fail E 9 w H)). reflexivity.
Qed.

Lemma publish_eq {A : Type} w p n (rel : M unit) (a : A) (b : Z -> A) :
  length (g_bufs w) = 4096%nat -> length (g_lens w) = 4096%nat ->
  (exists i, (1 <= i < 4096)%nat /\ g_bufs w !! i = Some NULL) ->
  exists h,
    1 <= h < 4096 /\ g_bufs w !! Z.to_nat h = Some NULL
    /\ (slot ← Openssl.x07_ext_openssl_alloc_buf_slot;
        if slot =? 0 then rel;; mret a
        else set_buf slot p;; set_len slot n;; mret (b slot)) w
       = Ok (b h) (with_lens (<[Z.to_nat h := n]> (g_lens w))
                     (with_bufs (<[Z.to_nat h := p]> (g_bufs w)) w)).
Proof.
  intros Hb Hl (i & Hi & Hfree).
  destruct (alloc_buf_slot_spec w Hb) as (h & Eh & [[-> Hfull] | (Hr & Hnull & _)]).
  { destruct (Hfull i Hi Hfree). }
  exists h. split; [exact Hr|]. split; [exact Hnull|].
  rewrite (bind_ok _ _ _ _ _ Eh).
  destruct (Z.eqb_spec h 0) as [-> | _]; [lia|].
  rewrite (bind_ok _ _ _ _ _ (set_buf_eq w h p ltac:(lia))).
  rewrite (bind_ok _ _ _ _ _
             (set_len_eq (with_bufs (<[Z.to_nat h := p]> (g_bufs w)) w) h n
                ltac:(cbn; lia))).
  reflexivity.
Qed.

Lemma rand_fill_length bs num : 0 <= num -> Z.of_nat (length (rand_fill bs num)) = num.
Proof. intros H. unfold rand_fill. rewrite length_map, length_seq. lia. Qed.

Lemma rand_fill_bytes bs num : Forall Math.is_byte (rand_fill bs num).
Proof.
  unfold rand_fill. apply Forall_map, Forall_forall. intros k _.
  unfold Math.is_byte, u8. apply Z.mod_pos_bound. lia.
Qed.

(** C9 (as amended): when the 9-byte allocation succeeds and the table has a
    free slot, a request for more than 1048576 bytes returns 0 with a handle
    to a 9-byte document whose first byte is 0 and whose next four bytes are
    the little-endian code 3, after that one allocation and nothing else (no
    [len]-sized allocation, no call to the generator); and under the same
    two conditions a request for [len <= 1048576] bytes for which the
    generator succeeds (or [len = 0], where it is not called) returns 0 with
    a handle to a document of length [1 + len] whose first byte is 1,
    followed by the [len] bytes the generator produced. *)
Theorem rand_bytes_alloc_document (E : oracle) (w : world) (len cell : Z) :
  table_ok 4096 w ->
  0 <= len < 2 ^ 32 ->
  o_malloc E (clock w) <> NULL ->
  heap w !! o_malloc E (clock w) = None ->
  (exists i, (1 <= i < 4096)%nat /\ g_bufs w !! i = Some NULL) ->
  1048576 < len \/ len = 0 \/ fst (o_rand E (S (clock w))) = 1 ->
  exists h w',
    Openssl.x07_ext_openssl_rand_bytes_alloc E len (Some cell) w = Ok (0, Some h) w'
    /\ 1 <= h < 4096
    /\ g_bufs w !! Z.to_nat h = Some NULL
    /\ g_bufs w' !! Z.to_nat h = Some (o_malloc E (clock w))
    /\ (1048576 < len ->
        g_lens w' !! Z.to_nat h = Some 9
        /\ heap w' !! o_malloc E (clock w) = Some [0; 3; 0; 0; 0; 0; 0; 0; 0]
        /\ clock w' = S (clock w))
    /\ (len <= 1048576 ->
        g_lens w' !! Z.to_nat h = Some (1 + len)
        /\ heap w' !! o_malloc E (clock w)
           = Some (1 :: rand_fill (snd (o_rand E (S (clock w)))) len)
        /\ Z.of_nat (length (rand_fill (snd (o_rand E (S (clock w)))) len)) = len
        /\ Forall Math.is_byte (rand_fill (snd (o_rand E (S (clock w)))) len)).
Proof.
  intros [Hb Hl _ _ _] Hlen Hnz Hfresh Hslot Hcase.
  set (p := o_malloc E (clock w)) in *.
  unfold Openssl.x07_ext_openssl_rand_bytes_alloc. cbv zeta.
  destruct (Z.ltb_spec (1024 * 1024) len) as [Hbig | Hsmall].
  - rewrite (bind_ok _ _ _ _ _ (make_err_doc_ok E 3 (Some 0) w Hnz Hfresh)).
    fold p. destruct (N.eqb_spec p NULL) as [|_]; [contradiction|].
    destruct (publish_eq (set_block p (Openssl.err_doc 3) (tick w)) p 9 (free p)
                (-1, Some 0) (fun slot => (0, Some slot)) Hb Hl Hslot)
      as (h & Hr & Hnull & Eq).
    exists h. eexists. split; [exact Eq|].
    split; [exact Hr|]. split; [exact Hnull|].
    split; [cbn; apply list_lookup_insert_eq; lia|].
    split.
    + intros _. split; [cbn; apply list_lookup_insert_eq; lia|].
      split; [cbn; apply lookup_insert_eq | reflexivity].
    + intros Hle. lia.
  - rewrite u32_small by lia.
    rewrite (bind_ok _ _ _ _ _ (malloc_ok E (1 + len) w Hnz Hfresh)).
    fold p. destruct (N.eqb_spec p NULL) as [|_]; [contradiction|].
    pose proof (length_garbage E (clock w) (1 + len)) as Hblk.
    destruct (garbage E (clock w) (1 + len)) as [|g0 rest]; [cbn in Hblk; lia|].
    assert (Hrest : length rest = Z.to_nat len) by (cbn [length] in Hblk; lia).
    rewrite store_then by (cbn [length]; lia).
    change (<[Z.to_nat 0 := 1]> (g0 :: rest)) with (1 :: rest).
    assert (Hint : int_of_u32 len = len).
    { unfold int_of_u32. destruct (Z.ltb_spec len 2147483648); lia. }
    set (b1 := 1 :: rest).
    set (w1 := set_block p b1 (tick w)).
    destruct (Z.eqb_spec len 0) as [Hz | Hnz0]; cbn [negb].
    + destruct (publish_eq w1 p (1 + len) (free p) (-1, Some 0)
                  (fun slot => (0, Some slot)) Hb Hl Hslot) as (h & Hr & Hnull & Eq).
      exists h. eexists. split; [exact Eq|].
      split; [exact Hr|]. split; [exact Hnull|].
      split; [cbn; apply list_lookup_insert_eq; lia|].
      split; [lia|]. intros _.
      split; [cbn; apply list_lookup_insert_eq; lia|].
      split; [|split; [apply rand_fill_length; lia | apply rand_fill_bytes]].
      cbn. rewrite lookup_insert_eq. subst b1 len.
      destruct rest; [reflexivity | discriminate].
    + rewrite Hint.
      destruct (o_rand E (S (clock w))) as [rc bs] eqn:Hrand.
      destruct (Z.eqb_spec rc 1) as [-> | Hrc].
      * (* the generator succeeds *)
        assert (ER : RAND_bytes E p 1 len w1
                     = Ok 1 (set_block p (1 :: rand_fill bs len) (tick (tick w)))).
        { unfold RAND_bytes. change (clock w1) with (S (clock w)). rewrite Hrand.
          cbn [Z.eqb Pos.eqb]. change (tick w1) with (set_block p b1 (tick (tick w))).
          fold (rand_fill bs len).
          rewrite (bind_ok _ _ _ _ _
                     (memwrite_set_block p b1 (tick (tick w)) 1 (rand_fill bs len)
                        ltac:(lia)
                        ltac:(rewrite rand_fill_length by lia; subst b1; cbn [length];
                              rewrite Hrest; lia))).
          cbn [mret M_ret]. f_equal. f_equal. subst b1.
          change (Z.to_nat 1) with 1%nat. cbn [firstn skipn Nat.add app].
          f_equal. rewrite drop_ge, app_nil_r; [reflexivity|].
          rewrite Hrest.
          pose proof (rand_fill_length bs len ltac:(lia)). lia. }
        rewrite (bind_ok _ _ _ _ _ ER). cbn [Z.eqb Pos.eqb negb].
        destruct (publish_eq (set_block p (1 :: rand_fill bs len) (tick (tick w))) p
                    (1 + len) (free p) (-1, Some 0)
                    (fun slot => (0, Some slot)) Hb Hl Hslot) as (h & Hr & Hnull & Eq).
        exists h. eexists. split; [exact Eq|].
        split; [exact Hr|]. split; [exact Hnull|].
        split; [cbn; apply list_lookup_insert_eq; lia|].
        split; [lia|]. intros _.
        split; [cbn; apply list_lookup_insert_eq; lia|].
        split; [|split; [apply rand_fill_length; lia | apply rand_fill_bytes]].
        cbn. apply lookup_insert_eq.
      * cbn [fst] in Hcase. lia.
Qed.

Lemma rand_bytes_alloc_document_witness :
  let w := init_world 4096 ∅ in
  table_ok 4096 w
  /\ exists h w',
    Openssl.x07_ext_openssl_rand_bytes_alloc oracle_ok 1048577 (Some 77) w
    = Ok (0, Some h) w'
    /\ g_lens w' !! Z.to_nat h = Some 9
    /\ heap w' !! 1%N = Some [0; 3; 0; 0; 0; 0; 0; 0; 0].
Proof.
  intros w.
  assert (Hok : table_ok 4096 w) by apply (init_world_ok 4096 ∅).
  assert (Hlen : 0 <= 1048577 < 2 ^ 32) by lia.
  assert (Hnz : o_malloc oracle_ok (clock w) <> NULL) by discriminate.
  assert (Hfresh : heap w !! o_malloc oracle_ok (clock w) = None) by reflexivity.
  assert (Hslot : exists i, (1 <= i < 4096)%nat /\ g_bufs w !! i = Some NULL).
  { exists 1%nat. split; [lia | reflexivity]. }
  assert (Hcase : 1048576 < 1048577 \/ 1048577 = 0
                  \/ fst (o_rand oracle_ok (S (clock w))) = 1) by (left; lia).
  destruct (rand_bytes_alloc_document oracle_ok w 1048577 77 Hok Hlen Hnz Hfresh
              Hslot Hcase) as (h & w' & Eq & _ & _ & _ & Hbig & _).
  destruct (Hbig ltac:(lia)) as (Hl & Hd & _).
  split; [exact Hok|].
  exists h, w'. split; [exact Eq|]. split; [exact Hl | exact Hd].
Defined.

(** The full table is a state in order: 4095 live one-byte documents, one
    per slot. *)
Lemma full_world_ok : table_ok 4096 Openssl.full_world.
Proof.
  assert (Hb : forall i p, g_bufs Openssl.full_world !! i = Some p ->
                           (i < 4096)%nat /\ p = N.of_nat i).
  { intros i p Hi. unfold Openssl.full_world in Hi. cbn [g_bufs] in Hi.
    apply list_lookup_fmap_Some in Hi as (k & -> & Hk).
    apply lookup_seq in Hk as [-> Hlt]. split; [exact Hlt | f_equal]. }
  constructor.
  - unfold Openssl.full_world. cbn [g_bufs]. now rewrite length_map, length_seq.
  - reflexivity.
  - intros i Hi. destruct (Hb i _ Hi) as [_ Hp].
    assert (i = 0%nat) by (unfold NULL in Hp; lia). subst i. reflexivity.
  - intros i p Hi Hp. destruct (Hb i p Hi) as [Hlt ->].
    exists [1]. unfold Openssl.full_world. cbn [heap].
    apply elem_of_list_to_map_1.
    + rewrite <- list_fmap_compose. apply NoDup_fmap_2.
      * intros a b Hab. cbn in Hab. lia.
      * apply NoDup_seq.
    + apply list_elem_of_fmap. exists i. split; [reflexivity|].
      apply elem_of_seq. unfold NULL in Hp. lia.
  - intros i j p Hi Hj _. destruct (Hb i p Hi) as [_ ->].
    destruct (Hb j _ Hj) as [_ Hij]. lia.
Qed.

(** C9 as stated fails: a request for 1048577 bytes returns -1, with
    [*out_handle] left at 0, when [malloc] cannot provide the 9 bytes of the
    error document, and also when all 4095 slots of the table are taken. *)
Lemma rand_bytes_alloc_can_fail :
  Openssl.x07_ext_openssl_rand_bytes_alloc oracle_nomem 1048577 (Some 77)
    (init_world 4096 ∅) = Ok (-1, Some 0) (tick (init_world 4096 ∅))
  /\ table_ok 4096 Openssl.full_world
  /\ result (Openssl.x07_ext_openssl_rand_bytes_alloc oracle_ok 1048577 (Some 77)
               Openssl.full_world) = Some (-1, Some 0).
Proof.
  split; [vm_compute; reflexivity|].
  split; [exact full_world_ok | vm_compute; reflexivity].
Qed.

End RandomBytes.

(** ** The base64url encoder *)
Section Base64url.

Import C Openssl.
Local Open Scope Z_scope.

Lemma land_63 y : Z.land y 63 = y mod 64.
Proof. change 63 with (Z.ones 6). rewrite Z.land_ones by lia. reflexivity. Qed.

Lemma u8_land_63 y : u8 (Z.land y 63) = y mod 64.
Proof.
  rewrite land_63. unfold u8. apply Z.mod_small.
  pose proof (Z.mod_pos_bound y 64). lia.
Qed.

Lemma char_table_ok : forallb char_okb (seq 0 64) = true.
Proof. vm_compute. reflexivity. Qed.

Lemma b64url_char_spec s :
  0 <= s < 64 ->
  b64url_value (x07_ext_b64url_char s) = Some s
  /\ is_b64url_char (x07_ext_b64url_char s).
Proof.
  intros Hs. pose proof char_table_ok as H.
  rewrite forallb_forall in H. specialize (H (Z.to_nat s)).
  assert (Hin : In (Z.to_nat s) (seq 0 64)) by (apply in_seq; lia).
  specialize (H Hin). unfold char_okb in H. rewrite Z2Nat.id in H by lia.
  destruct (b64url_value (x07_ext_b64url_char s)) as [v|]; [|discriminate].
  apply andb_true_iff in H as [Hv Hc]. apply Z.eqb_eq in Hv. subst v.
  split; [reflexivity|]. unfold is_b64url_char.
  repeat (apply orb_true_iff in Hc as [Hc | Hc]);
    rewrite ?andb_true_iff, ?Z.leb_le, ?Z.eqb_eq in Hc; lia.
Qed.

Lemma sextet_char_eq v k :
  0 <= k -> sextet_char v k = x07_ext_b64url_char ((v / 2 ^ k) mod 64).
Proof.
  intros Hk. unfold sextet_char. rewrite u8_land_63, Z.shiftr_div_pow2 by lia.
  reflexivity.
Qed.

Lemma last_char_eq v : x07_ext_b64url_char (u8 (Z.land v 63)) = x07_ext_b64url_char (v mod 64).
Proof. now rewrite u8_land_63. Qed.

Lemma shiftl_16 d : Z.shiftl d 16 = d * 65536.
Proof. rewrite Z.shiftl_mul_pow2 by lia. reflexivity. Qed.

Lemma shiftl_8 d : Z.shiftl d 8 = d * 256.
Proof. rewrite Z.shiftl_mul_pow2 by lia. reflexivity. Qed.

Lemma pack1 d0 : Math.is_byte d0 -> u32 (Z.shiftl d0 16) = d0 * 65536.
Proof. unfold Math.is_byte. intros H. rewrite shiftl_16. apply u32_small. lia. Qed.

Lemma pack2 d0 d1 :
  Math.is_byte d0 -> Math.is_byte d1 ->
  Z.lor (u32 (Z.shiftl d0 16)) (u32 (Z.shiftl d1 8)) = d0 * 65536 + d1 * 256.
Proof.
  unfold Math.is_byte. intros H0 H1. rewrite pack1 by exact H0.
  rewrite (u32_small (Z.shiftl d1 8)) by (rewrite shiftl_8; lia).
  replace (d0 * 65536) with (Z.shiftl (Z.shiftl d0 8) 8)
    by (rewrite !Z.shiftl_mul_pow2 by lia; lia).
  rewrite <- Z.shiftl_lor. rewrite Z.lor_comm, lor_shiftl_8 by lia.
  rewrite !Z.shiftl_mul_pow2 by lia. lia.
Qed.

Lemma pack3 d0 d1 d2 :
  Math.is_byte d0 -> Math.is_byte d1 -> Math.is_byte d2 ->
  Z.lor (Z.lor (u32 (Z.shiftl d0 16)) (u32 (Z.shiftl d1 8))) d2
  = d0 * 65536 + d1 * 256 + d2.
Proof.
  intros H0 H1 H2. rewrite pack2 by assumption.
  replace (d0 * 65536 + d1 * 256) with (Z.shiftl (d0 * 256 + d1) 8)
    by (rewrite Z.shiftl_mul_pow2 by lia; lia).
  rewrite Z.lor_comm, lor_shiftl_8 by exact H2.
  rewrite ?Z.shiftl_mul_pow2 by lia. lia.
Qed.

Lemma list_ind3 {A : Type} (P : list A -> Prop) :
  P [] -> (forall a, P [a]) -> (forall a b, P [a; b]) ->
  (forall a b c l, P l -> P (a :: b :: c :: l)) ->
  forall l, P l.
Proof.
  intros H0 H1 H2 H3.
  fix IH 1. intros [|a [|b [|c l]]]; [exact H0 | apply H1 | apply H2 |].
  apply H3, IH.
Qed.

Lemma decode_4 c0 c1 c2 c3 s :
  b64url_decode (c0 :: c1 :: c2 :: c3 :: s)
  = match b64url_value c0, b64url_value c1, b64url_value c2,
          b64url_value c3, b64url_decode s with
    | Some v0, Some v1, Some v2, Some v3, Some r =>
        let v := v0 * 262144 + v1 * 4096 + v2 * 64 + v3 in
        Some (v / 65536 :: (v / 256) mod 256 :: v mod 256 :: r)
    | _, _, _, _, _ => None
    end.
Proof. reflexivity. Qed.

Lemma b64url_decode_encode l :
  Forall Math.is_byte l -> b64url_decode (b64url_encode l) = Some l.
Proof.
  induction l as [|d0|d0 d1|d0 d1 d2 l IH] using list_ind3; intros Hl.
  - reflexivity.
  - apply Forall_cons in Hl as [H0 _]. cbn [b64url_encode].
    rewrite pack1 by exact H0. rewrite !sextet_char_eq by lia.
    unfold Math.is_byte in H0. cbn [b64url_decode].
    destruct (b64url_char_spec ((d0 * 65536 / 2 ^ 18) mod 64)) as [-> _];
      [apply Z.mod_pos_bound; lia|].
    destruct (b64url_char_spec ((d0 * 65536 / 2 ^ 12) mod 64)) as [-> _];
      [apply Z.mod_pos_bound; lia|].
    cbv zeta.
    assert (E : (d0 * 65536 / 2 ^ 18) mod 64 * 262144
                + (d0 * 65536 / 2 ^ 12) mod 64 * 4096 = d0 * 65536).
    { change (2 ^ 18) with 262144. change (2 ^ 12) with 4096.
      Z.to_euclidean_division_equations. lia. }
    rewrite E. rewrite Z.mod_mul by lia. cbn [Z.eqb].
    rewrite Z.div_mul by lia. reflexivity.
  - apply Forall_cons in Hl as [H0 Hl]. apply Forall_cons in Hl as [H1 _].
    cbn [b64url_encode]. rewrite pack2 by assumption.
    rewrite !sextet_char_eq by lia.
    unfold Math.is_byte in H0, H1. set (v := d0 * 65536 + d1 * 256).
    cbn [b64url_decode].
    destruct (b64url_char_spec ((v / 2 ^ 18) mod 64)) as [-> _];
      [apply Z.mod_pos_bound; lia|].
    destruct (b64url_char_spec ((v / 2 ^ 12) mod 64)) as [-> _];
      [apply Z.mod_pos_bound; lia|].
    destruct (b64url_char_spec ((v / 2 ^ 6) mod 64)) as [-> _];
      [apply Z.mod_pos_bound; lia|].
    cbv zeta.
    assert (E : (v / 2 ^ 18) mod 64 * 262144 + (v / 2 ^ 12) mod 64 * 4096
                + (v / 2 ^ 6) mod 64 * 64 = v).
    { change (2 ^ 18) with 262144. change (2 ^ 12) with 4096.
      change (2 ^ 6) with 64. subst v.
      Z.to_euclidean_division_equations. lia. }
    rewrite E.
    replace (v mod 256) with 0 by (subst v; Z.to_euclidean_division_equations; lia).
    cbn [Z.eqb].
    replace (v / 65536) with d0 by (subst v; Z.to_euclidean_division_equations; lia).
    replace ((v / 256) mod 256) with d1
      by (subst v; Z.to_euclidean_division_equations; lia).
    reflexivity.
  - apply Forall_cons in Hl as [H0 Hl]. apply Forall_cons in Hl as [H1 Hl].
    apply Forall_cons in Hl as [H2 Hl].
    cbn [b64url_encode]. cbv zeta. rewrite pack3 by assumption.
    rewrite !sextet_char_eq by lia. rewrite last_char_eq.
    unfold Math.is_byte in H0, H1, H2. set (v := d0 * 65536 + d1 * 256 + d2).
    rewrite decode_4, (IH Hl).
    destruct (b64url_char_spec ((v / 2 ^ 18) mod 64)) as [-> _];
      [apply Z.mod_pos_bound; lia|].
    destruct (b64url_char_spec ((v / 2 ^ 12) mod 64)) as [-> _];
      [apply Z.mod_pos_bound; lia|].
    destruct (b64url_char_spec ((v / 2 ^ 6) mod 64)) as [-> _];
      [apply Z.mod_pos_bound; lia|].
    destruct (b64url_char_spec (v mod 64)) as [-> _];
      [apply Z.mod_pos_bound; lia|].
    cbv zeta.
    assert (E : (v / 2 ^ 18) mod 64 * 262144 + (v / 2 ^ 12) mod 64 * 4096
                + (v / 2 ^ 6) mod 64 * 64 + v mod 64 = v).
    { change (2 ^ 18) with 262144. change (2 ^ 12) with 4096.
      change (2 ^ 6) with 64. subst v.
      Z.to_euclidean_division_equations. lia. }
    rewrite E.
    replace (v / 65536) with d0 by (subst v; Z.to_euclidean_division_equations; lia).
    replace ((v / 256) mod 256) with d1
      by (subst v; Z.to_euclidean_division_equations; lia).
    replace (v mod 256) with d2 by (subst v; Z.to_euclidean_division_equations; lia).
    reflexivity.
Qed.

Lemma b64url_length_step n :
  0 <= n -> b64url_length (n + 3) = 4 + b64url_length n.
Proof.
  intros Hn. unfold b64url_length.
  replace (n + 3) with (n + 1 * 3) by lia.
  rewrite Z.div_add, Z.mod_add by lia. lia.
Qed.

Lemma b64url_encode_length l :
  Z.of_nat (length (b64url_encode l)) = b64url_length (Z.of_nat (length l)).
Proof.
  induction l as [|d0|d0 d1|d0 d1 d2 l IH] using list_ind3;
    [reflexivity | reflexivity | reflexivity |].
  cbn [b64url_encode length]. cbv zeta. cbn [length].
  replace (Z.of_nat (S (S (S (length l))))) with (Z.of_nat (length l) + 3) by lia.
  rewrite b64url_length_step by lia. lia.
Qed.

Lemma sextet_char_ok v k : 0 <= k -> is_b64url_char (sextet_char v k).
Proof.
  intros Hk. rewrite sextet_char_eq by exact Hk.
  apply b64url_char_spec, Z.mod_pos_bound. lia.
Qed.

Lemma last_char_ok v : is_b64url_char (x07_ext_b64url_char (u8 (Z.land v 63))).
Proof. rewrite last_char_eq. apply b64url_char_spec, Z.mod_pos_bound. lia. Qed.

Lemma b64url_encode_alphabet l : Forall is_b64url_char (b64url_encode l).
Proof.
  induction l as [|d0|d0 d1|d0 d1 d2 l IH] using list_ind3; cbn [b64url_encode];
    cbv zeta;
    repeat (apply Forall_cons; split; [first [apply sextet_char_ok; lia | apply last_char_ok]|]);
    first [exact IH | constructor].
Qed.

Lemma b64url_encode_app m grp tail :
  length grp = (3 * m)%nat ->
  b64url_encode (grp ++ tail) = b64url_encode grp ++ b64url_encode tail.
Proof.
  revert grp. induction m as [|m IH]; intros grp Hg.
  - destruct grp; [reflexivity | discriminate].
  - destruct grp as [|d0 [|d1 [|d2 grp]]]; cbn [length] in Hg; try lia.
    cbn [app b64url_encode]. cbv zeta. rewrite IH by lia. reflexivity.
Qed.

Lemma rd_then {B : Type} l i d (k : Z -> M B) w :
  0 <= i -> l !! Z.to_nat i = Some d -> (rd (Some l) i ≫= k) w = k d w.
Proof.
  intros Hi Hd. apply bind_ok. unfold rd.
  destruct (Z.leb_spec 0 i); [|lia]. now rewrite Hd.
Qed.

Lemma store_app {B : Type} p done x tl w v j (k : unit -> M B) :
  j = Z.of_nat (length done) ->
  (store p j v ≫= k) (set_block p (done ++ x :: tl) w)
  = k tt (set_block p (done ++ v :: tl) w).
Proof.
  intros ->. rewrite store_then by (rewrite length_app; cbn [length]; lia).
  rewrite Nat2Z.id. rewrite insert_app_r_alt by lia.
  rewrite Nat.sub_diag. reflexivity.
Qed.

Lemma store_app_at {B : Type} p done mid x tl w v j (k : unit -> M B) :
  j = Z.of_nat (length done) + Z.of_nat (length mid) ->
  (store p j v ≫= k) (set_block p (done ++ mid ++ x :: tl) w)
  = k tt (set_block p (done ++ mid ++ v :: tl) w).
Proof.
  intros Hj. rewrite !app_assoc. apply store_app. rewrite length_app. lia.
Qed.

Lemma store_app1 {B : Type} p done a x tl w v j (k : unit -> M B) :
  j = Z.of_nat (length done) + 1 ->
  (store p j v ≫= k) (set_block p (done ++ a :: x :: tl) w)
  = k tt (set_block p (done ++ a :: v :: tl) w).
Proof. intros Hj. apply (store_app_at p done [a]). cbn [length]. lia. Qed.

Lemma store_app2 {B : Type} p done a b x tl w v j (k : unit -> M B) :
  j = Z.of_nat (length done) + 2 ->
  (store p j v ≫= k) (set_block p (done ++ a :: b :: x :: tl) w)
  = k tt (set_block p (done ++ a :: b :: v :: tl) w).
Proof. intros Hj. apply (store_app_at p done [a; b]). cbn [length]. lia. Qed.

Lemma store_app3 {B : Type} p done a b c x tl w v j (k : unit -> M B) :
  j = Z.of_nat (length done) + 3 ->
  (store p j v ≫= k) (set_block p (done ++ a :: b :: c :: x :: tl) w)
  = k tt (set_block p (done ++ a :: b :: c :: v :: tl) w).
Proof. intros Hj. apply (store_app_at p done [a; b; c]). cbn [length]. lia. Qed.

Lemma b64url_nopad_loop_spec p w l :
  forall m fuel pre grp tail b done free i j,
    l = pre ++ grp ++ tail -> b = done ++ free ->
    length grp = (3 * m)%nat -> (length tail < 3)%nat ->
    (4 * m <= length free)%nat -> (m < fuel)%nat ->
    i = Z.of_nat (length pre) -> j = Z.of_nat (length done) ->
    b64url_nopad_loop fuel (Some l) (Z.of_nat (length l)) p i j (set_block p b w)
    = Ok (i + 3 * Z.of_nat m, j + 4 * Z.of_nat m)
         (set_block p (done ++ b64url_encode grp ++ drop (4 * m) free) w).
Proof.
  induction m as [|m IH];
    intros fuel pre grp tail b done free i j Hl Hb Hg Ht Hf Hfuel Hi Hj.
  - destruct grp; [|discriminate]. destruct fuel as [|fuel]; [lia|].
    cbn [b64url_nopad_loop]. subst l. rewrite !length_app. cbn [length app].
    destruct (Z.leb_spec (i + 3) (Z.of_nat (length pre + (0 + length tail)))); [lia|].
    cbn [mret M_ret b64url_encode app drop Nat.mul]. subst b.
    f_equal. f_equal; lia.
  - destruct grp as [|d0 [|d1 [|d2 grp]]]; cbn [length] in Hg; try lia.
    destruct free as [|x0 [|x1 [|x2 [|x3 free]]]]; cbn [length] in Hf; try lia.
    destruct fuel as [|fuel]; [lia|].
    cbn [b64url_nopad_loop].
    assert (Hlen : Z.of_nat (length l) = i + 3 + Z.of_nat (length grp + length tail)).
    { subst l. rewrite !length_app. cbn [length]. lia. }
    destruct (Z.leb_spec (i + 3) (Z.of_nat (length l))); [|lia].
    rewrite (rd_then l i d0) by
      (try lia; subst l i; rewrite Nat2Z.id; apply list_lookup_middle; reflexivity).
    rewrite (rd_then l (i + 1) d1).
    2: lia.
    2:{ subst l i. rewrite lookup_app_r by lia.
        replace (Z.to_nat (Z.of_nat (length pre) + 1) - length pre)%nat with 1%nat by lia.
        reflexivity. }
    rewrite (rd_then l (i + 2) d2).
    2: lia.
    2:{ subst l i. rewrite lookup_app_r by lia.
        replace (Z.to_nat (Z.of_nat (length pre) + 2) - length pre)%nat with 2%nat by lia.
        reflexivity. }
    cbv zeta. subst b.
    set (v := Z.lor (Z.lor (u32 (Z.shiftl d0 16)) (u32 (Z.shiftl d1 8))) d2).
    rewrite (store_app p done) by exact Hj.
    rewrite (store_app1 p done) by lia.
    rewrite (store_app2 p done) by lia.
    rewrite (store_app3 p done) by lia.
    rewrite (IH fuel (pre ++ [d0; d1; d2]) grp tail _
               (done ++ [sextet_char v 18; sextet_char v 12; sextet_char v 6;
                         x07_ext_b64url_char (u8 (Z.land v 63))]) free).
    + f_equal; [f_equal; lia|]. f_equal. rewrite <- app_assoc.
      replace (4 * S m)%nat with (S (S (S (S (4 * m))))) by lia. reflexivity.
    + subst l. rewrite <- app_assoc. reflexivity.
    + rewrite <- app_assoc. reflexivity.
    + lia.
    + exact Ht.
    + lia.
    + lia.
    + rewrite length_app. cbn [length]. lia.
    + rewrite length_app. cbn [length]. lia.
Qed.

Lemma b64url_encode_groups_length m grp :
  length grp = (3 * m)%nat -> length (b64url_encode grp) = (4 * m)%nat.
Proof.
  revert grp. induction m as [|m IH]; intros grp Hg.
  - destruct grp; [reflexivity | discriminate].
  - destruct grp as [|d0 [|d1 [|d2 grp]]]; cbn [length] in Hg; try lia.
    cbn [b64url_encode]. cbv zeta. cbn [length]. rewrite IH by lia. lia.
Qed.

Lemma b64url_alphabet_excludes c : is_b64url_char c -> c <> 0 /\ c <> 61.
Proof. unfold is_b64url_char. lia. Qed.

(** C8 (as amended): for every byte string of length [n] behind a non-null
    pointer, when the allocation of the output buffer succeeds,
    [x07_ext_b64url_nopad] returns that buffer holding a NUL-terminated
    string [s] and reports the length of [s], which is
    [4*(n/3)] plus 0, 2 or 3 according as [n mod 3] is 0, 1 or 2; [s]
    consists of characters of the URL-safe alphabet [A-Z a-z 0-9 - _] only
    (so it contains neither NUL nor the padding character), and decoding [s]
    as base64url gives the [n] input bytes back. *)
Theorem b64url_nopad_encodes (E : oracle) (w : world) (l : list Z) (cell : Z) :
  Forall Math.is_byte l ->
  o_malloc E (clock w) <> NULL ->
  heap w !! o_malloc E (clock w) = None ->
  let p := o_malloc E (clock w) in
  let s := b64url_encode l in
  exists junk,
    x07_ext_b64url_nopad E (Some l) (Z.of_nat (length l)) (Some cell) w
    = Ok (p, Some (Z.of_nat (length s))) (set_block p (s ++ 0 :: junk) (tick w))
    /\ Z.of_nat (length s) = b64url_length (Z.of_nat (length l))
    /\ Forall is_b64url_char s
    /\ (forall c, In c s -> c <> 0 /\ c <> 61)
    /\ b64url_decode s = Some l.
Proof.
  intros Hbytes Hnz Hfresh p s.
  assert (Hprops : Z.of_nat (length s) = b64url_length (Z.of_nat (length l))
                   /\ Forall is_b64url_char s
                   /\ (forall c, In c s -> c <> 0 /\ c <> 61)
                   /\ b64url_decode s = Some l).
  { split; [apply b64url_encode_length|].
    split; [apply b64url_encode_alphabet|].
    split; [|now apply b64url_decode_encode].
    intros c Hc. apply b64url_alphabet_excludes.
    pose proof (b64url_encode_alphabet l) as Ha. rewrite Forall_forall in Ha.
    apply Ha. now apply list_elem_of_In. }
  cut (exists junk,
         x07_ext_b64url_nopad E (Some l) (Z.of_nat (length l)) (Some cell) w
         = Ok (p, Some (Z.of_nat (length s))) (set_block p (s ++ 0 :: junk) (tick w))).
  { intros [junk Hj]. exists junk. split; [exact Hj | exact Hprops]. }
  clear Hprops Hbytes.
  set (m := (length l / 3)%nat).
  set (grp := take (3 * m) l). set (tail := drop (3 * m) l).
  pose proof (Nat.div_mod_eq (length l) 3) as Hdm.
  pose proof (Nat.mod_upper_bound (length l) 3 ltac:(lia)) as Hmod. fold m in Hdm.
  assert (Hl : l = grp ++ tail) by (symmetry; apply take_drop).
  assert (Hg : length grp = (3 * m)%nat) by (subst grp; rewrite length_take; lia).
  assert (Ht : length tail = (length l mod 3)%nat)
    by (subst tail; rewrite length_drop; lia).
  assert (Hs : s = b64url_encode grp ++ b64url_encode tail).
  { subst s. rewrite Hl at 1. now apply (b64url_encode_app m). }
  pose proof (b64url_encode_groups_length m grp Hg) as Hge.
  unfold x07_ext_b64url_nopad.
  rewrite bool_decide_eq_false_2 by discriminate. cbn [andb]. cbv zeta.
  rewrite (bind_ok _ _ _ _ _ (malloc_ok E _ w Hnz Hfresh)). fold p.
  destruct (N.eqb_spec p NULL) as [|_]; [contradiction|].
  set (cap := (Z.of_nat (length l) + 2) / 3 * 4).
  set (blk := garbage E (clock w) (cap + 1)).
  pose proof (length_garbage E (clock w) (cap + 1)) as Hblk. fold blk in Hblk.
  assert (Hloop : forall r, Z.to_nat (cap + 1) = (4 * m + r)%nat ->
            b64url_nopad_loop (S (Z.to_nat (Z.of_nat (length l)))) (Some l)
              (Z.of_nat (length l)) p 0 0 (set_block p blk (tick w))
            = Ok (3 * Z.of_nat m, 4 * Z.of_nat m)
                 (set_block p (b64url_encode grp ++ drop (4 * m) blk) (tick w))
            /\ length (drop (4 * m) blk) = r).
  { intros r Hr. split; [|rewrite length_drop; lia].
    rewrite (b64url_nopad_loop_spec p (tick w) l m _ [] grp tail _ [] blk 0 0);
      try reflexivity; try lia.
    exact Hl. }
  destruct tail as [|d0 [|d1 [|d2 tail']]] eqn:Etail; cbn [length] in Ht.
  - (* n = 3m *)
    assert (Hcap : Z.to_nat (cap + 1) = (4 * m + 1)%nat).
    { subst cap. Z.to_euclidean_division_equations. lia. }
    destruct (Hloop 1%nat Hcap) as [Hrun Hrest].
    rewrite (bind_ok _ _ _ _ _ Hrun).
    destruct (drop (4 * m) blk) as [|x0 [|? ?]]; try discriminate.
    replace (Z.of_nat (length l) - 3 * Z.of_nat m) with 0 by lia.
    cbn [Z.eqb]. rewrite bind_eq. cbn [mret M_ret].
    exists [].
    rewrite (store_app p (b64url_encode grp)) by lia.
    cbn [mret M_ret assign]. rewrite Hs. cbn [b64url_encode].
    rewrite !app_nil_r, Hge. do 2 f_equal. f_equal. lia.
  - (* n = 3m + 1 *)
    assert (Hcap : Z.to_nat (cap + 1) = (4 * m + 5)%nat).
    { subst cap. Z.to_euclidean_division_equations. lia. }
    destruct (Hloop 5%nat Hcap) as [Hrun Hrest].
    rewrite (bind_ok _ _ _ _ _ Hrun).
    destruct (drop (4 * m) blk) as [|x0 [|x1 [|x2 [|x3 [|x4 [|? ?]]]]]]; try discriminate.
    replace (Z.of_nat (length l) - 3 * Z.of_nat m) with 1 by lia.
    cbn [Z.eqb Pos.eqb]. exists [x3; x4].
    rewrite bind_eq.
    rewrite (rd_then l (3 * Z.of_nat m) d0) by
      (try lia; rewrite Hl; replace (Z.to_nat (3 * Z.of_nat m)) with (length grp) by lia;
       apply list_lookup_middle; reflexivity).
    cbv zeta.
    rewrite (store_app p (b64url_encode grp)) by lia.
    rewrite (store_app1 p (b64url_encode grp)) by lia.
    cbn [mret M_ret].
    rewrite (store_app2 p (b64url_encode grp)) by lia.
    cbn [mret M_ret assign]. rewrite Hs. cbn [b64url_encode]. cbv zeta.
    rewrite <- app_assoc. cbn [app]. rewrite length_app, Hge. cbn [length].
    do 2 f_equal. f_equal. lia.
  - (* n = 3m + 2 *)
    assert (Hcap : Z.to_nat (cap + 1) = (4 * m + 5)%nat).
    { subst cap. Z.to_euclidean_division_equations. lia. }
    destruct (Hloop 5%nat Hcap) as [Hrun Hrest].
    rewrite (bind_ok _ _ _ _ _ Hrun).
    destruct (drop (4 * m) blk) as [|x0 [|x1 [|x2 [|x3 [|x4 [|? ?]]]]]]; try discriminate.
    replace (Z.of_nat (length l) - 3 * Z.of_nat m) with 2 by lia.
    cbn [Z.eqb Pos.eqb]. exists [x4].
    rewrite bind_eq.
    rewrite (rd_then l (3 * Z.of_nat m) d0) by
      (try lia; rewrite Hl; replace (Z.to_nat (3 * Z.of_nat m)) with (length grp) by lia;
       apply list_lookup_middle; reflexivity).
    rewrite (rd_then l (3 * Z.of_nat m + 1) d1).
    2: lia.
    2:{ rewrite Hl. rewrite lookup_app_r by lia.
        replace (Z.to_nat (3 * Z.of_nat m + 1) - length grp)%nat with 1%nat by lia.
        reflexivity. }
    cbv zeta.
    rewrite (store_app p (b64url_encode grp)) by lia.
    rewrite (store_app1 p (b64url_encode grp)) by lia.
    rewrite (store_app2 p (b64url_encode grp)) by lia.
    cbn [mret M_ret].
    rewrite (store_app3 p (b64url_encode grp)) by lia.
    cbn [mret M_ret assign]. rewrite Hs. cbn [b64url_encode]. cbv zeta.
    rewrite <- app_assoc. cbn [app]. rewrite length_app, Hge. cbn [length].
    do 2 f_equal. f_equal. lia.
  - lia.
Qed.

(** The five bytes of "fooba" encode to "Zm9vYmE". *)
Lemma b64url_nopad_encodes_witness :
  let w := init_world 4096 ∅ in
  Forall Math.is_byte [102; 111; 111; 98; 97]
  /\ exists junk,
       x07_ext_b64url_nopad oracle_ok (Some [102; 111; 111; 98; 97]) 5 (Some 0) w
       = Ok (1%N, Some 7)
            (set_block 1 ([90; 109; 57; 118; 89; 109; 69] ++ 0 :: junk) (tick w))
       /\ b64url_decode [90; 109; 57; 118; 89; 109; 69]
          = Some [102; 111; 111; 98; 97].
Proof.
  intros w.
  assert (Hb : Forall Math.is_byte [102; 111; 111; 98; 97]).
  { repeat (apply Forall_cons; split; [unfold Math.is_byte; lia|]). constructor. }
  assert (Hnz : o_malloc oracle_ok (clock w) <> NULL) by discriminate.
  assert (Hfresh : heap w !! o_malloc oracle_ok (clock w) = None) by reflexivity.
  destruct (b64url_nopad_encodes oracle_ok w [102; 111; 111; 98; 97] 0 Hb Hnz Hfresh)
    as (junk & Eq & _ & _ & _ & Hd).
  split; [exact Hb|]. exists junk. split; [exact Eq | exact Hd].
Defined.

(** C8 as stated fails when [malloc] returns NULL: the function then returns
    NULL and reports no length. *)
Lemma b64url_nopad_can_return_null :
  x07_ext_b64url_nopad oracle_nomem (Some [102]) 1 (Some 77) (init_world 4096 ∅)
  = Ok (NULL, Some 77) (tick (init_world 4096 ∅)).
Proof. vm_compute. reflexivity. Qed.

End Base64url.

(** ** What the entry points do to heap and table *)
Section Effects.

Import C Frame.
Local Open Scope Z_scope.

(** *** Rules for a call that holds at most one block *)
Section Frames.

Variable w0 : world.
Hypothesis Hshape : shaped w0.

Lemma holding_start b : holding w0 NULL b w0.
Proof. repeat split. left. auto. Qed.

Lemma holding_none b w : holding w0 NULL b w -> same_store w0 w.
Proof. intros (Hb & Hl & [[_ Hh] | [Hn _]]); [repeat split; assumption | congruence]. Qed.

Lemma holding_null b b' w : holding w0 NULL b w -> holding w0 NULL b' w.
Proof.
  intros (Hb & Hl & [[_ Hh] | [Hn _]]); [|congruence].
  split; [exact Hb|]. split; [exact Hl|]. left. auto.
Qed.

Lemma malloc_h E size b0 :
  hoare (holding w0 NULL b0) (malloc E size)
    (fun p w => exists b, holding w0 p b w /\ length b = Z.to_nat size).
Proof.
  intros w Hw. pose proof (holding_none _ _ Hw) as (Hh & Hb & Hl). unfold malloc.
  destruct (negb (o_malloc E (clock w) =? NULL)%N
            && bool_decide (heap w !! o_malloc E (clock w) = None)) eqn:Hc.
  - apply andb_true_iff in Hc as [Hnz Hfresh].
    apply negb_true_iff, N.eqb_neq in Hnz. apply bool_decide_eq_true in Hfresh.
    eexists _, _. split; [reflexivity|].
    exists (garbage E (clock w) size). split; [|apply length_garbage].
    split; [exact Hb|]. split; [exact Hl|]. right.
    split; [exact Hnz|]. split; [now rewrite <- Hh|].
    cbn. now rewrite Hh.
  - eexists _, _. split; [reflexivity|].
    exists (garbage E (clock w) size). split; [|apply length_garbage].
    split; [exact Hb|]. split; [exact Hl|]. left. auto.
Qed.

Lemma free_h o b : hoare (holding w0 o b) (free o) (fun _ w => holding w0 NULL [] w).
Proof.
  intros w (Hb & Hl & [[-> Hh] | (Hnz & Hfresh & Hh)]); unfold free.
  - eexists _, _. split; [reflexivity|]. repeat split; try assumption. left. auto.
  - destruct (N.eqb_spec o NULL) as [|_]; [contradiction|].
    rewrite Hh, lookup_insert_eq.
    eexists _, _. split; [reflexivity|].
    split; [exact Hb|]. split; [exact Hl|]. left. split; [reflexivity|].
    cbn. now apply delete_insert_id.
Qed.

Lemma release_h o b :
  hoare (holding w0 o b) (if (o =? NULL)%N then mret tt else free o)
    (fun _ w => holding w0 NULL [] w).
Proof.
  destruct (N.eqb_spec o NULL) as [-> | Hnz]; [|apply free_h].
  apply hoare_ret. intros w Hw. exact (holding_null _ _ _ Hw).
Qed.

Lemma holding_set_block o b b' w :
  o <> NULL -> holding w0 o b w -> holding w0 o b' (set_block o b' w).
Proof.
  intros Hnz (Hb & Hl & [[-> _] | (_ & Hfresh & Hh)]); [congruence|].
  split; [exact Hb|]. split; [exact Hl|]. right.
  split; [exact Hnz|]. split; [exact Hfresh|]. cbn.
  now rewrite Hh, insert_insert_eq.
Qed.

Lemma holding_block o b w : o <> NULL -> holding w0 o b w -> heap w !! o = Some b.
Proof.
  intros Hnz (_ & _ & [[-> _] | (_ & _ & Hh)]); [congruence|].
  now rewrite Hh, lookup_insert_eq.
Qed.

Lemma store_h o b i v :
  o <> NULL -> 0 <= i < Z.of_nat (length b) ->
  hoare (holding w0 o b) (store o i v) (fun _ w => holding w0 o (<[Z.to_nat i := v]> b) w).
Proof.
  intros Hnz Hi w Hw. pose proof (holding_block o b w Hnz Hw) as Hb.
  unfold store. rewrite Hb.
  destruct (Z.leb_spec 0 i); [|lia]. destruct (Z.ltb_spec i (Z.of_nat (length b))); [|lia].
  eexists _, _. split; [reflexivity|].
  apply (holding_set_block o b); [exact Hnz | exact Hw].
Qed.

Lemma memwrite_h o b off bs :
  bs = [] \/ (o <> NULL /\ 0 <= off /\ off + Z.of_nat (length bs) <= Z.of_nat (length b)) ->
  hoare (holding w0 o b) (memwrite o off bs)
    (fun _ w => holding w0 o (take (Z.to_nat off) b ++ bs
                              ++ drop (Z.to_nat off + length bs) b) w).
Proof.
  intros Hc w Hw. unfold memwrite. destruct bs as [|x bs].
  { eexists _, _. split; [reflexivity|]. cbn [app length]. rewrite Nat.add_0_r.
    now rewrite take_drop. }
  destruct Hc as [Hc | (Hnz & Hoff & Hfit)]; [discriminate|].
  pose proof (holding_block o b w Hnz Hw) as Hb. rewrite Hb.
  destruct (Z.leb_spec 0 off); [|lia].
  destruct (Z.leb_spec (off + Z.of_nat (length (x :: bs))) (Z.of_nat (length b))); [|lia].
  eexists _, _. split; [reflexivity|].
  apply (holding_set_block o b); [exact Hnz | exact Hw].
Qed.

Lemma RAND_bytes_h E o b off num :
  o <> NULL -> 0 <= off -> 0 <= num -> off + num <= Z.of_nat (length b) ->
  hoare (holding w0 o b) (RAND_bytes E o off num)
    (fun _ w => exists b', holding w0 o b' w /\ length b' = length b).
Proof.
  intros Hnz Hoff Hnum Hfit w Hw. unfold RAND_bytes.
  destruct (o_rand E (clock w)) as [rc bs].
  assert (Hlen : length (rand_fill bs num) = Z.to_nat num).
  { unfold rand_fill. now rewrite length_map, length_seq. }
  destruct (memwrite_h o b off (rand_fill bs num)) with (w := tick w)
    as (u & w' & Ew & Hw').
  - right. rewrite Hlen. repeat split; [exact Hnz | lia | lia].
  - exact Hw.
  - eexists _, _. split; [rewrite (bind_ok _ _ _ _ _ Ew); reflexivity|].
    eexists. split; [exact Hw'|].
    rewrite !length_app, length_take, length_drop. lia.
Qed.

Lemma scan_h o b :
  hoare (holding w0 o b) Openssl.x07_ext_openssl_alloc_buf_slot
    (fun h w => holding w0 o b w /\ slot_answer 4096 h w0).
Proof.
  intros w Hw. pose proof Hw as (Hb & _ & _).
  destruct (alloc_buf_slot_spec w) as (h & Eh & Hh).
  - rewrite Hb. apply Hshape.
  - exists h, w. split; [exact Eh|]. split; [exact Hw|].
    unfold slot_answer in *. rewrite Hb in Hh. exact Hh.
Qed.

Lemma zlib_scan_h o b :
  hoare (holding w0 o b) Zlib.x07_ext_zlib_alloc_slot
    (fun h w => holding w0 o b w /\ slot_answer 4096 h w0).
Proof. intros w Hw. rewrite zlib_alloc_slot_eq. now apply scan_h. Qed.

(** The closing sequence of every publishing entry point: the held block
    goes to the lowest empty slot, or is released and nothing has changed. *)
Lemma tail_h {A : Type} (scan : M Z) (rel : M unit) o blk len (a : A) (b : Z -> A) :
  hoare (holding w0 o blk) scan (fun h w => holding w0 o blk w /\ slot_answer 4096 h w0) ->
  hoare (holding w0 o blk) rel (fun _ w => holding w0 NULL [] w) ->
  o <> NULL ->
  hoare (holding w0 o blk)
    (slot ← scan;
     if slot =? 0 then rel;; mret a
     else set_buf slot o;; set_len slot len;; mret (b slot))
    (fun r w => (r = a /\ same_store w0 w)
                \/ exists h, r = b h /\ stored w0 w h o blk len).
Proof.
  intros Hscan Hrel Hnz. eapply hoare_bind; [exact Hscan|]. intros slot. cbn beta.
  destruct (Z.eqb_spec slot 0) as [-> | Hs].
  - eapply hoare_bind.
    + eapply hoare_conseq; [exact Hrel | intros w [Hw _]; exact Hw
                            | intros ? ? H; exact H].
    + intros []. apply hoare_ret. intros w Hw. left. split; [reflexivity|].
      exact (holding_none _ _ Hw).
  - intros w (Hw & [[? _] | (Hr & Hfree & Hlow)]); [contradiction|].
    destruct Hw as (Hb & Hl & [[? _] | (_ & Hfresh & Hh)]); [contradiction|].
    destruct Hshape as [Hsb Hsl].
    rewrite (bind_ok _ _ _ _ _ (set_buf_eq w slot o ltac:(rewrite Hb, Hsb; lia))).
    rewrite (bind_ok _ _ _ _ _
               (set_len_eq (with_bufs (<[Z.to_nat slot := o]> (g_bufs w)) w) slot len
                  ltac:(cbn; rewrite Hl, Hsl; lia))).
    eexists _, _. split; [reflexivity|]. right. exists slot.
    split; [reflexivity|]. unfold stored. cbn. rewrite Hb, Hl.
    repeat split; try assumption; try lia.
Qed.

Lemma fail_h {A : Type} o b (a : A) (Q : A -> world -> Prop) :
  (forall w, same_store w0 w -> Q a w) ->
  hoare (holding w0 o b) (free o;; mret a) Q.
Proof.
  intros HQ. eapply hoare_bind; [apply free_h | intros []].
  apply hoare_ret. intros w Hw. apply HQ. exact (holding_none _ _ Hw).
Qed.

Lemma release_fail_h {A : Type} o b (a : A) (Q : A -> world -> Prop) :
  (forall w, same_store w0 w -> Q a w) ->
  hoare (holding w0 o b) ((if (o =? NULL)%N then mret tt else free o);; mret a) Q.
Proof.
  intros HQ. eapply hoare_bind; [apply release_h | intros []].
  apply hoare_ret. intros w Hw. apply HQ. exact (holding_none _ _ Hw).
Qed.

Lemma write_u32_le_h o b off v :
  o <> NULL -> 0 <= off -> off + 3 < Z.of_nat (length b) ->
  hoare (holding w0 o b) (Openssl.x07_ext_write_u32_le o off v)
    (fun _ w => exists b', holding w0 o b' w /\ length b' = length b).
Proof.
  intros Ho H0 H3. unfold Openssl.x07_ext_write_u32_le.
  eapply hoare_bind; [apply store_h; [exact Ho | lia] | intros []].
  eapply hoare_bind; [apply store_h; [exact Ho | rewrite !length_insert; lia] | intros []].
  eapply hoare_bind; [apply store_h; [exact Ho | rewrite !length_insert; lia] | intros []].
  intros w Hw.
  pose proof (fun Hi => store_h o _ (off + 3) (u8 (Z.land (Z.shiftr v 24) 255)) Ho Hi w Hw)
    as Hs.
  destruct Hs as (u & w' & Ew & Hw'); [rewrite !length_insert; lia|].
  exists u, w'. split; [exact Ew|]. eexists. split; [exact Hw'|].
  now rewrite !length_insert.
Qed.


Lemma hoare_exists {A X : Type} (P : X -> world -> Prop) (m : M A)
    (Q : A -> world -> Prop) :
  (forall x, hoare (P x) m Q) -> hoare (fun w => exists x, P x w) m Q.
Proof. intros H w [x Hx]. exact (H x w Hx). Qed.

Lemma hoare_pure {A : Type} (F : Prop) (P : world -> Prop) (m : M A)
    (Q : A -> world -> Prop) :
  (F -> hoare P m Q) -> hoare (fun w => P w /\ F) m Q.
Proof. intros H w [Hw HF]. exact (H HF w Hw). Qed.

Lemma make_err_doc_h E code out_len b0 :
  hoare (holding w0 NULL b0) (Openssl.x07_ext_make_err_doc E code out_len)
    (fun r w => exists b, holding w0 (fst r) b w
                  /\ (fst r <> NULL -> length b = 9%nat /\ snd r = assign out_len 9)).
Proof.
  unfold Openssl.x07_ext_make_err_doc.
  eapply hoare_bind; [apply malloc_h|]. intros buf. cbn beta.
  apply hoare_exists. intros g. apply hoare_pure.
  change (Z.to_nat 9) with 9%nat. intros Hg.
  destruct (N.eqb_spec buf NULL) as [-> | Hnz].
  - apply hoare_ret. intros w Hw. eexists. split; [exact Hw|]. cbn. congruence.
  - eapply hoare_bind;
      [apply store_h; [exact Hnz | rewrite Hg; lia] | intros []].
    eapply hoare_bind;
      [apply write_u32_le_h;
         [exact Hnz | lia | rewrite length_insert, Hg; lia] | intros []].
    apply hoare_exists. intros b1. apply hoare_pure. intros Hb1.
    eapply hoare_bind;
      [apply write_u32_le_h; [exact Hnz | lia | rewrite Hb1, length_insert, Hg; lia] | intros []].
    apply hoare_exists. intros b2. apply hoare_pure. intros Hb2.
    apply hoare_ret. intros w Hw. exists b2. split; [exact Hw|].
    intros _. split; [|reflexivity].
    now rewrite Hb2, Hb1, length_insert, Hg.
Qed.

Lemma assign_assign out a b : assign (assign out a) b = assign out b.
Proof. destruct out; reflexivity. Qed.

Lemma rand_bytes_alloc_h E len out_handle :
  0 <= len < 4294967296 ->
  hoare (holding w0 NULL []) (Openssl.x07_ext_openssl_rand_bytes_alloc E len out_handle)
    (fun r w =>
       (r = (-1, assign out_handle 0) /\ same_store w0 w)
       \/ exists h p b,
            r = (0, assign out_handle h)
            /\ stored w0 w h p b (Z.of_nat (length b))
            /\ (length b = 9%nat \/ (len <= 1048576 /\ Z.of_nat (length b) = 1 + len))).
Proof.
  intros Hlen. unfold Openssl.x07_ext_openssl_rand_bytes_alloc.
  assert (Htail : forall doc b n,
    doc <> NULL -> n = Z.of_nat (length b) ->
    (length b = 9%nat \/ (len <= 1048576 /\ Z.of_nat (length b) = 1 + len)) ->
    hoare (holding w0 doc b)
      (slot ← Openssl.x07_ext_openssl_alloc_buf_slot;
       if slot =? 0 then free doc;; mret (-1, assign out_handle 0)
       else set_buf slot doc;; set_len slot n;;
            mret (0, assign (assign out_handle 0) slot))
      (fun r w =>
         (r = (-1, assign out_handle 0) /\ same_store w0 w)
         \/ exists h p b,
              r = (0, assign out_handle h)
              /\ stored w0 w h p b (Z.of_nat (length b))
              /\ (length b = 9%nat \/ (len <= 1048576 /\ Z.of_nat (length b) = 1 + len)))).
  { intros doc b n Hnz -> Hb.
    eapply hoare_conseq;
      [apply (tail_h Openssl.x07_ext_openssl_alloc_buf_slot (free doc) doc b _
                (-1, assign out_handle 0)
                (fun slot => (0, assign (assign out_handle 0) slot)));
         [apply scan_h | apply free_h | exact Hnz]
      | auto |].
    intros r w [Hr | (h & -> & Hs)]; [left; exact Hr|].
    right. exists h, doc, b. rewrite assign_assign. auto. }
  assert (Herr : forall code b0,
    hoare (holding w0 NULL b0)
      ('(doc, doc_len') ← Openssl.x07_ext_make_err_doc E code (Some 0);
       let doc_len := default 0 doc_len' in
       if (doc =? NULL)%N then mret (-1, assign out_handle 0)
       else
         slot ← Openssl.x07_ext_openssl_alloc_buf_slot;
         if slot =? 0 then free doc;; mret (-1, assign out_handle 0)
         else set_buf slot doc;; set_len slot doc_len;;
              mret (0, assign (assign out_handle 0) slot))
      (fun r w =>
         (r = (-1, assign out_handle 0) /\ same_store w0 w)
         \/ exists h p b,
              r = (0, assign out_handle h)
              /\ stored w0 w h p b (Z.of_nat (length b))
              /\ (length b = 9%nat \/ (len <= 1048576 /\ Z.of_nat (length b) = 1 + len)))).
  { intros code b0. eapply hoare_bind; [apply make_err_doc_h|]. intros [doc dl].
    cbn [fst snd]. apply hoare_exists. intros b. cbn zeta.
    destruct (N.eqb_spec doc NULL) as [-> | Hnz].
    - apply hoare_ret. intros w [Hw _]. left. split; [reflexivity|].
      exact (holding_none _ _ Hw).
    - apply hoare_pure. intros Hb. destruct (Hb Hnz) as [Hb9 ->]. cbn [assign default].
      apply Htail; [exact Hnz | rewrite Hb9; reflexivity | left; exact Hb9]. }
  destruct (Z.ltb_spec (1024 * 1024) len) as [Hbig | Hsmall].
  - apply Herr.
  - eapply hoare_bind; [apply malloc_h|]. intros doc. cbn beta.
    rewrite u32_small by lia.
    apply hoare_exists. intros g. apply hoare_pure. intros Hg.
    destruct (N.eqb_spec doc NULL) as [-> | Hnz].
    + apply hoare_ret. intros w Hw. left. split; [reflexivity|].
      exact (holding_none _ _ Hw).
    + eapply hoare_bind;
        [apply store_h; [exact Hnz | rewrite Hg; lia] | intros []].
      cbn zeta.
      destruct (Z.eqb_spec len 0) as [-> | Hl0]; cbn [negb].
      * apply Htail; [exact Hnz | now rewrite length_insert, Hg |].
        right. rewrite length_insert, Hg. lia.
      * eapply hoare_bind.
        { apply RAND_bytes_h; [exact Hnz | lia | |
                               rewrite length_insert, Hg ].
          - unfold int_of_u32. destruct (Z.ltb_spec len 2147483648); lia.
          - unfold int_of_u32. destruct (Z.ltb_spec len 2147483648); lia. }
        intros rc. cbn beta. apply hoare_exists. intros b'. apply hoare_pure.
        rewrite length_insert, Hg. intros Hb'.
        destruct (negb (rc =? 1)).
        -- eapply hoare_bind; [apply free_h | intros []]. apply Herr.
        -- apply Htail; [exact Hnz | lia | right; lia].
Qed.


Lemma refuse_h o b out_handle rc (Q : Z * option Z -> world -> Prop) :
  rc <> 0 ->
  (forall r w, refused w0 out_handle r w -> Q r w) ->
  hoare (holding w0 o b) (free o;; mret (rc, assign out_handle 0)) Q.
Proof.
  intros Hrc HQ. apply fail_h. intros w Hw. apply HQ. repeat split; auto; apply Hw.
Qed.

(** A zlib call that reads [source] and fills the held block from its
    start: the block keeps its size, and what lies behind the bytes written
    is what was there. *)
Lemma zlib_call_h (f : list Z -> Z -> Z * list Z) o b cap source source_len :
  o <> NULL -> length b = Z.to_nat cap ->
  let res := f (take (Z.to_nat source_len) source) cap in
  let written := take (Z.to_nat cap) (snd res) in
  hoare_unless (~ source_len <= Z.of_nat (length source)) (holding w0 o b)
    (input ← bytes_at (Some source) source_len;
     let '(rc, produced) := f input cap in
     let written := take (Z.to_nat cap) produced in
     memwrite o 0 written;;
     mret (rc, Z.of_nat (length written)))
    (fun r w => r = (fst res, Z.of_nat (length written))
                /\ holding w0 o (written ++ drop (length written) b) w).
Proof.
  intros Hnz Hb res written.
  eapply unless_bind; [apply bytes_at_unless|]. intros input. cbn beta.
  intros w [Hw ->]. left. fold res. subst written.
  destruct res as [rc produced]. cbn [fst snd].
  destruct (memwrite_h o b 0 (take (Z.to_nat cap) produced)) with (w := w)
    as ([] & w' & Ew & Hw').
  { right. rewrite length_take. repeat split; [exact Hnz | lia | lia]. }
  { exact Hw. }
  eexists _, w'. split; [rewrite (bind_ok _ _ _ _ _ Ew); reflexivity|].
  split; [reflexivity|]. exact Hw'.
Qed.

(** What [compress] and [uncompress] share once the capacity is settled. *)
Lemma zlib_fill_h E (f : list Z -> Z -> Z * list Z) out_handle (cap : Z) source source_len :
  let res := f (take (Z.to_nat source_len) source) cap in
  hoare_unless (~ source_len <= Z.of_nat (length source)) (holding w0 NULL [])
    (buf ← malloc E cap;
     if (buf =? NULL)%N then mret (-1, assign out_handle 0)
     else
       r ← (input ← bytes_at (Some source) source_len;
            let '(rc, produced) := f input cap in
            let written := take (Z.to_nat cap) produced in
            memwrite buf 0 written;;
            mret (rc, Z.of_nat (length written)));
       let '(rc, out_len) := r in
       if negb (rc =? 0) then free buf;; mret (rc, assign out_handle 0)
       else if UINT32_MAX <? out_len then free buf;; mret (-2, assign out_handle 0)
       else
         h ← Zlib.x07_ext_zlib_alloc_slot;
         if h =? 0 then free buf;; mret (-1, assign out_handle 0)
         else
           set_buf h buf;;
           set_len h (u32 out_len);;
           mret (0, assign (assign out_handle 0) h))
    (fun r w => refused w0 out_handle r w
                \/ (fst res = 0
                    /\ published w0 out_handle (take (Z.to_nat cap) (snd res)) cap r w)).
Proof.
  intros res.
  eapply unless_bind; [apply unless_total, malloc_h|]. intros buf. cbn beta.
  destruct (N.eqb_spec buf NULL) as [-> | Hnz].
  { apply unless_total. apply hoare_exists. intros g.
    apply hoare_ret. intros w [Hw _]. left.
    repeat split; try apply (holding_none _ _ Hw). cbn. lia. }
  intros w (g & Hw & Hg).
  destruct (zlib_call_h f buf g cap source source_len Hnz Hg w Hw)
    as [(r & w1 & E1 & -> & Hw1) | Hfault].
  2:{ right. destruct Hfault as (HF & e & Hf). split; [exact HF|]. exists e.
      rewrite bind_eq, Hf. reflexivity. }
  left. rewrite (bind_ok _ _ _ _ _ E1). fold res. cbv iota beta.
  set (written := take (Z.to_nat cap) (snd res)) in *.
  assert (Hlen : length (written ++ drop (length written) g) = Z.to_nat cap).
  { rewrite length_app, length_drop. subst written. rewrite length_take. lia. }
  revert w1 Hw1 E1.
  cut (hoare (holding w0 buf (written ++ drop (length written) g))
         (if negb (fst res =? 0) then free buf;; mret (fst res, assign out_handle 0)
          else if UINT32_MAX <? Z.of_nat (length written)
               then free buf;; mret (-2, assign out_handle 0)
               else
                 h ← Zlib.x07_ext_zlib_alloc_slot;
                 if h =? 0 then free buf;; mret (-1, assign out_handle 0)
                 else
                   set_buf h buf;;
                   set_len h (u32 (Z.of_nat (length written)));;
                   mret (0, assign (assign out_handle 0) h))
         (fun r w => refused w0 out_handle r w
                     \/ (fst res = 0 /\ published w0 out_handle written cap r w))).
  { intros H w1 Hw1 _. exact (H w1 Hw1). }
  destruct (Z.eqb_spec (fst res) 0) as [Hrc | Hrc]; cbn [negb].
  2:{ apply refuse_h; [exact Hrc | auto]. }
  destruct (Z.ltb_spec UINT32_MAX (Z.of_nat (length written))) as [Hbig | Hfit].
  { apply refuse_h; [lia | auto]. }
  eapply hoare_conseq;
    [apply (tail_h Zlib.x07_ext_zlib_alloc_slot (free buf) buf
              (written ++ drop (length written) g)
              (u32 (Z.of_nat (length written)))
              (-1, assign out_handle 0)
              (fun h => (0, assign (assign out_handle 0) h)));
       [apply zlib_scan_h | apply free_h | exact Hnz]
    | auto |].
  intros r w2 [[-> Hsame] | (h & -> & Hst)].
  - left. repeat split; try apply Hsame. cbn. lia.
  - right. split; [exact Hrc|]. exists h, buf, (drop (length written) g).
    rewrite assign_assign.
    split; [reflexivity|]. split; [exact Hlen|].
    rewrite u32_small in Hst; [exact Hst|].
    unfold UINT32_MAX in Hfit. lia.
Qed.

End Frames.

(** *** The zlib entry points *)
Section ZlibOutcomes.

Variables (E : oracle) (L : Zlib.zlib) (w0 : world).
Hypothesis Hshape : shaped w0.

Lemma compress_alloc_h source source_len out_handle :
  let bound := ulong (Zlib.compressBound L (ulong source_len)) in
  let res := Zlib.compress L (take (Z.to_nat source_len) source) bound in
  hoare_unless (~ source_len <= Z.of_nat (length source)) (holding w0 NULL [])
    (Zlib.x07_ext_zlib_compress_alloc E L source source_len out_handle)
    (fun r w => refused w0 out_handle r w
                \/ (fst res = 0
                    /\ published w0 out_handle (take (Z.to_nat bound) (snd res)) bound r w)).
Proof.
  intros bound res. unfold Zlib.x07_ext_zlib_compress_alloc. cbn zeta. fold bound.
  destruct (UINT32_MAX <? bound).
  { apply unless_total, hoare_ret. intros w Hw. left.
    repeat split; try apply (holding_none _ _ _ Hw). cbn. lia. }
  exact (zlib_fill_h w0 Hshape E (Zlib.compress L) out_handle bound source source_len).
Qed.

Lemma uncompress_alloc_h source source_len max_size out_handle :
  let res := Zlib.uncompress L (take (Z.to_nat source_len) source) max_size in
  hoare_unless (~ source_len <= Z.of_nat (length source)) (holding w0 NULL [])
    (Zlib.x07_ext_zlib_uncompress_alloc E L source source_len max_size out_handle)
    (fun r w => refused w0 out_handle r w
                \/ (fst res = 0
                    /\ published w0 out_handle (take (Z.to_nat max_size) (snd res))
                         max_size r w)).
Proof.
  intros res. unfold Zlib.x07_ext_zlib_uncompress_alloc. cbn zeta.
  destruct (UINT32_MAX <? max_size).
  { apply unless_total, hoare_ret. intros w Hw. left.
    repeat split; try apply (holding_none _ _ _ Hw). cbn. lia. }
  exact (zlib_fill_h w0 Hshape E (Zlib.uncompress L) out_handle max_size source source_len).
Qed.

(** The state of an inflate stream is a block beside the one the function
    holds: from its allocation to its release, the heap is the one of the
    call with that block added. *)
Lemma strm_open o b s g w :
  holding w0 o b w -> s <> NULL -> heap w !! s = None ->
  heap w0 !! s = None
  /\ shaped (set_block s g w0)
  /\ holding (set_block s g w0) o b (set_block s g (tick w)).
Proof.
  intros (Hb & Hl & Hheap) Hs Hfresh.
  destruct Hheap as [[-> Hh] | (Hnz & Hof & Hh)].
  - rewrite Hh in Hfresh. split; [exact Hfresh|]. split; [exact Hshape|].
    split; [exact Hb|]. split; [exact Hl|]. left. split; [reflexivity|].
    cbn. now rewrite Hh.
  - assert (Hso : s <> o).
    { intros ->. rewrite Hh, lookup_insert_eq in Hfresh. discriminate. }
    rewrite Hh, lookup_insert_ne in Hfresh by congruence.
    split; [exact Hfresh|]. split; [exact Hshape|].
    split; [exact Hb|]. split; [exact Hl|]. right. split; [exact Hnz|].
    split; [cbn; rewrite lookup_insert_ne by exact Hso; exact Hof|].
    cbn. rewrite Hh. apply insert_insert_ne. exact Hso.
Qed.

Lemma strm_close o b s g w :
  s <> NULL -> heap w0 !! s = None -> holding (set_block s g w0) o b w ->
  exists w', Zlib.call_inflateEnd s w = Ok Zlib.Z_OK w' /\ holding w0 o b w'.
Proof.
  intros Hs Hfresh (Hb & Hl & Hheap). unfold Zlib.call_inflateEnd.
  destruct (N.eqb_spec s NULL) as [|_]; [contradiction|].
  rewrite bind_eq. unfold free. destruct (N.eqb_spec s NULL) as [|_]; [contradiction|].
  cbn [set_block with_heap heap g_bufs g_lens] in *.
  destruct Hheap as [[-> Hh] | (Hnz & Hof & Hh)].
  - rewrite Hh, lookup_insert_eq. eexists. split; [reflexivity|].
    split; [exact Hb|]. split; [exact Hl|]. left. split; [reflexivity|].
    cbn. now apply delete_insert_id.
  - assert (Hso : s <> o).
    { intros ->. rewrite lookup_insert_eq in Hof. discriminate. }
    rewrite lookup_insert_ne in Hof by exact Hso.
    rewrite Hh, lookup_insert_ne, lookup_insert_eq by congruence.
    eexists. split; [reflexivity|].
    split; [exact Hb|]. split; [exact Hl|]. right. split; [exact Hnz|].
    split; [exact Hof|]. cbn.
    rewrite delete_insert_ne by congruence. f_equal. now apply delete_insert_id.
Qed.

Lemma call_inflateInit2_cases window_bits w :
  (exists rc w',
     Zlib.call_inflateInit2 E L window_bits w = Ok (rc, NULL) w'
     /\ rc <> Zlib.Z_OK /\ same_store w w')
  \/ (Zlib.inflateInit2 L window_bits = Zlib.Z_OK
      /\ o_malloc E (clock w) <> NULL /\ heap w !! o_malloc E (clock w) = None
      /\ Zlib.call_inflateInit2 E L window_bits w
         = Ok (Zlib.Z_OK, o_malloc E (clock w))
              (set_block (o_malloc E (clock w)) (garbage E (clock w) 0) (tick w))).
Proof.
  unfold Zlib.call_inflateInit2.
  destruct (Z.eqb_spec (Zlib.inflateInit2 L window_bits) Zlib.Z_OK) as [Hinit | Hinit];
    cbn [negb].
  2:{ left. eexists _, w. split; [reflexivity|]. split; [exact Hinit|]. repeat split. }
  destruct (malloc_cases E 0 w) as [Hm | (Hs & Hsfresh & Hm)];
    rewrite (bind_ok _ _ _ _ _ Hm).
  - left. eexists _, _. cbn [N.eqb NULL]. split; [reflexivity|].
    split; [unfold Zlib.Z_MEM_ERROR, Zlib.Z_OK; lia | repeat split].
  - right. destruct (N.eqb_spec (o_malloc E (clock w)) NULL) as [|_]; [contradiction|].
    auto.
Qed.

Lemma holding_same o b w w' : holding w0 o b w -> same_store w w' -> holding w0 o b w'.
Proof. intros (Hb & Hl & Hh) (Hh' & Hb' & Hl'). unfold holding. rewrite Hh', Hb', Hl'. auto. Qed.

Lemma inflate_alloc_window_bits_h source source_len max_size window_bits out_handle :
  let input := take (Z.to_nat source_len) source in
  let res := Zlib.inflate L window_bits input max_size in
  hoare_unless (~ source_len <= Z.of_nat (length source)) (holding w0 NULL [])
    (Zlib.x07_ext_zlib_inflate_alloc_window_bits E L source source_len max_size
       window_bits out_handle)
    (fun r w =>
       (snd r = assign out_handle 0 /\ same_store w0 w
        /\ (fst r = 0 -> fst res = Zlib.Z_OK))
       \/ (Zlib.inflateInit2 L window_bits = Zlib.Z_OK
           /\ fst res = Zlib.Z_STREAM_END
           /\ published w0 out_handle (take (Z.to_nat max_size) (snd res)) max_size r w)).
Proof.
  intros input res. unfold Zlib.x07_ext_zlib_inflate_alloc_window_bits. cbn zeta.
  set (Q := fun (r : Z * option Z) (w : world) =>
       (snd r = assign out_handle 0 /\ same_store w0 w
        /\ (fst r = 0 -> fst res = Zlib.Z_OK))
       \/ (Zlib.inflateInit2 L window_bits = Zlib.Z_OK
           /\ fst res = Zlib.Z_STREAM_END
           /\ published w0 out_handle (take (Z.to_nat max_size) (snd res)) max_size r w)).
  eapply unless_bind; [apply unless_total, malloc_h; exact Hshape|]. intros buf. cbn beta.
  assert (Hfail : forall rc b,
    (rc = 0 -> fst res = Zlib.Z_OK) ->
    hoare (holding w0 buf b)
      ((if (buf =? NULL)%N then mret tt else free buf);; mret (rc, assign out_handle 0)) Q).
  { intros rc b Hrc. apply release_fail_h. intros w Hw. left. auto. }
  destruct ((buf =? NULL)%N && negb (max_size =? 0)) eqn:Hguard.
  { apply unless_total. apply hoare_exists. intros g.
    apply hoare_ret. intros w [Hw _]. left.
    apply andb_true_iff in Hguard as [Hb _]. apply N.eqb_eq in Hb. subst buf.
    split; [reflexivity|]. split; [exact (holding_none _ _ _ Hw)|]. cbn. lia. }
  intros w (g & Hw & Hg).
  (* inflateInit2 *)
  destruct (call_inflateInit2_cases window_bits w)
    as [(rc & w' & Ei & Hrc & Hsame) | (Hinit & Hs & Hsfresh & Ei)];
    rewrite (bind_ok _ _ _ _ _ Ei); cbv iota beta.
  { destruct (Z.eqb_spec rc Zlib.Z_OK) as [|_]; [contradiction|]. cbn [negb]. left.
    apply (Hfail _ g); [unfold Zlib.Z_OK in Hrc; lia|].
    exact (holding_same _ _ _ _ Hw Hsame). }
  set (strm := o_malloc E (clock w)) in *.
  change (negb (Zlib.Z_OK =? Zlib.Z_OK)) with false. cbv iota.
  destruct (strm_open buf g strm (garbage E (clock w) 0) w Hw Hs Hsfresh)
    as (Hs0 & Hshape1 & Hw1).
  set (w0' := set_block strm (garbage E (clock w) 0) w0) in *.
  set (w1 := set_block strm (garbage E (clock w) 0) (tick w)) in *.
  (* inflate *)
  unfold Zlib.call_inflate.
  destruct (N.eqb_spec buf NULL) as [Hbuf | Hbuf].
  { rewrite (bind_ok _ _ w1 w1 (Zlib.Z_STREAM_ERROR, 0) eq_refl). cbv iota beta.
    change (negb (Zlib.Z_STREAM_ERROR =? Zlib.Z_STREAM_END)) with true.
    cbv iota. left.
    destruct (strm_close buf g strm _ w1 Hs Hs0 Hw1) as (w2 & E2 & Hw2).
    rewrite (bind_ok _ _ _ _ _ E2).
    subst buf. apply (Hfail _ g); [|exact Hw2]. unfold Zlib.Z_STREAM_ERROR. lia. }
  destruct (zlib_call_h w0' (Zlib.inflate L window_bits) buf g max_size source source_len
              Hbuf Hg w1 Hw1) as [(r & w2 & E2 & -> & Hw2) | (HF & e & Hf)].
  2:{ right. split; [exact HF|]. exists e. exact (bind_fault _ _ _ _ Hf). }
  left. rewrite (bind_ok _ _ _ _ _ E2). fold input. fold res. cbv iota beta.
  set (written := take (Z.to_nat max_size) (snd res)) in *.
  destruct (strm_close buf _ strm _ w2 Hs Hs0 Hw2) as (w3 & E3 & Hw3).
  destruct (Z.eqb_spec (fst res) Zlib.Z_STREAM_END) as [Hrc | Hrc]; cbn [negb].
  2:{ rewrite (bind_ok _ _ _ _ _ E3).
      apply (Hfail (fst res) _ (fun H => H) w3 Hw3). }
  rewrite (bind_ok _ _ _ _ _ E3).
  change (negb (Zlib.Z_OK =? Zlib.Z_OK)) with false. cbv iota.
  destruct (Z.ltb_spec UINT32_MAX (Z.of_nat (length written))) as [Hbig | Hfit].
  { assert (Hne : -2 = 0 -> fst res = Zlib.Z_OK) by lia.
    apply (Hfail (-2) _ Hne w3 Hw3). }
  rewrite u32_small by (unfold UINT32_MAX in Hfit; lia).
  destruct (N.eqb_spec buf NULL) as [|_]; [contradiction|].
  assert (Hlen : length (written ++ drop (length written) g) = Z.to_nat max_size).
  { rewrite length_app, length_drop. subst written. rewrite length_take. lia. }
  revert w3 Hw3 E3.
  cut (hoare (holding w0 buf (written ++ drop (length written) g))
         (h ← Zlib.x07_ext_zlib_alloc_slot;
          if h =? 0 then free buf;; mret (-1, assign out_handle 0)
          else
            set_buf h buf;;
            set_len h (Z.of_nat (length written));;
            mret (0, assign (assign out_handle 0) h)) Q).
  { intros H w3 Hw3 _. exact (H w3 Hw3). }
  eapply hoare_conseq;
    [apply (tail_h w0 Hshape Zlib.x07_ext_zlib_alloc_slot (free buf) buf
              (written ++ drop (length written) g)
              (Z.of_nat (length written))
              (-1, assign out_handle 0)
              (fun h => (0, assign (assign out_handle 0) h)));
       [apply zlib_scan_h; exact Hshape | apply free_h | exact Hbuf]
    | auto |].
  intros r w4 [[-> Hsame] | (h & -> & Hst)].
  - left. split; [reflexivity|]. split; [exact Hsame|]. cbn. lia.
  - right. split; [exact Hinit|]. split; [exact Hrc|].
    exists h, buf, (drop (length written) g). rewrite assign_assign.
    split; [reflexivity|]. split; [exact Hlen | exact Hst].
Qed.

End ZlibOutcomes.

(** *** Recorded lengths and block sizes *)
Section Invariant.

Variable R : Z -> list Z -> Prop.

Lemma lens_fit_init n h : lens_fit R (init_world n h).
Proof. intros i p k Hi Hp. apply lookup_replicate in Hi as [-> _]. congruence. Qed.

Lemma lens_fit_same w0 w : same_store w0 w -> lens_fit R w0 -> lens_fit R w.
Proof. intros (Hh & Hb & Hl) H i p n. rewrite Hh, Hb, Hl. apply H. Qed.

Lemma lens_fit_stored w0 w h p b n :
  table_ok 4096 w0 -> lens_fit R w0 -> stored w0 w h p b n -> R n b -> lens_fit R w.
Proof.
  intros [H1 H2 H3 H4 H5] Hfit (Hr & Hfree & _ & Hnz & Hfresh & Hh & Hb & Hl) HR i q k.
  rewrite Hh, Hb, Hl. destruct (decide (i = Z.to_nat h)) as [-> | Hne].
  - rewrite !list_lookup_insert_eq by lia. intros [= <-] _ [= <-].
    exists b. now rewrite lookup_insert_eq.
  - rewrite !list_lookup_insert_ne by congruence. intros Hi Hq Hk.
    destruct (Hfit i q k Hi Hq Hk) as (b' & Hb' & HR'). exists b'. split; [|exact HR'].
    rewrite lookup_insert_ne; [exact Hb'|]. intros <-. congruence.
Qed.

End Invariant.

Section Free.

(** What [buf_free] does to a handle of the table: the block of the slot is
    released, the slot is emptied, nothing else changes. *)
Lemma buf_free_effect w h p :
  length (g_bufs w) = 4096%nat -> length (g_lens w) = 4096%nat ->
  1 <= h < 4096 -> g_bufs w !! Z.to_nat h = Some p ->
  (p <> NULL -> is_Some (heap w !! p)) ->
  Openssl.x07_ext_openssl_buf_free h w
  = Ok tt {| heap := if (p =? NULL)%N then heap w else delete p (heap w);
             g_bufs := <[Z.to_nat h := NULL]> (g_bufs w);
             g_lens := <[Z.to_nat h := 0]> (g_lens w);
             clock := clock w |}.
Proof.
  intros H1 H2 Hh Hp Hlive.
  unfold Openssl.x07_ext_openssl_buf_free, Openssl.X07_EXT_OPENSSL_MAX_BUFS.
  destruct (Z.eqb_spec h 0) as [| _]; [lia|]. cbn [orb].
  destruct (Z.leb_spec 4096 h) as [| _]; [lia|].
  rewrite (bind_ok _ _ _ _ _ (get_buf_eq w h p ltac:(lia) Hp)).
  destruct (N.eqb_spec p NULL) as [-> | Hnz].
  - rewrite bind_eq. cbn [mret M_ret].
    rewrite (bind_ok _ _ _ _ _ (set_buf_eq w h NULL ltac:(rewrite H1; lia))).
    rewrite (set_len_eq _ h 0) by (cbn; rewrite H2; lia). reflexivity.
  - destruct (Hlive Hnz) as [b Hb]. rewrite bind_eq. unfold free.
    destruct (N.eqb_spec p NULL) as [|_]; [contradiction|]. rewrite Hb.
    rewrite (bind_ok _ _ _ _ _ (set_buf_eq (with_heap (delete p (heap w)) w) h NULL
                               ltac:(cbn; rewrite H1; lia))).
    rewrite (set_len_eq _ h 0) by (cbn; rewrite H2; lia). reflexivity.
Qed.

Lemma lens_fit_free R w w' h :
  table_ok 4096 w -> lens_fit R w -> 0 <= h ->
  Openssl.x07_ext_openssl_buf_free h w = Ok tt w' -> lens_fit R w'.
Proof.
  intros Hok Hfit Hh Hfree. pose proof Hok as [H1 H2 H3 H4 H5].
  destruct (Z.eq_dec h 0) as [-> | Hnz].
  { rewrite buf_free_noop in Hfree by auto with lia. now injection Hfree as <-. }
  destruct (Z_le_gt_dec 4096 h) as [Hge | Hlt].
  { rewrite buf_free_noop in Hfree by auto with lia. now injection Hfree as <-. }
  destruct (lookup_lt_is_Some_2 (g_bufs w) (Z.to_nat h)) as [p Hp]; [lia|].
  rewrite (buf_free_effect w h p H1 H2 ltac:(lia) Hp (H4 _ _ Hp)) in Hfree.
  injection Hfree as <-. intros i q k. cbn.
  destruct (decide (i = Z.to_nat h)) as [-> | Hne].
  - rewrite list_lookup_insert_eq by lia. congruence.
  - rewrite !list_lookup_insert_ne by congruence. intros Hi Hq Hk.
    destruct (Hfit i q k Hi Hq Hk) as (b & Hb & HR). exists b. split; [|exact HR].
    destruct (N.eqb_spec p NULL); [exact Hb|].
    rewrite lookup_delete_ne; [exact Hb|]. intros <-. apply Hne.
    exact (H5 _ _ _ Hi Hp Hq).
Qed.

End Free.

Section Reach.

Lemma alloc_filled_h w0 E n filled :
  shaped w0 -> 0 <= n ->
  hoare (holding w0 NULL []) (Openssl.alloc_filled E n filled)
    (fun r w => (r = 0 /\ same_store w0 w)
                \/ exists p b, stored w0 w r p b n /\ exactly n b).
Proof.
  intros Hs Hn. unfold Openssl.alloc_filled.
  eapply hoare_bind; [apply malloc_h; exact Hs|]. intros buf. cbn beta.
  apply hoare_exists. intros g. apply hoare_pure. intros Hg.
  destruct (N.eqb_spec buf NULL) as [-> | Hnz].
  { apply hoare_ret. intros w Hw. left. split; [reflexivity | exact (holding_none _ _ _ Hw)]. }
  destruct filled as [bs|].
  2:{ apply fail_h. auto. }
  eapply hoare_bind.
  { apply memwrite_h. right. rewrite length_take, Hg.
    repeat split; [exact Hnz | lia | lia]. }
  intros [].
  eapply hoare_conseq;
    [apply (tail_h w0 Hs Openssl.x07_ext_openssl_alloc_buf_slot (free buf) buf
              (take (Z.to_nat 0) g ++ take (Z.to_nat n) bs
               ++ drop (Z.to_nat 0 + length (take (Z.to_nat n) bs)) g)
              n 0 (fun slot => slot));
       [apply scan_h; exact Hs | apply free_h | exact Hnz]
    | auto |].
  intros r w [Hr | (h & -> & Hst)]; [left; exact Hr|].
  right. eexists _, _. split; [exact Hst|]. unfold exactly.
  rewrite !length_app, !length_take, length_drop, Hg. lia.
Qed.

Lemma then_tt_eq {A : Type} (m : M A) (w w' : world) :
  (m;; mret tt) w = Ok tt w' -> exists a, m w = Ok a w'.
Proof.
  rewrite bind_eq. destruct (m w) as [a w1|]; [|discriminate].
  cbn. intros [= <-]. eauto.
Qed.

(** One step of the invariant: a call that either leaves the store as it
    is, or publishes one fresh block whose length fits, keeps the recorded
    lengths within their blocks. *)
Lemma lens_fit_step {A : Type} (F : Prop) (R : Z -> list Z -> Prop) (m : M A) w w' :
  table_ok 4096 w -> lens_fit R w ->
  hoare_unless F (holding w NULL []) m
    (fun _ w1 => same_store w w1
                 \/ (exists h p b n, stored w w1 h p b n /\ R n b)) ->
  (m;; mret tt) w = Ok tt w' -> lens_fit R w'.
Proof.
  intros Hok Hfit Hm Hrun. apply then_tt_eq in Hrun as [a Ha].
  pose proof (unless_returned _ _ _ _ w a w' Hm (holding_start w []) Ha) as Hpost.
  destruct Hpost as [Hsame | (h & p & b & n & Hst & HR)].
  - exact (lens_fit_same R w w' Hsame Hfit).
  - exact (lens_fit_stored R w w' h p b n Hok Hfit Hst HR).
Qed.

Lemma table_ok_shaped w : table_ok 4096 w -> shaped w.
Proof. intros [H1 H2 _ _ _]. split; assumption. Qed.

Lemma within_written (written rest : list Z) :
  within (Z.of_nat (length written)) (written ++ rest).
Proof. unfold within. rewrite length_app. lia. Qed.

Lemma zlib_step_fit E L c w w' :
  table_ok 4096 w -> lens_fit within w -> Zlib.do_api E L c w = Ok tt w' ->
  lens_fit within w'.
Proof.
  intros Hok IH Hc. pose proof (table_ok_shaped w Hok) as Hs.
  destruct c as [s n o | s n m o | s n m o | s n m o | h]; cbn [Zlib.do_api] in Hc.
  - refine (lens_fit_step _ within _ w w' Hok IH _ Hc).
    eapply unless_conseq; [apply (compress_alloc_h E L w Hs) | auto |].
    intros r w1 [(_ & _ & Hsame) | (_ & h & p & rest & _ & _ & Hst)]; [left; exact Hsame|].
    right. eexists _, _, _, _. split; [exact Hst | apply within_written].
  - refine (lens_fit_step _ within _ w w' Hok IH _ Hc).
    eapply unless_conseq; [apply (uncompress_alloc_h E L w Hs) | auto |].
    intros r w1 [(_ & _ & Hsame) | (_ & h & p & rest & _ & _ & Hst)]; [left; exact Hsame|].
    right. eexists _, _, _, _. split; [exact Hst | apply within_written].
  - refine (lens_fit_step _ within _ w w' Hok IH _ Hc).
    eapply unless_conseq; [apply (inflate_alloc_window_bits_h E L w Hs) | auto |].
    intros r w1 [(_ & Hsame & _) | (_ & _ & h & p & rest & _ & _ & Hst)].
    + left; exact Hsame.
    + right. eexists _, _, _, _. split; [exact Hst | apply within_written].
  - refine (lens_fit_step _ within _ w w' Hok IH _ Hc).
    eapply unless_conseq; [apply (inflate_alloc_window_bits_h E L w Hs) | auto |].
    intros r w1 [(_ & Hsame & _) | (_ & _ & h & p & rest & _ & _ & Hst)].
    + left; exact Hsame.
    + right. eexists _, _, _, _. split; [exact Hst | apply within_written].
  - rewrite zlib_buf_free_eq in Hc.
    exact (lens_fit_free within w w' (u32 h) Hok IH (proj1 (u32_range h)) Hc).
Qed.

Lemma zlib_reachable_fit E L w : Zlib.reachable E L w -> lens_fit within w.
Proof.
  induction 1 as [h | w c w' Hr IH Hc]; [apply lens_fit_init|].
  exact (zlib_step_fit E L c w w' (zlib_reachable_ok E L w Hr) IH Hc).
Qed.

Lemma openssl_reachable_fit E w : Openssl.reachable E w -> lens_fit exactly w.
Proof.
  induction 1 as [h | w c w' Hr IH Hc]; [apply lens_fit_init|].
  pose proof (openssl_reachable_ok E w Hr) as Hok.
  pose proof (table_ok_shaped w Hok) as Hs.
  destruct c as [len oh | n filled | h]; cbn [Openssl.do_api] in Hc.
  - refine (lens_fit_step False exactly _ w w' Hok IH _ Hc). apply unless_total.
    eapply hoare_conseq;
      [apply (rand_bytes_alloc_h w Hs E (u32 len) oh (u32_range len))
      | intros ? Hx; exact Hx |].
    intros r w1 [[_ Hsame] | (h & p & b & _ & Hst & _)]; [left; exact Hsame|].
    right. exists h, p, b, (Z.of_nat (length b)).
    split; [exact Hst | unfold exactly; reflexivity].
  - refine (lens_fit_step False exactly _ w w' Hok IH _ Hc). apply unless_total.
    eapply hoare_conseq;
      [apply (alloc_filled_h w E (u32 n) filled Hs (proj1 (u32_range n)))
      | intros ? Hx; exact Hx |].
    intros r w1 [[_ Hsame] | (p & b & Hst & Hex)]; [left; exact Hsame|].
    right. exists r, p, b, (u32 n). split; assumption.
  - exact (lens_fit_free exactly w w' (u32 h) Hok IH (proj1 (u32_range h)) Hc).
Qed.

End Reach.

(** *** What a caller can rely on *)
Section Outcomes.

Lemma one_buffer_reachable : Openssl.reachable oracle_ok Openssl.one_buffer.
Proof.
  apply (Openssl.reach_call oracle_ok (init_world 4096 ∅)
           (Openssl.RandBytesAlloc 2 (Some 0))).
  - apply (Openssl.reach_init oracle_ok ∅).
  - vm_compute. reflexivity.
Qed.



Lemma buf_ptr_len_eq w h p n :
  1 <= h < 4096 -> g_bufs w !! Z.to_nat h = Some p -> g_lens w !! Z.to_nat h = Some n ->
  Openssl.x07_ext_openssl_buf_ptr h w = Ok p w
  /\ Openssl.x07_ext_openssl_buf_len h w = Ok n w.
Proof.
  intros Hh Hp Hn.
  unfold Openssl.x07_ext_openssl_buf_ptr, Openssl.x07_ext_openssl_buf_len,
    Openssl.X07_EXT_OPENSSL_MAX_BUFS.
  destruct (Z.eqb_spec h 0) as [| _]; [lia|]. cbn [orb].
  destruct (Z.leb_spec 4096 h) as [| _]; [lia|].
  unfold get_buf, get_len. destruct (Z.leb_spec 0 h); [|lia].
  now rewrite Hp, Hn.
Qed.

Lemma buf_ptr_len_out w h :
  h = 0 \/ 4096 <= h ->
  Openssl.x07_ext_openssl_buf_ptr h w = Ok NULL w
  /\ Openssl.x07_ext_openssl_buf_len h w = Ok 0 w.
Proof.
  intros Hh.
  unfold Openssl.x07_ext_openssl_buf_ptr, Openssl.x07_ext_openssl_buf_len,
    Openssl.X07_EXT_OPENSSL_MAX_BUFS.
  destruct (Z.eqb_spec h 0) as [| Hnz]; [split; reflexivity|]. cbn [orb].
  destruct (Z.leb_spec 4096 h) as [| Hlt]; [split; reflexivity | lia].
Qed.

(** What a reader of a handle finds, given the invariants. *)
Lemma read_handle R w h :
  table_ok 4096 w -> lens_fit R w -> 0 <= h ->
  exists p n,
    Openssl.x07_ext_openssl_buf_ptr h w = Ok p w
    /\ Openssl.x07_ext_openssl_buf_len h w = Ok n w
    /\ (p = NULL -> n = 0)
    /\ (p <> NULL -> 1 <= h < 4096 /\ exists b, heap w !! p = Some b /\ R n b).
Proof.
  intros [H1 H2 H3 H4 H5] Hfit Hh.
  destruct (Z.eq_dec h 0) as [-> | Hnz].
  { exists NULL, 0. destruct (buf_ptr_len_out w 0) as [-> ->]; [auto|]. easy. }
  destruct (Z_le_gt_dec 4096 h) as [Hge | Hlt].
  { exists NULL, 0. destruct (buf_ptr_len_out w h) as [-> ->]; [auto|]. easy. }
  destruct (lookup_lt_is_Some_2 (g_bufs w) (Z.to_nat h)) as [p Hp]; [lia|].
  destruct (lookup_lt_is_Some_2 (g_lens w) (Z.to_nat h)) as [n Hn]; [lia|].
  exists p, n. destruct (buf_ptr_len_eq w h p n) as [-> ->]; [lia | assumption..|].
  split; [reflexivity|]. split; [reflexivity|]. split.
  - intros ->. rewrite (H3 _ Hp) in Hn. congruence.
  - intros Hpn. split; [lia|]. exact (Hfit _ _ _ Hp Hpn Hn).
Qed.

(** X3: in every state of the zlib shim, for every handle,
    [x07_ext_zlib_buf_ptr] and [x07_ext_zlib_buf_len] return (and change
    nothing), and the answers go together: a NULL pointer comes with length
    0, and a non-NULL pointer is a live block at least as long as the
    reported length, so the bytes [ptr[0 .. len-1]] can be read.  Handle 0
    and handles of 4096 or more read as NULL and 0. *)
Theorem zlib_buf_len_within_block E L w h :
  Zlib.reachable E L w -> 0 <= h ->
  exists p n,
    Zlib.x07_ext_zlib_buf_ptr h w = Ok p w
    /\ Zlib.x07_ext_zlib_buf_len h w = Ok n w
    /\ (p = NULL -> n = 0)
    /\ (p <> NULL ->
        1 <= h < 4096
        /\ exists b, heap w !! p = Some b /\ 0 <= n <= Z.of_nat (length b)).
Proof.
  intros Hr Hh.
  exact (read_handle within w h (zlib_reachable_ok E L w Hr) (zlib_reachable_fit E L w Hr) Hh).
Qed.

Lemma zlib_buf_len_within_block_witness :
  let w := init_world 4096 ∅ in
  Zlib.reachable oracle_ok Zlib.zlib_stored w
  /\ exists p n, Zlib.x07_ext_zlib_buf_ptr 7 w = Ok p w
                 /\ Zlib.x07_ext_zlib_buf_len 7 w = Ok n w
                 /\ (p = NULL -> n = 0).
Proof.
  intros w.
  pose proof (Zlib.reach_init oracle_ok Zlib.zlib_stored ∅) as Hr.
  split; [exact Hr|].
  destruct (zlib_buf_len_within_block oracle_ok Zlib.zlib_stored _ 7 Hr ltac:(lia))
    as (p & n & Hp & Hn & Hz & _).
  exists p, n. split; [exact Hp|]. split; [exact Hn | exact Hz].
Defined.

(** X4: in every state of the OpenSSL shim's table, for every handle,
    [x07_ext_openssl_buf_ptr] and [x07_ext_openssl_buf_len] return (and
    change nothing); a NULL pointer comes with length 0, and a non-NULL
    pointer is a live block whose size is exactly the reported length. *)
Theorem openssl_buf_len_is_block_size E w h :
  Openssl.reachable E w -> 0 <= h ->
  exists p n,
    Openssl.x07_ext_openssl_buf_ptr h w = Ok p w
    /\ Openssl.x07_ext_openssl_buf_len h w = Ok n w
    /\ (p = NULL -> n = 0)
    /\ (p <> NULL ->
        1 <= h < 4096
        /\ exists b, heap w !! p = Some b /\ n = Z.of_nat (length b)).
Proof.
  intros Hr Hh.
  exact (read_handle exactly w h (openssl_reachable_ok E w Hr)
           (openssl_reachable_fit E w Hr) Hh).
Qed.

Lemma openssl_buf_len_is_block_size_witness :
  Openssl.reachable oracle_ok Openssl.one_buffer
  /\ exists p n, Openssl.x07_ext_openssl_buf_ptr 1 Openssl.one_buffer
                 = Ok p Openssl.one_buffer
                 /\ Openssl.x07_ext_openssl_buf_len 1 Openssl.one_buffer
                    = Ok n Openssl.one_buffer
                 /\ p = 1%N /\ n = 3.
Proof.
  split; [exact one_buffer_reachable|].
  destruct (openssl_buf_len_is_block_size oracle_ok Openssl.one_buffer 1
              one_buffer_reachable ltac:(lia)) as (p & n & Hp & Hn & _).
  exists p, n. split; [exact Hp|]. split; [exact Hn|].
  vm_compute in Hp, Hn. injection Hp as <-. injection Hn as <-. split; reflexivity.
Defined.

(** X5: [x07_ext_zlib_compress_alloc], given a source of at least
    [source_len] bytes, always returns, in one of two ways.  Either the
    status is not 0, [*out_handle] (when given) is 0, and heap and table are
    exactly as before: the buffer it allocated has been released on every
    failure path (bound over [UINT32_MAX], [malloc] failure, zlib error,
    table full).  Or the status is 0, zlib's [compress] returned 0, and
    exactly one thing changed: a fresh block of [bound] bytes that starts
    with the bytes zlib produced sits in the lowest previously empty slot
    [h], [*out_handle] is [h], and the recorded length is the number of
    bytes produced.  The bytes of the block behind these are not written:
    they are whatever [malloc] left there. *)
Theorem compress_alloc_outcome E L w0 source source_len out_handle :
  shaped w0 -> source_len <= Z.of_nat (length source) ->
  let bound := ulong (Zlib.compressBound L (ulong source_len)) in
  let res := Zlib.compress L (take (Z.to_nat source_len) source) bound in
  exists r w,
    Zlib.x07_ext_zlib_compress_alloc E L source source_len out_handle w0 = Ok r w
    /\ (refused w0 out_handle r w
        \/ (fst res = 0
            /\ published w0 out_handle (take (Z.to_nat bound) (snd res)) bound r w)).
Proof.
  intros Hs Hlen bound res.
  exact (unless_returns _ _ _ _
           (compress_alloc_h E L w0 Hs source source_len out_handle) ltac:(tauto)
           w0 (holding_start w0 [])).
Qed.

Lemma compress_alloc_outcome_witness :
  let w0 := init_world 4096 ∅ in
  shaped w0 /\ 3 <= Z.of_nat (length [1; 2; 3])
  /\ exists r w,
       Zlib.x07_ext_zlib_compress_alloc oracle_dirty Zlib.zlib_stored [1; 2; 3] 3 (Some 0) w0
       = Ok r w
       /\ (refused w0 (Some 0) r w
           \/ (0 = 0 /\ published w0 (Some 0) [1; 2; 3] 16 r w))
       /\ r = (0, Some 1)
       /\ heap w !! 1%N = Some ([1; 2; 3] ++ replicate 13 170).
Proof.
  intros w0.
  assert (Hs : shaped w0) by (split; reflexivity).
  assert (Hl : 3 <= Z.of_nat (length [1; 2; 3])) by (cbn; lia).
  split; [exact Hs|]. split; [exact Hl|].
  destruct (compress_alloc_outcome oracle_dirty Zlib.zlib_stored w0 [1; 2; 3] 3 (Some 0) Hs Hl)
    as (r & w & Hrun & Hpost).
  exists r, w. split; [exact Hrun|]. split; [exact Hpost|].
  vm_compute in Hrun. injection Hrun as <- <-. split; reflexivity.
Defined.

(** X6: [x07_ext_zlib_uncompress_alloc], given a source of at least
    [source_len] bytes, always returns, in one of two ways.  Either the
    status is not 0, [*out_handle] is 0, and heap and table are exactly as
    before (nothing leaks).  Or the status is 0, zlib's [uncompress]
    returned 0, and the only change is a fresh block of [max_size] bytes
    that starts with the bytes zlib produced, in the lowest previously empty
    slot, with [*out_handle] naming it and the recorded length the number of
    bytes produced (at most [max_size]); the rest of the block is whatever
    [malloc] left there. *)
Theorem uncompress_alloc_outcome E L w0 source source_len max_size out_handle :
  shaped w0 -> source_len <= Z.of_nat (length source) ->
  let res := Zlib.uncompress L (take (Z.to_nat source_len) source) max_size in
  exists r w,
    Zlib.x07_ext_zlib_uncompress_alloc E L source source_len max_size out_handle w0
    = Ok r w
    /\ (refused w0 out_handle r w
        \/ (fst res = 0
            /\ published w0 out_handle (take (Z.to_nat max_size) (snd res)) max_size r w)).
Proof.
  intros Hs Hlen res.
  exact (unless_returns _ _ _ _
           (uncompress_alloc_h E L w0 Hs source source_len max_size out_handle)
           ltac:(tauto) w0 (holding_start w0 [])).
Qed.

Lemma uncompress_alloc_outcome_witness :
  let w0 := init_world 4096 ∅ in
  shaped w0 /\ 3 <= Z.of_nat (length [1; 2; 3])
  /\ exists r w,
       Zlib.x07_ext_zlib_uncompress_alloc oracle_dirty Zlib.zlib_stored [1; 2; 3] 3 5
         (Some 0) w0
       = Ok r w
       /\ (refused w0 (Some 0) r w
           \/ (0 = 0 /\ published w0 (Some 0) [1; 2; 3] 5 r w))
       /\ r = (0, Some 1)
       /\ heap w !! 1%N = Some [1; 2; 3; 170; 170]
       /\ g_lens w !! 1%nat = Some 3.
Proof.
  intros w0.
  assert (Hs : shaped w0) by (split; reflexivity).
  assert (Hl : 3 <= Z.of_nat (length [1; 2; 3])) by (cbn; lia).
  split; [exact Hs|]. split; [exact Hl|].
  destruct (uncompress_alloc_outcome oracle_dirty Zlib.zlib_stored w0 [1; 2; 3] 3 5 (Some 0)
              Hs Hl) as (r & w & Hrun & Hpost).
  exists r, w. split; [exact Hrun|]. split; [exact Hpost|].
  vm_compute in Hrun. injection Hrun as <- <-. repeat split; reflexivity.
Defined.

(** X7: [x07_ext_zlib_gzip_decompress_alloc] (window bits [16 + MAX_WBITS])
    and [x07_ext_zlib_inflate_raw_alloc] (window bits [-MAX_WBITS]), given a
    source of at least [source_len] bytes, always return, in one of two
    ways.  (1) Nothing is published: [*out_handle] is 0 and heap and table
    are as before, the buffer and the state of the inflate stream both
    released; the status is then not 0, except when zlib's [inflate] itself
    answers [Z_OK] instead of [Z_STREAM_END], which is passed on as it is.
    This is the outcome for [max_size = 0] when [malloc(0)] gave NULL:
    [inflate] refuses the NULL output pointer and the status is
    [Z_STREAM_ERROR].  (2) [inflateInit2] and [inflate] answered [Z_OK] and
    [Z_STREAM_END], the status is 0 and the only change is a fresh block of
    [max_size] bytes that starts with the inflated bytes, in the lowest
    previously empty slot, with the recorded length the number of bytes
    inflated; the stream's state is released. *)
Theorem inflate_alloc_outcome E L w0 source source_len max_size out_handle :
  shaped w0 -> source_len <= Z.of_nat (length source) ->
  let input := take (Z.to_nat source_len) source in
  let post (window_bits : Z) (r : Z * option Z) (w : world) :=
    let res := Zlib.inflate L window_bits input max_size in
    (snd r = assign out_handle 0 /\ same_store w0 w
     /\ (fst r = 0 -> fst res = Zlib.Z_OK))
    \/ (Zlib.inflateInit2 L window_bits = Zlib.Z_OK
        /\ fst res = Zlib.Z_STREAM_END
        /\ published w0 out_handle (take (Z.to_nat max_size) (snd res)) max_size r w) in
  (exists r w,
     Zlib.x07_ext_zlib_gzip_decompress_alloc E L source source_len max_size out_handle w0
     = Ok r w /\ post (16 + Zlib.MAX_WBITS) r w)
  /\ (exists r w,
        Zlib.x07_ext_zlib_inflate_raw_alloc E L source source_len max_size out_handle w0
        = Ok r w /\ post (- Zlib.MAX_WBITS) r w).
Proof.
  intros Hs Hlen input post. split.
  - exact (unless_returns _ _ _ _
             (inflate_alloc_window_bits_h E L w0 Hs source source_len max_size _ out_handle)
             ltac:(tauto) w0 (holding_start w0 [])).
  - exact (unless_returns _ _ _ _
             (inflate_alloc_window_bits_h E L w0 Hs source source_len max_size _ out_handle)
             ltac:(tauto) w0 (holding_start w0 [])).
Qed.

(** Where [malloc(0)] gives NULL and later allocations succeed, a request
    with [max_size = 0] is refused with [Z_STREAM_ERROR]; where blocks come
    full of [0xAA], three bytes inflated into eight leave five of them. *)
Lemma inflate_alloc_outcome_witness :
  let w0 := init_world 4096 ∅ in
  let E := {| o_malloc := fun k => N.of_nat k; o_junk := fun _ => []; 
              o_rand := fun _ => (1, []) |} in
  shaped w0 /\ 0 <= Z.of_nat (length (@nil Z)) /\ 3 <= Z.of_nat (length [1; 2; 3])
  /\ (exists r w,
        Zlib.x07_ext_zlib_inflate_raw_alloc E Zlib.zlib_stored [] 0 0 (Some 7) w0 = Ok r w
        /\ r = (-2, Some 0) /\ heap w = heap w0 /\ g_bufs w = g_bufs w0)
  /\ (exists r w,
        Zlib.x07_ext_zlib_gzip_decompress_alloc oracle_dirty Zlib.zlib_stored [1; 2; 3] 3 8
          (Some 7) w0 = Ok r w
        /\ r = (0, Some 1) /\ heap w = {[1%N := [1; 2; 3; 170; 170; 170; 170; 170]]}
        /\ g_lens w !! 1%nat = Some 3).
Proof.
  intros w0 E.
  assert (Hs : shaped w0) by (split; reflexivity).
  assert (H0 : 0 <= Z.of_nat (length (@nil Z))) by (cbn; lia).
  assert (H3 : 3 <= Z.of_nat (length [1; 2; 3])) by (cbn; lia).
  split; [exact Hs|]. split; [exact H0|]. split; [exact H3|]. split.
  - destruct (inflate_alloc_outcome E Zlib.zlib_stored w0 [] 0 0 (Some 7) Hs H0)
      as [_ (r & w & Hr & _)].
    exists r, w. split; [exact Hr|].
    vm_compute in Hr. injection Hr as <- <-. repeat split; reflexivity.
  - destruct (inflate_alloc_outcome oracle_dirty Zlib.zlib_stored w0 [1; 2; 3] 3 8 (Some 7)
                Hs H3) as [(r & w & Hr & _) _].
    exists r, w. split; [exact Hr|].
    vm_compute in Hr. injection Hr as <- <-. repeat split; reflexivity.
Defined.

(** X8: [x07_ext_openssl_rand_bytes_alloc] always returns, with status -1
    or 0.  With -1, [*out_handle] (when given) is 0 and heap and table are
    exactly as before: the document it had allocated is released when the
    table is full, and the first document is released before the error
    document replaces it.  With 0, the only change is one fresh block in
    the lowest previously empty slot, named by [*out_handle]; its recorded
    length is its size, which is 9 (an error document) or [1 + len] (only
    for [len <= 1048576]). *)
Theorem rand_bytes_alloc_outcome E w0 len out_handle :
  shaped w0 -> 0 <= len < 2 ^ 32 ->
  exists rc out w,
    Openssl.x07_ext_openssl_rand_bytes_alloc E len out_handle w0 = Ok (rc, out) w
    /\ ((rc = -1 /\ out = assign out_handle 0 /\ same_store w0 w)
        \/ (rc = 0 /\ exists h p b,
              out = assign out_handle h
              /\ stored w0 w h p b (Z.of_nat (length b))
              /\ (length b = 9%nat \/ (len <= 1048576 /\ Z.of_nat (length b) = 1 + len)))).
Proof.
  intros Hs Hlen.
  destruct (rand_bytes_alloc_h w0 Hs E len out_handle ltac:(lia) w0 (holding_start w0 []))
    as ([rc out] & w & Ew & Hpost).
  exists rc, out, w. split; [exact Ew|].
  destruct Hpost as [[[= -> ->] Hsame] | (h & p & b & [= -> ->] & Hst & Hb)].
  - left. auto.
  - right. split; [reflexivity|]. exists h, p, b. auto.
Qed.


Lemma rand_bytes_alloc_outcome_witness :
  let w0 := init_world 4096 ∅ in
  shaped w0 /\ 0 <= 2 < 2 ^ 32
  /\ exists rc out w,
       Openssl.x07_ext_openssl_rand_bytes_alloc oracle_ok 2 (Some 0) w0 = Ok (rc, out) w
       /\ rc = 0 /\ out = Some 1.
Proof.
  intros w0.
  assert (Hs : shaped w0) by (split; reflexivity).
  assert (Hl : 0 <= 2 < 2 ^ 32) by lia.
  split; [exact Hs|]. split; [exact Hl|].
  destruct (rand_bytes_alloc_outcome oracle_ok w0 2 (Some 0) Hs Hl)
    as (rc & out & w & Hrun & _).
  exists rc, out, w. split; [exact Hrun|].
  vm_compute in Hrun. injection Hrun as <- <- _. split; reflexivity.
Defined.

(** X9: [buf_free] of a handle whose slot holds a buffer (either shim)
    returns, releases exactly that block, and empties exactly that slot:
    afterwards [buf_ptr] and [buf_len] of the handle read NULL and 0, and
    every other handle reads the same pointer and length as before, its
    block untouched. *)
Theorem buf_free_releases_only_its_block w h p :
  table_ok 4096 w -> 1 <= h < 4096 ->
  g_bufs w !! Z.to_nat h = Some p -> p <> NULL ->
  exists w',
    Openssl.x07_ext_openssl_buf_free h w = Ok tt w'
    /\ Zlib.x07_ext_zlib_buf_free h w = Ok tt w'
    /\ heap w' = delete p (heap w)
    /\ Openssl.x07_ext_openssl_buf_ptr h w' = Ok NULL w'
    /\ Openssl.x07_ext_openssl_buf_len h w' = Ok 0 w'
    /\ forall h', 0 <= h' -> h' <> h ->
         (forall q, Openssl.x07_ext_openssl_buf_ptr h' w = Ok q w ->
                    Openssl.x07_ext_openssl_buf_ptr h' w' = Ok q w'
                    /\ (q <> NULL -> heap w' !! q = heap w !! q))
         /\ (forall n, Openssl.x07_ext_openssl_buf_len h' w = Ok n w ->
                       Openssl.x07_ext_openssl_buf_len h' w' = Ok n w').
Proof.
  intros [H1 H2 H3 H4 H5] Hh Hp Hnz.
  pose proof (buf_free_effect w h p H1 H2 Hh Hp (H4 _ _ Hp)) as Hfree.
  destruct (N.eqb_spec p NULL) as [|_]; [contradiction|].
  eexists. split; [exact Hfree|]. split; [rewrite zlib_buf_free_eq; exact Hfree|].
  split; [reflexivity|].
  destruct (buf_ptr_len_eq (Build_world (delete p (heap w))
              (<[Z.to_nat h := NULL]> (g_bufs w))
              (<[Z.to_nat h := 0]> (g_lens w)) (clock w)) h NULL 0) as [E5 E6];
    [lia | cbn; apply list_lookup_insert_eq; lia..|].
  split; [exact E5|]. split; [exact E6|].
  intros h' Hh' Hne.
  destruct (Z.eq_dec h' 0) as [-> | Hnz'].
  { split; intros x Hx.
    - destruct (buf_ptr_len_out w 0) as [E1 _]; [auto|]. rewrite E1 in Hx.
      injection Hx as <-. split; [|congruence].
      now destruct (buf_ptr_len_out (Build_world (delete p (heap w))
                      (<[Z.to_nat h := NULL]> (g_bufs w))
                      (<[Z.to_nat h := 0]> (g_lens w)) (clock w)) 0) as [-> _]; auto.
    - destruct (buf_ptr_len_out w 0) as [_ E1]; [auto|]. rewrite E1 in Hx.
      injection Hx as <-.
      now destruct (buf_ptr_len_out (Build_world (delete p (heap w))
                      (<[Z.to_nat h := NULL]> (g_bufs w))
                      (<[Z.to_nat h := 0]> (g_lens w)) (clock w)) 0) as [_ ->]; auto. }
  destruct (Z_le_gt_dec 4096 h') as [Hge | Hlt].
  { split; intros x Hx.
    - destruct (buf_ptr_len_out w h') as [E1 _]; [auto|]. rewrite E1 in Hx.
      injection Hx as <-. split; [|congruence].
      now destruct (buf_ptr_len_out (Build_world (delete p (heap w))
                      (<[Z.to_nat h := NULL]> (g_bufs w))
                      (<[Z.to_nat h := 0]> (g_lens w)) (clock w)) h') as [-> _]; auto.
    - destruct (buf_ptr_len_out w h') as [_ E1]; [auto|]. rewrite E1 in Hx.
      injection Hx as <-.
      now destruct (buf_ptr_len_out (Build_world (delete p (heap w))
                      (<[Z.to_nat h := NULL]> (g_bufs w))
                      (<[Z.to_nat h := 0]> (g_lens w)) (clock w)) h') as [_ ->]; auto. }
  destruct (lookup_lt_is_Some_2 (g_bufs w) (Z.to_nat h')) as [q Hq]; [lia|].
  destruct (lookup_lt_is_Some_2 (g_lens w) (Z.to_nat h')) as [n Hn]; [lia|].
  destruct (buf_ptr_len_eq w h' q n) as [E1 E2]; [lia | assumption..|].
  destruct (buf_ptr_len_eq (Build_world (delete p (heap w))
              (<[Z.to_nat h := NULL]> (g_bufs w))
              (<[Z.to_nat h := 0]> (g_lens w)) (clock w)) h' q n) as [E3 E4];
    [lia | cbn; rewrite list_lookup_insert_ne by lia; assumption..|].
  split; intros x Hx.
  - rewrite E1 in Hx. injection Hx as <-. split; [exact E3|].
    intros Hqn. cbn. apply lookup_delete_ne. intros <-.
    pose proof (H5 _ _ _ Hp Hq Hnz). lia.
  - rewrite E2 in Hx. injection Hx as <-. exact E4.
Qed.

Lemma buf_free_releases_only_its_block_witness :
  table_ok 4096 Openssl.one_buffer
  /\ exists w',
       Openssl.x07_ext_openssl_buf_free 1 Openssl.one_buffer = Ok tt w'
       /\ heap w' = delete 1%N (heap Openssl.one_buffer)
       /\ Openssl.x07_ext_openssl_buf_ptr 1 w' = Ok NULL w'.
Proof.
  pose proof (openssl_reachable_ok oracle_ok Openssl.one_buffer one_buffer_reachable) as Hok.
  split; [exact Hok|].
  destruct (buf_free_releases_only_its_block Openssl.one_buffer 1 1%N Hok ltac:(lia) eq_refl
              ltac:(discriminate)) as (w' & Hfree & _ & Hheap & Hptr & _).
  exists w'. auto.
Defined.

(** X10: slots are reused lowest first.  After [buf_free(h)] for a handle
    [h] of the table, the next [x07_ext_openssl_rand_bytes_alloc] returns,
    and when it succeeds the handle it grants is at most [h]; it is [h]
    itself when every slot below [h] was taken. *)
Theorem freed_handle_is_granted_again E w h len cell :
  table_ok 4096 w -> 1 <= h < 4096 -> 0 <= len < 2 ^ 32 ->
  exists w1 r out w2,
    Openssl.x07_ext_openssl_buf_free h w = Ok tt w1
    /\ Openssl.x07_ext_openssl_rand_bytes_alloc E len (Some cell) w1 = Ok (r, out) w2
    /\ (r = 0 ->
        exists h', out = Some h' /\ 1 <= h' <= h
                   /\ ((forall i, (1 <= i < Z.to_nat h)%nat -> g_bufs w !! i <> Some NULL)
                       -> h' = h)).
Proof.
  intros Hok Hh Hlen. pose proof Hok as [H1 H2 H3 H4 H5].
  destruct (lookup_lt_is_Some_2 (g_bufs w) (Z.to_nat h)) as [p Hp]; [lia|].
  pose proof (buf_free_effect w h p H1 H2 Hh Hp (H4 _ _ Hp)) as Hfree.
  set (w1 := Build_world _ _ _ _) in Hfree.
  assert (Hs : shaped w1) by (split; cbn; rewrite length_insert; assumption).
  destruct (rand_bytes_alloc_h w1 Hs E len (Some cell) ltac:(lia) w1 (holding_start w1 []))
    as ([r out] & w2 & E2 & Hpost).
  exists w1, r, out, w2. split; [exact Hfree|]. split; [exact E2|].
  intros ->. destruct Hpost as [[[= ?] _] | (h' & q & b & [= ->] & Hst & _)].
  exists h'. split; [reflexivity|].
  destruct Hst as (Hr & Hfree' & Hlow & _). cbn in Hfree', Hlow.
  assert (Hle : h' <= h).
  { destruct (Z_le_gt_dec h' h) as [|Hgt]; [assumption|]. exfalso.
    apply (Hlow (Z.to_nat h)); [lia|]. apply list_lookup_insert_eq. lia. }
  split; [lia|]. intros Hfull.
  destruct (Z.eq_dec h' h) as [|Hne]; [assumption|]. exfalso.
  apply (Hfull (Z.to_nat h')); [lia|].
  rewrite list_lookup_insert_ne in Hfree' by lia. exact Hfree'.
Qed.

Lemma freed_handle_is_granted_again_witness :
  table_ok 4096 Openssl.one_buffer
  /\ exists w1 r out w2,
       Openssl.x07_ext_openssl_buf_free 1 Openssl.one_buffer = Ok tt w1
       /\ Openssl.x07_ext_openssl_rand_bytes_alloc oracle_ok 0 (Some 0) w1 = Ok (r, out) w2
       /\ (r = 0 -> out = Some 1).
Proof.
  pose proof (openssl_reachable_ok oracle_ok Openssl.one_buffer one_buffer_reachable) as Hok.
  split; [exact Hok|].
  destruct (freed_handle_is_granted_again oracle_ok Openssl.one_buffer 1 0 0 Hok ltac:(lia) ltac:(lia))
    as (w1 & r & out & w2 & Hfree & Hrun & Hh).
  exists w1, r, out, w2. split; [exact Hfree|]. split; [exact Hrun|].
  intros Hr. destruct (Hh Hr) as (h' & -> & Hle & _). f_equal. lia.
Defined.

End Outcomes.

End Effects.

(** ** Words and documents *)
Section Words.

Import C.
Local Open Scope Z_scope.

Lemma set_block_id p b w : heap w !! p = Some b -> set_block p b w = w.
Proof.
  intros H. unfold set_block, with_heap. rewrite (insert_id _ _ _ H).
  destruct w; reflexivity.
Qed.

Lemma u8_land_255 x : u8 (Z.land x 255) = Z.land x 255.
Proof.
  unfold u8. rewrite land_255. apply Z.mod_small. apply Z.mod_pos_bound. lia.
Qed.

Lemma insert4 (pre post : list Z) (x0 x1 x2 x3 y0 y1 y2 y3 : Z) (off : Z) :
  off = Z.of_nat (length pre) ->
  <[Z.to_nat (off + 3) := y3]>
    (<[Z.to_nat (off + 2) := y2]>
       (<[Z.to_nat (off + 1) := y1]>
          (<[Z.to_nat (off + 0) := y0]> (pre ++ x0 :: x1 :: x2 :: x3 :: post))))
  = pre ++ y0 :: y1 :: y2 :: y3 :: post.
Proof.
  intros ->.
  replace (Z.to_nat (Z.of_nat (length pre) + 0)) with (length pre + 0)%nat by lia.
  replace (Z.to_nat (Z.of_nat (length pre) + 1)) with (length pre + 1)%nat by lia.
  replace (Z.to_nat (Z.of_nat (length pre) + 2)) with (length pre + 2)%nat by lia.
  replace (Z.to_nat (Z.of_nat (length pre) + 3)) with (length pre + 3)%nat by lia.
  now rewrite !insert_app_r.
Qed.

Lemma split4 (b : list Z) (off : Z) :
  0 <= off -> off + 4 <= Z.of_nat (length b) ->
  exists x0 x1 x2 x3,
    b = take (Z.to_nat off) b ++ x0 :: x1 :: x2 :: x3 :: drop (Z.to_nat off + 4) b.
Proof.
  intros H0 H4.
  assert (Hd : (4 <= length (drop (Z.to_nat off) b))%nat) by (rewrite length_drop; lia).
  destruct (drop (Z.to_nat off) b) as [|x0 [|x1 [|x2 [|x3 tl]]]] eqn:Hdrop;
    cbn [length] in Hd; try lia.
  exists x0, x1, x2, x3.
  rewrite <- (drop_drop b 4 (Z.to_nat off)), Hdrop.
  change (drop 4 (x0 :: x1 :: x2 :: x3 :: tl)) with tl.
  now rewrite <- Hdrop, take_drop.
Qed.

(** X11: [x07_ext_write_u32_le(dst, v)] with [dst] four bytes inside a
    block writes the little-endian encoding of [v] there and nothing else:
    the bytes before and after are as they were, the four bytes are each in
    [0, 256), and reading them back as a little-endian number gives [v]. *)
Theorem write_u32_le_little_endian p b w off v :
  heap w !! p = Some b -> 0 <= off -> off + 4 <= Z.of_nat (length b) ->
  0 <= v < 2 ^ 32 ->
  Openssl.x07_ext_write_u32_le p off v w
  = Ok tt (set_block p (take (Z.to_nat off) b ++ Math.le_encode 4 v
                        ++ drop (Z.to_nat off + 4) b) w)
  /\ Math.le_decode (Math.le_encode 4 v) = v
  /\ Forall Math.is_byte (Math.le_encode 4 v).
Proof.
  intros Hb H0 H4 Hv. split; [|split; [now apply le_decode_encode | apply le_encode_bytes]].
  rewrite <- (set_block_id p b w Hb) at 1.
  rewrite write_u32_le_set_block by lia. f_equal. f_equal.
  destruct (split4 b off H0 H4) as (x0 & x1 & x2 & x3 & Hsplit).
  rewrite Hsplit at 1. rewrite insert4 by (rewrite length_take; lia).
  rewrite !u8_land_255. cbn [Math.le_encode app].
  rewrite !Z.shiftr_shiftr by lia. reflexivity.
Qed.

Lemma write_u32_le_little_endian_witness :
  let w := set_block 5%N [9; 9; 9; 9; 9; 9] (init_world 4096 ∅) in
  Openssl.x07_ext_write_u32_le 5%N 1 258 w
  = Ok tt (set_block 5%N [9; 2; 1; 0; 0; 9] w).
Proof.
  intros w.
  exact (proj1 (write_u32_le_little_endian 5%N [9; 9; 9; 9; 9; 9] w 1 258
                  eq_refl ltac:(lia) ltac:(cbn; lia) ltac:(lia))).
Defined.

(** X12: [x07_ext_make_err_doc(code, &len)] for any [uint32_t] code always
    returns and never touches the table.  Either it returns NULL, leaves
    [*len] alone and the heap as it was; or it returns a fresh block of 9
    bytes and sets [*len] to 9: the tag byte 0, then [code] in little-endian
    (reading the four bytes back gives [code]), then a zero word. *)
Theorem make_err_doc_outcome E code out_len w0 :
  0 <= code < 2 ^ 32 ->
  exists p ol w,
    Openssl.x07_ext_make_err_doc E code out_len w0 = Ok (p, ol) w
    /\ g_bufs w = g_bufs w0 /\ g_lens w = g_lens w0
    /\ ((p = NULL /\ ol = out_len /\ heap w = heap w0)
        \/ (p <> NULL /\ ol = assign out_len 9 /\ heap w0 !! p = None
            /\ heap w = <[p := 0 :: Math.le_encode 4 code ++ [0; 0; 0; 0]]> (heap w0)
            /\ Math.le_decode (Math.le_encode 4 code) = code)).
Proof.
  intros Hc.
  destruct (N.eq_dec (o_malloc E (clock w0)) NULL) as [Hz | Hnz].
  { rewrite make_err_doc_fail by exact Hz. eexists _, _, _. split; [reflexivity|].
    split; [reflexivity|]. split; [reflexivity|]. left. auto. }
  destruct (heap w0 !! o_malloc E (clock w0)) as [blk|] eqn:Hlive.
  - unfold Openssl.x07_ext_make_err_doc, malloc. rewrite bind_eq, Hlive.
    rewrite bool_decide_eq_false_2 by discriminate. rewrite andb_false_r.
    eexists _, _, _. split; [reflexivity|].
    split; [reflexivity|]. split; [reflexivity|]. left. auto.
  - rewrite make_err_doc_ok by assumption. eexists _, _, _. split; [reflexivity|].
    split; [reflexivity|]. split; [reflexivity|]. right.
    split; [exact Hnz|]. split; [reflexivity|]. split; [exact Hlive|].
    split; [|now apply le_decode_encode].
    cbn [heap set_block with_heap tick]. f_equal. unfold Openssl.err_doc.
    rewrite !u8_land_255. cbn [Math.le_encode app].
    rewrite !Z.shiftr_shiftr by lia. reflexivity.
Qed.

Lemma make_err_doc_outcome_witness :
  exists p ol w,
    Openssl.x07_ext_make_err_doc oracle_ok 258 (Some 0) (init_world 4096 ∅) = Ok (p, ol) w
    /\ p <> NULL /\ ol = Some 9
    /\ heap w !! p = Some [0; 2; 1; 0; 0; 0; 0; 0; 0].
Proof.
  destruct (make_err_doc_outcome oracle_ok 258 (Some 0) (init_world 4096 ∅) ltac:(lia))
    as (p & ol & w & Hrun & _ & _ & Hcase).
  exists p, ol, w. split; [exact Hrun|].
  vm_compute in Hrun. injection Hrun as <- <- <-.
  split; [discriminate|]. split; [reflexivity|]. reflexivity.
Defined.

(** X13: [x07_ext_openssl_rand_bytes(out, len)], called with [out] NULL or
    the start of a block of at least [len] bytes, returns 0 or 1 and never
    touches the table.  For [len = 0] it returns 1 and does nothing.
    Otherwise, for a NULL [out] or [len > 2147483647] it returns 0 without
    calling the generator and nothing changes.  In the remaining case the
    generator is called once on the block: the block keeps its size, only
    its first [len] bytes can be different afterwards, every other block is
    as it was, and the result is 1 exactly when the generator answered 1.
    A result of 0 does not mean that the buffer was left alone. *)
Theorem rand_bytes_outcome E out len b w :
  0 <= len < 2 ^ 32 ->
  (out <> NULL -> heap w !! out = Some b /\ len <= Z.of_nat (length b)) ->
  exists r w',
    Openssl.x07_ext_openssl_rand_bytes E out len w = Ok r w'
    /\ (r = 0 \/ r = 1)
    /\ g_bufs w' = g_bufs w /\ g_lens w' = g_lens w
    /\ (len = 0 -> r = 1 /\ w' = w)
    /\ (len <> 0 -> out = NULL \/ 2147483647 < len -> r = 0 /\ w' = w)
    /\ (len <> 0 -> out <> NULL -> len <= 2147483647 ->
        (r = 1 <-> fst (o_rand E (clock w)) = 1)
        /\ exists bytes,
             Z.of_nat (length bytes) = len /\ Forall Math.is_byte bytes
             /\ heap w' = <[out := bytes ++ drop (Z.to_nat len) b]> (heap w)).
Proof.
  intros Hlen Hout. unfold Openssl.x07_ext_openssl_rand_bytes.
  destruct (Z.eqb_spec len 0) as [-> | Hnz].
  { exists 1, w. repeat split; auto; try lia. }
  destruct (N.eqb_spec out NULL) as [-> | Hp].
  { exists 0, w. repeat split; auto; try lia; try congruence. }
  destruct (Z.ltb_spec 2147483647 len) as [Hbig | Hsmall].
  { exists 0, w. repeat split; auto; try lia. }
  destruct (Hout Hp) as [Hb Hfit].
  assert (Hi : int_of_u32 len = len).
  { unfold int_of_u32. destruct (Z.ltb_spec len 2147483648); lia. }
  rewrite Hi, bind_eq. unfold RAND_bytes.
  destruct (o_rand E (clock w)) as [rc bs]. cbn [fst].
  rewrite bind_eq. rewrite <- (set_block_id out b (tick w) Hb).
  rewrite memwrite_set_block by (rewrite ?rand_fill_length; lia).
  cbn [mret M_ret].
  eexists _, _. split; [reflexivity|].
  split; [destruct (rc =? 1); auto|].
  split; [reflexivity|]. split; [reflexivity|].
  split; [lia|]. split; [intros _ [? | ?]; [contradiction | lia]|].
  intros _ _ _. split.
  - destruct (Z.eqb_spec rc 1); split; intros; congruence.
  - exists (rand_fill bs len).
    split; [apply rand_fill_length; lia|]. split; [apply rand_fill_bytes|].
    cbn [heap set_block with_heap tick].
    change (Z.to_nat 0) with 0%nat. rewrite take_0, Nat.add_0_l. cbn [app].
    replace (length (rand_fill bs len)) with (Z.to_nat len); [reflexivity|].
    pose proof (rand_fill_length bs len). lia.
Qed.

(** A generator that succeeds, and one that fails after it has written. *)
Lemma rand_bytes_outcome_witness :
  let w := set_block 5%N [0; 0; 0; 0] (init_world 4096 ∅) in
  (exists r w', Openssl.x07_ext_openssl_rand_bytes oracle_ok 5%N 2 w = Ok r w'
                /\ r = 1 /\ heap w' !! 5%N = Some [7; 8; 0; 0])
  /\ (exists r w', Openssl.x07_ext_openssl_rand_bytes oracle_dirty 5%N 2 w = Ok r w'
                   /\ r = 0 /\ heap w' !! 5%N = Some [7; 8; 0; 0]).
Proof.
  intros w.
  assert (Hb : 5%N <> NULL -> heap w !! 5%N = Some [0; 0; 0; 0]
                              /\ 2 <= Z.of_nat (length [0; 0; 0; 0])).
  { intros _. split; [reflexivity | cbn; lia]. }
  split.
  - destruct (rand_bytes_outcome oracle_ok 5%N 2 [0; 0; 0; 0] w ltac:(lia) Hb)
      as (r & w' & Hrun & _).
    exists r, w'. split; [exact Hrun|].
    vm_compute in Hrun. injection Hrun as <- <-. split; reflexivity.
  - destruct (rand_bytes_outcome oracle_dirty 5%N 2 [0; 0; 0; 0] w ltac:(lia) Hb)
      as (r & w' & Hrun & _).
    exists r, w'. split; [exact Hrun|].
    vm_compute in Hrun. injection Hrun as <- <-. split; reflexivity.
Defined.

End Words.

(** ** The import smoke test *)
Section SmokeProps.

Local Open Scope Z_scope.

Import Smoke.

(** X14: on [int32_t] arguments, [add1] is defined everywhere except at
    [INT32_MAX] and [abs_i32] everywhere except at [INT32_MIN] (where the
    negation overflows).  Where defined, [add1 x] is [x + 1], and
    [abs_i32 x] is the absolute value: not negative, a fixed point of
    [abs_i32], and the same for [x] and [-x]. *)
Theorem smoke_defined_except_at_the_extremes x :
  INT32_MIN <= x <= INT32_MAX ->
  (add1 x = None <-> x = INT32_MAX)
  /\ (forall r, add1 x = Some r -> r = x + 1 /\ INT32_MIN < r <= INT32_MAX)
  /\ (abs_i32 x = None <-> x = INT32_MIN)
  /\ (forall r, abs_i32 x = Some r ->
        r = Z.abs x /\ 0 <= r <= INT32_MAX
        /\ abs_i32 r = Some r /\ abs_i32 (- x) = Some r).
Proof.
  unfold add1, abs_i32, int32, INT32_MIN, INT32_MAX. intros Hx.
  split; [|split; [|split]].
  - destruct (Z.leb_spec (-2147483648) (x + 1)), (Z.leb_spec (x + 1) 2147483647);
      cbn [andb]; split; intros Hq; try discriminate; try reflexivity; lia.
  - intros r.
    destruct (Z.leb_spec (-2147483648) (x + 1)), (Z.leb_spec (x + 1) 2147483647);
      cbn [andb]; intros [= <-]. lia.
  - destruct (Z.ltb_spec x 0);
      [destruct (Z.leb_spec (-2147483648) (- x)), (Z.leb_spec (- x) 2147483647)|];
      cbn [andb]; split; intros Hq; try discriminate; try reflexivity; lia.
  - intros r Hr.
    assert (Hv : r = Z.abs x /\ 0 <= r <= 2147483647).
    { destruct (Z.ltb_spec x 0);
        [destruct (Z.leb_spec (-2147483648) (- x)), (Z.leb_spec (- x) 2147483647)|];
        cbn [andb] in Hr; try discriminate; injection Hr as <-; lia. }
    destruct Hv as [-> Hv]. split; [reflexivity|]. split; [exact Hv|]. split.
    + destruct (Z.ltb_spec (Z.abs x) 0); [lia | reflexivity].
    + destruct (Z.ltb_spec (- x) 0).
      * rewrite Z.opp_involutive.
        destruct (Z.leb_spec (-2147483648) x), (Z.leb_spec x 2147483647);
          cbn [andb]; try lia. f_equal. lia.
      * f_equal. lia.
Qed.

Lemma smoke_defined_except_at_the_extremes_witness :
  abs_i32 (-5) = Some 5 /\ abs_i32 5 = Some 5 /\ add1 (-5) = Some (-4).
Proof.
  pose proof (smoke_defined_except_at_the_extremes (-5) ltac:(unfold INT32_MIN, INT32_MAX; lia))
    as (_ & _ & _ & Habs).
  destruct (Habs 5 eq_refl) as (_ & _ & H5 & _).
  split; [reflexivity|]. split; [exact H5 | reflexivity].
Defined.

End SmokeProps.

(** ** Layouts on other data models *)
Section AbiMore.

Import Abi.
Local Open Scope Z_scope.

Ltac unfold_slots :=
  cbv [layout_of v1 v2 sizeof alignof slots ifdef app lay_slots
       V1.ev_bytes_v1_t V1.ev_bytes_view_v1_t V1.ev_vec_u8_v1_t
       V1.ev_option_i32_v1_t V1.ev_option_bytes_v1_t V1.ev_result_i32_v1_t
       V1.ev_result_bytes_v1_t V1.ev_iface_v1_t
       V2.ev_bytes_v2_t V2.ev_bytes_view_v2_t V2.ev_vec_u8_v2_t
       V2.ev_option_i32_v2_t V2.ev_option_bytes_v2_t V2.ev_result_i32_v2_t
       V2.ev_result_bytes_v2_t V2.ev_iface_v2_t].

Lemma align_up_ge n a : 0 < a -> n <= align_up n a.
Proof.
  intros Ha. unfold align_up.
  pose proof (Z.div_mod (n + a - 1) a ltac:(lia)) as Hd.
  pose proof (Z.mod_pos_bound (n + a - 1) a Ha) as Hm. nia.
Qed.

(** X15: [X07_DEBUG_BORROW] only appends.  For every container of the
    [ev_bytes] family, in the v1 and in the v2 header and on every data
    model, the members of the release struct are the first members of the
    debug struct, at the same offsets with the same sizes and alignments;
    the debug struct has further members only for bytes_view and vec_u8,
    and they are the same in v1 and v2. *)
Theorem debug_borrow_fields_are_appended e c :
  exists extra,
    lay_slots (layout_of e (v1 true c)) = lay_slots (layout_of e (v1 false c)) ++ extra
    /\ lay_slots (layout_of e (v2 true c)) = lay_slots (layout_of e (v2 false c)) ++ extra
    /\ (extra <> [] <-> c = BytesView \/ c = VecU8).
Proof.
  destruct c.
  2:{ eexists. split; [unfold_slots; reflexivity|].
      split; [unfold_slots; reflexivity|].
      split; [intros _; left; reflexivity | intros _; discriminate]. }
  2:{ eexists. split; [unfold_slots; reflexivity|].
      split; [unfold_slots; reflexivity|].
      split; [intros _; right; reflexivity | intros _; discriminate]. }
  all: exists []; rewrite !app_nil_r;
    (split; [reflexivity|]); (split; [reflexivity|]);
    (split; [intros H; now contradiction H | intros [H | H]; discriminate H]).
Qed.

Ltac bound_align_up :=
  repeat match goal with
         | |- context [align_up ?n ?a] =>
             let H := fresh "Hup" in
             let z := fresh "z" in
             assert (H : n <= align_up n a) by (apply align_up_ge; lia);
             set (z := align_up n a) in *; clearbody z
         | H0 : context [align_up ?n ?a] |- _ =>
             let H := fresh "Hup" in
             let z := fresh "z" in
             assert (H : n <= align_up n a) by (apply align_up_ge; lia);
             set (z := align_up n a) in *; clearbody z
         end.

(** X16: the static assertions of [tests/abi_layout.c] hold on every data
    model whose [uint32_t] alignment is 1, 2 or 4 and not above the
    alignment of a pointer (and, with [X07_DEBUG_BORROW], whose [uint64_t]
    alignment is not above it either), whatever the size of a pointer. *)
Theorem abi_layout_asserts_on_any_data_model e dbg :
  0 <= ptr_size e -> 0 < ptr_align e ->
  u32_align e = 1 \/ u32_align e = 2 \/ u32_align e = 4 ->
  u32_align e <= ptr_align e ->
  (dbg = true -> 0 < u64_align e <= ptr_align e) ->
  abi_layout_asserts e dbg = true.
Proof.
  intros Hps Hpa H32 Hle H64.
  assert (Hiface : sizeof e V2.ev_iface_v2_t = 8).
  { cbv [sizeof alignof V2.ev_iface_v2_t].
    destruct H32 as [-> | [-> | ->]]; reflexivity. }
  unfold abi_layout_asserts. cbv zeta. rewrite Hiface. clear Hiface.
  cbv [sizeof alignof ifdef app V2.ev_iface_v2_t
       V2.ev_bytes_v2_t V2.ev_bytes_view_v2_t V2.ev_vec_u8_v2_t
       V2.ev_option_i32_v2_t V2.ev_option_bytes_v2_t V2.ev_result_i32_v2_t
       V2.ev_result_bytes_v2_t V2.ev_allocator_v1_t].
  assert (H32' : 0 < u32_align e) by lia.
  destruct dbg; [specialize (H64 eq_refl)|clear H64];
    repeat (apply andb_true_intro; split);
    first [apply Z.leb_le | apply Z.eqb_eq];
    bound_align_up; lia.
Qed.

Lemma abi_layout_asserts_on_any_data_model_witness :
  let e := {| ptr_size := 16; ptr_align := 16; u32_align := 2; u64_align := 8 |} in
  abi_layout_asserts e true = true.
Proof.
  intros e.
  apply (abi_layout_asserts_on_any_data_model e true); cbn; lia.
Defined.

End AbiMore.

(** ** Keys *)
Section Keys.

Import C Frame Openssl.
Local Open Scope Z_scope.

(** *** The encoder, whatever happens *)
Section Nopad.

Lemma b64url_nopad_run (E : oracle) (w : world) (l : list Z) (out_len : option Z) :
  o_malloc E (clock w) <> NULL ->
  heap w !! o_malloc E (clock w) = None ->
  let p := o_malloc E (clock w) in
  let s := b64url_encode l in
  exists junk,
    x07_ext_b64url_nopad E (Some l) (Z.of_nat (length l)) out_len w
    = Ok (p, assign out_len (Z.of_nat (length s)))
         (set_block p (s ++ 0 :: junk) (tick w))
    /\ Z.of_nat (length (s ++ 0 :: junk))
       = (Z.of_nat (length l) + 2) / 3 * 4 + 1.
Proof.
  intros Hnz Hfresh p s.
  set (m := (length l / 3)%nat).
  set (grp := take (3 * m) l). set (tail := drop (3 * m) l).
  pose proof (Nat.div_mod_eq (length l) 3) as Hdm.
  pose proof (Nat.mod_upper_bound (length l) 3 ltac:(lia)) as Hmod. fold m in Hdm.
  assert (Hl : l = grp ++ tail) by (symmetry; apply take_drop).
  assert (Hg : length grp = (3 * m)%nat) by (subst grp; rewrite length_take; lia).
  assert (Ht : length tail = (length l mod 3)%nat)
    by (subst tail; rewrite length_drop; lia).
  assert (Hs : s = b64url_encode grp ++ b64url_encode tail).
  { subst s. rewrite Hl at 1. now apply (b64url_encode_app m). }
  pose proof (b64url_encode_groups_length m grp Hg) as Hge.
  unfold x07_ext_b64url_nopad.
  rewrite bool_decide_eq_false_2 by discriminate. cbn [andb]. cbv zeta.
  rewrite (bind_ok _ _ _ _ _ (malloc_ok E _ w Hnz Hfresh)). fold p.
  destruct (N.eqb_spec p NULL) as [|_]; [contradiction|].
  set (cap := (Z.of_nat (length l) + 2) / 3 * 4).
  set (blk := garbage E (clock w) (cap + 1)).
  pose proof (length_garbage E (clock w) (cap + 1)) as Hblk. fold blk in Hblk.
  assert (Hloop : forall r, Z.to_nat (cap + 1) = (4 * m + r)%nat ->
            b64url_nopad_loop (S (Z.to_nat (Z.of_nat (length l)))) (Some l)
              (Z.of_nat (length l)) p 0 0 (set_block p blk (tick w))
            = Ok (3 * Z.of_nat m, 4 * Z.of_nat m)
                 (set_block p (b64url_encode grp ++ drop (4 * m) blk) (tick w))
            /\ length (drop (4 * m) blk) = r).
  { intros r Hr. split; [|rewrite length_drop; lia].
    rewrite (b64url_nopad_loop_spec p (tick w) l m _ [] grp tail _ [] blk 0 0);
      try reflexivity; try lia.
    exact Hl. }
  destruct tail as [|d0 [|d1 [|d2 tail']]] eqn:Etail; cbn [length] in Ht.
  - (* n = 3m *)
    assert (Hcap : Z.to_nat (cap + 1) = (4 * m + 1)%nat).
    { subst cap. Z.to_euclidean_division_equations. lia. }
    destruct (Hloop 1%nat Hcap) as [Hrun Hrest].
    rewrite (bind_ok _ _ _ _ _ Hrun).
    destruct (drop (4 * m) blk) as [|x0 [|? ?]]; try discriminate.
    replace (Z.of_nat (length l) - 3 * Z.of_nat m) with 0 by lia.
    cbn [Z.eqb]. rewrite bind_eq. cbn [mret M_ret].
    exists [].
    rewrite (store_app p (b64url_encode grp)) by lia.
    cbn [mret M_ret]. rewrite Hs. cbn [b64url_encode].
    rewrite !app_nil_r, Hge. split.
    + do 2 f_equal. f_equal. lia.
    + rewrite length_app, Hge. cbn [length]. lia.
  - (* n = 3m + 1 *)
    assert (Hcap : Z.to_nat (cap + 1) = (4 * m + 5)%nat).
    { subst cap. Z.to_euclidean_division_equations. lia. }
    destruct (Hloop 5%nat Hcap) as [Hrun Hrest].
    rewrite (bind_ok _ _ _ _ _ Hrun).
    destruct (drop (4 * m) blk) as [|x0 [|x1 [|x2 [|x3 [|x4 [|? ?]]]]]]; try discriminate.
    replace (Z.of_nat (length l) - 3 * Z.of_nat m) with 1 by lia.
    cbn [Z.eqb Pos.eqb]. exists [x3; x4].
    rewrite bind_eq.
    rewrite (rd_then l (3 * Z.of_nat m) d0) by
      (try lia; rewrite Hl; replace (Z.to_nat (3 * Z.of_nat m)) with (length grp) by lia;
       apply list_lookup_middle; reflexivity).
    cbv zeta.
    rewrite (store_app p (b64url_encode grp)) by lia.
    rewrite (store_app1 p (b64url_encode grp)) by lia.
    cbn [mret M_ret].
    rewrite (store_app2 p (b64url_encode grp)) by lia.
    cbn [mret M_ret]. rewrite Hs. cbn [b64url_encode]. cbv zeta.
    rewrite <- app_assoc. cbn [app]. rewrite length_app, Hge. cbn [length]. split.
    + do 2 f_equal. f_equal. lia.
    + rewrite length_app, Hge. cbn [length]. lia.
  - (* n = 3m + 2 *)
    assert (Hcap : Z.to_nat (cap + 1) = (4 * m + 5)%nat).
    { subst cap. Z.to_euclidean_division_equations. lia. }
    destruct (Hloop 5%nat Hcap) as [Hrun Hrest].
    rewrite (bind_ok _ _ _ _ _ Hrun).
    destruct (drop (4 * m) blk) as [|x0 [|x1 [|x2 [|x3 [|x4 [|? ?]]]]]]; try discriminate.
    replace (Z.of_nat (length l) - 3 * Z.of_nat m) with 2 by lia.
    cbn [Z.eqb Pos.eqb]. exists [x4].
    rewrite bind_eq.
    rewrite (rd_then l (3 * Z.of_nat m) d0) by
      (try lia; rewrite Hl; replace (Z.to_nat (3 * Z.of_nat m)) with (length grp) by lia;
       apply list_lookup_middle; reflexivity).
    rewrite (rd_then l (3 * Z.of_nat m + 1) d1).
    2: lia.
    2:{ rewrite Hl. rewrite lookup_app_r by lia.
        replace (Z.to_nat (3 * Z.of_nat m + 1) - length grp)%nat with 1%nat by lia.
        reflexivity. }
    cbv zeta.
    rewrite (store_app p (b64url_encode grp)) by lia.
    rewrite (store_app1 p (b64url_encode grp)) by lia.
    rewrite (store_app2 p (b64url_encode grp)) by lia.
    cbn [mret M_ret].
    rewrite (store_app3 p (b64url_encode grp)) by lia.
    cbn [mret M_ret]. rewrite Hs. cbn [b64url_encode]. cbv zeta.
    rewrite <- app_assoc. cbn [app]. rewrite length_app, Hge. cbn [length]. split.
    + do 2 f_equal. f_equal. lia.
    + rewrite length_app, Hge. cbn [length]. lia.
  - lia.
Qed.

(** X17: [x07_ext_b64url_nopad(data, len, &out_len)], called with [data]
    NULL or [len] readable bytes, always returns and never touches the
    table.  For NULL [data] and [len != 0] it returns NULL at once: nothing
    is allocated, nothing changes.  Otherwise it returns NULL with
    [*out_len] and the heap as they were (the allocation failed), or a fresh
    block of exactly [((len + 2) / 3) * 4 + 1] bytes that holds the encoding
    [s] of the input, the terminating NUL and unused bytes, with [*out_len]
    the length of [s]: string and terminator fit the allocation.  NULL
    [data] with [len = 0] gives the empty string. *)
Theorem b64url_nopad_outcome E data len out_len w :
  (data = None /\ 0 <= len) \/ (exists l, data = Some l /\ len = Z.of_nat (length l)) ->
  let s := b64url_encode (default [] data) in
  exists p ol w',
    x07_ext_b64url_nopad E data len out_len w = Ok (p, ol) w'
    /\ g_bufs w' = g_bufs w /\ g_lens w' = g_lens w
    /\ ((p = NULL /\ ol = out_len /\ heap w' = heap w
         /\ (data = None -> len <> 0 -> w' = w))
        \/ (p <> NULL /\ heap w !! p = None /\ (data = None -> len = 0)
            /\ ol = assign out_len (Z.of_nat (length s))
            /\ exists junk,
                 heap w' = <[p := s ++ 0 :: junk]> (heap w)
                 /\ Z.of_nat (length (s ++ 0 :: junk)) = (len + 2) / 3 * 4 + 1)).
Proof.
  intros Hdata s.
  destruct Hdata as [[-> Hlen] | (l & -> & ->)].
  - unfold x07_ext_b64url_nopad.
    rewrite bool_decide_eq_true_2 by reflexivity. cbn [andb].
    destruct (Z.eqb_spec len 0) as [-> | Hnz]; cbn [negb].
    2:{ eexists _, _, _. split; [reflexivity|]. split; [reflexivity|].
        split; [reflexivity|]. left. auto. }
    change ((0 + 2) / 3 * 4 + 1) with 1. cbv zeta.
    destruct (malloc_cases E 1 w) as [Hm | (Hp & Hfresh & Hm)];
      rewrite (bind_ok _ _ _ _ _ Hm).
    + eexists _, _, _. split; [reflexivity|]. split; [reflexivity|].
      split; [reflexivity|]. left. split; [reflexivity|]. split; [reflexivity|].
      split; [reflexivity | congruence].
    + destruct (N.eqb_spec (o_malloc E (clock w)) NULL) as [|_]; [contradiction|].
      cbn [b64url_nopad_loop]. change (0 + 3 <=? 0) with false. cbv iota.
      rewrite bind_eq. cbn [mret M_ret].
      change (0 - 0 =? 1) with false. change (0 - 0 =? 2) with false. cbv iota.
      rewrite bind_eq. cbn [mret M_ret].
      pose proof (length_garbage E (clock w) 1) as Hg1.
      destruct (garbage E (clock w) 1) as [|g0 [|? ?]]; try discriminate.
      rewrite (store_then _ [g0]) by (cbn; lia). cbn [mret M_ret].
      eexists _, _, _. split; [reflexivity|]. split; [reflexivity|].
      split; [reflexivity|]. right. split; [exact Hp|]. split; [exact Hfresh|].
      split; [reflexivity|]. split; [reflexivity|]. exists [].
      split; reflexivity.
  - cbn [default] in s.
    destruct (malloc_cases E ((Z.of_nat (length l) + 2) / 3 * 4 + 1) w)
      as [Hm | (Hp & Hfresh & Hm)].
    + unfold x07_ext_b64url_nopad.
      rewrite bool_decide_eq_false_2 by discriminate. cbn [andb]. cbv zeta.
      rewrite (bind_ok _ _ _ _ _ Hm). cbn [N.eqb NULL mret M_ret].
      eexists _, _, _. split; [reflexivity|]. split; [reflexivity|].
      split; [reflexivity|]. left. split; [reflexivity|]. split; [reflexivity|].
      split; [reflexivity | discriminate].
    + destruct (b64url_nopad_run E w l out_len Hp Hfresh) as (junk & Hrun & Hcap).
      rewrite Hrun. eexists _, _, _. split; [reflexivity|]. split; [reflexivity|].
      split; [reflexivity|]. right. split; [exact Hp|]. split; [exact Hfresh|].
      split; [discriminate|]. split; [reflexivity|]. exists junk.
      split; [reflexivity | exact Hcap].
Qed.

Lemma b64url_nopad_outcome_witness :
  exists p ol w',
    x07_ext_b64url_nopad oracle_ok None 0 (Some 5) (init_world 4096 ∅) = Ok (p, ol) w'
    /\ p = 1%N /\ ol = Some 0 /\ heap w' !! p = Some [0].
Proof.
  destruct (b64url_nopad_outcome oracle_ok None 0 (Some 5) (init_world 4096 ∅)
              (or_introl (conj eq_refl (Z.le_refl 0))))
    as (p & ol & w' & Hrun & _).
  exists p, ol, w'. split; [exact Hrun|].
  vm_compute in Hrun. injection Hrun as <- <- <-. repeat split.
Defined.

End Nopad.

(** *** Big numbers *)
Section Bn.

Lemma load_ok p b w : heap w !! p = Some b -> load p w = Ok b w.
Proof. intros H. unfold load. now rewrite H. Qed.

(** Encoding the magnitude [mag] held in a fresh block [raw], then
    releasing the block. *)
Lemma encode_and_release E raw mag out_len w :
  raw <> NULL -> heap w !! raw = None ->
  let s := b64url_encode mag in
  exists p ol w',
    (data ← load raw;
     r ← x07_ext_b64url_nopad E (Some data) (Z.of_nat (length mag)) out_len;
     free raw;;
     mret r) (set_block raw mag w) = Ok (p, ol) w'
    /\ g_bufs w' = g_bufs w /\ g_lens w' = g_lens w
    /\ ((p = NULL /\ ol = out_len /\ heap w' = heap w)
        \/ (p <> NULL /\ heap w !! p = None
            /\ ol = assign out_len (Z.of_nat (length s))
            /\ exists junk, heap w' = <[p := s ++ 0 :: junk]> (heap w))).
Proof.
  intros Hnz Hfresh s.
  rewrite (bind_ok _ _ _ _ _ (load_ok raw mag _ (set_block_lookup raw mag w))).
  destruct (b64url_nopad_outcome E (Some mag) (Z.of_nat (length mag)) out_len
              (set_block raw mag w)) as (p & ol & w1 & Hrun & Hb & Hl & Hcase).
  { right. eauto. }
  rewrite (bind_ok _ _ _ _ _ Hrun). cbn [default] in Hcase.
  destruct Hcase as [(-> & -> & Hh & _) | (Hp & Hpf & _ & -> & junk & Hh & _)].
  - assert (Hfree : free raw w1 = Ok tt (with_heap (heap w) w1)).
    { unfold free. destruct (N.eqb_spec raw NULL) as [|_]; [contradiction|].
      rewrite Hh, set_block_lookup. f_equal. unfold with_heap. f_equal.
      cbn. now apply delete_insert_id. }
    rewrite (bind_ok _ _ _ _ _ Hfree). cbn [mret M_ret].
    eexists _, _, _. split; [reflexivity|]. split; [exact Hb|]. split; [exact Hl|].
    left. auto.
  - assert (Hne : p <> raw).
    { intros ->. rewrite set_block_lookup in Hpf. discriminate. }
    assert (Hfree : free raw w1
                    = Ok tt (with_heap (<[p := s ++ 0 :: junk]> (heap w)) w1)).
    { unfold free. destruct (N.eqb_spec raw NULL) as [|_]; [contradiction|].
      rewrite Hh. cbn [heap set_block with_heap].
      rewrite lookup_insert_ne by exact Hne. rewrite lookup_insert_eq.
      f_equal. unfold with_heap. f_equal.
      rewrite delete_insert_ne by congruence. now rewrite delete_insert_id. }
    rewrite (bind_ok _ _ _ _ _ Hfree). cbn [mret M_ret].
    eexists _, _, _. split; [reflexivity|]. split; [exact Hb|]. split; [exact Hl|].
    right. split; [exact Hp|]. split.
    { cbn [heap set_block with_heap] in Hpf.
      now rewrite lookup_insert_ne in Hpf by congruence. }
    split; [reflexivity|]. exists junk. reflexivity.
Qed.

(** X18: [x07_ext_bn_b64url(bn, &out_len)], for a [BIGNUM] of which
    [BN_bn2bin] writes [(bits + 7) / 8] bytes (what OpenSSL documents),
    always returns, never touches the table, and releases its temporary
    buffer on every path.  Either it returns NULL and leaves [*out_len] and
    the heap as they were (NULL [bn], or a failed allocation); or it returns
    a fresh NUL-terminated string, the unpadded base64url of the magnitude
    (of a single zero byte when the number is zero), sets [*out_len] to its
    length, and the heap is the old heap plus that one block. *)
Theorem bn_b64url_outcome E bn out_len w :
  (forall a, bn = Some a -> 0 < BN_num_bits a ->
             Z.of_nat (length (BN_bytes a)) = (BN_num_bits a + 7) / 8) ->
  let mag := match bn with
             | Some a => if BN_num_bits a <=? 0 then [0] else BN_bytes a
             | None => []
             end in
  let s := b64url_encode mag in
  exists p ol w',
    x07_ext_bn_b64url E bn out_len w = Ok (p, ol) w'
    /\ g_bufs w' = g_bufs w /\ g_lens w' = g_lens w
    /\ ((p = NULL /\ ol = out_len /\ heap w' = heap w)
        \/ (p <> NULL /\ bn <> None /\ heap w !! p = None
            /\ ol = assign out_len (Z.of_nat (length s))
            /\ exists junk, heap w' = <[p := s ++ 0 :: junk]> (heap w))).
Proof.
  intros Hbn mag s. unfold x07_ext_bn_b64url.
  destruct bn as [a|].
  2:{ eexists _, _, _. split; [reflexivity|]. split; [reflexivity|].
      split; [reflexivity|]. left. auto. }
  cbv zeta.
  assert (Hquot : 0 < BN_num_bits a -> Z.quot (BN_num_bits a + 7) 8 = (BN_num_bits a + 7) / 8).
  { intros Hpos. apply Z.quot_div_nonneg; lia. }
  set (n := if BN_num_bits a <=? 0 then 1 else Z.quot (BN_num_bits a + 7) 8).
  assert (Hn : 0 < n /\ n = Z.of_nat (length mag)).
  { subst n mag. destruct (Z.leb_spec (BN_num_bits a) 0) as [Hle | Hgt].
    - split; [lia | reflexivity].
    - rewrite Hquot by lia. rewrite (Hbn a eq_refl Hgt). split; [|reflexivity].
      Z.to_euclidean_division_equations. lia. }
  destruct Hn as [Hn0 Hn]. destruct (Z.leb_spec n 0) as [|_]; [lia|].
  assert (Hleak : forall w1 : world,
            heap w1 = heap w -> g_bufs w1 = g_bufs w -> g_lens w1 = g_lens w ->
            exists (p : N) (ol : option Z) (w' : world),
              Ok (A := N * option Z) (NULL, out_len) w1 = Ok (p, ol) w'
              /\ g_bufs w' = g_bufs w /\ g_lens w' = g_lens w
              /\ ((p = NULL /\ ol = out_len /\ heap w' = heap w)
                  \/ (p <> NULL /\ Some a <> None /\ heap w !! p = None
                      /\ ol = assign out_len (Z.of_nat (length s))
                      /\ exists junk, heap w' = <[p := s ++ 0 :: junk]> (heap w)))).
  { intros w1 Hh Hb Hl. exists NULL, out_len, w1. split; [reflexivity|]. auto 10. }
  destruct (malloc_cases E n w) as [Hm | (Hp & Hfresh & Hm)];
    rewrite (bind_ok _ _ _ _ _ Hm).
  { cbn [N.eqb NULL mret M_ret]. now apply Hleak. }
  set (raw := o_malloc E (clock w)) in *.
  destruct (N.eqb_spec raw NULL) as [|_]; [contradiction|].
  assert (Hdone : forall wmid,
            wmid = set_block raw mag (tick w) ->
            exists (p : N) (ol : option Z) (w' : world),
              (data ← load raw;
               r ← x07_ext_b64url_nopad E (Some data) n out_len;
               free raw;;
               mret r) wmid = Ok (p, ol) w'
              /\ g_bufs w' = g_bufs w /\ g_lens w' = g_lens w
              /\ ((p = NULL /\ ol = out_len /\ heap w' = heap w)
                  \/ (p <> NULL /\ Some a <> None /\ heap w !! p = None
                      /\ ol = assign out_len (Z.of_nat (length s))
                      /\ exists junk, heap w' = <[p := s ++ 0 :: junk]> (heap w)))).
  { intros wmid ->. rewrite Hn.
    destruct (encode_and_release E raw mag out_len (tick w) Hp Hfresh)
      as (p & ol & w' & Hrun & Hb & Hl & Hcase).
    exists p, ol, w'. split; [exact Hrun|]. split; [exact Hb|]. split; [exact Hl|].
    destruct Hcase as [Hc | (H1 & H2 & H3 & H4)]; [left; exact Hc|].
    right. split; [exact H1|]. split; [discriminate|]. auto. }
  subst mag. destruct (Z.leb_spec (BN_num_bits a) 0) as [Hle | Hgt].
  - subst n. pose proof (length_garbage E (clock w) 1) as Hg1.
    destruct (garbage E (clock w) 1) as [|g0 [|? ?]]; try discriminate.
    rewrite (store_then _ [g0]) by (cbn; lia).
    apply Hdone. reflexivity.
  - unfold BN_bn2bin. rewrite !bind_eq.
    pose proof (length_garbage E (clock w) n) as Hgn.
    rewrite memwrite_set_block by lia.
    cbn [mret M_ret]. rewrite <- Hn. rewrite Z.eqb_refl. cbn [negb].
    apply Hdone. f_equal.
    change (Z.to_nat 0) with 0%nat. rewrite take_0, Nat.add_0_l. cbn [app].
    rewrite drop_ge by lia. apply app_nil_r.
Qed.

Lemma bn_b64url_outcome_witness :
  let bn := {| BN_num_bits := 9; BN_bytes := [1; 2] |} in
  exists p ol w',
    x07_ext_bn_b64url oracle_ok (Some bn) (Some 0) (init_world 4096 ∅) = Ok (p, ol) w'
    /\ ol = Some 3 /\ heap w' = {[p := [65; 81; 73; 0; 0]]}.
Proof.
  intros bn.
  destruct (bn_b64url_outcome oracle_ok (Some bn) (Some 0) (init_world 4096 ∅))
    as (p & ol & w' & Hrun & _).
  { intros a [= <-] _. reflexivity. }
  exists p, ol, w'. split; [exact Hrun|].
  vm_compute in Hrun. injection Hrun as <- <- <-. split; reflexivity.
Defined.

End Bn.

(** *** Ed25519: verification *)
Section Ed25519.

Lemma readable_some l n : 0 <= n <= Z.of_nat (length l) -> readable (Some l) n.
Proof. intros H. split; [lia|]. intros l' [= <-]. lia. Qed.

Lemma readable_null : readable None 0.
Proof. split; [lia | discriminate]. Qed.

Lemma bytes_at_ok l len w :
  0 <= len <= Z.of_nat (length l) ->
  bytes_at (Some l) len w = Ok (take (Z.to_nat len) l) w.
Proof. intros H. unfold bytes_at. destruct (Z.leb_spec len (Z.of_nat (length l))); [reflexivity | lia]. Qed.

Lemma free_fresh p b w :
  p <> NULL -> heap w !! p = None -> free p (set_block p b w) = Ok tt w.
Proof.
  intros Hnz Hfresh. unfold free. destruct (N.eqb_spec p NULL) as [|_]; [contradiction|].
  rewrite set_block_lookup. f_equal. unfold set_block, with_heap. cbn.
  rewrite delete_insert_id by exact Hfresh. destruct w; reflexivity.
Qed.

Lemma free_inserted p b h w :
  p <> NULL -> h !! p = None -> heap w = <[p := b]> h ->
  free p w = Ok tt (with_heap h w).
Proof.
  intros Hnz Hfresh Hh. unfold free. destruct (N.eqb_spec p NULL) as [|_]; [contradiction|].
  rewrite Hh, lookup_insert_eq. now rewrite delete_insert_id.
Qed.

(** Running [body] between the creation of an object and its release: the
    object is gone afterwards, and a failed creation runs [fallback]. *)
Lemma with_object {A : Type} E (w : world) (fallback : M A) (body : N -> M A)
    (Q : A -> world -> Prop) :
  (forall w1, same_store w w1 -> exists a w', fallback w1 = Ok a w' /\ Q a w') ->
  (forall p w1, p <> NULL -> heap w1 !! p = None -> same_store w w1 ->
     exists a w', body p (set_block p [] w1) = Ok a w' /\ Q a w') ->
  exists a w',
    (p ← malloc E 0; if (p =? NULL)%N then fallback else body p) w = Ok a w' /\ Q a w'.
Proof.
  intros Hf Hb. destruct (malloc_cases E 0 w) as [Hm | (Hp & Hfresh & Hm)];
    rewrite (bind_ok _ _ _ _ _ Hm).
  - cbn [N.eqb NULL]. apply Hf. repeat split.
  - destruct (N.eqb_spec (o_malloc E (clock w)) NULL) as [|_]; [contradiction|].
    apply (Hb _ (tick w)); [exact Hp | exact Hfresh | repeat split].
Qed.

Lemma same_store_refl w : same_store w w.
Proof. repeat split. Qed.

Lemma msg_bytes msg msg_len :
  readable msg msg_len -> (msg = None -> msg_len = 0) ->
  forall w,
    bytes_at (if bool_decide (msg = None) && (msg_len =? 0) then Some [0] else msg)
      msg_len w
    = Ok (take (Z.to_nat msg_len) (default [] msg)) w.
Proof.
  intros [Hmsg0 Hmsg] Hnull w. destruct msg as [m|].
  - rewrite bool_decide_eq_false_2 by discriminate. cbn [andb].
    change (default [] (Some m)) with m.
    apply bytes_at_ok. specialize (Hmsg m eq_refl). lia.
  - rewrite (Hnull eq_refl). reflexivity.
Qed.

(** From the creation of the digest context on, [x07_ext_openssl_ed25519_verify]
    and [x07_ext_openssl_ed25519_verify_sk] run the same code. *)
Lemma digest_verify_tail E L pub sigb msg' msg_len tbs pkey w w1 :
  pkey <> NULL -> heap w1 !! pkey = None -> same_store w w1 ->
  64 <= Z.of_nat (length sigb) ->
  (forall w3, bytes_at msg' msg_len w3 = Ok tbs w3) ->
  exists r wf,
    (ctx ← EVP_MD_CTX_new E;
     if (ctx =? NULL)%N then EVP_PKEY_free pkey;; mret 0
     else if negb (EVP_DigestVerifyInit L pub =? 1) then
       EVP_MD_CTX_free ctx;; EVP_PKEY_free pkey;; mret 0
     else
       sigb' ← bytes_at (Some sigb) 64;
       tbs' ← bytes_at msg' msg_len;
       let ok := if EVP_DigestVerify L pub sigb' tbs' =? 1 then 1 else 0 in
       EVP_MD_CTX_free ctx;; EVP_PKEY_free pkey;; mret ok) (set_block pkey [] w1)
    = Ok r wf
    /\ (r = 0 \/ r = 1) /\ same_store w wf
    /\ (r = 1 -> EVP_DigestVerifyInit L pub = 1
                 /\ EVP_DigestVerify L pub (take 64 sigb) tbs = 1).
Proof.
  intros Hp Hpf Hw1 Hsig Htbs. apply with_object.
  { intros w2 Hw2. unfold EVP_PKEY_free.
    destruct Hw2 as (Hh & Hb & Hl), Hw1 as (Hh1 & Hb1 & Hl1).
    rewrite (bind_ok _ _ _ _ _ (free_inserted pkey [] (heap w1) w2 Hp Hpf Hh)).
    cbn in Hb, Hl. exists 0. eexists. split; [reflexivity|]. split; [auto|].
    split; [repeat split; cbn; congruence | discriminate]. }
  intros ctx w2 Hc Hcf Hw2.
  assert (Hrel : forall r : Z,
            exists wf, (EVP_MD_CTX_free ctx;; EVP_PKEY_free pkey;; mret r)
                         (set_block ctx [] w2) = Ok r wf
                       /\ same_store w wf).
  { intros r. unfold EVP_MD_CTX_free, EVP_PKEY_free.
    rewrite (bind_ok _ _ _ _ _ (free_fresh ctx [] w2 Hc Hcf)).
    destruct Hw2 as (Hh & Hb & Hl), Hw1 as (Hh1 & Hb1 & Hl1).
    rewrite (bind_ok _ _ _ _ _ (free_inserted pkey [] (heap w1) w2 Hp Hpf Hh)).
    cbn in Hb, Hl. eexists. split; [reflexivity|]. repeat split; cbn; congruence. }
  destruct (Z.eqb_spec (EVP_DigestVerifyInit L pub) 1) as [Hinit | Hinit]; cbn [negb].
  2:{ destruct (Hrel 0) as (wf & Hrun & Hsame). exists 0, wf.
      split; [exact Hrun|]. split; [auto|]. split; [exact Hsame | discriminate]. }
  rewrite (bind_ok _ _ _ _ _ (bytes_at_ok sigb 64 _ ltac:(lia))).
  change (Z.to_nat 64) with 64%nat.
  rewrite (bind_ok _ _ _ _ _ (Htbs _)). cbv zeta.
  destruct (Hrel (if EVP_DigestVerify L pub (take 64 sigb) tbs =? 1 then 1 else 0))
    as (wf & Hrun & Hsame).
  eexists _, wf. split; [exact Hrun|].
  destruct (Z.eqb_spec (EVP_DigestVerify L pub (take 64 sigb) tbs) 1) as [Hv | Hv].
  - split; [auto|]. split; [exact Hsame|]. auto.
  - split; [auto|]. split; [exact Hsame | discriminate].
Qed.

Lemma ed25519_verify_effect E L pk pk_len msg msg_len sig sig_len w :
  readable pk pk_len -> readable sig sig_len -> readable msg msg_len ->
  (msg = None -> msg_len = 0) ->
  exists r w',
    x07_ext_openssl_ed25519_verify E L pk pk_len msg msg_len sig sig_len w = Ok r w'
    /\ (r = 0 \/ r = 1)
    /\ same_store w w'
    /\ (r = 1 ->
        pk_len = 32 /\ sig_len = 64
        /\ exists key sigb,
             pk = Some key /\ sig = Some sigb
             /\ EVP_DigestVerifyInit L (take 32 key) = 1
             /\ EVP_DigestVerify L (take 32 key) (take 64 sigb)
                  (take (Z.to_nat msg_len) (default [] msg)) = 1).
Proof.
  intros [Hpk0 Hpk] [Hsig0 Hsig] Hmsg Hnull.
  unfold x07_ext_openssl_ed25519_verify.
  assert (Hzero : forall w1, same_store w w1 ->
            exists r w', mret (M := M) 0 w1 = Ok r w'
              /\ (r = 0 \/ r = 1) /\ same_store w w'
              /\ (r = 1 ->
                  pk_len = 32 /\ sig_len = 64
                  /\ exists key sigb,
                       pk = Some key /\ sig = Some sigb
                       /\ EVP_DigestVerifyInit L (take 32 key) = 1
                       /\ EVP_DigestVerify L (take 32 key) (take 64 sigb)
                            (take (Z.to_nat msg_len) (default [] msg)) = 1)).
  { intros w1 Hw1. exists 0, w1. split; [reflexivity|]. split; [auto|].
    split; [exact Hw1 | discriminate]. }
  destruct pk as [key|]; [|apply Hzero, same_store_refl].
  destruct sig as [sigb|]; [|apply Hzero, same_store_refl].
  rewrite !bool_decide_eq_false_2 by discriminate. cbn [orb].
  destruct (Z.eqb_spec pk_len 32) as [-> | ?]; [|apply Hzero, same_store_refl].
  destruct (Z.eqb_spec sig_len 64) as [-> | ?]; [|apply Hzero, same_store_refl].
  cbn [negb orb]. cbv zeta.
  destruct (OBJ_txt2nid L "ED25519" <=? 0); [apply Hzero, same_store_refl|].
  rewrite (bind_ok _ _ _ _ _ (bytes_at_ok key 32 w ltac:(specialize (Hpk key eq_refl); lia))).
  change (Z.to_nat 32) with 32%nat.
  apply with_object; [exact Hzero|]. intros pkey w1 Hp Hpf Hw1.
  destruct (digest_verify_tail E L (take 32 key) sigb _ msg_len _ pkey w w1 Hp Hpf Hw1
              (Hsig sigb eq_refl) (msg_bytes msg msg_len Hmsg Hnull))
    as (r & wf & Hrun & Hr & Hsame & Hone).
  exists r, wf. split; [exact Hrun|]. split; [exact Hr|]. split; [exact Hsame|].
  intros H1. destruct (Hone H1) as [Hi Hv].
  split; [reflexivity|]. split; [reflexivity|]. eauto 10.
Qed.

(** X19: [x07_ext_openssl_ed25519_verify], called with readable arguments,
    always returns 0 or 1 and leaves heap and table exactly as they were:
    the key object and the digest context are released on every path, none
    twice.  It returns 1 only for a 32-byte key and a 64-byte signature that
    [EVP_DigestVerify] accepted, with that key, for exactly the [msg_len]
    bytes of the message (no bytes for a NULL message of length 0). *)
Theorem ed25519_verify_outcome E L pk pk_len msg msg_len sig sig_len w :
  readable pk pk_len -> readable sig sig_len -> readable msg msg_len ->
  (msg = None -> msg_len = 0) ->
  exists r w',
    x07_ext_openssl_ed25519_verify E L pk pk_len msg msg_len sig sig_len w = Ok r w'
    /\ (r = 0 \/ r = 1)
    /\ same_store w w'
    /\ (r = 1 ->
        pk_len = 32 /\ sig_len = 64
        /\ exists key sigb,
             pk = Some key /\ sig = Some sigb
             /\ EVP_DigestVerifyInit L (take 32 key) = 1
             /\ EVP_DigestVerify L (take 32 key) (take 64 sigb)
                  (take (Z.to_nat msg_len) (default [] msg)) = 1).
Proof. exact (ed25519_verify_effect E L pk pk_len msg msg_len sig sig_len w). Qed.

Lemma ed25519_verify_outcome_witness :
  exists r w',
    x07_ext_openssl_ed25519_verify oracle_ok evp_toy (Some seed32) 32 None 0
      (Some (seed32 ++ seed32)) 64 (init_world 4096 ∅) = Ok r w'
    /\ r = 1 /\ heap w' = ∅.
Proof.
  destruct (ed25519_verify_outcome oracle_ok evp_toy (Some seed32) 32 None 0
              (Some (seed32 ++ seed32)) 64 (init_world 4096 ∅))
    as (r & w' & Hrun & _).
  - apply readable_some. cbn. lia.
  - apply readable_some. cbn. lia.
  - apply readable_null.
  - reflexivity.
  - exists r, w'. split; [exact Hrun|].
    vm_compute in Hrun. injection Hrun as <- <-. split; reflexivity.
Defined.

Lemma ed25519_verify_sk_effect E L sk sk_len msg msg_len sig sig_len w :
  readable sk sk_len -> readable sig sig_len -> readable msg msg_len ->
  (msg = None -> msg_len = 0) ->
  exists r w',
    x07_ext_openssl_ed25519_verify_sk E L sk sk_len msg msg_len sig sig_len w = Ok r w'
    /\ (r = 0 \/ r = 1)
    /\ same_store w w'
    /\ (r = 1 ->
        sk_len = 32 /\ sig_len = 64
        /\ exists key sigb pub,
             sk = Some key /\ sig = Some sigb
             /\ EVP_PKEY_get_raw_public_key L (take 32 key) 32 = (1, pub)
             /\ length (take 32 pub) = 32%nat
             /\ EVP_DigestVerify L (take 32 pub) (take 64 sigb)
                  (take (Z.to_nat msg_len) (default [] msg)) = 1).
Proof.
  intros [Hsk0 Hsk] [Hsig0 Hsig] Hmsg Hnull.
  unfold x07_ext_openssl_ed25519_verify_sk.
  assert (Hzero : forall w1, same_store w w1 ->
            exists r w', mret (M := M) 0 w1 = Ok r w'
              /\ (r = 0 \/ r = 1) /\ same_store w w'
              /\ (r = 1 ->
                  sk_len = 32 /\ sig_len = 64
                  /\ exists key sigb pub,
                       sk = Some key /\ sig = Some sigb
                       /\ EVP_PKEY_get_raw_public_key L (take 32 key) 32 = (1, pub)
                       /\ length (take 32 pub) = 32%nat
                       /\ EVP_DigestVerify L (take 32 pub) (take 64 sigb)
                            (take (Z.to_nat msg_len) (default [] msg)) = 1)).
  { intros w1 Hw1. exists 0, w1. split; [reflexivity|]. split; [auto|].
    split; [exact Hw1 | discriminate]. }
  destruct sk as [key|]; [|apply Hzero, same_store_refl].
  destruct sig as [sigb|]; [|apply Hzero, same_store_refl].
  rewrite !bool_decide_eq_false_2 by discriminate. cbn [orb].
  destruct (Z.eqb_spec sk_len 32) as [-> | ?]; [|apply Hzero, same_store_refl].
  destruct (Z.eqb_spec sig_len 64) as [-> | ?]; [|apply Hzero, same_store_refl].
  cbn [negb orb]. cbv zeta.
  destruct (OBJ_txt2nid L "ED25519" <=? 0); [apply Hzero, same_store_refl|].
  rewrite (bind_ok _ _ _ _ _ (bytes_at_ok key 32 w ltac:(specialize (Hsk key eq_refl); lia))).
  change (Z.to_nat 32) with 32%nat.
  apply with_object; [exact Hzero|]. intros skp w1 Hp Hpf Hw1.
  destruct (EVP_PKEY_get_raw_public_key L (take 32 key) 32) as [rc pub] eqn:Hget.
  destruct (Z.eqb_spec rc 1) as [-> | Hrc]; cbn [negb orb].
  2:{ unfold EVP_PKEY_free. rewrite (bind_ok _ _ _ _ _ (free_fresh skp [] w1 Hp Hpf)).
      now apply Hzero. }
  destruct (Z.eqb_spec (Z.of_nat (length (take 32 pub))) 32) as [Hlen | Hlen]; cbn [negb].
  2:{ unfold EVP_PKEY_free. rewrite (bind_ok _ _ _ _ _ (free_fresh skp [] w1 Hp Hpf)).
      now apply Hzero. }
  (* the public-key object replaces the private-key object *)
  unfold EVP_PKEY_new_raw_public_key.
  destruct (malloc_cases E 0 (set_block skp [] w1)) as [Hm | (Hq & Hqf & Hm)];
    rewrite (bind_ok _ _ _ _ _ Hm); unfold EVP_PKEY_free at 1.
  { change (tick (set_block skp [] w1)) with (set_block skp [] (tick w1)).
    rewrite (bind_ok _ _ _ _ _ (free_fresh skp [] (tick w1) Hp Hpf)).
    cbn [N.eqb NULL]. apply Hzero. exact Hw1. }
  set (pkp := o_malloc E (clock (set_block skp [] w1))) in *.
  cbn [heap set_block with_heap] in Hqf. apply lookup_insert_None in Hqf as [Hqf Hne].
  assert (Hfree : free skp (set_block pkp (replicate (Z.to_nat 0) 0)
                              (tick (set_block skp [] w1)))
                  = Ok tt (set_block pkp [] (tick w1))).
  { unfold free. destruct (N.eqb_spec skp NULL) as [|_]; [contradiction|].
    cbn [heap set_block with_heap tick]. rewrite lookup_insert_ne by congruence.
    rewrite lookup_insert_eq. f_equal. unfold set_block, with_heap, tick. cbn.
    f_equal. rewrite delete_insert_ne by congruence.
    now rewrite delete_insert_id. }
  rewrite (bind_ok _ _ _ _ _ Hfree).
  destruct (N.eqb_spec pkp NULL) as [|_]; [contradiction|].
  destruct (digest_verify_tail E L (take 32 pub) sigb _ msg_len _ pkp w (tick w1) Hq Hqf Hw1
              (Hsig sigb eq_refl) (msg_bytes msg msg_len Hmsg Hnull))
    as (r & wf & Hrun & Hr & Hsame & Hone).
  exists r, wf. split; [exact Hrun|]. split; [exact Hr|]. split; [exact Hsame|].
  intros H1. destruct (Hone H1) as [Hi Hv].
  split; [reflexivity|]. split; [reflexivity|].
  exists key, sigb, pub. repeat split; try assumption. lia.
Qed.

(** X20: [x07_ext_openssl_ed25519_verify_sk], called with readable
    arguments, always returns 0 or 1 and leaves heap and table exactly as
    they were (the private-key object, the public-key object and the digest
    context are each released once on every path).  It returns 1 only for a
    32-byte seed and a 64-byte signature, when OpenSSL derived a 32-byte
    public key from the seed and [EVP_DigestVerify] accepted the signature
    with that public key for exactly the message. *)
Theorem ed25519_verify_sk_outcome E L sk sk_len msg msg_len sig sig_len w :
  readable sk sk_len -> readable sig sig_len -> readable msg msg_len ->
  (msg = None -> msg_len = 0) ->
  exists r w',
    x07_ext_openssl_ed25519_verify_sk E L sk sk_len msg msg_len sig sig_len w = Ok r w'
    /\ (r = 0 \/ r = 1)
    /\ same_store w w'
    /\ (r = 1 ->
        sk_len = 32 /\ sig_len = 64
        /\ exists key sigb pub,
             sk = Some key /\ sig = Some sigb
             /\ EVP_PKEY_get_raw_public_key L (take 32 key) 32 = (1, pub)
             /\ length (take 32 pub) = 32%nat
             /\ EVP_DigestVerify L (take 32 pub) (take 64 sigb)
                  (take (Z.to_nat msg_len) (default [] msg)) = 1).
Proof. exact (ed25519_verify_sk_effect E L sk sk_len msg msg_len sig sig_len w). Qed.

Lemma ed25519_verify_sk_outcome_witness :
  exists r w',
    x07_ext_openssl_ed25519_verify_sk oracle_ok evp_toy (Some seed32) 32 (Some [1; 2]) 2
      (Some (seed32 ++ seed32)) 64 (init_world 4096 ∅) = Ok r w'
    /\ r = 1 /\ heap w' = ∅.
Proof.
  destruct (ed25519_verify_sk_outcome oracle_ok evp_toy (Some seed32) 32 (Some [1; 2]) 2
              (Some (seed32 ++ seed32)) 64 (init_world 4096 ∅))
    as (r & w' & Hrun & _).
  - apply readable_some. cbn. lia.
  - apply readable_some. cbn. lia.
  - apply readable_some. cbn. lia.
  - discriminate.
  - exists r, w'. split; [exact Hrun|].
    vm_compute in Hrun. injection Hrun as <- <-. split; reflexivity.
Defined.

End Ed25519.

(** *** Ed25519: signing and key derivation *)
Section Sign.

Lemma free_live p b w :
  p <> NULL -> heap w !! p = Some b ->
  free p w = Ok tt (with_heap (delete p (heap w)) w).
Proof.
  intros Hnz Hb. unfold free. destruct (N.eqb_spec p NULL) as [|_]; [contradiction|].
  now rewrite Hb.
Qed.

Lemma memwrite_live p b off bs w :
  heap w !! p = Some b -> 0 <= off -> off + Z.of_nat (length bs) <= Z.of_nat (length b) ->
  exists w',
    memwrite p off bs w = Ok tt w'
    /\ heap w' = <[p := take (Z.to_nat off) b ++ bs ++ drop (Z.to_nat off + length bs) b]>
                   (heap w)
    /\ g_bufs w' = g_bufs w /\ g_lens w' = g_lens w.
Proof.
  intros Hb Hoff Hfit. unfold memwrite. destruct bs as [|x bs].
  - exists w. split; [reflexivity|]. cbn [app length]. rewrite Nat.add_0_r, take_drop.
    now rewrite insert_id.
  - rewrite Hb. destruct (Z.leb_spec 0 off); [|lia].
    destruct (Z.leb_spec (off + Z.of_nat (length (x :: bs))) (Z.of_nat (length b))); [|lia].
    eexists. split; [reflexivity|]. repeat split.
Qed.

Lemma ed25519_sign_effect E L sk sk_len msg msg_len out_sig out_sig_len b w :
  readable sk sk_len -> readable msg msg_len -> (msg = None -> msg_len = 0) ->
  0 <= out_sig_len ->
  (out_sig <> NULL ->
   heap w !! out_sig = Some b /\ out_sig_len <= Z.of_nat (length b)) ->
  exists r w',
    x07_ext_openssl_ed25519_sign E L sk sk_len msg msg_len out_sig out_sig_len w
    = Ok r w'
    /\ (r = 0 \/ r = 1)
    /\ g_bufs w' = g_bufs w /\ g_lens w' = g_lens w
    /\ (out_sig = NULL -> r = 0 /\ heap w' = heap w)
    /\ (out_sig <> NULL ->
        exists b',
          heap w' = <[out_sig := b']> (heap w) /\ length b' = length b
          /\ (r = 1 ->
              sk_len = 32 /\ out_sig_len = 64
              /\ exists key sg,
                   sk = Some key
                   /\ EVP_DigestSign L (take 32 key)
                        (take (Z.to_nat msg_len) (default [] msg)) 64 = (1, sg)
                   /\ length (take 64 sg) = 64%nat
                   /\ b' = take 64 sg ++ drop 64 b)).
Proof.
  intros [Hsk0 Hsk] Hmsg Hnull Hcap0 Hout.
  set (Q := fun (r : Z) (w' : world) =>
    (r = 0 \/ r = 1)
    /\ g_bufs w' = g_bufs w /\ g_lens w' = g_lens w
    /\ (out_sig = NULL -> r = 0 /\ heap w' = heap w)
    /\ (out_sig <> NULL ->
        exists b',
          heap w' = <[out_sig := b']> (heap w) /\ length b' = length b
          /\ (r = 1 ->
              sk_len = 32 /\ out_sig_len = 64
              /\ exists key sg,
                   sk = Some key
                   /\ EVP_DigestSign L (take 32 key)
                        (take (Z.to_nat msg_len) (default [] msg)) 64 = (1, sg)
                   /\ length (take 64 sg) = 64%nat
                   /\ b' = take 64 sg ++ drop 64 b))).
  cut (exists r w',
         x07_ext_openssl_ed25519_sign E L sk sk_len msg msg_len out_sig out_sig_len w
         = Ok r w' /\ Q r w'); [intros H; exact H|].
  unfold x07_ext_openssl_ed25519_sign.
  assert (Hzero : forall w1, same_store w w1 ->
            exists r w', mret (M := M) 0 w1 = Ok r w' /\ Q r w').
  { intros w1 (Hh & Hb & Hl). exists 0, w1. split; [reflexivity|]. subst Q. cbn beta.
    split; [auto|]. split; [exact Hb|]. split; [exact Hl|]. split; [auto|].
    intros Hnz. destruct (Hout Hnz) as [Hlive _]. exists b.
    split; [rewrite Hh; symmetry; now apply insert_id|]. split; [reflexivity | discriminate]. }
  destruct sk as [key|]; [|apply Hzero, same_store_refl].
  rewrite bool_decide_eq_false_2 by discriminate. cbn [orb].
  destruct (N.eqb_spec out_sig NULL) as [Ho | Ho]; [apply Hzero, same_store_refl|].
  destruct (Hout Ho) as [Hlive Hfit].
  destruct (Z.eqb_spec sk_len 32) as [-> | ?]; [|apply Hzero, same_store_refl].
  destruct (Z.eqb_spec out_sig_len 64) as [-> | ?]; [|apply Hzero, same_store_refl].
  cbn [negb orb]. cbv zeta.
  destruct (OBJ_txt2nid L "ED25519" <=? 0); [apply Hzero, same_store_refl|].
  rewrite (bind_ok _ _ _ _ _ (bytes_at_ok key 32 w ltac:(specialize (Hsk key eq_refl); lia))).
  change (Z.to_nat 32) with 32%nat.
  apply with_object; [exact Hzero|]. intros pkey w1 Hp Hpf (Hh1 & Hb1 & Hl1).
  apply with_object.
  { intros w2 (Hh & Hb & Hl). unfold EVP_PKEY_free.
    rewrite (bind_ok _ _ _ _ _ (free_inserted pkey [] (heap w1) w2 Hp Hpf Hh)).
    cbn in Hb, Hl. apply Hzero. repeat split; cbn; congruence. }
  intros ctx w2 Hc Hcf (Hh & Hb & Hl). cbn in Hh, Hb, Hl.
  rewrite Hh in Hcf. apply lookup_insert_None in Hcf as [Hcf Hpc].
  assert (Hop : out_sig <> pkey) by (intros ->; rewrite Hh1 in Hpf; congruence).
  assert (Hoc : out_sig <> ctx) by (intros ->; rewrite Hh1 in Hcf; congruence).
  destruct (Z.eqb_spec (EVP_DigestSignInit L (take 32 key)) 1) as [Hinit | Hinit];
    cbn [negb].
  2:{ unfold EVP_MD_CTX_free, EVP_PKEY_free.
      rewrite (bind_ok _ _ _ _ _ (free_fresh ctx [] w2 Hc ltac:(rewrite Hh; now apply lookup_insert_None))).
      rewrite (bind_ok _ _ _ _ _ (free_inserted pkey [] (heap w1) w2 Hp Hpf Hh)).
      apply Hzero. repeat split; cbn; congruence. }
  rewrite (bind_ok _ _ _ _ _ (msg_bytes msg msg_len Hmsg Hnull _)).
  destruct (EVP_DigestSign L (take 32 key) (take (Z.to_nat msg_len) (default [] msg)) 64)
    as [rc sg] eqn:Hsign.
  cbv zeta. change (Z.to_nat 64) with 64%nat.
  destruct (memwrite_live out_sig b 0 (take 64 sg) (set_block ctx [] w2))
    as (w3 & Hw & Hh3 & Hb3 & Hl3).
  { cbn [heap set_block with_heap]. rewrite lookup_insert_ne by congruence.
    rewrite Hh, lookup_insert_ne by congruence. now rewrite Hh1. }
  { lia. }
  { rewrite length_take. lia. }
  rewrite (bind_ok _ _ _ _ _ Hw). cbn [heap g_bufs g_lens set_block with_heap] in Hh3, Hb3, Hl3.
  set (b' := take (Z.to_nat 0) b ++ take 64 sg ++
             drop (Z.to_nat 0 + length (take 64 sg)) b) in *.
  unfold EVP_MD_CTX_free, EVP_PKEY_free.
  rewrite (bind_ok _ _ _ _ _ (free_live ctx [] w3 Hc
             ltac:(rewrite Hh3, lookup_insert_ne by congruence; apply lookup_insert_eq))).
  rewrite (bind_ok _ _ _ _ _ (free_live pkey [] (with_heap (delete ctx (heap w3)) w3) Hp
             ltac:(cbn [heap with_heap]; rewrite Hh3, lookup_delete_ne by congruence;
                   rewrite lookup_insert_ne by congruence;
                   rewrite lookup_insert_ne by congruence;
                   rewrite Hh; apply lookup_insert_eq))).
  assert (Hfinal : delete pkey (delete ctx (heap w3)) = <[out_sig := b']> (heap w)).
  { rewrite Hh3, Hh, Hh1. apply map_eq. intros i.
    destruct (decide (i = pkey)) as [-> | Hip].
    { rewrite lookup_delete_eq, lookup_insert_ne by congruence. now rewrite <- Hh1. }
    rewrite lookup_delete_ne by congruence.
    destruct (decide (i = ctx)) as [-> | Hic].
    { rewrite lookup_delete_eq, lookup_insert_ne by congruence. now rewrite <- Hh1. }
    rewrite lookup_delete_ne by congruence.
    destruct (decide (i = out_sig)) as [-> | Hio].
    { now rewrite !lookup_insert_eq. }
    now rewrite !lookup_insert_ne by congruence. }
  assert (Hblen : length b' = length b).
  { subst b'. change (Z.to_nat 0) with 0%nat. rewrite take_0, Nat.add_0_l. cbn [app].
    rewrite length_app, length_drop, length_take. lia. }
  assert (Hpost : forall r, (r = 0 \/ (r = 1 /\ rc = 1 /\ length (take 64 sg) = 64%nat)) ->
            Q r (with_heap (delete pkey (heap (with_heap (delete ctx (heap w3)) w3)))
                   (with_heap (delete ctx (heap w3)) w3))).
  { intros r Hr. subst Q. cbn beta. cbn [heap g_bufs g_lens with_heap].
    split; [tauto|]. split; [congruence|]. split; [congruence|].
    split; [contradiction|]. intros _. exists b'. split; [exact Hfinal|].
    split; [exact Hblen|]. intros ->. destruct Hr as [? | (_ & -> & Hl64)]; [discriminate|].
    split; [reflexivity|]. split; [reflexivity|]. exists key, sg.
    split; [reflexivity|]. split; [exact Hsign|]. split; [exact Hl64|].
    subst b'. change (Z.to_nat 0) with 0%nat. rewrite take_0, Nat.add_0_l, Hl64.
    reflexivity. }
  destruct (Z.eqb_spec rc 1) as [-> | Hrc]; cbn [Z.eqb Pos.eqb].
  - destruct (Z.eqb_spec (Z.of_nat (length (take 64 sg))) 64) as [H64 | H64].
    + eexists _, _. split; [reflexivity|]. apply Hpost. right. repeat split. lia.
    + eexists _, _. split; [reflexivity|]. apply Hpost. now left.
  - eexists _, _. split; [reflexivity|]. apply Hpost. now left.
Qed.

(** X21: [x07_ext_openssl_ed25519_sign], called with readable arguments
    and [out_sig] NULL or a block of at least [out_sig_len] bytes, always
    returns 0 or 1, never touches the table, and changes nothing in the
    heap but the block at [out_sig], which keeps its size (the OpenSSL
    objects are released on every path).  With a NULL [out_sig] it returns
    0 and changes nothing.  It returns 1 only for a 32-byte key and a
    64-byte buffer, when [EVP_DigestSign] succeeded with that key on exactly
    the message and produced 64 bytes, which are then the first 64 bytes of
    the block. *)
Theorem ed25519_sign_outcome E L sk sk_len msg msg_len out_sig out_sig_len b w :
  readable sk sk_len -> readable msg msg_len -> (msg = None -> msg_len = 0) ->
  0 <= out_sig_len ->
  (out_sig <> NULL ->
   heap w !! out_sig = Some b /\ out_sig_len <= Z.of_nat (length b)) ->
  exists r w',
    x07_ext_openssl_ed25519_sign E L sk sk_len msg msg_len out_sig out_sig_len w
    = Ok r w'
    /\ (r = 0 \/ r = 1)
    /\ g_bufs w' = g_bufs w /\ g_lens w' = g_lens w
    /\ (out_sig = NULL -> r = 0 /\ heap w' = heap w)
    /\ (out_sig <> NULL ->
        exists b',
          heap w' = <[out_sig := b']> (heap w) /\ length b' = length b
          /\ (r = 1 ->
              sk_len = 32 /\ out_sig_len = 64
              /\ exists key sg,
                   sk = Some key
                   /\ EVP_DigestSign L (take 32 key)
                        (take (Z.to_nat msg_len) (default [] msg)) 64 = (1, sg)
                   /\ length (take 64 sg) = 64%nat
                   /\ b' = take 64 sg ++ drop 64 b)).
Proof. apply ed25519_sign_effect. Qed.

Lemma ed25519_sign_outcome_witness :
  let w := set_block 9%N (replicate 64 0) (init_world 4096 ∅) in
  exists r w',
    x07_ext_openssl_ed25519_sign oracle_ok evp_toy (Some seed32) 32 None 0 9%N 64 w
    = Ok r w'
    /\ r = 1 /\ heap w' = {[9%N := seed32 ++ seed32]}.
Proof.
  intros w.
  destruct (ed25519_sign_outcome oracle_ok evp_toy (Some seed32) 32 None 0 9%N 64
              (replicate 64 0) w)
    as (r & w' & Hrun & _).
  - apply readable_some. cbn. lia.
  - apply readable_null.
  - reflexivity.
  - lia.
  - intros _. split; [reflexivity | cbn; lia].
  - exists r, w'. split; [exact Hrun|].
    vm_compute in Hrun. injection Hrun as <- <-. split; reflexivity.
Defined.

Lemma holding_of_same w0 w b : same_store w0 w -> holding w0 NULL b w.
Proof. intros (Hh & Hb & Hl). split; [exact Hb|]. split; [exact Hl|]. left. auto. Qed.

Lemma int_of_u32_small x : 0 <= x < 2147483648 -> int_of_u32 x = x.
Proof. intros H. unfold int_of_u32. destruct (Z.ltb_spec x 2147483648); [reflexivity | lia]. Qed.

Lemma ed25519_sign_alloc_effect E L sk sk_len msg msg_len w0 :
  shaped w0 ->
  readable sk sk_len -> readable msg msg_len -> (msg = None -> msg_len = 0) ->
  exists r w,
    x07_ext_openssl_ed25519_sign_alloc E L sk sk_len msg msg_len w0 = Ok r w
    /\ ((r = 0 /\ same_store w0 w)
        \/ (sk_len = 32
            /\ exists p key sg,
                 sk = Some key
                 /\ EVP_DigestSign L (take 32 key)
                      (take (Z.to_nat msg_len) (default [] msg)) 64 = (1, sg)
                 /\ length (take 64 sg) = 64%nat
                 /\ stored w0 w r p (take 64 sg) 64)).
Proof.
  intros Hs Hsk Hmsg Hnull. unfold x07_ext_openssl_ed25519_sign_alloc.
  destruct sk as [key|] eqn:Esk.
  2:{ exists 0, w0. split; [reflexivity|]. left. split; [reflexivity | apply same_store_refl]. }
  rewrite bool_decide_eq_false_2 by discriminate.
  destruct (Z.eqb_spec sk_len 32) as [-> | ?]; cbn [negb].
  2:{ exists 0, w0. split; [reflexivity|]. left. split; [reflexivity | apply same_store_refl]. }
  destruct (malloc_cases E 64 w0) as [Hm | (Hp & Hfresh & Hm)];
    rewrite (bind_ok _ _ _ _ _ Hm).
  { cbn [N.eqb NULL]. exists 0. eexists. split; [reflexivity|]. left.
    split; [reflexivity | repeat split]. }
  set (sig := o_malloc E (clock w0)) in *.
  destruct (N.eqb_spec sig NULL) as [|_]; [contradiction|].
  pose proof (length_garbage E (clock w0) 64) as Hg64.
  set (g := garbage E (clock w0) 64) in *.
  destruct (ed25519_sign_effect E L (Some key) 32 msg msg_len sig 64 g
              (set_block sig g (tick w0)) Hsk Hmsg Hnull
              ltac:(lia))
    as (r1 & w2 & Hrun & Hr1 & Hb2 & Hl2 & _ & Hblk).
  { intros _. split; [apply set_block_lookup | lia]. }
  rewrite (bind_ok _ _ _ _ _ Hrun).
  destruct (Hblk Hp) as (b' & Hh2 & Hlen & Hone).
  cbn [heap g_bufs g_lens set_block with_heap tick] in Hh2, Hb2, Hl2.
  rewrite insert_insert_eq in Hh2.
  assert (Hhold : holding w0 sig b' w2).
  { split; [exact Hb2|]. split; [exact Hl2|]. right. auto. }
  destruct (Z.eqb_spec r1 1) as [-> | Hne]; cbn [negb].
  - destruct (Hone eq_refl) as (_ & _ & key' & sg & [= <-] & Hsign & Hl64 & Hb').
    destruct (tail_h w0 Hs x07_ext_openssl_alloc_buf_slot (free sig) sig b' 64 0
                (fun slot => int_of_u32 slot) (scan_h w0 Hs sig b') (free_h w0 sig b') Hp
                w2 Hhold) as (r & w & Hrun2 & Hpost).
    exists r, w. split; [exact Hrun2|].
    destruct Hpost as [Hfail | (h & -> & Hst)]; [left; exact Hfail|].
    right. split; [reflexivity|]. exists sig, key, sg.
    split; [reflexivity|]. split; [exact Hsign|]. split; [exact Hl64|].
    rewrite int_of_u32_small by (destruct Hst as [? _]; lia).
    replace (take 64 sg) with b'; [exact Hst|].
    rewrite Hb'. rewrite drop_ge by lia. apply app_nil_r.
  - destruct (fail_h w0 sig b' 0 (fun r w => r = 0 /\ same_store w0 w)
                (fun w H => conj eq_refl H) w2 Hhold) as (r & w & Hrun2 & Hpost).
    exists r, w. split; [exact Hrun2|]. left. exact Hpost.
Qed.

(** X22: [x07_ext_openssl_ed25519_sign_alloc], called with readable
    arguments, always returns.  Either it returns 0 and heap and table are
    exactly as before (the signature buffer is released when signing fails
    or the table is full); or it returns a handle to the lowest previously
    empty slot, which now holds a fresh block of exactly 64 bytes, the
    signature [EVP_DigestSign] produced with the 32-byte key on the message,
    recorded with length 64, and nothing else has changed. *)
Theorem ed25519_sign_alloc_outcome E L sk sk_len msg msg_len w0 :
  shaped w0 ->
  readable sk sk_len -> readable msg msg_len -> (msg = None -> msg_len = 0) ->
  exists r w,
    x07_ext_openssl_ed25519_sign_alloc E L sk sk_len msg msg_len w0 = Ok r w
    /\ ((r = 0 /\ same_store w0 w)
        \/ (sk_len = 32
            /\ exists p key sg,
                 sk = Some key
                 /\ EVP_DigestSign L (take 32 key)
                      (take (Z.to_nat msg_len) (default [] msg)) 64 = (1, sg)
                 /\ length (take 64 sg) = 64%nat
                 /\ stored w0 w r p (take 64 sg) 64)).
Proof. exact (ed25519_sign_alloc_effect E L sk sk_len msg msg_len w0). Qed.

Lemma ed25519_sign_alloc_outcome_witness :
  let w0 := init_world 4096 ∅ in
  shaped w0
  /\ exists r w,
       x07_ext_openssl_ed25519_sign_alloc oracle_ok evp_toy (Some seed32) 32 None 0 w0
       = Ok r w
       /\ r = 1 /\ heap w = {[1%N := seed32 ++ seed32]}.
Proof.
  intros w0.
  assert (Hs : shaped w0) by (split; reflexivity).
  split; [exact Hs|].
  destruct (ed25519_sign_alloc_outcome oracle_ok evp_toy (Some seed32) 32 None 0 w0 Hs)
    as (r & w & Hrun & _).
  - apply readable_some. cbn. lia.
  - apply readable_null.
  - reflexivity.
  - exists r, w. split; [exact Hrun|].
    vm_compute in Hrun. injection Hrun as <- <-. split; reflexivity.
Defined.

Lemma ed25519_pk_from_seed_alloc_effect E L sk sk_len w0 :
  shaped w0 -> readable sk sk_len ->
  exists r w,
    x07_ext_openssl_ed25519_pk_from_seed_alloc E L sk sk_len w0 = Ok r w
    /\ ((r = 0 /\ same_store w0 w)
        \/ (sk_len = 32
            /\ exists p key pub,
                 sk = Some key
                 /\ EVP_PKEY_get_raw_public_key L (take 32 key) 32 = (1, pub)
                 /\ length (take 32 pub) = 32%nat
                 /\ stored w0 w r p (take 32 pub) 32)).
Proof.
  intros Hs [Hsk0 Hsk]. unfold x07_ext_openssl_ed25519_pk_from_seed_alloc.
  set (Q := fun (r : Z) (w : world) =>
    (r = 0 /\ same_store w0 w)
    \/ (sk_len = 32
        /\ exists p key pub,
             sk = Some key
             /\ EVP_PKEY_get_raw_public_key L (take 32 key) 32 = (1, pub)
             /\ length (take 32 pub) = 32%nat
             /\ stored w0 w r p (take 32 pub) 32)).
  assert (Hzero : forall w1, same_store w0 w1 ->
            exists r w, mret (M := M) 0 w1 = Ok r w /\ Q r w).
  { intros w1 Hw1. exists 0, w1. split; [reflexivity|]. left. auto. }
  destruct sk as [key|]; [|apply Hzero, same_store_refl].
  rewrite bool_decide_eq_false_2 by discriminate.
  destruct (Z.eqb_spec sk_len 32) as [-> | ?]; cbn [negb]; [|apply Hzero, same_store_refl].
  cbv zeta.
  destruct (OBJ_txt2nid L "ED25519" <=? 0); [apply Hzero, same_store_refl|].
  rewrite (bind_ok _ _ _ _ _ (bytes_at_ok key 32 w0 ltac:(specialize (Hsk key eq_refl); lia))).
  change (Z.to_nat 32) with 32%nat.
  apply with_object; [exact Hzero|]. intros skp w1 Hp Hpf Hw1.
  destruct (EVP_PKEY_get_raw_public_key L (take 32 key) 32) as [rc pub] eqn:Hget.
  unfold EVP_PKEY_free.
  destruct (Z.eqb_spec rc 1) as [-> | Hrc]; cbn [negb orb].
  2:{ rewrite (bind_ok _ _ _ _ _ (free_fresh skp [] w1 Hp Hpf)). now apply Hzero. }
  destruct (Z.eqb_spec (Z.of_nat (length (take 32 pub))) 32) as [Hlen | Hlen]; cbn [negb].
  2:{ rewrite (bind_ok _ _ _ _ _ (free_fresh skp [] w1 Hp Hpf)). now apply Hzero. }
  rewrite (bind_ok _ _ _ _ _ (free_fresh skp [] w1 Hp Hpf)).
  assert (Hrest : hoare (holding w0 NULL [])
            (out ← malloc E 32;
             if (out =? NULL)%N then mret 0
             else
               memwrite out 0 (take 32 pub);;
               slot ← x07_ext_openssl_alloc_buf_slot;
               if slot =? 0 then free out;; mret 0
               else set_buf slot out;; set_len slot 32;; mret (int_of_u32 slot))
            Q).
  { eapply hoare_bind; [apply malloc_h; exact Hs|]. intros out. cbn beta.
    apply hoare_exists. intros g. apply hoare_pure. intros Hg.
    destruct (N.eqb_spec out NULL) as [-> | Hnz].
    { apply hoare_ret. intros w Hw. left. split; [reflexivity|].
      exact (holding_none _ _ _ Hw). }
    eapply hoare_bind.
    { apply memwrite_h. right. rewrite Hg.
      repeat split; [exact Hnz | lia | lia]. }
    intros [].
    eapply hoare_conseq;
      [apply (tail_h w0 Hs x07_ext_openssl_alloc_buf_slot (free out) out
                (take (Z.to_nat 0) g ++ take 32 pub
                 ++ drop (Z.to_nat 0 + length (take 32 pub)) g)
                32 0 (fun slot => int_of_u32 slot));
         [apply scan_h; exact Hs | apply free_h | exact Hnz]
      | intros ? Hx; exact Hx |].
    intros r w [Hfail | (h & -> & Hst)]; [left; exact Hfail|].
    right. split; [reflexivity|]. exists out, key, pub.
    split; [reflexivity|]. split; [exact Hget|]. split; [lia|].
    rewrite int_of_u32_small by (destruct Hst as [? _]; lia).
    assert (Hblk : take (Z.to_nat 0) g ++ take 32 pub
                     ++ drop (Z.to_nat 0 + length (take 32 pub)) g
                   = take 32 pub).
    { change (Z.to_nat 0) with 0%nat. rewrite take_0, Nat.add_0_l. cbn [app].
      rewrite drop_ge by lia. apply app_nil_r. }
    rewrite Hblk in Hst. exact Hst. }
  apply (Hrest w1). now apply holding_of_same.
Qed.

(** X23: [x07_ext_openssl_ed25519_pk_from_seed_alloc], called with a
    readable seed, always returns.  Either it returns 0 and heap and table
    are exactly as before; or it returns a handle to the lowest previously
    empty slot, which now holds a fresh block of exactly 32 bytes, the
    public key OpenSSL derived from the 32-byte seed, recorded with length
    32, and nothing else has changed (the key object is released). *)
Theorem ed25519_pk_from_seed_alloc_outcome E L sk sk_len w0 :
  shaped w0 -> readable sk sk_len ->
  exists r w,
    x07_ext_openssl_ed25519_pk_from_seed_alloc E L sk sk_len w0 = Ok r w
    /\ ((r = 0 /\ same_store w0 w)
        \/ (sk_len = 32
            /\ exists p key pub,
                 sk = Some key
                 /\ EVP_PKEY_get_raw_public_key L (take 32 key) 32 = (1, pub)
                 /\ length (take 32 pub) = 32%nat
                 /\ stored w0 w r p (take 32 pub) 32)).
Proof. exact (ed25519_pk_from_seed_alloc_effect E L sk sk_len w0). Qed.

Lemma ed25519_pk_from_seed_alloc_outcome_witness :
  let w0 := init_world 4096 ∅ in
  shaped w0
  /\ exists r w,
       x07_ext_openssl_ed25519_pk_from_seed_alloc oracle_ok evp_toy (Some seed32) 32 w0
       = Ok r w
       /\ r = 1 /\ g_lens w !! 1%nat = Some 32.
Proof.
  intros w0.
  assert (Hs : shaped w0) by (split; reflexivity).
  split; [exact Hs|].
  destruct (ed25519_pk_from_seed_alloc_outcome oracle_ok evp_toy (Some seed32) 32 w0 Hs)
    as (r & w & Hrun & _).
  - apply readable_some. cbn. lia.
  - exists r, w. split; [exact Hrun|].
    vm_compute in Hrun. injection Hrun as <- <-. split; reflexivity.
Defined.

End Sign.

End Keys.

(** ** Buffers stay put *)
Section Stable.

Import C Frame.
Local Open Scope Z_scope.

Lemma zlib_one_buffer_reachable : Zlib.reachable oracle_ok Zlib.zlib_stored Zlib.one_buffer.
Proof.
  apply (Zlib.reach_call oracle_ok Zlib.zlib_stored (init_world 4096 ∅)
           (Zlib.CompressAlloc [1; 2; 3] 3 (Some 0))).
  - apply (Zlib.reach_init oracle_ok Zlib.zlib_stored ∅).
  - vm_compute. reflexivity.
Qed.

Lemma names_same w0 w h p n b : same_store w0 w -> names w0 h p n b -> names w h p n b.
Proof. intros (Hh & Hb & Hl) (H1 & H2 & H3 & H4 & H5). unfold names. rewrite Hh, Hb, Hl. auto. Qed.

Lemma names_stored w0 w h p n b h' p' b' n' :
  stored w0 w h' p' b' n' -> names w0 h p n b -> names w h p n b.
Proof.
  intros (Hr & Hfree & _ & Hnz & Hfresh & Hh & Hb & Hl) (H1 & H2 & H3 & H4 & H5).
  assert (Hne : Z.to_nat h <> Z.to_nat h') by (intros Heq; rewrite Heq in H3; congruence).
  unfold names. rewrite Hh, Hb, Hl.
  rewrite !list_lookup_insert_ne by congruence.
  rewrite lookup_insert_ne by congruence. auto.
Qed.

Lemma names_step {A : Type} (F : Prop) (m : M A) w w' h p n b :
  hoare_unless F (holding w NULL []) m
    (fun _ w1 => same_store w w1
                 \/ (exists h' p' b' n', stored w w1 h' p' b' n')) ->
  (m;; mret tt) w = Ok tt w' -> names w h p n b -> names w' h p n b.
Proof.
  intros Hm Hrun Hn. apply then_tt_eq in Hrun as [a Ha].
  pose proof (unless_returned _ _ _ _ w a w' Hm (holding_start w []) Ha) as Hpost.
  destruct Hpost as [Hsame | (h' & p' & b' & n' & Hst)].
  - exact (names_same w w' h p n b Hsame Hn).
  - exact (names_stored w w' h p n b h' p' b' n' Hst Hn).
Qed.

Lemma names_free w w' h p n b h' :
  table_ok 4096 w -> 0 <= h' -> h' <> h ->
  Openssl.x07_ext_openssl_buf_free h' w = Ok tt w' ->
  names w h p n b -> names w' h p n b.
Proof.
  intros Hok Hh' Hne Hfree Hn. pose proof Hn as (H1 & H2 & H3 & H4 & H5).
  pose proof Hok as [T1 T2 T3 T4 T5].
  destruct (Z.eq_dec h' 0) as [-> | Hnz].
  { rewrite buf_free_noop in Hfree by auto with lia. injection Hfree as <-.
    exact Hn. }
  destruct (Z_le_gt_dec 4096 h') as [Hge | Hlt].
  { rewrite buf_free_noop in Hfree by auto with lia. injection Hfree as <-.
    exact Hn. }
  destruct (lookup_lt_is_Some_2 (g_bufs w) (Z.to_nat h')) as [q Hq]; [lia|].
  rewrite (buf_free_effect w h' q T1 T2 ltac:(lia) Hq (T4 _ _ Hq)) in Hfree.
  injection Hfree as <-. unfold names. cbn [heap g_bufs g_lens].
  rewrite !list_lookup_insert_ne by lia.
  split; [exact H1|]. split; [exact H2|]. split; [exact H3|]. split; [exact H4|].
  destruct (N.eqb_spec q NULL); [exact H5|].
  rewrite lookup_delete_ne; [exact H5|]. intros <-.
  pose proof (T5 _ _ _ Hq H3 ltac:(assumption)). lia.
Qed.

(** X24: buffers of the zlib shim stay put.  In any state of the shim, if
    handle [h] names a buffer (pointer [p], recorded length [n], bytes [b]),
    then after any entry-point call other than [buf_free] of that handle,
    whether the call succeeds or fails, [h] still names the same pointer
    with the same length and the same bytes, and [buf_ptr] and [buf_len]
    report them. *)
Theorem zlib_buffers_are_stable E L w c w' h p n b :
  Zlib.reachable E L w -> Zlib.do_api E L c w = Ok tt w' ->
  names w h p n b ->
  (forall h', c = Zlib.BufFree h' -> u32 h' <> h) ->
  names w' h p n b
  /\ Zlib.x07_ext_zlib_buf_ptr h w' = Ok p w'
  /\ Zlib.x07_ext_zlib_buf_len h w' = Ok n w'.
Proof.
  intros Hr Hc Hn Hother.
  pose proof (zlib_reachable_ok E L w Hr) as Hok.
  pose proof (table_ok_shaped w Hok) as Hs.
  assert (Hn' : names w' h p n b).
  { destruct c as [s k o | s k m o | s k m o | s k m o | h']; cbn [Zlib.do_api] in Hc.
    - refine (names_step _ _ w w' h p n b _ Hc Hn).
      eapply unless_conseq; [apply (compress_alloc_h E L w Hs) | intros ? Hx; exact Hx |].
      intros r w1 [(_ & _ & Hsame) | (_ & h' & p' & rest & _ & _ & Hst)];
        [left; exact Hsame|].
      right. eauto.
    - refine (names_step _ _ w w' h p n b _ Hc Hn).
      eapply unless_conseq; [apply (uncompress_alloc_h E L w Hs) | intros ? Hx; exact Hx |].
      intros r w1 [(_ & _ & Hsame) | (_ & h' & p' & rest & _ & _ & Hst)];
        [left; exact Hsame|].
      right. eauto.
    - refine (names_step _ _ w w' h p n b _ Hc Hn).
      eapply unless_conseq;
        [apply (inflate_alloc_window_bits_h E L w Hs) | intros ? Hx; exact Hx |].
      intros r w1 [(_ & Hsame & _) | (_ & _ & h' & p' & rest & _ & _ & Hst)].
      + left; exact Hsame.
      + right. eauto.
    - refine (names_step _ _ w w' h p n b _ Hc Hn).
      eapply unless_conseq;
        [apply (inflate_alloc_window_bits_h E L w Hs) | intros ? Hx; exact Hx |].
      intros r w1 [(_ & Hsame & _) | (_ & _ & h' & p' & rest & _ & _ & Hst)].
      + left; exact Hsame.
      + right. eauto.
    - rewrite zlib_buf_free_eq in Hc.
      exact (names_free w w' h p n b (u32 h') Hok (proj1 (u32_range h'))
               (Hother h' eq_refl) Hc Hn). }
  split; [exact Hn'|]. destruct Hn' as (H1 & _ & H3 & H4 & _).
  exact (buf_ptr_len_eq w' h p n H1 H3 H4).
Qed.

Lemma zlib_buffers_are_stable_witness :
  let c := Zlib.UncompressAlloc [9; 9] 2 2 (Some 0) in
  Zlib.reachable oracle_ok Zlib.zlib_stored Zlib.one_buffer
  /\ names Zlib.one_buffer 1 1%N 3 ([1; 2; 3] ++ replicate 13 0)
  /\ exists w', Zlib.do_api oracle_ok Zlib.zlib_stored c Zlib.one_buffer = Ok tt w'
                /\ Zlib.x07_ext_zlib_buf_ptr 1 w' = Ok 1%N w'
                /\ Zlib.x07_ext_zlib_buf_len 1 w' = Ok 3 w'
                /\ Zlib.x07_ext_zlib_buf_ptr 2 w' = Ok 2%N w'.
Proof.
  intros c.
  assert (Hn : names Zlib.one_buffer 1 1%N 3 ([1; 2; 3] ++ replicate 13 0)).
  { split; [lia|]. split; [discriminate|]. repeat split. }
  split; [exact zlib_one_buffer_reachable|]. split; [exact Hn|].
  eexists. split; [vm_compute; reflexivity|].
  destruct (zlib_buffers_are_stable oracle_ok Zlib.zlib_stored Zlib.one_buffer c _ 1 1%N 3
              ([1; 2; 3] ++ replicate 13 0) zlib_one_buffer_reachable eq_refl Hn
              ltac:(discriminate)) as (_ & Hp & Hl).
  split; [exact Hp|]. split; [exact Hl|]. reflexivity.
Defined.

(** X25: the same for the OpenSSL shim's table: a call to
    [rand_bytes_alloc], to a handle-returning [*_alloc], or to [buf_free] of
    another handle leaves the pointer, the length and the bytes of every
    buffer that a handle names as they were. *)
Theorem openssl_buffers_are_stable E w c w' h p n b :
  Openssl.reachable E w -> Openssl.do_api E c w = Ok tt w' ->
  names w h p n b ->
  (forall h', c = Openssl.BufFree h' -> u32 h' <> h) ->
  names w' h p n b
  /\ Openssl.x07_ext_openssl_buf_ptr h w' = Ok p w'
  /\ Openssl.x07_ext_openssl_buf_len h w' = Ok n w'.
Proof.
  intros Hr Hc Hn Hother.
  pose proof (openssl_reachable_ok E w Hr) as Hok.
  pose proof (table_ok_shaped w Hok) as Hs.
  assert (Hn' : names w' h p n b).
  { destruct c as [len oh | k filled | h']; cbn [Openssl.do_api] in Hc.
    - refine (names_step False _ w w' h p n b _ Hc Hn). apply unless_total.
      eapply hoare_conseq;
        [apply (rand_bytes_alloc_h w Hs E (u32 len) oh (u32_range len))
        | intros ? Hx; exact Hx |].
      intros r w1 [[_ Hsame] | (h' & p' & b' & _ & Hst & _)]; [left; exact Hsame|].
      right. eauto.
    - refine (names_step False _ w w' h p n b _ Hc Hn). apply unless_total.
      eapply hoare_conseq;
        [apply (alloc_filled_h w E (u32 k) filled Hs (proj1 (u32_range k)))
        | intros ? Hx; exact Hx |].
      intros r w1 [[_ Hsame] | (p' & b' & Hst & _)]; [left; exact Hsame|].
      right. eauto.
    - exact (names_free w w' h p n b (u32 h') Hok (proj1 (u32_range h'))
               (Hother h' eq_refl) Hc Hn). }
  split; [exact Hn'|]. destruct Hn' as (H1 & _ & H3 & H4 & _).
  exact (buf_ptr_len_eq w' h p n H1 H3 H4).
Qed.

Lemma openssl_buffers_are_stable_witness :
  let c := Openssl.RandBytesAlloc 0 (Some 0) in
  Openssl.reachable oracle_ok Openssl.one_buffer
  /\ names Openssl.one_buffer 1 1%N 3 [1; 7; 8]
  /\ exists w', Openssl.do_api oracle_ok c Openssl.one_buffer = Ok tt w'
                /\ Openssl.x07_ext_openssl_buf_ptr 1 w' = Ok 1%N w'
                /\ Openssl.x07_ext_openssl_buf_len 1 w' = Ok 3 w'.
Proof.
  intros c.
  assert (Hn : names Openssl.one_buffer 1 1%N 3 [1; 7; 8]).
  { split; [lia|]. split; [discriminate|]. repeat split. }
  split; [exact one_buffer_reachable|]. split; [exact Hn|].
  eexists. split; [vm_compute; reflexivity|].
  destruct (openssl_buffers_are_stable oracle_ok Openssl.one_buffer c _ 1 1%N 3
              [1; 7; 8] one_buffer_reachable eq_refl Hn
              ltac:(discriminate)) as (_ & Hp & Hl).
  split; [exact Hp | exact Hl].
Defined.

End Stable.

(** ** Whole runs *)
Section Runs.

Import C Frame.
Local Open Scope Z_scope.

Section Whole.

Variable h0 : gmap N (list Z).
Hypothesis Hnull : h0 !! NULL = None.

Local Abbreviation kept := (kept h0).

Lemma kept_init : kept (init_world 4096 h0).
Proof.
  split; [apply (init_world_ok 4096 h0)|]. split.
  - intros q b Hq. split; [exact Hq|]. intros i Hi.
    apply lookup_replicate in Hi as [-> _]. congruence.
  - intros q Hq [b Hb]. cbn in Hb. congruence.
Qed.

Lemma kept_same w w' : table_ok 4096 w' -> same_store w w' -> kept w -> kept w'.
Proof.
  intros Hok (Hh & Hb & Hl) (_ & Hu & Ha). split; [exact Hok|]. split.
  - intros q b Hq. rewrite Hh, Hb. exact (Hu q b Hq).
  - intros q Hq. rewrite Hh, Hb. exact (Ha q Hq).
Qed.

Lemma kept_stored w w' h p b n :
  table_ok 4096 w' -> stored w w' h p b n -> kept w -> kept w'.
Proof.
  intros Hok (Hr & Hfree & _ & Hnz & Hfresh & Hh & Hb & Hl) ([T1 _ _ _ _] & Hu & Ha).
  split; [exact Hok|]. split.
  - intros q blk Hq. destruct (Hu q blk Hq) as [Hlive Hslots].
    assert (Hne : p <> q) by (intros ->; congruence).
    rewrite Hh, Hb. rewrite lookup_insert_ne by exact Hne. split; [exact Hlive|].
    intros i Hi. destruct (decide (i = Z.to_nat h)) as [-> | Hi'].
    + rewrite list_lookup_insert_eq in Hi by lia. congruence.
    + rewrite list_lookup_insert_ne in Hi by congruence. exact (Hslots i Hi).
  - intros q Hq. rewrite Hh, Hb. destruct (decide (q = p)) as [-> | Hne].
    + intros _. split; [exact Hnz|]. exists (Z.to_nat h).
      apply list_lookup_insert_eq. lia.
    + rewrite lookup_insert_ne by congruence. intros Hlive.
      destruct (Ha q Hq Hlive) as [Hqn [i Hi]]. split; [exact Hqn|]. exists i.
      rewrite list_lookup_insert_ne; [exact Hi|]. intros <-. congruence.
Qed.

Lemma kept_step {A : Type} (F : Prop) (m : M A) w w' :
  hoare_unless F (holding w NULL []) m
    (fun _ w1 => same_store w w1
                 \/ (exists h p b n, stored w w1 h p b n)) ->
  (m;; mret tt) w = Ok tt w' -> table_ok 4096 w' -> kept w -> kept w'.
Proof.
  intros Hm Hrun Hok Hk. apply then_tt_eq in Hrun as [a Ha].
  pose proof (unless_returned _ _ _ _ w a w' Hm (holding_start w []) Ha) as Hpost.
  destruct Hpost as [Hsame | (h & p & b & n & Hst)].
  - exact (kept_same w w' Hok Hsame Hk).
  - exact (kept_stored w w' h p b n Hok Hst Hk).
Qed.

Lemma kept_free w w' h :
  0 <= h -> Openssl.x07_ext_openssl_buf_free h w = Ok tt w' ->
  table_ok 4096 w' -> kept w -> kept w'.
Proof.
  intros Hh Hfree Hok' Hk. pose proof Hk as (Hok & Hu & Ha).
  pose proof Hok as [T1 T2 T3 T4 T5].
  destruct (Z.eq_dec h 0) as [-> | Hnz].
  { rewrite buf_free_noop in Hfree by auto with lia. injection Hfree as <-.
    exact Hk. }
  destruct (Z_le_gt_dec 4096 h) as [Hge | Hlt].
  { rewrite buf_free_noop in Hfree by auto with lia. injection Hfree as <-.
    exact Hk. }
  destruct (lookup_lt_is_Some_2 (g_bufs w) (Z.to_nat h)) as [p Hp]; [lia|].
  rewrite (buf_free_effect w h p T1 T2 ltac:(lia) Hp (T4 _ _ Hp)) in Hfree.
  injection Hfree as <-. split; [exact Hok'|]. split.
  - intros q b Hq. destruct (Hu q b Hq) as [Hlive Hslots]. cbn [heap g_bufs]. split.
    + destruct (N.eqb_spec p NULL); [exact Hlive|].
      rewrite lookup_delete_ne; [exact Hlive|]. intros <-. exact (Hslots _ Hp).
    + intros i Hi. destruct (decide (i = Z.to_nat h)) as [-> | Hi'].
      * rewrite list_lookup_insert_eq in Hi by lia. injection Hi as <-. congruence.
      * rewrite list_lookup_insert_ne in Hi by congruence. exact (Hslots i Hi).
  - intros q Hq [blk Hlive]. cbn [heap g_bufs] in *.
    assert (Hlive' : is_Some (heap w !! q) /\ q <> p).
    { destruct (N.eqb_spec p NULL) as [Hpz | Hpn].
      - split; [eauto|]. intros Hqp. destruct (Ha q Hq) as [Hc _]; [eauto | congruence].
      - destruct (decide (q = p)) as [Hqp | Hne].
        + rewrite Hqp, lookup_delete_eq in Hlive. discriminate.
        + rewrite lookup_delete_ne in Hlive by congruence. eauto. }
    destruct Hlive' as [Hl Hne]. destruct (Ha q Hq Hl) as [Hqn [i Hi]].
    split; [exact Hqn|]. exists i. rewrite list_lookup_insert_ne; [exact Hi|].
    intros <-. congruence.
Qed.

Lemma zlib_step_kept E L c w w' :
  Zlib.do_api E L c w = Ok tt w' -> kept w -> kept w'.
Proof.
  intros Hc Hk. pose proof Hk as (Hok & _ & _).
  pose proof (table_ok_shaped w Hok) as Hs.
  assert (Hok' : table_ok 4096 w').
  { apply (unless_returned _ _ _ _ w tt w' (zlib_do_api_st E L c)); [|exact Hc].
    split; [exact Hok | apply owns_null]. }
  destruct c as [s k o | s k m o | s k m o | s k m o | h]; cbn [Zlib.do_api] in Hc.
  - refine (kept_step _ _ w w' _ Hc Hok' Hk).
    eapply unless_conseq; [apply (compress_alloc_h E L w Hs) | intros ? Hx; exact Hx |].
    intros r w1 [(_ & _ & Hsame) | (_ & h' & p' & rest & _ & _ & Hst)];
      [left; exact Hsame|].
    right. eauto.
  - refine (kept_step _ _ w w' _ Hc Hok' Hk).
    eapply unless_conseq; [apply (uncompress_alloc_h E L w Hs) | intros ? Hx; exact Hx |].
    intros r w1 [(_ & _ & Hsame) | (_ & h' & p' & rest & _ & _ & Hst)];
      [left; exact Hsame|].
    right. eauto.
  - refine (kept_step _ _ w w' _ Hc Hok' Hk).
    eapply unless_conseq;
      [apply (inflate_alloc_window_bits_h E L w Hs) | intros ? Hx; exact Hx |].
    intros r w1 [(_ & Hsame & _) | (_ & _ & h' & p' & rest & _ & _ & Hst)].
    + left; exact Hsame.
    + right. eauto.
  - refine (kept_step _ _ w w' _ Hc Hok' Hk).
    eapply unless_conseq;
      [apply (inflate_alloc_window_bits_h E L w Hs) | intros ? Hx; exact Hx |].
    intros r w1 [(_ & Hsame & _) | (_ & _ & h' & p' & rest & _ & _ & Hst)].
    + left; exact Hsame.
    + right. eauto.
  - rewrite zlib_buf_free_eq in Hc.
    exact (kept_free w w' (u32 h) (proj1 (u32_range h)) Hc Hok' Hk).
Qed.

Lemma zlib_run_kept E L cs :
  Forall Zlib.well_formed cs ->
  forall w, kept w -> lens_fit within w ->
  exists w', Zlib.run_calls E L cs w = Ok tt w' /\ kept w' /\ lens_fit within w'.
Proof.
  induction 1 as [|c cs Hc _ IH]; intros w Hk Hfit.
  - exists w. split; [reflexivity | auto].
  - cbn [Zlib.run_calls]. pose proof Hk as (Hok & _ & _).
    destruct (unless_returns _ _ _ _ (zlib_do_api_st E L c) ltac:(tauto) w)
      as ([] & w1 & E1 & _).
    { split; [exact Hok | apply owns_null]. }
    rewrite (bind_ok _ _ _ _ _ E1). apply IH.
    + exact (zlib_step_kept E L c w w1 E1 Hk).
    + exact (zlib_step_fit E L c w w1 Hok Hfit E1).
Qed.

End Whole.

(** X26: a whole run of the zlib shim.  From the zeroed statics, any
    sequence of entry-point calls, each given a source of at least
    [source_len] bytes, runs to its end without a fault, whatever [malloc]
    and zlib answer.  Afterwards the table is in order, every recorded
    length is within its block, and (1) every block the rest of the process
    had on the heap is still there with the same bytes, and no slot points
    at it: the shim writes to and frees no memory but its own; (2) every
    other live block is the buffer of some slot: the shim holds no memory
    but the buffers its handles name; the state of every inflate stream has
    been released, on the error paths too, and nothing has leaked. *)
Theorem zlib_runs_keep_the_heap E L cs h0 :
  h0 !! NULL = None -> Forall Zlib.well_formed cs ->
  exists w,
    Zlib.run_calls E L cs (init_world 4096 h0) = Ok tt w
    /\ table_ok 4096 w /\ lens_fit within w
    /\ untouched h0 w /\ accounted h0 w.
Proof.
  intros Hnull Hcs.
  destruct (zlib_run_kept h0 Hnull E L cs Hcs (init_world 4096 h0) (kept_init h0 Hnull)
              (lens_fit_init within 4096 h0))
    as (w & Hrun & (Hok & Hu & Ha) & Hfit).
  exists w. auto.
Qed.

(** A run over a heap of indeterminate contents: a gzip stream, a
    compression, a raw stream into a buffer of no bytes, and the release of
    the first buffer.  The block of the process is as it was, and the two
    other live blocks are the buffers of slots 2 and 3. *)
Lemma zlib_runs_keep_the_heap_witness :
  let h0 : gmap N (list Z) := {[77%N := [5]]} in
  let cs := [Zlib.GzipDecompressAlloc [1; 2; 3] 3 8 (Some 0);
             Zlib.CompressAlloc [1; 2; 3] 3 (Some 0);
             Zlib.InflateRawAlloc [1; 2; 3] 3 0 (Some 0);
             Zlib.BufFree 1] in
  h0 !! NULL = None /\ Forall Zlib.well_formed cs
  /\ exists w, Zlib.run_calls oracle_dirty Zlib.zlib_stored cs (init_world 4096 h0) = Ok tt w
               /\ heap w !! 77%N = Some [5]
               /\ dom (heap w) = {[3%N; 4%N; 77%N]}.
Proof.
  intros h0 cs.
  assert (Hnull : h0 !! NULL = None) by reflexivity.
  assert (Hcs : Forall Zlib.well_formed cs).
  { unfold cs. repeat constructor; vm_compute; discriminate. }
  split; [exact Hnull|]. split; [exact Hcs|].
  destruct (zlib_runs_keep_the_heap oracle_dirty Zlib.zlib_stored cs h0 Hnull Hcs)
    as (w & Hrun & _ & _ & Hu & _).
  exists w. split; [exact Hrun|]. split; [exact (proj1 (Hu 77%N [5] eq_refl))|].
  vm_compute in Hrun. injection Hrun as <-. vm_compute. reflexivity.
Defined.

End Runs.


Section EntryRuns.

Import C Frame Openssl.
Local Open Scope Z_scope.

Section Steps.

Variable h0 : gmap N (list Z).
Hypothesis Hnull : h0 !! NULL = None.

Lemma table_ok_same w w' : same_store w w' -> table_ok 4096 w -> table_ok 4096 w'.
Proof.
  intros (Hh & Hb & Hl) [T1 T2 T3 T4 T5]. constructor; rewrite ?Hh, ?Hb, ?Hl; assumption.
Qed.

Lemma table_ok_stored w w' h p b n :
  stored w w' h p b n -> table_ok 4096 w -> table_ok 4096 w'.
Proof.
  intros (Hr & Hfree & _ & Hnz & Hfresh & Hh & Hb & Hl) [T1 T2 T3 T4 T5].
  constructor; rewrite ?Hh, ?Hb, ?Hl.
  - now rewrite length_insert.
  - now rewrite length_insert.
  - intros i Hi. destruct (decide (i = Z.to_nat h)) as [-> | Hne].
    + rewrite list_lookup_insert_eq in Hi by lia. congruence.
    + rewrite list_lookup_insert_ne in Hi by congruence.
      rewrite list_lookup_insert_ne by congruence. auto.
  - intros i q Hi Hq. destruct (decide (i = Z.to_nat h)) as [-> | Hne].
    + rewrite list_lookup_insert_eq in Hi by lia. injection Hi as <-.
      rewrite lookup_insert_eq. eauto.
    + rewrite list_lookup_insert_ne in Hi by congruence.
      destruct (T4 i q Hi Hq) as [blk Hblk].
      rewrite lookup_insert_ne by (intros <-; congruence). eauto.
  - intros i j q Hi Hj Hq.
    assert (Hold : forall k, k <> Z.to_nat h -> g_bufs w !! k = Some q -> q <> p).
    { intros k _ Hk ->. destruct (T4 k p Hk Hnz) as [blk Hblk]. congruence. }
    destruct (decide (i = Z.to_nat h)) as [-> | Hni],
             (decide (j = Z.to_nat h)) as [-> | Hnj]; [reflexivity | | |].
    + rewrite list_lookup_insert_eq in Hi by lia. injection Hi as <-.
      rewrite list_lookup_insert_ne in Hj by congruence.
      exfalso. exact (Hold j Hnj Hj eq_refl).
    + rewrite list_lookup_insert_eq in Hj by lia. injection Hj as <-.
      rewrite list_lookup_insert_ne in Hi by congruence.
      exfalso. exact (Hold i Hni Hi eq_refl).
    + rewrite list_lookup_insert_ne in Hi by congruence.
      rewrite list_lookup_insert_ne in Hj by congruence. eauto.
Qed.

Local Abbreviation good w := (kept h0 w /\ lens_fit exactly w).

(** What a call does to the store: nothing, or one fresh block published
    with its size as recorded length; [buf_free] apart. *)
Lemma call_effect E L c w :
  table_ok 4096 w -> well_formed c ->
  (forall h, c <> CallBufFree h) ->
  exists w', call E L c w = Ok tt w'
    /\ (same_store w w' \/ exists h p b, stored w w' h p b (Z.of_nat (length b))).
Proof.
  intros Hok Hwf Hnf. pose proof (table_ok_shaped w Hok) as Hs.
  assert (Hthen : forall {A : Type} (m : M A),
            (exists a w1, m w = Ok a w1
               /\ (same_store w w1
                   \/ exists h p b, stored w w1 h p b (Z.of_nat (length b)))) ->
            exists w', (m;; mret tt) w = Ok tt w'
              /\ (same_store w w'
                  \/ exists h p b, stored w w' h p b (Z.of_nat (length b)))).
  { intros A m (a & w1 & Hrun & Hpost). exists w1.
    split; [rewrite (bind_ok _ _ _ _ _ Hrun); reflexivity | exact Hpost]. }
  destruct c as [len oh | pk pk_len msg msg_len sig sig_len
                 | sk sk_len msg msg_len sig sig_len | sk sk_len msg msg_len
                 | sk sk_len | h]; cbn [call well_formed] in *.
  - apply Hthen.
    destruct (rand_bytes_alloc_h w Hs E (u32 len) oh (u32_range len) w (holding_start w []))
      as (r & w1 & Hrun & Hpost).
    exists r, w1. split; [exact Hrun|].
    destruct Hpost as [[_ Hsame] | (h & p & b & _ & Hst & _)]; [left; exact Hsame|].
    right. eauto.
  - destruct Hwf as (H1 & H2 & H3 & H4). apply Hthen.
    destruct (ed25519_verify_effect E L pk (u32 pk_len) msg (u32 msg_len) sig (u32 sig_len)
                w H1 H2 H3 H4) as (r & w1 & Hrun & _ & Hsame & _).
    exists r, w1. auto.
  - destruct Hwf as (H1 & H2 & H3 & H4). apply Hthen.
    destruct (ed25519_verify_sk_effect E L sk (u32 sk_len) msg (u32 msg_len) sig
                (u32 sig_len) w H1 H2 H3 H4) as (r & w1 & Hrun & _ & Hsame & _).
    exists r, w1. auto.
  - destruct Hwf as (H1 & H3 & H4). apply Hthen.
    destruct (ed25519_sign_alloc_effect E L sk (u32 sk_len) msg (u32 msg_len) w Hs
                H1 H3 H4) as (r & w1 & Hrun & Hpost).
    exists r, w1. split; [exact Hrun|].
    destruct Hpost as [[_ Hsame] | (_ & p & key & sg & _ & _ & Hlen & Hst)];
      [left; exact Hsame|].
    right. exists r, p, (take 64 sg). rewrite Hlen. exact Hst.
  - apply Hthen.
    destruct (ed25519_pk_from_seed_alloc_effect E L sk (u32 sk_len) w Hs Hwf)
      as (r & w1 & Hrun & Hpost).
    exists r, w1. split; [exact Hrun|].
    destruct Hpost as [[_ Hsame] | (_ & p & key & pub & _ & _ & Hlen & Hst)];
      [left; exact Hsame|].
    right. exists r, p, (take 32 pub). rewrite Hlen. exact Hst.
  - destruct (Hnf h eq_refl).
Qed.

Lemma free_or_not c : (exists h, c = CallBufFree h) \/ forall h, c <> CallBufFree h.
Proof. destruct c; try (right; discriminate). left. eauto. Qed.

(** Every call keeps the table in order and the recorded lengths exact. *)
Lemma call_table E L c w :
  table_ok 4096 w -> well_formed c ->
  exists w', call E L c w = Ok tt w' /\ table_ok 4096 w'
             /\ (lens_fit exactly w -> lens_fit exactly w').
Proof.
  intros Hok Hwf. destruct (free_or_not c) as [[h ->] | Hnf].
  - cbn [call].
    destruct (buf_free_st (u32 h) (proj1 (u32_range h)) w) as ([] & w1 & Hrun & [Hok1 _] & _).
    { split; [exact Hok | apply owns_null]. }
    exists w1. split; [exact Hrun|]. split; [exact Hok1|]. intros Hfit.
    exact (lens_fit_free exactly w w1 (u32 h) Hok Hfit (proj1 (u32_range h)) Hrun).
  - destruct (call_effect E L c w Hok Hwf Hnf) as (w' & Hrun & [Hsame | (h & p & b & Hst)]).
    + exists w'. split; [exact Hrun|]. split; [exact (table_ok_same w w' Hsame Hok)|].
      exact (lens_fit_same exactly w w' Hsame).
    + exists w'. split; [exact Hrun|]. split; [exact (table_ok_stored w w' h p b _ Hst Hok)|].
      intros Hfit. exact (lens_fit_stored exactly w w' h p b _ Hok Hfit Hst eq_refl).
Qed.

Lemma call_good E L c w :
  well_formed c -> good w -> exists w', call E L c w = Ok tt w' /\ good w'.
Proof.
  intros Hwf [Hk Hfit]. pose proof Hk as (Hok & _ & _).
  destruct (call_table E L c w Hok Hwf) as (w' & Hrun & Hok' & Hfit').
  exists w'. split; [exact Hrun|]. split; [|exact (Hfit' Hfit)].
  destruct (free_or_not c) as [[h ->] | Hnf].
  - exact (kept_free h0 Hnull w w' (u32 h) (proj1 (u32_range h)) Hrun Hok' Hk).
  - destruct (call_effect E L c w Hok Hwf Hnf) as (w1 & Hrun1 & Hpost).
    rewrite Hrun in Hrun1. injection Hrun1 as <-.
    destruct Hpost as [Hsame | (h & p & b & Hst)].
    + exact (kept_same h0 w w' Hok' Hsame Hk).
    + exact (kept_stored h0 Hnull w w' h p b _ Hok' Hst Hk).
Qed.

Lemma run_entries_good E L cs :
  Forall well_formed cs ->
  forall w, good w -> exists w', run_entries E L cs w = Ok tt w' /\ good w'.
Proof.
  induction 1 as [|c cs Hc _ IH]; intros w Hg.
  - exists w. split; [reflexivity | exact Hg].
  - cbn [run_entries]. destruct (call_good E L c w Hc Hg) as (w1 & Hrun & Hg1).
    rewrite (bind_ok _ _ _ _ _ Hrun). exact (IH w1 Hg1).
Qed.

End Steps.

(** X2: the entry points of the OpenSSL shim are memory-safe in every state
    in which the table is in order, so from the zeroed statics and after
    any sequence of them.  Whatever [malloc], the generator and OpenSSL
    answer, a call to [rand_bytes_alloc], [ed25519_verify],
    [ed25519_verify_sk], [ed25519_sign_alloc], [ed25519_pk_from_seed_alloc]
    or [buf_free] with readable arguments returns: no access is out of
    bounds, no block is freed that is not live (so none twice), the slot
    scan ends.  The table it leaves is in order again, and if every
    recorded length was the size of its block, it still is. *)
Theorem openssl_calls_never_fault E L w c :
  table_ok 4096 w -> well_formed c ->
  exists w', call E L c w = Ok tt w'
             /\ table_ok 4096 w'
             /\ (lens_fit exactly w -> lens_fit exactly w').
Proof. exact (call_table E L c w). Qed.

Lemma openssl_calls_never_fault_witness :
  let c := CallEd25519SignAlloc (Some seed32) 32 (Some [1; 2; 3]) 3 in
  table_ok 4096 one_buffer /\ well_formed c
  /\ exists w', call oracle_ok evp_toy c one_buffer = Ok tt w'
                /\ table_ok 4096 w'
                /\ g_lens w' !! 2%nat = Some 64.
Proof.
  intros c.
  pose proof (openssl_reachable_ok oracle_ok one_buffer one_buffer_reachable) as Hok.
  assert (Hc : well_formed c).
  { unfold c. repeat constructor; try discriminate;
      try (intros l [= <-]; vm_compute; discriminate). }
  split; [exact Hok|]. split; [exact Hc|].
  destruct (openssl_calls_never_fault oracle_ok evp_toy one_buffer c Hok Hc)
    as (w' & Hrun & Hok' & _).
  exists w'. split; [exact Hrun|]. split; [exact Hok'|].
  vm_compute in Hrun. injection Hrun as <-. reflexivity.
Defined.

(** X28: a whole run of the OpenSSL shim through its real entry points.
    From the zeroed statics, any sequence of calls to [rand_bytes_alloc],
    [ed25519_verify], [ed25519_verify_sk], [ed25519_sign_alloc],
    [ed25519_pk_from_seed_alloc] and [buf_free], each with readable
    arguments, runs to its end without a fault, whatever [malloc], the
    random source and OpenSSL answer.  Afterwards the table is in order
    (every non-NULL slot points at a live block of its own), every slot's
    recorded length is exactly the size of its block, every block the rest
    of the process had is still there with the same bytes and named by no
    slot, and every other live block is the buffer of some slot: no key
    object, digest context or scratch buffer has leaked. *)
Theorem openssl_entry_points_keep_the_heap E L cs h0 :
  h0 !! NULL = None -> Forall well_formed cs ->
  exists w,
    run_entries E L cs (init_world 4096 h0) = Ok tt w
    /\ table_ok 4096 w /\ lens_fit exactly w
    /\ untouched h0 w /\ accounted h0 w.
Proof.
  intros Hnull Hcs.
  destruct (run_entries_good h0 Hnull E L cs Hcs (init_world 4096 h0))
    as (w & Hrun & (Hok & Hu & Ha) & Hfit).
  { split; [exact (kept_init h0 Hnull) | apply lens_fit_init]. }
  exists w. auto.
Qed.

Lemma openssl_entry_points_keep_the_heap_witness :
  let h0 : gmap N (list Z) := {[77%N := [5]]} in
  let cs := [CallEd25519PkFromSeedAlloc (Some seed32) 32;
             CallEd25519SignAlloc (Some seed32) 32 None 0;
             CallEd25519Verify (Some seed32) 32 None 0 (Some (seed32 ++ seed32)) 64;
             CallRandBytesAlloc 2 (Some 0);
             CallBufFree 1] in
  h0 !! NULL = None /\ Forall well_formed cs
  /\ exists w, run_entries oracle_ok evp_toy cs (init_world 4096 h0) = Ok tt w
               /\ heap w !! 77%N = Some [5]
               /\ g_bufs w !! 1%nat = Some NULL.
Proof.
  intros h0 cs.
  assert (Hnull : h0 !! NULL = None) by reflexivity.
  assert (Hcs : Forall well_formed cs).
  { unfold cs. repeat constructor; try discriminate;
      try (intros l [= <-]; vm_compute; discriminate); try (intros _; reflexivity). }
  split; [exact Hnull|]. split; [exact Hcs|].
  destruct (openssl_entry_points_keep_the_heap oracle_ok evp_toy cs h0 Hnull Hcs)
    as (w & Hrun & _ & _ & Hu & _).
  exists w. split; [exact Hrun|]. split; [exact (proj1 (Hu 77%N [5] eq_refl))|].
  vm_compute in Hrun. injection Hrun as <-. reflexivity.
Defined.

End EntryRuns.
